(* ===== verification/_CoqProject ===== *)
-Q . S2P
Prelude.v
HexTest.v
RegFields.v
TlbHw.v
Tlb.v
Mmu.v
MmuTests.v
MmuTyped.v
MmuMem.v
MmuLayout.v
MmuPageSize.v
MmuPermissions.v
MmuSpaces.v
MmuAsids.v
MmuMultiTlb.v
MmuCacheOps.v
ByteMem.v
HvxVec.v
HvxRef.v
HvxMisc.v
HvxMiscRules.v
HvxMiscTests.v
HvxMiscCond.v
HvxMiscMoves.v
HvxMiscInit.v
HvxMiscMain.v
HvxMulti.v
ExcTests.v
ExcRules.v
ScatterGather.v
ScatterMem.v
ScatterRun.v
ScatterKinds.v
ScatterMain.v
MinLibc.v
LibcHost.v
LibcPrintf.v
LibcArgs.v
Threads.v
ThreadLogic.v
ThreadCommon.v
ThreadSim.v
Fairness.v
TwoThreads.v
ThreadLive.v
LockTests.v
ThreadScheduling.v
ThreadTest.v
LockVerify.v
LockVerifyInv.v
LockVerifyRules.v
LockVerifyMain.v
LockVerifyTests.v
LockVerifySafe.v
Atomics.v
AtomicsInv.v
AtomicsRules.v
AtomicsMain.v
AtomicsSafe.v
FileMem.v
FileSpec.v
FileRefine.v
FileCalls.v
