(* ===== verification/Prelude.v ===== *)
(** Verification of the standalone system tests of the Hexagon testing
    repository (src/standalone_systests), in C: test programs that run on a bare
    Hexagon processor or its emulator, and the small runtime they are linked
    with.

    * The program

    A test program is a [main] that drives some part of the processor (the
    TLB, the locks, vector scatter and gather, ...), compares what it reads back
    with what it expects through the macros of include/hex_test.h, which count
    the differences in [err] and print a line each, and returns [err].  The
    programs share headers of helpers (include/mmu.h, include/thread_common.h,
    include/interrupts.h, include/util.h) and the runtime under crt0/: startup
    and exception vectors in assembly (crt0_standalone.S), TLB management
    (tlb.c) and a C library (min_libc.c) on the host's semihosting trap.

    What a test means to establish is about the processor; what can be wrong in
    the test itself is its code.  So the processor is an interface here: a class
    with the operations of its instructions and a class with the laws the
    architecture documents of them.  The central theorems say that a test
    passes on every processor that keeps the laws: it does nothing undefined,
    no check of it fails, and it returns 0.  Each class has an instance on which
    the programs are run and the theorems instantiated.

    * How code is modelled

    Sequential C is a function in the program monad of this file,
    [prog S A = S -> outcome S A]: the state is a record of the variables and
    registers the code touches, and an outcome is a value and a state
    ([Done]), the end of the process ([Exited]), undefined behaviour ([Undef]:
    an access out of bounds, a signed overflow, an overlapping memcpy), or a
    loop out of fuel ([NoFuel]).  [wp] and [spec] are its total-correctness
    predicates: they exclude [Undef] and [NoFuel].  Integers are [Z] with the
    wrap-around of their C type written out ([uwrap], [swrap]); bit fields are
    [extract] and [insert_bits].  Concurrent C is a term of [Threads.proc], in
    which each access to a shared variable is one instruction, run by the
    interleaving semantics [Threads.step].

    * The files

    Prelude: integers, bits, lists indexed by C integers, the program monad,
    its loops and its rules, and the tactics [split_cmp] and [simpl_bool].
    HexTest: include/hex_test.h.  [test_state] is [err] with the lines printed.

    The MMU.
    - RegFields: the register field table (include/reg_fields_def.h), the
      GET_FIELD and SET_FIELD macros and the TLBEntry bit-field struct.
    - TlbHw: the state [sys] under the MMU code (TLB, registers, software page
      table) and the associative instructions ([TlbSearch], [TlbSearchLaws];
      instance [ArrayTlb]).
    - Tlb: crt0/tlb.c.  Mmu: the helpers and handlers of include/mmu.h.
    - MmuTyped: the width of every value these operations store.
    - MmuMem: accesses of a program to memory through the TLB, the exceptions
      they raise, the vector tables, the handlers a test binds, and the
      runtime's refill handlers of crt0_standalone.S ([MmuHw], [MmuHwLaws]).
    - MmuLayout, MmuSpaces: the TLB a test finds and changes, page by page and
      address space by address space.
    - MmuTests, MmuPageSize, MmuPermissions, MmuAsids, MmuMultiTlb,
      MmuCacheOps: src/mmu_overlap.c and the other tests of those names.

    HVX instructions (src/hvx_misc.c, include/hvx_misc.h, include/v6mpy_ref.h).
    - HvxVec: vectors as strings of bytes, their elements and lane-wise
      operations.  HvxRef: the reference table.  HvxMisc: the program; a block
      of assembly is a list of packets of instructions, and [packet] passes
      loads and results on within a packet ([Cur], [Tmp], [StVnew]).  The
      integer instructions are definitions, those on floating point numbers and
      the matrix multiplication a class ([HvxData], [HvxDataLaws]).
    - HvxMiscRules: the state between tests ([ok]), row by row, and the rules of
      blocks, loops and comparisons.  HvxMiscTests, HvxMiscCond, HvxMiscMoves: the
      tests one by one.  HvxMiscInit: the inputs.  HvxMiscMain: the sequence of
      the tests, a processor.
      The 32-bit sums of the C side wrap around, as the compiled code does.

    HVX scatter and gather (src/standalone_vec.c).
    - ByteMem: byte memory.  ScatterGather: the program, over the vector
      instructions ([Hvx], [HvxLaws]: lanes in any order).  ScatterMem: lanes
      that do not overlap act like a loop.  ScatterRun: scalar loops and
      comparisons, once for a kind of element ([kind_ok], [vec_laws]).
      ScatterKinds: the three kinds.  ScatterMain: tables, addresses, [main].

    The C library (crt0/min_libc.c).
    - MinLibc: the functions, over the semihosting trap ([Semihost],
      [SemihostLaws]), and the memory and string functions verified.
      LibcHost: a host.  LibcPrintf: numbers and printf.  LibcArgs: the command
      line.

    Threads.
    - Threads: programs of threads, the processor ([Cpu], [CpuLaws]: locks,
      reservations, interrupts, clock, allocator), one instruction, and the steps
      of a pool of threads that take interrupts between any two instructions.
    - ThreadLogic: a program logic.  Each thread owns a ghost value; a global
      invariant ties the machine to all ghosts; a program verified instruction
      by instruction ([wpt]) keeps the invariant in every interleaving.
    - ThreadCommon: src/thread_common.c and its headers, and what they promise a
      client with an invariant of its own ([client_ok], [client_adequate]).
    - ThreadSim: a processor ([SimCpu]).  ThreadTest: the check macros as
      instructions.
    - Fairness: fair schedules and the rule of the helpful thread.  TwoThreads: a
      thread and the one it starts.  ThreadLive: thread_run_blocked completes.
    - LockTests: src/k0lock.c, src/tlblock.c, src/k0locklock.c and
      src/tlblocklock.c.  ThreadScheduling: src/thread_scheduling.c.
    - LockVerify, LockVerifyInv, LockVerifyRules, LockVerifyMain,
      LockVerifyTests, LockVerifySafe: src/lock_verify.c, its invariant, the
      rule of each instruction, its thread functions, its tests, the theorem.
    - Atomics, AtomicsInv, AtomicsRules, AtomicsMain, AtomicsSafe:
      src/sys_atomics.c in the same order.

    In-memory files (src/util.c).
    - FileMem: the code.  FileSpec: files as strings of bytes with a position,
      and the relation to descriptors, buffers and heap.  FileRefine, FileCalls:
      the refinement, call by call ([Allocator], [AllocatorLaws]; instance
      [SimFiles]).

    * What the theorems show

    - Whole programs: [lock_verify_safe] and [sys_atomics_safe] in every
      interleaving; [standalone_vec_passes], [hvx_misc_passes], [mmu_overlap_passes],
      [mmu_page_size_passes], [mmu_permissions_passes], [mmu_asids_passes],
      [mmu_multi_tlb_passes] and [mmu_cacheops_passes] on every lawful processor.
    - Progress: [thread_run_blocked_completes], [lock_tests_end] and
      [thread_scheduling_ends] under fair schedules, and the opposite in
      [lock_twice_never_returns];
      [replay_access_completes] and [pcycle_pause_waits] for loops that wait on
      the hardware.
    - Vector code against scalar code, on any data:
      [hvx_integer_tests_any_input].
    - Refinement: [vector_refines_scalar], [file_calls_refine], [printf_spec]
      (printf against a parser of its format).
    - Invariants and widths: [add_translation_installs], [mmu_ops_typed].
    - Functional behaviour, error branches included, of each library function:
      the theorems of Tlb, Mmu, MinLibc, LibcPrintf and LibcArgs; formats and
      encodings as round trips ([extended_entry_decodes],
      [create_mmu_entry_decodes], [num_to_s_spec]).

    * Bounds and fuel

    Loops whose bound the code states run on it ([for_], [for_range]).  The others
    run on fuel, and each theorem asks for enough: more than 64 rounds for
    num_to_s and printf (a 64-bit number has at most 20 digits, a conversion
    prefix 6 characters), more than the length of the command line for
    getcmdline, one round more than the missing permissions for a replayed
    access, as many rounds as cycles for pcycle_pause, five for find_free over
    four descriptors.  A processor access is replayed at most as often as its
    handlers have something to install.  Threads need none: a loop is a
    constructor of [proc] that steps.

    * Not modelled

    The startup code and the register saves of crt0_standalone.S, whose effect
    is the boot state the theorems assume; INSTALL_ERR_HANDLER and the debug dump
    of mmu.h; the stacks of threads, and memory ordering weaker than
    interleaving (a Hexagon thread sees its own and others' accesses in order);
    the tests of units the repository only names by number (PMU and pcycle event
    counts, L2VIC, QTimer, HMX, IEEE and qfloat tests, whose expected values are tables
    of the emulator, not computed by the code), and of wait, resume, start and
    nested interrupts, whose timing is the hardware's; valign4 and its test in
    hvx_misc.c, of builds for version 81 on; the programs under
    hexagon-arch-tests (Rust), the scripts of verif-hexagon (Python) and the
    examples. *)

(** This file: shared definitions and automation: C integers at their width,
    bit fields, lists indexed by C integers, and the program monad with its
    total-correctness predicate [spec].  Every other file requires it. *)

From stdpp Require Export base tactics numbers list gmap strings.
From Stdlib Require Export ZArith Lia.

Open Scope Z_scope.

(* ------------------------------------------------------------------ *)
(** ** Machine integers *)

(** A [w]-bit unsigned value is a [Z] in [0, 2^w); [uwrap] is the conversion
    C performs when a wider value is stored in it. *)
Definition uwrap (w z : Z) : Z := z mod 2 ^ w.

(** A [w]-bit two's complement value. *)
Definition swrap (w z : Z) : Z := (z + 2 ^ (w - 1)) mod 2 ^ w - 2 ^ (w - 1).

Abbreviation u8 := (uwrap 8).
Abbreviation u16 := (uwrap 16).
Abbreviation u32 := (uwrap 32).
Abbreviation u64 := (uwrap 64).
Abbreviation s32 := (swrap 32).

Definition in_u (w z : Z) : Prop := 0 <= z < 2 ^ w.

(** C truth value of an integer. *)
Definition truth (z : Z) : bool := negb (z =? 0).

(** [~z] at width [w]. *)
Definition unot (w z : Z) : Z := uwrap w (Z.lnot z).

Create HintDb cint.
Create Rewrite HintDb cint_rw.

Lemma uwrap_range w z : 0 <= w -> in_u w (uwrap w z).
Proof. intros. apply Z.mod_pos_bound. lia. Qed.

Lemma uwrap_id w z : in_u w z -> uwrap w z = z.
Proof. intros [??]. by apply Z.mod_small. Qed.

Lemma uwrap_uwrap w z : 0 <= w -> uwrap w (uwrap w z) = uwrap w z.
Proof. intros. by apply uwrap_id, uwrap_range. Qed.

Lemma uwrap_add_l w a b : 0 <= w -> uwrap w (uwrap w a + b) = uwrap w (a + b).
Proof. intros. unfold uwrap. by rewrite Zplus_mod_idemp_l. Qed.

Lemma uwrap_add_r w a b : 0 <= w -> uwrap w (a + uwrap w b) = uwrap w (a + b).
Proof. intros. unfold uwrap. by rewrite Zplus_mod_idemp_r. Qed.

Lemma swrap_id w z : 0 < w -> - 2 ^ (w - 1) <= z < 2 ^ (w - 1) -> swrap w z = z.
Proof.
  intros Hw Hz. unfold swrap.
  assert (2 ^ w = 2 * 2 ^ (w - 1)) as ->.
  { rewrite <- Z.pow_succ_r by lia. f_equal. lia. }
  rewrite Z.mod_small; lia.
Qed.

Lemma swrap_range w z : 0 < w -> - 2 ^ (w - 1) <= swrap w z < 2 ^ (w - 1).
Proof.
  intros Hw. unfold swrap.
  assert (2 ^ w = 2 * 2 ^ (w - 1)) as ->.
  { rewrite <- Z.pow_succ_r by lia. f_equal. lia. }
  pose proof (Z.mod_pos_bound (z + 2 ^ (w - 1)) (2 * 2 ^ (w - 1))). lia.
Qed.

#[export] Hint Resolve uwrap_range : cint.
#[export] Hint Rewrite uwrap_uwrap using lia : cint_rw.

(** Bits of a value that fits [w] bits vanish from [w] on. *)
Lemma testbit_in_u w z i : in_u w z -> w <= i -> Z.testbit z i = false.
Proof.
  intros [H0 H1] Hi. destruct (Z.le_gt_cases 0 w).
  - rewrite <- (Z.mod_small z (2 ^ w)) by lia. apply Z.mod_pow2_bits_high. lia.
  - rewrite Z.pow_neg_r in H1 by lia. lia.
Qed.

Lemma in_u_testbit w z :
  0 <= w -> 0 <= z -> (forall i, w <= i -> Z.testbit z i = false) -> in_u w z.
Proof.
  intros Hw Hz Hb. split; [done|].
  destruct (decide (z = 0)) as [->|]; [lia|].
  apply Z.log2_lt_pow2; [lia|].
  destruct (Z.lt_ge_cases (Z.log2 z) w) as [|Hge]; [done|].
  specialize (Hb _ Hge). rewrite Z.bit_log2 in Hb by lia. done.
Qed.

Lemma in_u_mono w w' z : in_u w z -> w <= w' -> 0 <= w -> in_u w' z.
Proof.
  intros [??] ??. split; [done|].
  eapply Z.lt_le_trans; [done|]. apply Z.pow_le_mono_r; lia.
Qed.

Lemma in_u_lor w a b : 0 <= w -> in_u w a -> in_u w b -> in_u w (Z.lor a b).
Proof.
  intros Hw Ha Hb. apply in_u_testbit; [done| |].
  - apply Z.lor_nonneg. split; [apply Ha|apply Hb].
  - intros i Hi. rewrite Z.lor_spec, (testbit_in_u w a), (testbit_in_u w b) by done.
    done.
Qed.

Lemma in_u_land_r w a b : 0 <= w -> in_u w b -> in_u w (Z.land a b).
Proof.
  intros Hw Hb. apply in_u_testbit; [done| |].
  - apply Z.land_nonneg. right. apply Hb.
  - intros i Hi. rewrite Z.land_spec, (testbit_in_u w b) by done. by rewrite andb_false_r.
Qed.

Lemma in_u_shiftl w n z : 0 <= n -> 0 <= w -> in_u w z -> in_u (w + n) (Z.shiftl z n).
Proof.
  intros Hn Hw [H0 H1]. rewrite Z.shiftl_mul_pow2 by lia. split; [lia|].
  rewrite Z.pow_add_r by lia. nia.
Qed.

Lemma in_u_shiftr w n z : 0 <= n -> 0 <= w - n -> in_u w z -> in_u (w - n) (Z.shiftr z n).
Proof.
  intros Hn Hw [H0 H1]. rewrite Z.shiftr_div_pow2 by lia. split.
  - apply Z.div_pos; lia.
  - apply Z.div_lt_upper_bound; [lia|].
    rewrite <- Z.pow_add_r by lia. by replace (n + (w - n)) with w by lia.
Qed.

(* ------------------------------------------------------------------ *)
(** ** Bit fields *)

(** [extract e off w] reads the [w]-bit field of [e] at bit [off];
    [insert_bits W e off w v] stores the low [w] bits of [v] there in a
    [W]-bit register. *)
Definition extract (e off w : Z) : Z := Z.land (Z.shiftr e off) (Z.ones w).

Definition insert_bits (W e off w v : Z) : Z :=
  uwrap W (Z.lor (Z.land e (Z.lnot (Z.shiftl (Z.ones w) off)))
                 (Z.shiftl (Z.land v (Z.ones w)) off)).

Lemma testbit_uwrap w z i :
  0 <= w -> Z.testbit (uwrap w z) i = (i <? w) && Z.testbit z i.
Proof.
  intros Hw. unfold uwrap. destruct (Z.ltb_spec i w); simpl.
  - destruct (Z.le_gt_cases 0 i).
    + apply Z.mod_pow2_bits_low. lia.
    + by rewrite !Z.testbit_neg_r by lia.
  - apply Z.mod_pow2_bits_high. lia.
Qed.

Lemma testbit_ones w i : 0 <= w -> Z.testbit (Z.ones w) i = (0 <=? i) && (i <? w).
Proof. intros. by rewrite Z.testbit_ones. Qed.

Lemma testbit_shiftl z n i :
  Z.testbit (Z.shiftl z n) i = (0 <=? i) && Z.testbit z (i - n).
Proof.
  destruct (Z.leb_spec 0 i); simpl.
  - by apply Z.shiftl_spec.
  - by apply Z.testbit_neg_r.
Qed.

Lemma testbit_shiftr z n i :
  Z.testbit (Z.shiftr z n) i = (0 <=? i) && Z.testbit z (i + n).
Proof.
  destruct (Z.leb_spec 0 i); simpl.
  - by apply Z.shiftr_spec.
  - by apply Z.testbit_neg_r.
Qed.

Lemma testbit_lnot z i : Z.testbit (Z.lnot z) i = (0 <=? i) && negb (Z.testbit z i).
Proof.
  destruct (Z.leb_spec 0 i); simpl.
  - by apply Z.lnot_spec.
  - by apply Z.testbit_neg_r.
Qed.

Create Rewrite HintDb bits.
#[export] Hint Rewrite Z.lor_spec Z.land_spec Z.lxor_spec testbit_shiftl testbit_shiftr
  testbit_lnot : bits.
#[export] Hint Rewrite testbit_uwrap testbit_ones using lia : bits.

(** Splits on every integer comparison of the goal, keeping only the
    consistent cases. *)
Ltac split_cmp :=
  repeat match goal with
  | |- context [?a <? ?b] => destruct (Z.ltb_spec a b)
  | |- context [?a <=? ?b] => destruct (Z.leb_spec a b)
  | |- context [?a =? ?b] => destruct (Z.eqb_spec a b)
  end; try (exfalso; lia).

Ltac simpl_bool :=
  cbn [andb orb negb];
  rewrite ?andb_true_r, ?andb_false_r, ?orb_false_r, ?orb_true_r, ?orb_false_l, ?andb_true_l.

(** Proves an equation between integers bit by bit. *)
Ltac bitwise :=
  apply Z.bits_inj'; let i := fresh "i" in let Hi := fresh "Hi" in
  intros i Hi; autorewrite with bits; split_cmp; simpl_bool.

(** Reads of bits beyond the width of a value known to fit it. *)
Ltac high_bits :=
  repeat match goal with
  | H : in_u ?w ?z |- context [Z.testbit ?z ?i] =>
      rewrite (testbit_in_u w z i H) by lia; simpl_bool
  end.

Section fields.
Context (W e : Z) (HW : 0 <= W).

Lemma extract_range off w : 0 <= w -> in_u w (extract e off w).
Proof.
  intros. unfold extract. apply in_u_land_r; [done|].
  rewrite Z.ones_equiv. unfold in_u. lia.
Qed.

Lemma insert_bits_range off w v : in_u W (insert_bits W e off w v).
Proof. unfold insert_bits. auto with cint. Qed.

Lemma testbit_extract off w i :
  0 <= w -> 0 <= off ->
  Z.testbit (extract e off w) i = (0 <=? i) && (i <? w) && Z.testbit e (i + off).
Proof.
  intros. unfold extract. autorewrite with bits. split_cmp; by simpl_bool.
Qed.

Lemma testbit_insert_bits off w v i :
  0 <= w -> 0 <= off -> off + w <= W ->
  Z.testbit (insert_bits W e off w v) i =
    if (off <=? i) && (i <? off + w) then Z.testbit v (i - off)
    else (i <? W) && Z.testbit e i.
Proof.
  intros. unfold insert_bits. autorewrite with bits.
  destruct (Z.leb_spec 0 i).
  - split_cmp; simpl_bool; done.
  - rewrite !(Z.testbit_neg_r _ i) by lia. split_cmp; by simpl_bool.
Qed.

(** Reading back a field just written gives the low bits of the value. *)
Lemma extract_insert_same off w v :
  0 <= w -> 0 <= off -> off + w <= W ->
  extract (insert_bits W e off w v) off w = uwrap w v.
Proof.
  intros. apply Z.bits_inj'. intros i Hi.
  unfold extract. autorewrite with bits. rewrite testbit_insert_bits by lia.
  replace (i + off - off) with i by lia. split_cmp; by simpl_bool.
Qed.

(** Writing a field leaves every disjoint field alone. *)
Lemma extract_insert_other off w v off' w' :
  0 <= w -> 0 <= off -> off + w <= W ->
  0 <= w' -> 0 <= off' -> off' + w' <= W ->
  off + w <= off' \/ off' + w' <= off ->
  extract (insert_bits W e off w v) off' w' = extract e off' w'.
Proof.
  intros. apply Z.bits_inj'. intros i Hi.
  unfold extract. autorewrite with bits. rewrite testbit_insert_bits by lia.
  split_cmp; by simpl_bool.
Qed.
(** A read inside the field just written sees the bits of the value. *)
Lemma extract_insert_sub off w v off' w' :
  0 <= off -> off + w <= W -> 0 <= w' -> off <= off' -> off' + w' <= off + w ->
  extract (insert_bits W e off w v) off' w' = extract v (off' - off) w'.
Proof.
  intros. apply Z.bits_inj'. intros i Hi.
  unfold extract. autorewrite with bits. rewrite testbit_insert_bits by lia.
  split_cmp; simpl_bool; f_equal; lia.
Qed.
End fields.

#[export] Hint Rewrite testbit_extract testbit_insert_bits using lia : bits.

(** Reads of fields through a chain of field writes. *)
Create Rewrite HintDb fields.
#[export] Hint Rewrite Z.sub_diag extract_insert_other extract_insert_sub using lia : fields.

Lemma extract_small e w : in_u w e -> 0 <= w -> extract e 0 w = e.
Proof.
  intros He Hw. apply Z.bits_inj'. intros i Hi.
  rewrite testbit_extract by lia. rewrite Z.add_0_r.
  destruct (Z.ltb_spec i w); destruct (Z.leb_spec 0 i); simpl; try done; try lia.
  by rewrite (testbit_in_u w e).
Qed.

(** A chain of two extractions reads the inner field. *)
Lemma extract_extract e off w off' w' :
  0 <= off -> 0 <= off' -> 0 <= w' -> off' + w' <= w ->
  extract (extract e off w) off' w' = extract e (off + off') w'.
Proof.
  intros. apply Z.bits_inj'. intros i Hi. autorewrite with bits.
  split_cmp; simpl_bool; try done. f_equal. lia.
Qed.

Lemma extract_lor a b off w : extract (Z.lor a b) off w = Z.lor (extract a off w) (extract b off w).
Proof. unfold extract. by rewrite Z.shiftr_lor, Z.land_lor_distr_l. Qed.

Lemma extract_shiftl_same v off w :
  0 <= off -> 0 <= w -> extract (Z.shiftl v off) off w = uwrap w v.
Proof.
  intros. unfold extract. rewrite Z.shiftr_shiftl_l by lia.
  replace (off - off) with 0 by lia. rewrite Z.shiftl_0_r. by apply Z.land_ones.
Qed.

(** A value that fits [n] bits, shifted to [s], is invisible to a field that
    starts at or after [s + n]. *)
Lemma extract_shiftl_below v s n off w :
  in_u n v -> 0 <= s -> 0 <= n -> s + n <= off -> 0 <= w ->
  extract (Z.shiftl v s) off w = 0.
Proof.
  intros. apply Z.bits_inj'. intros i Hi. unfold extract. autorewrite with bits.
  rewrite Z.bits_0, (testbit_in_u n v) by (done || lia). by simpl_bool.
Qed.

Lemma extract_shiftl_above v s off w :
  0 <= off -> 0 <= w -> off + w <= s -> extract (Z.shiftl v s) off w = 0.
Proof.
  intros. apply Z.bits_inj'. intros i Hi. unfold extract. autorewrite with bits.
  rewrite Z.bits_0. split_cmp; simpl_bool; try done.
  by rewrite Z.testbit_neg_r by lia.
Qed.

Lemma extract_land_ones v n off w :
  0 <= off -> 0 <= w -> off + w <= n -> extract (Z.land v (Z.ones n)) off w = extract v off w.
Proof.
  intros. apply Z.bits_inj'. intros i Hi. unfold extract. autorewrite with bits.
  split_cmp; by simpl_bool.
Qed.

Lemma extract_shiftr v n off w :
  0 <= n -> 0 <= off -> extract (Z.shiftr v n) off w = extract v (n + off) w.
Proof. intros. unfold extract. by rewrite Z.shiftr_shiftr by lia. Qed.

Lemma uwrap_extract w v : 0 <= w -> uwrap w v = extract v 0 w.
Proof. intros. unfold extract, uwrap. by rewrite Z.shiftr_0_r, Z.land_ones. Qed.

Lemma extract_uwrap n v off w :
  0 <= off -> 0 <= w -> off + w <= n -> extract (uwrap n v) off w = extract v off w.
Proof. intros. unfold uwrap. rewrite <- Z.land_ones by lia. by apply extract_land_ones. Qed.

Lemma extract_0_l off w : 0 <= w -> extract 0 off w = 0.
Proof. intros. unfold extract. by rewrite Z.shiftr_0_l. Qed.

(** Zero beyond the width of the value. *)
Lemma extract_high n v off w : in_u n v -> n <= off -> 0 <= off -> 0 <= w -> extract v off w = 0.
Proof.
  intros. apply Z.bits_inj'. intros i Hi. unfold extract. autorewrite with bits.
  rewrite Z.bits_0, (testbit_in_u n v) by (done || lia). by simpl_bool.
Qed.

(* ------------------------------------------------------------------ *)
(** ** Lists indexed by C integers *)

(** Reading out of range has no value: the caller turns it into undefined
    behaviour. *)
Definition lookupZ {A} (l : list A) (i : Z) : option A :=
  if 0 <=? i then l !! Z.to_nat i else None.

Definition insertZ {A} (l : list A) (i : Z) (x : A) : option (list A) :=
  if (0 <=? i) && (i <? Z.of_nat (length l)) then Some (<[Z.to_nat i := x]> l) else None.

Lemma lookupZ_spec {A} (l : list A) i : 0 <= i -> lookupZ l i = l !! Z.to_nat i.
Proof. intros. unfold lookupZ. by rewrite (proj2 (Z.leb_le 0 i)). Qed.

Lemma lookupZ_is_Some {A} (l : list A) i :
  is_Some (lookupZ l i) <-> 0 <= i < Z.of_nat (length l).
Proof.
  unfold lookupZ. destruct (Z.leb_spec 0 i).
  - rewrite lookup_lt_is_Some. lia.
  - split; [intros [? [=]]|lia].
Qed.

Lemma insertZ_spec {A} (l : list A) i x :
  0 <= i < Z.of_nat (length l) -> insertZ l i x = Some (<[Z.to_nat i := x]> l).
Proof. intros. unfold insertZ. split_cmp. done. Qed.

Lemma insertZ_Some {A} (l l' : list A) i x :
  insertZ l i x = Some l' <->
  0 <= i < Z.of_nat (length l) /\ l' = <[Z.to_nat i := x]> l.
Proof.
  unfold insertZ. split_cmp; simpl; (split; [intros [=]|intros [? ->]]); subst; (done || lia).
Qed.

Lemma lookupZ_insertZ_eq {A} (l l' : list A) i x :
  insertZ l i x = Some l' -> lookupZ l' i = Some x.
Proof.
  intros [? ->]%insertZ_Some. rewrite lookupZ_spec by lia.
  apply list_lookup_insert_eq. lia.
Qed.

Lemma lookupZ_insertZ_ne {A} (l l' : list A) i j x :
  insertZ l i x = Some l' -> i <> j -> lookupZ l' j = lookupZ l j.
Proof.
  intros [? ->]%insertZ_Some ?. unfold lookupZ. split_cmp; [|done].
  apply list_lookup_insert_ne. lia.
Qed.

Lemma insertZ_length {A} (l l' : list A) i x :
  insertZ l i x = Some l' -> length l' = length l.
Proof. intros [? ->]%insertZ_Some. apply length_insert. Qed.

(** Writing back a changed element. *)
Lemma insert_as_alter {A} (f : A -> A) (l : list A) i e :
  l !! i = Some e -> <[i := f e]> l = alter f i l.
Proof.
  intros He. apply list_eq. intros j. destruct (decide (j = i)) as [->|].
  - rewrite list_lookup_alter_eq, He. apply list_lookup_insert_eq. by eapply lookup_lt_Some.
  - by rewrite list_lookup_insert_ne, list_lookup_alter_ne.
Qed.

(* ------------------------------------------------------------------ *)
(** ** The program monad *)

(** What running a piece of C does: it finishes with a value, ends the process
    with an exit code, has undefined behaviour (an access out of bounds, ...)
    or does not finish within the fuel given to its loops. *)
Inductive outcome (S A : Type) : Type :=
  | Done (a : A) (s : S)
  | Exited (code : Z) (s : S)
  | Undef
  | NoFuel.
Arguments Done {S A}.
Arguments Exited {S A}.
Arguments Undef {S A}.
Arguments NoFuel {S A}.

Definition prog (S A : Type) : Type := S -> outcome S A.

#[export] Instance prog_ret S : MRet (prog S) := fun A a s => Done a s.

#[export] Instance prog_bind S : MBind (prog S) := fun A B k m s =>
  match m s with
  | Done a s' => k a s'
  | Exited c s' => Exited c s'
  | Undef => Undef
  | NoFuel => NoFuel
  end.

Section prog_ops.
Context {S : Type}.

Definition get : prog S S := fun s => Done s s.
Definition gets {A} (f : S -> A) : prog S A := fun s => Done (f s) s.
Definition modify (f : S -> S) : prog S () := fun s => Done tt (f s).
Definition exit_with {A} (c : Z) : prog S A := fun s => Exited c s.
Definition undef {A} : prog S A := fun _ => Undef.
(** A partial operation: no value is undefined behaviour. *)
Definition of_option {A} (o : option A) : prog S A :=
  match o with Some a => mret a | None => undef end.

(** [assert(b)]: a failed assertion ends the process with status 1. *)
Definition cassert (b : bool) : prog S () := if b then mret tt else exit_with 1.

Fixpoint for_up (n : nat) (i : Z) (body : Z -> prog S ()) : prog S () :=
  match n with
  | O => mret tt
  | Datatypes.S n => body i ;; for_up n (i + 1) body
  end.

(** [for (i = lo; i < hi; i++) body], no [break] in [body]. *)
Definition for_ (lo hi : Z) (body : Z -> prog S ()) : prog S () :=
  for_up (Z.to_nat (hi - lo)) lo body.

(** A counted loop that also carries a local variable from one round to the
    next. *)
Fixpoint for_acc_up {A} (n : nat) (i : Z) (body : Z -> A -> prog S A) (a : A) : prog S A :=
  match n with
  | O => mret a
  | Datatypes.S n => a' ← body i a; for_acc_up n (i + 1) body a'
  end.

Definition for_acc {A} (lo hi : Z) (body : Z -> A -> prog S A) (a : A) : prog S A :=
  for_acc_up (Z.to_nat (hi - lo)) lo body a.

(** A loop with arbitrary exits: [inl] goes round again, [inr] leaves. *)
Fixpoint iter {A R} (fuel : nat) (body : A -> prog S (A + R)) (a : A) : prog S R :=
  match fuel with
  | O => fun _ => NoFuel
  | Datatypes.S f => r ← body a;
      match r with inl a' => iter f body a' | inr r => mret r end
  end.
End prog_ops.

(** A loop that goes round [n] times through known states and then leaves. *)
Lemma iter_run {S A R} (body : A -> prog S (A + R)) (a : nat -> A) (st : nat -> S) fuel n r s' :
  (n < fuel)%nat ->
  (forall i, (i < n)%nat -> body (a i) (st i) = Done (inl (a (Datatypes.S i))) (st (Datatypes.S i))) ->
  body (a n) (st n) = Done (inr r) s' ->
  iter fuel body (a 0%nat) (st 0%nat) = Done r s'.
Proof.
  intros Hf Hi Hn.
  assert (forall k f, (k <= n)%nat -> (k < f)%nat -> iter f body (a (n - k)%nat) (st (n - k)%nat) = Done r s')
    as H; [|rewrite <- (Nat.sub_diag n); apply H; lia].
  induction k as [|k IH]; intros [|f] Hk Hf'; try lia; cbn [iter]; unfold mbind, prog_bind.
  - by rewrite Nat.sub_0_r, Hn.
  - rewrite Hi by lia. replace (Datatypes.S (n - Datatypes.S k)) with (n - k)%nat by lia.
    apply IH; lia.
Qed.

(** One round of a loop. *)
Lemma iter_inl {S A R} n (body : A -> prog S (A + R)) a a' s s' :
  body a s = Done (inl a') s' -> iter (Datatypes.S n) body a s = iter n body a' s'.
Proof. cbn [iter]. unfold mbind, prog_bind. by intros ->. Qed.

Lemma iter_inr {S A R} n (body : A -> prog S (A + R)) a r s s' :
  body a s = Done (inr r) s' -> iter (Datatypes.S n) body a s = Done r s'.
Proof. cbn [iter]. unfold mbind, prog_bind. by intros ->. Qed.

(** Running the first part of a sequence. *)
Lemma bind_done {S A B} (m : prog S A) (k : A -> prog S B) s a s' :
  m s = Done a s' -> (m ≫= k) s = k a s'.
Proof. unfold mbind, prog_bind. by intros ->. Qed.

(** Runs the first statement of a program by an equation for it. *)
Tactic Notation "next_step" uconstr(lem) := refine (eq_trans (bind_done _ _ _ _ _ lem) _); cbv beta.

Lemma prog_bind_assoc {S A B C} (m : prog S A) (f : A -> prog S B) (g : B -> prog S C) s :
  ((m ≫= f) ≫= g) s = (m ≫= (fun x => f x ≫= g)) s.
Proof. unfold mbind, prog_bind. by destruct (m s). Qed.

(** [wp E m s Q]: from [s], [m] terminates without undefined behaviour, either
    normally in [Q] or by ending the process in [E]. *)
Definition wp {S A} (E : Z -> S -> Prop) (m : prog S A) (s : S) (Q : A -> S -> Prop) : Prop :=
  match m s with Done a s' => Q a s' | Exited c s' => E c s' | _ => False end.

(** Total correctness with no exit of the process. *)
Abbreviation spec := (wp (fun _ _ => False)).

Section wp.
Context {S : Type} (E : Z -> S -> Prop).
Implicit Types s : S.

Lemma wp_ret {A} (a : A) s (Q : A -> S -> Prop) : Q a s -> wp E (mret a) s Q.
Proof. done. Qed.

Lemma wp_bind {A B} (m : prog S A) (k : A -> prog S B) s Q :
  wp E m s (fun a s' => wp E (k a) s' Q) -> wp E (m ≫= k) s Q.
Proof. unfold wp, mbind, prog_bind. by destruct (m s). Qed.

Lemma wp_mono {A} (m : prog S A) s (Q Q' : A -> S -> Prop) :
  wp E m s Q -> (forall a s', Q a s' -> Q' a s') -> wp E m s Q'.
Proof. unfold wp. destruct (m s); auto. Qed.

Lemma wp_of_option {A} (o : option A) a s (Q : A -> S -> Prop) :
  o = Some a -> Q a s -> wp E (of_option o) s Q.
Proof. by intros ->. Qed.

Lemma wp_for_up (I : Z -> S -> Prop) n i body s (Q : () -> S -> Prop) :
  I i s ->
  (forall j s, i <= j < i + Z.of_nat n -> I j s -> wp E (body j) s (fun _ => I (j + 1))) ->
  (forall s, I (i + Z.of_nat n) s -> Q tt s) ->
  wp E (for_up n i body) s Q.
Proof.
  revert i s. induction n as [|n IH]; intros i s HI Hb HQ; cbn [for_up].
  - apply wp_ret, HQ. by rewrite Z.add_0_r.
  - apply wp_bind. eapply wp_mono; [apply Hb; [lia|done]|].
    intros [] s' HI'. apply IH; [done| |].
    + intros. apply Hb; [lia|done].
    + intros. apply HQ. by replace (i + Z.of_nat (Datatypes.S n)) with (i + 1 + Z.of_nat n) by lia.
Qed.

(** The rule of the counted loop: an invariant indexed by the counter. *)
Lemma wp_for (I : Z -> S -> Prop) lo hi body s (Q : () -> S -> Prop) :
  lo <= hi ->
  I lo s ->
  (forall j s, lo <= j < hi -> I j s -> wp E (body j) s (fun _ => I (j + 1))) ->
  (forall s, I hi s -> Q tt s) ->
  wp E (for_ lo hi body) s Q.
Proof.
  intros Hle HI Hb HQ. unfold for_. apply (wp_for_up I); [done| |].
  - intros. apply Hb; [lia|done].
  - intros. apply HQ. by replace hi with (lo + Z.of_nat (Z.to_nat (hi - lo))) by lia.
Qed.

Lemma wp_for_acc {A} (I : Z -> A -> S -> Prop) lo hi (body : Z -> A -> prog S A) a s
    (Q : A -> S -> Prop) :
  lo <= hi ->
  I lo a s ->
  (forall j a s, lo <= j < hi -> I j a s -> wp E (body j a) s (fun a' => I (j + 1) a')) ->
  (forall a s, I hi a s -> Q a s) ->
  wp E (for_acc lo hi body a) s Q.
Proof.
  intros Hle HI Hb HQ. unfold for_acc. remember (Z.to_nat (hi - lo)) as n eqn:Hn.
  revert lo a s Hle HI Hb Hn. induction n as [|n IH]; intros lo a s Hle HI Hb Hn; cbn [for_acc_up].
  - apply wp_ret, HQ. by replace hi with lo by lia.
  - apply wp_bind. eapply wp_mono; [apply Hb; [lia|done]|].
    intros a' s' HI'. apply (IH (lo + 1)); [lia|done| |lia]. intros. apply Hb; [lia|done].
Qed.

(** The rule of the general loop: an invariant and a measure that decreases
    each time round, so that fuel above the measure is enough. *)
Lemma wp_iter {A R} (I : A -> S -> Prop) (V : A -> S -> nat) fuel
    (body : A -> prog S (A + R)) a s (Q : R -> S -> Prop) :
  I a s -> (V a s < fuel)%nat ->
  (forall a s, I a s ->
     wp E (body a) s (fun r s' =>
       match r with
       | inl a' => I a' s' /\ (V a' s' < V a s)%nat
       | inr r => Q r s'
       end)) ->
  wp E (iter fuel body a) s Q.
Proof.
  intros HI HV Hb. revert a s HI HV.
  induction fuel as [|fuel IH]; intros a s HI HV; [lia|]. cbn [iter].
  apply wp_bind. eapply wp_mono; [by apply Hb|].
  intros [a'|r] s' H; [|by apply wp_ret].
  destruct H as [HI' HV']. apply IH; [done|lia].
Qed.
End wp.

(** Steps through binds and returns. *)
Ltac wp_step :=
  match goal with
  | |- wp _ (mbind _ _) _ _ => apply wp_bind
  | |- wp _ (mret _) _ _ => apply wp_ret
  | |- wp _ (of_option _) _ _ => eapply wp_of_option; [eassumption|]
  end.
