(* ===== verification/HexTest.v ===== *)
(** The check macros of [include/hex_test.h]: every test program compares
    results against expectations through them, counts the mismatches in the
    global [err] and returns [err] from [main].  A [test_state] is that counter
    with the error lines printed so far; [checks_pass] is what the programs
    promise when [main] returns 0. *)

From S2P Require Import Prelude.

(** One line printed by a failing check, with the values it shows. *)
Inductive report : Type :=
  | Rep32 (line val expect : Z)
  | Rep32_range (line val min max : Z)
  | Rep64 (line val expect : Z)
  | RepErr (filename : string) (line ret : Z)
  | RepP (line p expect : Z)
  | Rep32_ne (line val expect : Z)
  | Rep64_ne (line val expect : Z).

(** [int err], and what was printed about it, oldest first. *)
Record test_state := TestState { err : Z; reports : list report }.

Definition report_error (r : report) (t : test_state) : test_state :=
  TestState (s32 (err t + 1)) (reports t ++ [r]).

Definition __check32 (line val expect : Z) (t : test_state) : test_state :=
  if negb (val =? expect) then report_error (Rep32 line val expect) t else t.

Definition __check32_range (line val min max : Z) (t : test_state) : test_state :=
  if (val <? min) || (max <? val) then report_error (Rep32_range line val min max) t else t.

Definition __check64 (line val expect : Z) (t : test_state) : test_state :=
  if negb (val =? expect) then report_error (Rep64 line val expect) t else t.

Definition __chk_error (filename : string) (line ret : Z) (t : test_state) : test_state :=
  if ret <? 0 then report_error (RepErr filename line ret) t else t.

Definition __checkp (line p expect : Z) (t : test_state) : test_state :=
  if negb (p =? expect) then report_error (RepP line p expect) t else t.

Definition __check32_ne (line val expect : Z) (t : test_state) : test_state :=
  if val =? expect then report_error (Rep32_ne line val expect) t else t.

Definition __check64_ne (line val expect : Z) (t : test_state) : test_state :=
  if val =? expect then report_error (Rep64_ne line val expect) t else t.

(** A check as a value, so that a run of checks is a list of them. *)
Inductive check : Type :=
  | Check32 (line val expect : Z)
  | Check32_range (line val min max : Z)
  | Check64 (line val expect : Z)
  | ChkError (filename : string) (line ret : Z)
  | Checkp (line p expect : Z)
  | Check32_ne (line val expect : Z)
  | Check64_ne (line val expect : Z).

Definition run_check (c : check) : test_state -> test_state :=
  match c with
  | Check32 l v e => __check32 l v e
  | Check32_range l v a b => __check32_range l v a b
  | Check64 l v e => __check64 l v e
  | ChkError f l r => __chk_error f l r
  | Checkp l p e => __checkp l p e
  | Check32_ne l v e => __check32_ne l v e
  | Check64_ne l v e => __check64_ne l v e
  end.

(** What each check asserts of its arguments. *)
Definition check_holds (c : check) : Prop :=
  match c with
  | Check32 _ v e | Check64 _ v e | Checkp _ v e => v = e
  | Check32_range _ v a b => a <= v <= b
  | ChkError _ _ r => 0 <= r
  | Check32_ne _ v e | Check64_ne _ v e => v <> e
  end.

#[export] Instance check_holds_dec c : Decision (check_holds c).
Proof. destruct c; simpl; apply _. Defined.

Definition run_checks (cs : list check) (t : test_state) : test_state :=
  foldl (fun t c => run_check c t) t cs.

Lemma run_check_ok c t : check_holds c -> run_check c t = t.
Proof.
  destruct c; simpl;
    unfold __check32, __check32_range, __check64, __chk_error, __checkp, __check32_ne, __check64_ne;
    intros; split_cmp; simpl; try done; lia.
Qed.

Lemma run_check_bad c t : ~ check_holds c -> exists r, run_check c t = report_error r t.
Proof.
  destruct c; simpl;
    unfold __check32, __check32_range, __check64, __chk_error, __checkp, __check32_ne, __check64_ne;
    intros; split_cmp; simpl; try lia; by eexists.
Qed.

Create HintDb hextest.
#[export] Hint Resolve run_check_ok : hextest.

(** The number of failed checks. *)
Definition failures (cs : list check) : nat :=
  length (filter (fun c => ~ check_holds c) cs).

Lemma run_checks_reports cs t :
  length (reports (run_checks cs t)) = (length (reports t) + failures cs)%nat.
Proof.
  revert t. induction cs as [|c cs IH]; intros t; cbn [run_checks foldl]; [unfold failures; rewrite filter_nil; simpl; lia|].
  fold (run_checks cs (run_check c t)). rewrite IH. unfold failures.
  rewrite filter_cons. destruct (decide (check_holds c)) as [Hc|Hc].
  - rewrite run_check_ok by done. rewrite decide_False by naive_solver. done.
  - destruct (run_check_bad c t Hc) as [r ->]. rewrite decide_True by done.
    simpl. rewrite length_app. simpl. lia.
Qed.

Lemma run_checks_err cs t :
  0 <= err t -> err t + Z.of_nat (failures cs) < 2 ^ 31 ->
  err (run_checks cs t) = err t + Z.of_nat (failures cs).
Proof.
  revert t. induction cs as [|c cs IH]; intros t Ht; cbn [run_checks foldl]; unfold failures;
    rewrite ?filter_cons; [rewrite filter_nil; simpl; lia|].
  fold (run_checks cs (run_check c t)). destruct (decide (check_holds c)) as [Hc|Hc].
  - rewrite decide_False by naive_solver. intros. rewrite run_check_ok by done. by apply IH.
  - rewrite decide_True by done. simpl length. fold (failures cs). intros.
    destruct (run_check_bad c t Hc) as [r ->].
    assert (err (report_error r t) = err t + 1) as He.
    { simpl. apply swrap_id; lia. }
    rewrite IH; rewrite He; lia.
Qed.

(** [main] of a test returns 0 exactly when every check it ran held, and
    then nothing was printed; [err] is the number of failed checks. *)
Theorem checks_pass cs :
  Z.of_nat (length cs) < 2 ^ 31 ->
  let t := run_checks cs (TestState 0 []) in
  err t = Z.of_nat (length (reports t)) /\
  (err t = 0 <-> Forall check_holds cs) /\
  (err t = 0 -> reports t = []).
Proof.
  intros Hlen t.
  assert (failures cs <= length cs)%nat as Hle by apply length_filter.
  assert (err t = Z.of_nat (failures cs)) as He.
  { unfold t. rewrite run_checks_err; simpl; lia. }
  assert (length (reports t) = failures cs) as Hr by apply run_checks_reports.
  split_and!.
  - by rewrite He, Hr.
  - rewrite He. unfold failures. rewrite Forall_forall. split.
    + intros H0 c Hin. destruct (decide (check_holds c)) as [|Hn]; [done|exfalso].
      assert (length (filter (fun c => ~ check_holds c) cs) = 0%nat) as Hnil by lia.
      apply nil_length_inv in Hnil.
      assert (c ∈ filter (fun c => ~ check_holds c) cs) as Hc by (by apply list_elem_of_filter).
      rewrite Hnil in Hc. by apply not_elem_of_nil in Hc.
    + intros Hall. destruct (filter _ cs) as [|c l] eqn:Hf; [done|exfalso].
      assert (c ∈ filter (fun c => ~ check_holds c) cs) as Hc by (rewrite Hf; left).
      apply list_elem_of_filter in Hc as [Hn Hin]. by apply Hn, Hall.
  - intros H0. apply nil_length_inv. lia.
Qed.

Lemma checks_pass_witness :
  Z.of_nat 2 < 2 ^ 31 /\
  err (run_checks [Check32 1 5 5; Check32_range 2 9 0 8] (TestState 0 [])) =
    Z.of_nat (length (reports (run_checks [Check32 1 5 5; Check32_range 2 9 0 8] (TestState 0 [])))).
Proof.
  split; [lia|].
  destruct (checks_pass [Check32 1 5 5; Check32_range 2 9 0 8]) as [H _]; [simpl; lia|exact H].
Defined.
