(* ===== verification/RegFields.v ===== *)
(** Register fields: the table of [include/reg_fields_def.h], the field macros
    of [include/mmu.h] and the TLB entry bit-field struct of
    [crt0/hexagon_standalone.h].  Both describe the same 64-bit entry, and the
    lemmas at the end relate them. *)

From S2P Require Import Prelude.

(** [enum reg_fields_enum], in the order of [reg_fields_def.h]. *)
Inductive reg_fields_enum : Type :=
  | PTE_PPD | PTE_C | PTE_U | PTE_R | PTE_W | PTE_X | PTE_VPN | PTE_ASID
  | PTE_ATR0 | PTE_ATR1 | PTE_PA35 | PTE_G | PTE_V
  | SSR_CAUSE | SSR_ASID | SSR_UM | SSR_EX | SSR_IE | SSR_GM | SSR_V0 | SSR_V1
  | SSR_BVS | SSR_CE | SSR_PE | SSR_BP | SSR_XA | SSR_SS | SSR_XE.

#[export] Instance reg_fields_enum_eq_dec : EqDecision reg_fields_enum.
Proof. solve_decision. Defined.

Record reg_field_t := RegField { offset : Z; width : Z }.

Definition reg_field_info (f : reg_fields_enum) : reg_field_t :=
  match f with
  | PTE_PPD => RegField 0 24
  | PTE_C => RegField 24 4
  | PTE_U => RegField 28 1
  | PTE_R => RegField 29 1
  | PTE_W => RegField 30 1
  | PTE_X => RegField 31 1
  | PTE_VPN => RegField 32 20
  | PTE_ASID => RegField 52 7
  | PTE_ATR0 => RegField 59 1
  | PTE_ATR1 => RegField 60 1
  | PTE_PA35 => RegField 61 1
  | PTE_G => RegField 62 1
  | PTE_V => RegField 63 1
  | SSR_CAUSE => RegField 0 8
  | SSR_ASID => RegField 8 7
  | SSR_UM => RegField 16 1
  | SSR_EX => RegField 17 1
  | SSR_IE => RegField 18 1
  | SSR_GM => RegField 19 1
  | SSR_V0 => RegField 20 1
  | SSR_V1 => RegField 21 1
  | SSR_BVS => RegField 22 1
  | SSR_CE => RegField 23 1
  | SSR_PE => RegField 24 1
  | SSR_BP => RegField 25 1
  | SSR_XA => RegField 27 3
  | SSR_SS => RegField 30 1
  | SSR_XE => RegField 31 1
  end.

(** The macros.  [W] is the width of the register they are applied to. *)
Definition fZXTN (N VAL : Z) : Z := Z.land VAL (Z.shiftl 1 N - 1).
Definition fEXTRACTU_BITS (INREG WIDTH OFFSET : Z) : Z := fZXTN WIDTH (Z.shiftr INREG OFFSET).
Definition fINSERT_BITS (W REG WIDTH OFFSET INVAL : Z) : Z :=
  uwrap W (Z.lor (Z.land REG (Z.lnot (Z.shiftl (Z.shiftl 1 WIDTH - 1) OFFSET)))
                 (Z.shiftl (Z.land INVAL (Z.shiftl 1 WIDTH - 1)) OFFSET)).

Definition GET_FIELD (ENTRY : Z) (FIELD : reg_fields_enum) : Z :=
  fEXTRACTU_BITS ENTRY (width (reg_field_info FIELD)) (offset (reg_field_info FIELD)).
Definition SET_FIELD (W ENTRY : Z) (FIELD : reg_fields_enum) (VAL : Z) : Z :=
  fINSERT_BITS W ENTRY (width (reg_field_info FIELD)) (offset (reg_field_info FIELD)) VAL.

Definition GET_PPD (ENTRY : Z) : Z :=
  Z.lor (GET_FIELD ENTRY PTE_PPD)
        (Z.shiftl (GET_FIELD ENTRY PTE_PA35) (width (reg_field_info PTE_PPD))).

(** The bit-field members of [TLBEntry]. *)
Inductive TLBEntry_field : Type :=
  | S | PPN | CacheAttr | XWRU | VirtualPage | ASID | A0 | A1 | PPN_EX | EP | VG.

Definition TLBEntry_layout (f : TLBEntry_field) : reg_field_t :=
  match f with
  | S => RegField 0 1
  | PPN => RegField 1 23
  | CacheAttr => RegField 24 4
  | XWRU => RegField 28 4
  | VirtualPage => RegField 32 20
  | ASID => RegField 52 7
  | A0 => RegField 59 1
  | A1 => RegField 60 1
  | PPN_EX => RegField 59 2
  | EP => RegField 61 1
  | VG => RegField 62 2
  end.

(** [T.f] and [T.f = v]. *)
Definition get_T (T : Z) (f : TLBEntry_field) : Z :=
  extract T (offset (TLBEntry_layout f)) (width (TLBEntry_layout f)).
Definition set_T (T : Z) (f : TLBEntry_field) (v : Z) : Z :=
  insert_bits 64 T (offset (TLBEntry_layout f)) (width (TLBEntry_layout f)) v.

(* ------------------------------------------------------------------ *)

Lemma fZXTN_ones N v : fZXTN N v = Z.land v (Z.ones N).
Proof. unfold fZXTN, Z.ones. by rewrite Z.sub_1_r. Qed.

Lemma GET_FIELD_extract e f :
  GET_FIELD e f = extract e (offset (reg_field_info f)) (width (reg_field_info f)).
Proof. unfold GET_FIELD, fEXTRACTU_BITS. by rewrite fZXTN_ones. Qed.

Lemma SET_FIELD_insert W e f v :
  SET_FIELD W e f v = insert_bits W e (offset (reg_field_info f)) (width (reg_field_info f)) v.
Proof.
  unfold SET_FIELD, fINSERT_BITS, insert_bits, Z.ones. by rewrite Z.sub_1_r.
Qed.

(** The width of the register a field belongs to. *)
Definition reg_width (f : reg_fields_enum) : Z :=
  match f with
  | PTE_PPD | PTE_C | PTE_U | PTE_R | PTE_W | PTE_X | PTE_VPN | PTE_ASID
  | PTE_ATR0 | PTE_ATR1 | PTE_PA35 | PTE_G | PTE_V => 64
  | _ => 32
  end.

Lemma field_in_reg f :
  0 <= offset (reg_field_info f) /\ 0 < width (reg_field_info f) /\
  offset (reg_field_info f) + width (reg_field_info f) <= reg_width f.
Proof. destruct f; simpl; lia. Qed.

(** Fields of one register do not overlap. *)
Lemma fields_disjoint f g :
  f <> g -> reg_width f = reg_width g ->
  offset (reg_field_info f) + width (reg_field_info f) <= offset (reg_field_info g) \/
  offset (reg_field_info g) + width (reg_field_info g) <= offset (reg_field_info f).
Proof. destruct f, g; simpl; intros; (congruence || lia). Qed.

Lemma get_set_same e f v :
  GET_FIELD (SET_FIELD (reg_width f) e f v) f = uwrap (width (reg_field_info f)) v.
Proof.
  pose proof (field_in_reg f). rewrite GET_FIELD_extract, SET_FIELD_insert.
  apply extract_insert_same; lia.
Qed.

Lemma get_set_other e f g v :
  f <> g -> reg_width f = reg_width g ->
  GET_FIELD (SET_FIELD (reg_width f) e f v) g = GET_FIELD e g.
Proof.
  intros Hne Hw. pose proof (field_in_reg f). pose proof (field_in_reg g).
  pose proof (fields_disjoint f g Hne Hw).
  rewrite !GET_FIELD_extract, SET_FIELD_insert. apply extract_insert_other; lia.
Qed.

(** The same with the register width given. *)
Lemma get_set_same_at W e f v :
  reg_width f = W -> GET_FIELD (SET_FIELD W e f v) f = uwrap (width (reg_field_info f)) v.
Proof. intros <-. apply get_set_same. Qed.

Lemma get_set_other_at W e f g v :
  f <> g -> reg_width f = W -> reg_width g = W ->
  GET_FIELD (SET_FIELD W e f v) g = GET_FIELD e g.
Proof. intros Hne <- Hw. by apply get_set_other. Qed.

Lemma SET_FIELD_range W e f v : 0 <= W -> in_u W (SET_FIELD W e f v).
Proof. intros. unfold SET_FIELD, fINSERT_BITS. auto with cint. Qed.

Lemma GET_FIELD_range e f : in_u (width (reg_field_info f)) (GET_FIELD e f).
Proof.
  pose proof (field_in_reg f). rewrite GET_FIELD_extract. apply extract_range. lia.
Qed.

Lemma GET_FIELD_0 f : GET_FIELD 0 f = 0.
Proof. by destruct f. Qed.

(** C27: writing a field of a 64-bit TLB entry or of the 32-bit SSR with
    SET_FIELD is a lens: reading the field back gives the value truncated to
    the field's width, every other field of the register keeps its value,
    writing back what was read changes nothing, and the result fits the
    register. *)
Theorem SET_FIELD_lens W e f v :
  W = reg_width f -> in_u W e ->
  GET_FIELD (SET_FIELD W e f v) f = uwrap (width (reg_field_info f)) v /\
  (forall g, g <> f -> reg_width g = W -> GET_FIELD (SET_FIELD W e f v) g = GET_FIELD e g) /\
  SET_FIELD W e f (GET_FIELD e f) = e /\
  in_u W (SET_FIELD W e f v).
Proof.
  intros -> He. pose proof (field_in_reg f) as (? & ? & ?). split_and!.
  - apply get_set_same.
  - intros g Hg Hw. by apply get_set_other.
  - rewrite SET_FIELD_insert, GET_FIELD_extract. apply Z.bits_inj'. intros i Hi.
    rewrite testbit_insert_bits by lia. rewrite testbit_extract by lia.
    split_cmp; simpl; first [done | f_equal; lia | by rewrite (testbit_in_u (reg_width f) e)].
  - apply SET_FIELD_range. lia.
Qed.

Lemma SET_FIELD_lens_witness :
  64 = reg_width PTE_V /\ in_u 64 (2 ^ 63 + 5) /\
  GET_FIELD (SET_FIELD 64 (2 ^ 63 + 5) PTE_V 2) PTE_V = uwrap 1 2.
Proof.
  split; [done|]. split; [split; lia|].
  destruct (SET_FIELD_lens 64 (2 ^ 63 + 5) PTE_V 2) as [H _]; [done|split; lia|exact H].
Defined.
