(* ===== verification/TlbHw.v ===== *)
(** The machine under the MMU code: the TLB as an array of 64-bit entries, the
    system registers the code reads and writes, and the associative TLB
    instructions.  Those instructions are hardware, not code of the repository:
    [TlbSearch] names them and [TlbSearchLaws] states what the architecture
    documents about them, in terms of the entry format that
    [crt0/hexagon_standalone.h] describes.  [ArrayTlb] is one machine that
    satisfies the laws, used to evaluate the model. *)

From S2P Require Import Prelude HexTest RegFields.

(** Everything the MMU code can observe or change. *)
Record sys := Sys {
  tlb : list Z;              (* the TLB, indexed by entry number *)
  ssr : Z;                   (* system registers *)
  badva : Z;
  evb : Z;
  elr : Z;
  tlb_fixed_entries : Z;     (* _tlb_fixed_entries, set by the startup code *)
  upte : list Z;             (* the 16-bit software PTEs at __UPTE_START *)
  old_evb : Z;
  my_exceptions : Z * Z;     (* exception_vector *)
  tst : test_state           (* err and the check output *)
}.

Definition set_tlb (f : list Z) (s : sys) : sys :=
  Sys f (ssr s) (badva s) (evb s) (elr s) (tlb_fixed_entries s) (upte s) (old_evb s)
      (my_exceptions s) (tst s).
Definition set_ssr (v : Z) (s : sys) : sys :=
  Sys (tlb s) v (badva s) (evb s) (elr s) (tlb_fixed_entries s) (upte s) (old_evb s)
      (my_exceptions s) (tst s).
Definition set_badva (v : Z) (s : sys) : sys :=
  Sys (tlb s) (ssr s) v (evb s) (elr s) (tlb_fixed_entries s) (upte s) (old_evb s)
      (my_exceptions s) (tst s).
Definition set_evb (v : Z) (s : sys) : sys :=
  Sys (tlb s) (ssr s) (badva s) v (elr s) (tlb_fixed_entries s) (upte s) (old_evb s)
      (my_exceptions s) (tst s).
Definition set_elr (v : Z) (s : sys) : sys :=
  Sys (tlb s) (ssr s) (badva s) (evb s) v (tlb_fixed_entries s) (upte s) (old_evb s)
      (my_exceptions s) (tst s).
Definition set_upte (v : list Z) (s : sys) : sys :=
  Sys (tlb s) (ssr s) (badva s) (evb s) (elr s) (tlb_fixed_entries s) v (old_evb s)
      (my_exceptions s) (tst s).
Definition set_old_evb (v : Z) (s : sys) : sys :=
  Sys (tlb s) (ssr s) (badva s) (evb s) (elr s) (tlb_fixed_entries s) (upte s) v
      (my_exceptions s) (tst s).
Definition set_my_exceptions (v : Z * Z) (s : sys) : sys :=
  Sys (tlb s) (ssr s) (badva s) (evb s) (elr s) (tlb_fixed_entries s) (upte s) (old_evb s)
      v (tst s).
Definition set_tst (v : test_state) (s : sys) : sys :=
  Sys (tlb s) (ssr s) (badva s) (evb s) (elr s) (tlb_fixed_entries s) (upte s) (old_evb s)
      (my_exceptions s) v.

(** Reads a component of an updated machine, and computes nothing else. *)
Ltac sys_simpl :=
  cbn [tlb ssr badva evb elr tlb_fixed_entries upte old_evb my_exceptions tst
       set_tlb set_ssr set_badva set_evb set_elr set_upte set_old_evb set_my_exceptions set_tst].

Definition TLB_NOT_FOUND : Z := 0x80000000.

(* ------------------------------------------------------------------ *)
(** ** Entries and addresses *)

(** [__builtin_ctz] of a non-zero value. *)
Fixpoint ctz_pos (p : positive) : Z :=
  match p with xO p => 1 + ctz_pos p | _ => 0 end.
Definition ctz (z : Z) : Z := match z with Zpos p => ctz_pos p | _ => 0 end.

Lemma ctz_nonneg z : 0 <= ctz z.
Proof. destruct z as [|p|]; simpl; try lia. induction p; cbn [ctz_pos]; lia. Qed.

(** The operand of [tlbp]: ASID in bits 26:20, virtual page number below. *)
Definition probe_asid (x : Z) : Z := extract x 20 7.
Definition probe_vpn (x : Z) : Z := extract x 0 20.

Definition same_page (k vpn1 vpn2 : Z) : bool :=
  Z.shiftr vpn1 (2 * k) =? Z.shiftr vpn2 (2 * k).

(** Whether an entry translates the address and ASID of a probe: it is valid,
    its page size is encoded in its lowest set bit, and the page contains the
    address in a matching address space. *)
Definition entry_matches (x e : Z) : bool :=
  truth (GET_FIELD e PTE_V) &&
  (truth (GET_FIELD e PTE_G) || (GET_FIELD e PTE_ASID =? probe_asid x)) &&
  same_page (ctz e) (GET_FIELD e PTE_VPN) (probe_vpn x).

(** Whether two entries translate a common address in a common space. *)
Definition entries_overlap (e1 e2 : Z) : bool :=
  truth (GET_FIELD e1 PTE_V) && truth (GET_FIELD e2 PTE_V) &&
  (truth (GET_FIELD e1 PTE_G) || truth (GET_FIELD e2 PTE_G)
     || (GET_FIELD e1 PTE_ASID =? GET_FIELD e2 PTE_ASID)) &&
  same_page (Z.max (ctz e1) (ctz e2)) (GET_FIELD e1 PTE_VPN) (GET_FIELD e2 PTE_VPN).

Definition matches_at (t : list Z) (x : Z) (i : nat) : Prop :=
  exists e, t !! i = Some e /\ entry_matches x e = true.
Definition overlaps_at (t : list Z) (e : Z) (i : nat) : Prop :=
  exists e', t !! i = Some e' /\ entries_overlap e e' = true.

(** The associative instructions. *)
Class TlbSearch := {
  tlbp_insn : list Z -> Z -> Z;              (* probe: index or TLB_NOT_FOUND *)
  tlboc_insn : list Z -> Z -> Z;             (* overlap check *)
  tlbinvasid_insn : list Z -> Z -> list Z    (* invalidate by ASID *)
}.

(** What the architecture documents of them. *)
Class TlbSearchLaws `{TlbSearch} : Prop := {
  tlbp_sound t x :
    tlbp_insn t x = TLB_NOT_FOUND \/
    exists i, tlbp_insn t x = Z.of_nat i /\ matches_at t x i;
  (* an entry number is never confused with the not-found result *)
  tlbp_complete t x i :
    Z.of_nat (length t) < TLB_NOT_FOUND -> matches_at t x i -> tlbp_insn t x <> TLB_NOT_FOUND;
  tlboc_none t e :
    (forall i, ~ overlaps_at t e i) -> tlboc_insn t e = TLB_NOT_FOUND;
  tlboc_one t e i :
    overlaps_at t e i -> (forall j, overlaps_at t e j -> j = i) ->
    tlboc_insn t e = Z.of_nat i;
  tlboc_many t e i j :
    overlaps_at t e i -> overlaps_at t e j -> i <> j -> tlboc_insn t e = 0xffffffff;
  tlbinvasid_each t hi :
    tlbinvasid_insn t hi =
      (fun e => if negb (truth (GET_FIELD e PTE_G)) && (GET_FIELD e PTE_ASID =? probe_asid hi)
                then SET_FIELD 64 e PTE_V 0 else e) <$> t
}.

Section laws.
Context `{TlbSearchLaws}.

Lemma tlbp_none t x : (forall i, ~ matches_at t x i) -> tlbp_insn t x = TLB_NOT_FOUND.
Proof. intros Hno. destruct (tlbp_sound t x) as [|(i & _ & Hi)]; [done|by apply Hno in Hi]. Qed.

Lemma tlbp_one t x i :
  Z.of_nat (length t) < TLB_NOT_FOUND ->
  matches_at t x i -> (forall j, matches_at t x j -> j = i) -> tlbp_insn t x = Z.of_nat i.
Proof.
  intros Hl Hi Hu. destruct (tlbp_sound t x) as [Hn|(j & -> & Hj)].
  - by apply (tlbp_complete _ _ _ Hl Hi) in Hn.
  - by rewrite (Hu j Hj).
Qed.
End laws.

(* ------------------------------------------------------------------ *)
(** ** One machine that satisfies the laws *)

Module ArrayTlb.

(** The indices, from [i] on, of the entries that satisfy [p]. *)
Fixpoint hits (p : Z -> bool) (i : nat) (t : list Z) : list nat :=
  match t with
  | [] => []
  | e :: t => if p e then i :: hits p (Datatypes.S i) t else hits p (Datatypes.S i) t
  end.

Definition first_hit (p : Z -> bool) (t : list Z) : Z :=
  match hits p 0 t with [] => TLB_NOT_FOUND | i :: _ => Z.of_nat i end.

Definition only_hit (p : Z -> bool) (t : list Z) : Z :=
  match hits p 0 t with [] => TLB_NOT_FOUND | [i] => Z.of_nat i | _ => 0xffffffff end.

Lemma elem_of_hits p i t j :
  j ∈ hits p i t <-> (i <= j)%nat /\ exists e, t !! (j - i)%nat = Some e /\ p e = true.
Proof.
  revert i. induction t as [|e t IH]; intros i; cbn [hits].
  - split; [by intros ?%not_elem_of_nil|intros (_ & e & He & _); done].
  - assert (j ∈ hits p (Datatypes.S i) t <->
      (i < j)%nat /\ exists e', (e :: t) !! (j - i)%nat = Some e' /\ p e' = true) as IH'.
    { rewrite IH. split; intros (Hle & e' & He & Hp); (split; [lia|]); exists e'; (split; [|done]).
      - rewrite lookup_cons_ne_0 by lia. by replace (Nat.pred (j - i)) with (j - Datatypes.S i)%nat by lia.
      - rewrite lookup_cons_ne_0 in He by lia. by replace (j - Datatypes.S i)%nat with (Nat.pred (j - i)) by lia. }
    destruct (p e) eqn:Hp.
    + rewrite elem_of_cons, IH'. split.
      * intros [->|[? ?]]; [|split; [lia|done]]. split; [lia|]. exists e. by rewrite Nat.sub_diag.
      * intros [Hle Hex]. destruct (decide (j = i)); [by left|right; split; [lia|done]].
    + rewrite IH'. split; intros [Hle Hex]; [split; [lia|done]|split; [|done]].
      destruct (decide (j = i)) as [->|]; [|lia].
      rewrite Nat.sub_diag in Hex. destruct Hex as (e' & [= <-] & ?). congruence.
Qed.

Lemma hits_spec p t j : j ∈ hits p 0 t <-> exists e, t !! j = Some e /\ p e = true.
Proof. rewrite elem_of_hits, Nat.sub_0_r. split; [intros [_ ?]|split; [lia|]]; done. Qed.

Lemma hits_NoDup p i t : NoDup (hits p i t).
Proof.
  revert i. induction t as [|e t IH]; intros i; cbn [hits]; [constructor|].
  destruct (p e); [|done]. constructor; [|done].
  rewrite elem_of_hits. intros [? _]. lia.
Qed.

#[export] Instance array_tlb : TlbSearch := {
  tlbp_insn t x := first_hit (entry_matches x) t;
  tlboc_insn t e := only_hit (entries_overlap e) t;
  tlbinvasid_insn t hi :=
    (fun e => if negb (truth (GET_FIELD e PTE_G)) && (GET_FIELD e PTE_ASID =? probe_asid hi)
              then SET_FIELD 64 e PTE_V 0 else e) <$> t
}.

#[export] Instance array_tlb_laws : TlbSearchLaws.
Proof.
  assert (forall p t j, j ∈ hits p 0 t <-> exists e, t !! j = Some e /\ p e = true) as Hs
    by apply hits_spec.
  split; cbn [tlbp_insn tlboc_insn tlbinvasid_insn array_tlb]; intros t x.
  - unfold first_hit. destruct (hits _ 0 t) as [|i l] eqn:Hh; [by left|right].
    exists i. split; [done|]. apply Hs. rewrite Hh. left.
  - intros i Hl Hi Hn. pose proof (proj2 (Hs _ _ _) Hi) as Hin. unfold first_hit in Hn.
    destruct (hits _ 0 t) as [|j l] eqn:Hh; [by apply not_elem_of_nil in Hin|].
    assert (j ∈ hits (entry_matches x) 0 t) as (e & He & _)%Hs by (rewrite Hh; left).
    apply lookup_lt_Some in He. lia.
  - intros Hno. unfold only_hit. destruct (hits _ 0 t) as [|i l] eqn:Hh; [done|].
    exfalso. apply (Hno i), Hs. rewrite Hh. left.
  - intros i Hi Hu. pose proof (proj2 (Hs _ _ _) Hi) as Hin. unfold only_hit.
    pose proof (hits_NoDup (entries_overlap x) 0 t) as Hnd.
    assert (forall j, j ∈ hits (entries_overlap x) 0 t -> j = i) as Hall by (intros j ?%Hs; by apply Hu).
    destruct (hits _ 0 t) as [|j [|k l]]; [by apply not_elem_of_nil in Hin| |].
    + by rewrite (Hall j) by left.
    + exfalso. apply NoDup_cons in Hnd as [Hnd _]. apply Hnd.
      rewrite (Hall j) by left. rewrite (Hall k) by (right; left). left.
  - intros i j Hi Hj Hne. unfold only_hit.
    apply Hs in Hi, Hj. destruct (hits _ 0 t) as [|a [|b l]]; [by apply not_elem_of_nil in Hi| |done].
    apply list_elem_of_singleton in Hi, Hj. congruence.
  - done.
Qed.

End ArrayTlb.
