(* ===== verification/Tlb.v ===== *)
(** [crt0/tlb.c]: writing translations to the TLB, and the software page table
    the startup code reads on a miss. *)

From S2P Require Import Prelude HexTest RegFields TlbHw.

(** [PageShift] and [PageSize] of [crt0/hexagon_standalone.h]. *)
Inductive PageShift : Type :=
  | SHIFT_4K | SHIFT_16K | SHIFT_64K | SHIFT_256K | SHIFT_1M
  | SHIFT_4M | SHIFT_16M | SHIFT_64M | SHIFT_256M | SHIFT_1G.

Definition shift_value (p : PageShift) : Z :=
  match p with
  | SHIFT_4K => 0 | SHIFT_16K => 1 | SHIFT_64K => 2 | SHIFT_256K => 3 | SHIFT_1M => 4
  | SHIFT_4M => 5 | SHIFT_16M => 6 | SHIFT_64M => 7 | SHIFT_256M => 8 | SHIFT_1G => 9
  end.

(** The value of the enumerator [PAGE_x]. *)
Definition PageSize (p : PageShift) : Z := Z.shiftl 1 (shift_value p).
Definition PAGE_4K : Z := PageSize SHIFT_4K.
Definition PAGE_1M : Z := PageSize SHIFT_1M.
Definition PAGE_4M : Z := PageSize SHIFT_4M.

(* ------------------------------------------------------------------ *)
(** ** The operations *)

Section tlb_c.
Context `{TlbSearch}.
(** [__HEXAGON_ARCH__] of the build. *)
Variable arch : Z.

Definition get_tlb_fixed_entries : prog sys Z := gets tlb_fixed_entries.
Definition get_ssr : prog sys Z := gets ssr.

(** [tlbr]; an entry number the TLB does not have has no documented value. *)
Definition read_tlb_entry (index : Z) : prog sys Z :=
  t ← gets tlb; of_option (lookupZ t index).

Definition write_tlb_entry (entry index : Z) : prog sys () :=
  t ← gets tlb; t' ← of_option (insertZ t index entry); modify (set_tlb t').

Definition tlb_probe (va : Z) : prog sys Z :=
  let VirtualPageNumber := Z.shiftr va 12 in
  reg ← get_ssr;
  let ASID := Z.land (Z.shiftr reg 8) 0x7f in
  let probe := Z.land (Z.lor (u32 (Z.shiftl ASID 20)) VirtualPageNumber) 0x7ffffff in
  gets (fun s => tlbp_insn (tlb s) probe).

Definition tlb_invalidate (va : Z) : prog sys () :=
  entry ← tlb_probe va;
  if entry =? TLB_NOT_FOUND then mret tt
  else
    raw ← read_tlb_entry entry;
    let raw := Z.land raw (unot 64 (Z.shiftl 1 63)) in
    write_tlb_entry raw entry.

Definition basic_entry (va pa pagesize : Z) : Z :=
  let T := 0 in
  let T := set_T T VirtualPage (Z.shiftr va 12) in
  let T := if 72 <? arch
           then set_T T PPN_EX (Z.shiftr (Z.land pa (Z.shiftl 3 36)) 36) else T in
  let T := set_T T EP (Z.shiftr (Z.land pa (Z.shiftl 1 35)) 35) in
  let PPN := Z.shiftr pa 12 in
  let PPN := Z.lor (u64 (Z.shiftl PPN 1)) pagesize in
  let T := if pagesize =? 1 then set_T T S 1 else T in
  Z.lor T PPN.

Definition mkentry (va pa pagesize : Z) : Z :=
  let T := basic_entry va pa pagesize in
  let T := set_T T CacheAttr 0x7 in
  let T := set_T T XWRU 0x6 in
  set_T T VG 0x3.

(** The entry [add_translation_extended] builds (its lines 137-145). *)
Definition extended_entry (va pa page_size xwru cccc asid aa vg : Z) : Z :=
  let T := basic_entry va pa page_size in
  let T := set_T T ASID (Z.land asid 0x7f) in
  let T := set_T T CacheAttr (Z.land cccc 0xf) in
  let T := set_T T XWRU (Z.land xwru 0xf) in
  let T := set_T T VG (Z.land vg 0x3) in
  if arch <? 73 then Z.lor T (u64 (Z.shiftl (Z.land aa 0x3) 59)) else T.

Definition add_translation_extended (index va pa page_size xwru cccc asid aa vg : Z) : prog sys Z :=
  num_entries ← get_tlb_fixed_entries;
  if (index <? 1) || (u32 (num_entries - 1) <? u32 index) then mret (-1)
  else
    tlb_invalidate va;;
    write_tlb_entry (extended_entry va pa page_size xwru cccc asid aa vg) index;;
    mret 0.

Definition add_translation_fixed (index va pa cccc permissions : Z) : prog sys () :=
  tlb_invalidate va;;
  add_translation_extended index va pa PAGE_1M (u32 permissions) (u32 cccc) 0 0 3;;
  mret tt.

(** [SMALL_PTE]: [cache] in bits 3:0, [pa] in bits 15:4. *)
Definition SMALL_PTE_cache (e : Z) : Z := extract e 0 4.
Definition SMALL_PTE_pa (e : Z) : Z := extract e 4 12.

(** The address of a PTE, as an index in the table. *)
Definition findPTEAddr (va : Z) : Z := Z.shiftr va 20.

Definition findPTEValue (va : Z) : prog sys Z :=
  t ← gets upte; of_option (lookupZ t (findPTEAddr va)).

Definition add_translation (va pa cccc : Z) : prog sys () :=
  let i := findPTEAddr va in
  t ← gets upte;
  e ← of_option (lookupZ t i);
  t1 ← of_option (insertZ t i (insert_bits 16 e 4 12 (Z.shiftr pa 20)));
  modify (set_upte t1);;
  t ← gets upte;
  e ← of_option (lookupZ t i);
  t2 ← of_option (insertZ t i (insert_bits 16 e 0 4 cccc));
  modify (set_upte t2).

End tlb_c.

(* ------------------------------------------------------------------ *)
(** ** The entries the code builds *)

(** An address the code may map: it fits the physical address bits of an entry
    and is aligned to the page. *)
Definition page_bits (p : PageShift) : Z := 12 + 2 * shift_value p.
Definition page_aligned (p : PageShift) (pa : Z) : Prop := Z.land pa (Z.ones (page_bits p)) = 0.

Lemma shift_value_range p : 0 <= shift_value p <= 9.
Proof. destruct p; simpl; lia. Qed.

Lemma PageSize_range p : in_u 10 (PageSize p).
Proof. destruct p; split; vm_compute; congruence. Qed.

Lemma ctz_spec z k :
  0 < z -> 0 <= k -> Z.testbit z k = true -> (forall i, 0 <= i < k -> Z.testbit z i = false) ->
  ctz z = k.
Proof.
  destruct z as [|p|]; try lia. intros _. cbn [ctz]. revert k.
  induction p as [p IH|p IH|]; intros k Hk Ht Hf; cbn [ctz_pos].
  - destruct (decide (k = 0)) as [->|]; [done|]. by specialize (Hf 0 ltac:(lia)).
  - destruct (decide (k = 0)) as [->|]; [done|].
    rewrite (IH (k - 1)); [lia|lia| |].
    + rewrite <- Ht. change (Zpos p~0) with (2 * Zpos p).
      replace k with (Z.succ (k - 1)) at 2 by lia. rewrite Z.testbit_even_succ by lia. done.
    + intros i Hi. rewrite <- (Hf (Z.succ i)) by lia. change (Zpos p~0) with (2 * Zpos p).
      by rewrite Z.testbit_even_succ by lia.
  - destruct (decide (k = 0)) as [->|]; [done|]. by specialize (Hf 0 ltac:(lia)).
Qed.

Lemma page_aligned_bit p pa i :
  page_aligned p pa -> 0 <= i < page_bits p -> Z.testbit pa i = false.
Proof.
  intros Ha Hi. assert (Z.testbit (Z.land pa (Z.ones (page_bits p))) i = false) as Hb.
  { by rewrite Ha, Z.bits_0. }
  pose proof (shift_value_range p). unfold page_bits in *.
  revert Hb. autorewrite with bits. split_cmp. by rewrite andb_true_r.
Qed.

(** A field of an entry as bits, for the fields a theorem reads. *)
Ltac get_fields :=
  rewrite ?GET_FIELD_extract; unfold set_T; cbn [reg_field_info TLBEntry_layout offset width];
  rewrite ?extract_lor; autorewrite with fields; rewrite ?extract_0_l by lia.

Section entries.
Context (arch va pa : Z) (p : PageShift).
Context (Hva : in_u 32 va) (Hpa : in_u 43 pa) (Hal : page_aligned p pa).

(** The part of an entry the physical page number and page size make up. *)
Definition ppn_part : Z := Z.lor (u64 (Z.shiftl (Z.shiftr pa 12) 1)) (PageSize p).

Lemma ppn_part_range : in_u 32 ppn_part.
Proof.
  unfold ppn_part. assert (in_u 32 (Z.shiftl (Z.shiftr pa 12) 1)) as H.
  { apply (in_u_shiftl 31); [lia..|]. by apply (in_u_shiftr 43); [lia..|]. }
  rewrite uwrap_id by (eapply in_u_mono; [done|lia..]).
  apply in_u_lor; [lia|done|]. eapply in_u_mono; [apply PageSize_range|lia..].
Qed.

Lemma ppn_part_testbit i :
  0 <= i < 32 ->
  Z.testbit ppn_part i = ((0 <? i) && Z.testbit pa (i + 11)) || (i =? shift_value p).
Proof.
  intros Hi. unfold ppn_part, PageSize. autorewrite with bits.
  pose proof (shift_value_range p).
  replace (Z.testbit 1 (i - shift_value p)) with (i =? shift_value p).
  2:{ destruct (Z.eqb_spec i (shift_value p)) as [->|]; [by rewrite Z.sub_diag|].
      destruct (Z.lt_ge_cases i (shift_value p)); [by rewrite Z.testbit_neg_r by lia|].
      symmetry. apply (testbit_in_u 1); [split; lia|lia]. }
  replace (i - 1 + 12) with (i + 11) by lia. split_cmp; simpl_bool; done.
Qed.

(** Below the page size the bits are those of the page-size encoding only. *)
Lemma ppn_part_low i :
  0 <= i <= shift_value p -> Z.testbit ppn_part i = (i =? shift_value p).
Proof.
  intros Hi. pose proof (shift_value_range p). rewrite ppn_part_testbit by lia.
  destruct (Z.ltb_spec 0 i); [|done]. simpl.
  rewrite (page_aligned_bit p) by (done || unfold page_bits; lia). done.
Qed.
Lemma basic_entry_unfold :
  exists T0, basic_entry arch va pa (PageSize p) = Z.lor T0 (ppn_part) /\
    T0 = let T := set_T 0 VirtualPage (Z.shiftr va 12) in
         let T := if 72 <? arch then set_T T PPN_EX (extract pa 36 2) else T in
         let T := set_T T EP (extract pa 35 1) in
         if PageSize p =? 1 then set_T T S 1 else T.
Proof.
  eexists. split; [reflexivity|].
  assert (forall o w, 0 <= o -> 0 <= w ->
    Z.shiftr (Z.land pa (Z.shiftl (Z.ones w) o)) o = extract pa o w) as He.
  { intros o w Ho Hw. apply Z.bits_inj'. intros i Hi. autorewrite with bits.
    replace (i + o - o) with i by lia.
    split_cmp; by simpl_bool. }
  by rewrite <- (He 36 2), <- (He 35 1) by lia.
Qed.

(** Fields of the entry above the page number are those of the struct. *)
Lemma basic_entry_high off w :
  32 <= off -> 0 <= w -> off + w <= 64 ->
  extract (basic_entry arch va pa (PageSize p)) off w =
    extract (let T := set_T 0 VirtualPage (Z.shiftr va 12) in
             let T := if 72 <? arch then set_T T PPN_EX (extract pa 36 2) else T in
             set_T T EP (extract pa 35 1)) off w.
Proof.
  intros Hoff Hw How. destruct basic_entry_unfold as (T0 & -> & ->). rewrite extract_lor.
  rewrite (extract_high 32 ppn_part) by (apply ppn_part_range || lia || done).
  rewrite Z.lor_0_r. cbv zeta.
  destruct (PageSize p =? 1); [|done]. unfold set_T at 1. cbn [TLBEntry_layout offset width].
  by rewrite extract_insert_other by lia.
Qed.

Lemma basic_entry_low i :
  0 <= i < 24 -> Z.testbit (basic_entry arch va pa (PageSize p)) i = Z.testbit ppn_part i.
Proof.
  intros Hi. destruct basic_entry_unfold as (T0 & -> & ->). rewrite Z.lor_spec. cbv zeta.
  assert (Z.testbit (let T := set_T 0 VirtualPage (Z.shiftr va 12) in
             let T := if 72 <? arch then set_T T PPN_EX (extract pa 36 2) else T in
             set_T T EP (extract pa 35 1)) i = false) as Hf.
  { cbv zeta. unfold set_T. cbn [TLBEntry_layout offset width].
    destruct (72 <? arch); rewrite !testbit_insert_bits, Z.bits_0 by lia; split_cmp; done. }
  cbv zeta in Hf.
  destruct (Z.eqb_spec (PageSize p) 1) as [He|He]; [|by rewrite Hf].
  unfold set_T at 1. cbn [TLBEntry_layout offset width].
  rewrite testbit_insert_bits by lia. destruct (Z.eq_dec i 0) as [->|].
  - rewrite ppn_part_low by (pose proof (shift_value_range p); lia).
    destruct p; try done.
  - replace ((0 <=? i) && (i <? 0 + 1)) with false by (split_cmp; done).
    by rewrite Hf, andb_false_r.
Qed.
End entries.

Section extended.
Context (arch va pa : Z) (p : PageShift) (xwru cccc asid aa vg : Z).
Context (Hva : in_u 32 va) (Hpa : in_u 43 pa) (Hal : page_aligned p pa).
Abbreviation E := (extended_entry arch va pa (PageSize p) xwru cccc asid aa vg).

(** The entry without the attribute bits of old architectures. *)
Lemma extended_entry_extract off w :
  0 <= off -> 0 <= w -> off + w <= 64 ->
  (off + w <= 59 \/ 61 <= off) \/ 73 <= arch ->
  extract E off w =
    extract (let T := basic_entry arch va pa (PageSize p) in
             let T := set_T T ASID (Z.land asid 0x7f) in
             let T := set_T T CacheAttr (Z.land cccc 0xf) in
             let T := set_T T XWRU (Z.land xwru 0xf) in
             set_T T VG (Z.land vg 0x3)) off w.
Proof.
  intros Ho Hw How Hor. unfold extended_entry. cbv zeta.
  destruct (Z.ltb_spec arch 73); [|done].
  rewrite extract_lor. assert (extract (u64 (Z.shiftl (Z.land aa 0x3) 59)) off w = 0) as ->.
  { rewrite extract_uwrap by lia. change 0x3 with (Z.ones 2). destruct Hor as [[?|?]|?]; [| |lia].
    - apply extract_shiftl_above; lia.
    - apply (extract_shiftl_below _ _ 2); [|lia..].
      apply in_u_land_r; [lia|]. split; done. }
  by rewrite Z.lor_0_r.
Qed.
Lemma extended_entry_low i :
  0 <= i < 24 -> Z.testbit E i = Z.testbit (ppn_part pa p) i.
Proof.
  intros Hi. rewrite <- (basic_entry_low arch va) by done.
  assert (forall e, Z.testbit (extract e 0 24) i = Z.testbit e i) as He.
  { intros e. rewrite testbit_extract by lia. rewrite Z.add_0_r. by split_cmp. }
  rewrite <- (He E), <- (He (basic_entry _ _ _ _)). f_equal.
  rewrite extended_entry_extract by lia. unfold set_T. cbn [TLBEntry_layout offset width].
  by rewrite !extract_insert_other by lia.
Qed.

Ltac field_of_basic :=
  rewrite ?GET_FIELD_extract; cbn [reg_field_info offset width];
  rewrite extended_entry_extract by (done || lia); unfold set_T; cbn [TLBEntry_layout offset width];
  autorewrite with fields.

Lemma extended_entry_PPD :
  GET_FIELD E PTE_PPD = extract (ppn_part pa p) 0 24.
Proof.
  rewrite GET_FIELD_extract. cbn [reg_field_info offset width].
  apply Z.bits_inj'. intros i Hi. rewrite !testbit_extract by lia.
  split_cmp; [|done]. simpl. rewrite Z.add_0_r. by apply extended_entry_low.
Qed.

Lemma extended_entry_VPN : GET_FIELD E PTE_VPN = Z.shiftr va 12.
Proof.
  field_of_basic. rewrite basic_entry_high by (done || lia). unfold set_T.
  cbn [TLBEntry_layout offset width].
  assert (extract (Z.shiftr va 12) 0 20 = Z.shiftr va 12) as Hv
    by (apply extract_small; [by apply (in_u_shiftr 32)|lia]).
  destruct (72 <? arch); by autorewrite with fields.
Qed.

Lemma extended_entry_PA35 : GET_FIELD E PTE_PA35 = extract pa 35 1.
Proof.
  field_of_basic. rewrite basic_entry_high by (done || lia). unfold set_T.
  cbn [TLBEntry_layout offset width]. autorewrite with fields.
  apply extract_small; [|lia]. apply extract_range. lia.
Qed.

Lemma extended_entry_ASID : GET_FIELD E PTE_ASID = Z.land asid 0x7f.
Proof.
  field_of_basic. apply extract_small; [|lia]. apply in_u_land_r; [lia|]. split; done.
Qed.

Lemma extended_entry_C : GET_FIELD E PTE_C = Z.land cccc 0xf.
Proof.
  field_of_basic. apply extract_small; [|lia]. apply in_u_land_r; [lia|]. split; done.
Qed.

Lemma extended_entry_perm f k :
  (f, k) ∈ [(PTE_U, 0); (PTE_R, 1); (PTE_W, 2); (PTE_X, 3)] -> GET_FIELD E f = extract xwru k 1.
Proof.
  intros Hf. change (Z.land xwru 0xf) with (Z.land xwru (Z.ones 4)).
  repeat (apply elem_of_cons in Hf as [[= -> ->]|Hf];
    [field_of_basic; change 0xf with (Z.ones 4); rewrite extract_land_ones by lia; f_equal; lia|]).
  by apply not_elem_of_nil in Hf.
Qed.

Lemma extended_entry_V : GET_FIELD E PTE_V = extract vg 1 1.
Proof.
  field_of_basic. change 0x3 with (Z.ones 2). rewrite extract_land_ones by lia. f_equal; lia.
Qed.

Lemma extended_entry_G : GET_FIELD E PTE_G = extract vg 0 1.
Proof.
  field_of_basic. change 0x3 with (Z.ones 2). rewrite extract_land_ones by lia. f_equal; lia.
Qed.

Lemma extended_entry_ctz : ctz E = shift_value p.
Proof.
  pose proof (shift_value_range p).
  assert (Z.testbit E (shift_value p) = true) as Hb.
  { rewrite extended_entry_low, ppn_part_low by (done || lia). apply Z.eqb_refl. }
  assert (0 <= E) as HE.
  { unfold extended_entry. cbv zeta.
    assert (forall T, 0 <= set_T T VG (Z.land vg 3)) by (intros; apply insert_bits_range; lia).
    destruct (arch <? 73); [|done]. apply Z.lor_nonneg. split; [done|].
    apply uwrap_range. lia. }
  apply ctz_spec; [|lia|done|].
  - destruct (Z.eq_dec E 0) as [H0|]; [|lia]. rewrite H0, Z.bits_0 in Hb. done.
  - intros i Hi. rewrite extended_entry_low, ppn_part_low by (done || lia). split_cmp. done.
Qed.
End extended.

(* ------------------------------------------------------------------ *)
(** ** What the operations do *)

(** The probe operand [tlb_probe] forms: the current ASID and the page of [va]. *)
Definition probe_of (asid va : Z) : Z := Z.lor (Z.shiftl asid 20) (Z.shiftr va 12).

Lemma probe_of_asid asid va : in_u 7 asid -> in_u 32 va -> probe_asid (probe_of asid va) = asid.
Proof.
  intros Ha Hv. unfold probe_asid, probe_of. rewrite extract_lor.
  rewrite extract_shiftl_same, uwrap_id by (done || lia).
  rewrite (extract_high 20 (Z.shiftr va 12)); [apply Z.lor_0_r| |lia..].
  by apply (in_u_shiftr 32).
Qed.

Lemma probe_of_vpn asid va : in_u 7 asid -> in_u 32 va -> probe_vpn (probe_of asid va) = Z.shiftr va 12.
Proof.
  intros Ha Hv. unfold probe_vpn, probe_of. rewrite extract_lor.
  rewrite extract_shiftl_above by lia. rewrite Z.lor_0_l. apply extract_small; [|lia].
  by apply (in_u_shiftr 32).
Qed.

Lemma probe_of_range asid va : in_u 7 asid -> in_u 32 va -> in_u 27 (probe_of asid va).
Proof.
  intros. apply in_u_lor; [lia|by apply (in_u_shiftl 7)|].
  eapply in_u_mono; [by apply (in_u_shiftr 32 12)|lia..].
Qed.

(** The current address space. *)
Definition cur_asid (s : sys) : Z := GET_FIELD (ssr s) SSR_ASID.

Lemma cur_asid_range s : in_u 7 (cur_asid s).
Proof. apply (GET_FIELD_range (ssr s) SSR_ASID). Qed.

(** Clearing the valid bit. *)
Definition invalid (e : Z) : Z := SET_FIELD 64 e PTE_V 0.

Lemma invalid_no_match x e : entry_matches x (invalid e) = false.
Proof.
  unfold entry_matches, invalid. by rewrite (get_set_same e PTE_V 0 : GET_FIELD (SET_FIELD 64 e PTE_V 0) PTE_V = _).
Qed.

Lemma clear_V_bit e : Z.land e (unot 64 (Z.shiftl 1 63)) = invalid e.
Proof.
  unfold invalid, unot. rewrite SET_FIELD_insert. cbn [reg_field_info offset width].
  apply Z.bits_inj'. intros i Hi. autorewrite with bits.
  change (Z.testbit 1 (i - 63)) with (Z.testbit (Z.ones 1) (i - 63)). rewrite testbit_ones by lia.
  rewrite Z.bits_0. split_cmp; simpl_bool; done.
Qed.

(** The TLB after the entry that translates [x], if there is one, is dropped. *)
Definition drop_match `{TlbSearch} (t : list Z) (x : Z) : list Z :=
  if tlbp_insn t x =? TLB_NOT_FOUND then t
  else alter invalid (Z.to_nat (tlbp_insn t x)) t.

Definition tlb_wf (t : list Z) : Prop :=
  Forall (in_u 64) t /\ Z.of_nat (length t) < TLB_NOT_FOUND.

Definition unique_match (t : list Z) (x : Z) : Prop :=
  forall i j, matches_at t x i -> matches_at t x j -> i = j.

Lemma tlb_wf_lookup t i e : tlb_wf t -> t !! i = Some e -> in_u 64 e.
Proof. intros [Hf _] He. rewrite Forall_lookup in Hf. by eapply Hf. Qed.

Section ops.
Context `{HL : TlbSearchLaws} (arch : Z).

Lemma drop_match_length t x : length (drop_match t x) = length t.
Proof. unfold drop_match. destruct (_ =? _); [done|]. apply length_alter. Qed.

Lemma drop_match_none t x i : unique_match t x -> Z.of_nat (length t) < TLB_NOT_FOUND ->
  ~ matches_at (drop_match t x) x i.
Proof.
  intros Hu Hl. unfold drop_match. destruct (Z.eqb_spec (tlbp_insn t x) TLB_NOT_FOUND) as [Hn|Hn].
  - intros Hi. by eapply tlbp_complete.
  - destruct (tlbp_sound t x) as [|(j & -> & Hj)]; [done|]. rewrite Nat2Z.id.
    intros (e & He & Hm). destruct (decide (i = j)) as [->|Hne].
    + rewrite list_lookup_alter_eq in He. destruct (t !! j); [|done].
      injection He as <-. by rewrite invalid_no_match in Hm.
    + rewrite list_lookup_alter_ne in He by done. apply Hne, Hu; [by exists e|done].
Qed.

Lemma drop_match_other t x i :
  unique_match t x -> ~ matches_at t x i -> drop_match t x !! i = t !! i.
Proof.
  intros Hu Hi. unfold drop_match. destruct (Z.eqb_spec (tlbp_insn t x) TLB_NOT_FOUND); [done|].
  destruct (tlbp_sound t x) as [|(j & -> & Hj)]; [done|]. rewrite Nat2Z.id.
  apply list_lookup_alter_ne. by intros ->.
Qed.

Lemma tlb_probe_eq va s :
  in_u 32 va -> tlb_probe va s = Done (tlbp_insn (tlb s) (probe_of (cur_asid s) va)) s.
Proof.
  intros Hva. unfold tlb_probe, get_ssr, gets, mbind, prog_bind. do 2 f_equal.
  change 0x7f with (Z.ones 7). change 0x7ffffff with (Z.ones 27).
  assert (Z.land (Z.shiftr (ssr s) 8) (Z.ones 7) = cur_asid s) as ->.
  { unfold cur_asid. by rewrite GET_FIELD_extract. }
  pose proof (cur_asid_range s) as Ha.
  rewrite uwrap_id by (eapply in_u_mono; [by apply (in_u_shiftl 7 20)|lia..]).
  rewrite Z.land_ones by lia. apply (uwrap_id 27). by apply probe_of_range.
Qed.

Lemma tlb_invalidate_eq va s :
  in_u 32 va -> tlb_wf (tlb s) ->
  tlb_invalidate va s = Done tt (set_tlb (drop_match (tlb s) (probe_of (cur_asid s) va)) s).
Proof.
  intros Hva Hwf. unfold tlb_invalidate. unfold mbind at 1, prog_bind at 1.
  rewrite tlb_probe_eq by done. unfold drop_match. set (x := probe_of _ _).
  destruct (Z.eqb_spec (tlbp_insn (tlb s) x) TLB_NOT_FOUND); [by destruct s|].
  destruct (tlbp_sound (tlb s) x) as [|(j & -> & (e & He & _))]; [done|].
  assert (0 <= Z.of_nat j < Z.of_nat (length (tlb s))) as Hj.
  { apply lookup_lt_Some in He. lia. }
  unfold read_tlb_entry, write_tlb_entry, gets, modify, mbind, prog_bind.
  rewrite lookupZ_spec, Nat2Z.id, He by lia. cbn [of_option mret prog_ret].
  rewrite insertZ_spec by done. cbn [of_option mret prog_ret].
  by rewrite Nat2Z.id, clear_V_bit, (insert_as_alter invalid _ _ _ He).
Qed.

Lemma write_tlb_entry_eq e i s :
  0 <= i < Z.of_nat (length (tlb s)) ->
  write_tlb_entry e i s = Done tt (set_tlb (<[Z.to_nat i := e]> (tlb s)) s).
Proof.
  intros. unfold write_tlb_entry, gets, modify, mbind, prog_bind. by rewrite insertZ_spec.
Qed.
End ops.

Section theorems.
Context (arch : Z).

Lemma truth_bit e off : truth (extract e off 1) = Z.testbit e off.
Proof.
  unfold truth, extract. rewrite (Z.land_ones _ 1) by lia.
  change (2 ^ 1) with 2. rewrite <- Z.bit0_mod, Z.shiftr_spec, Z.add_0_l by lia.
  by destruct (Z.testbit e off).
Qed.

(** An entry as the struct builds it is 64 bits wide. *)
Lemma set_T_range T f v : in_u 64 (set_T T f v).
Proof. apply insert_bits_range. lia. Qed.

Lemma extended_entry_range va pa page_size xwru cccc asid aa vg :
  in_u 64 (extended_entry arch va pa page_size xwru cccc asid aa vg).
Proof.
  unfold extended_entry. cbv zeta. destruct (arch <? 73); [|apply set_T_range].
  apply in_u_lor; [lia|apply set_T_range|apply uwrap_range; lia].
Qed.

(** The entry written matches exactly the addresses of the page, in the
    address spaces asked for. *)
Lemma extended_entry_matches va pa p xwru cccc asid aa vg x :
  in_u 32 va -> in_u 43 pa -> page_aligned p pa ->
  entry_matches x (extended_entry arch va pa (PageSize p) xwru cccc asid aa vg) =
    Z.testbit vg 1 && (Z.testbit vg 0 || (Z.land asid 0x7f =? probe_asid x)) &&
    same_page (shift_value p) (Z.shiftr va 12) (probe_vpn x).
Proof.
  intros. unfold entry_matches.
  by rewrite extended_entry_V, extended_entry_G, extended_entry_ASID, extended_entry_VPN,
    extended_entry_ctz, !truth_bit by done.
Qed.


End theorems.


Section operations.
Context `{HL : TlbSearchLaws} (arch : Z).

(** The index test of [add_translation_extended]. *)
Definition user_index (s : sys) (index : Z) : Prop :=
  1 <= index /\ index <= tlb_fixed_entries s - 1.

Lemma index_test_ok s index :
  user_index s index -> in_u 31 (tlb_fixed_entries s) ->
  (index <? 1) || (u32 (tlb_fixed_entries s - 1) <? u32 index) = false.
Proof.
  intros [? ?] [? ?]. rewrite !uwrap_id by (split; lia). split_cmp; done.
Qed.

Section accepted.
Context (s : sys) (index va : Z).
Context (Hva : in_u 32 va) (Hwf : tlb_wf (tlb s)) (Hfix : in_u 31 (tlb_fixed_entries s)).
Context (Hlen : tlb_fixed_entries s <= Z.of_nat (length (tlb s))).

Lemma add_translation_extended_ok pa page_size xwru cccc asid aa vg :
  user_index s index ->
  add_translation_extended arch index va pa page_size xwru cccc asid aa vg s =
    Done 0 (set_tlb (<[Z.to_nat index := extended_entry arch va pa page_size xwru cccc asid aa vg]>
                       (drop_match (tlb s) (probe_of (cur_asid s) va))) s).
Proof.
  intros Hi. unfold add_translation_extended, get_tlb_fixed_entries, gets, mbind, prog_bind.
  rewrite index_test_ok by done. unfold mbind, prog_bind. rewrite tlb_invalidate_eq by done.
  destruct Hi. rewrite write_tlb_entry_eq; [done|].
  simpl. rewrite drop_match_length. lia.
Qed.

Lemma add_translation_extended_reject pa page_size xwru cccc asid aa vg :
  - 2 ^ 31 <= index < 2 ^ 31 -> 0 < tlb_fixed_entries s -> ~ user_index s index ->
  add_translation_extended arch index va pa page_size xwru cccc asid aa vg s = Done (-1) s.
Proof.
  intros Hidx H0 Hi. destruct Hfix as [? ?]. unfold user_index in Hi.
  unfold add_translation_extended, get_tlb_fixed_entries, gets, mbind, prog_bind.
  destruct (Z.ltb_spec index 1); [done|]. simpl.
  rewrite !uwrap_id by (split; lia). split_cmp. done.
Qed.
End accepted.

(** C26: add_translation_extended either rejects an index outside
    1 .. fixed_entries-1 with -1 and no change of the machine, or returns 0
    after dropping the entry that translated the address in the current
    address space and writing the new entry at the index; no other entry and
    nothing else of the machine changes. *)
Theorem add_translation_extended_spec s index va pa page_size xwru cccc asid aa vg :
  in_u 32 va -> tlb_wf (tlb s) -> in_u 31 (tlb_fixed_entries s) ->
  tlb_fixed_entries s <= Z.of_nat (length (tlb s)) -> - 2 ^ 31 <= index < 2 ^ 31 ->
  (user_index s index ->
   add_translation_extended arch index va pa page_size xwru cccc asid aa vg s =
     Done 0 (set_tlb (<[Z.to_nat index := extended_entry arch va pa page_size xwru cccc asid aa vg]>
                        (drop_match (tlb s) (probe_of (cur_asid s) va))) s)) /\
  (~ user_index s index -> 0 < tlb_fixed_entries s ->
   add_translation_extended arch index va pa page_size xwru cccc asid aa vg s = Done (-1) s).
Proof.
  intros. split; intros.
  - by apply add_translation_extended_ok.
  - by apply add_translation_extended_reject.
Qed.

(** Overwriting one slot of a TLB where nothing matches a probe leaves at most
    that slot matching. *)
Lemma insert_only_match t x i e :
  (forall j, ~ matches_at t x j) -> (i < length t)%nat -> entry_matches x e = true ->
  matches_at (<[i := e]> t) x i /\ (forall j, matches_at (<[i := e]> t) x j -> j = i).
Proof.
  intros Hno Hi He. split.
  - exists e. split; [by apply list_lookup_insert_eq|done].
  - intros j (e' & Hj & Hm). destruct (decide (j = i)) as [|Hne]; [done|].
    rewrite list_lookup_insert_ne in Hj by done. exfalso. apply (Hno j). by exists e'.
Qed.

Lemma drop_match_wf t x : tlb_wf t -> tlb_wf (drop_match t x).
Proof.
  intros [Hf Hl]. split; [|by rewrite drop_match_length].
  unfold drop_match. destruct (_ =? _); [done|]. apply Forall_alter; [done|].
  intros. apply SET_FIELD_range. lia.
Qed.

Lemma insert_wf t i e : tlb_wf t -> in_u 64 e -> tlb_wf (<[i := e]> t).
Proof.
  intros [Hf Hl] He. split; [by apply Forall_insert|by rewrite length_insert].
Qed.

Lemma own_page_matches va pa p xwru cccc asid aa vg a :
  in_u 32 va -> in_u 43 pa -> page_aligned p pa -> in_u 7 a ->
  Z.testbit vg 1 = true -> Z.testbit vg 0 = true \/ Z.land asid 0x7f = a ->
  entry_matches (probe_of a va)
    (extended_entry arch va pa (PageSize p) xwru cccc asid aa vg) = true.
Proof.
  intros Hva Hpa Hal Ha Hv Hg. rewrite extended_entry_matches by done.
  rewrite probe_of_asid, probe_of_vpn, Hv by done. unfold same_page.
  rewrite Z.eqb_refl, andb_true_r, andb_true_l.
  destruct Hg as [-> | ->]; [done|]. by rewrite Z.eqb_refl, orb_true_r.
Qed.

(** C13: after a successful add_translation_extended of a valid entry for the
    current address space, at an address that at most one entry translated
    before, exactly the entry at the given index translates the address, the
    probe of the address in the current space returns that index, and the TLB
    stays well formed. *)
Theorem add_translation_installs s index va pa p xwru cccc asid aa vg :
  in_u 32 va -> in_u 43 pa -> page_aligned p pa ->
  tlb_wf (tlb s) -> in_u 31 (tlb_fixed_entries s) ->
  tlb_fixed_entries s <= Z.of_nat (length (tlb s)) -> user_index s index ->
  Z.testbit vg 1 = true -> Z.testbit vg 0 = true \/ Z.land asid 0x7f = cur_asid s ->
  unique_match (tlb s) (probe_of (cur_asid s) va) ->
  spec (add_translation_extended arch index va pa (PageSize p) xwru cccc asid aa vg) s
    (fun r s' => r = 0 /\ tlb_wf (tlb s') /\
       unique_match (tlb s') (probe_of (cur_asid s') va) /\
       tlb_probe va s' = Done index s').
Proof.
  intros Hva Hpa Hal Hwf Hfix Hlen Hui Hv Hg Hu. unfold wp.
  rewrite add_translation_extended_ok by done. split; [done|].
  set (t' := drop_match _ _). set (E := extended_entry _ _ _ _ _ _ _ _ _).
  pose proof (proj2 Hwf) as Hl. destruct Hui as [? ?].
  assert (Z.to_nat index < length t')%nat as Hi by (unfold t'; rewrite drop_match_length; lia).
  destruct (insert_only_match t' (probe_of (cur_asid s) va) (Z.to_nat index) E) as [Hm Hone];
    [by intros j; apply drop_match_none|done|by apply own_page_matches; auto using cur_asid_range|].
  rewrite tlb_probe_eq by done. simpl. split_and!.
  - apply insert_wf; [by apply drop_match_wf|by apply extended_entry_range].
  - intros i j Hi' Hj'. by rewrite (Hone i Hi'), (Hone j Hj').
  - do 2 f_equal. change (cur_asid (set_tlb _ s)) with (cur_asid s).
    rewrite (tlbp_one _ _ (Z.to_nat index)); [lia| |done|done].
    rewrite length_insert. unfold t'. by rewrite drop_match_length.
Qed.
Lemma drop_match_idemp t x :
  unique_match t x -> Z.of_nat (length t) < TLB_NOT_FOUND ->
  drop_match (drop_match t x) x = drop_match t x.
Proof.
  intros Hu Hl. unfold drop_match at 1. rewrite tlbp_none; [done|].
  intros i. by apply drop_match_none.
Qed.

(** C30: add_translation_fixed installs a global, valid 1M translation when the
    index is one of the user entries; with any other index it still drops the
    translation the address had, and reports nothing. *)
Theorem add_translation_fixed_spec s index va pa cccc permissions :
  in_u 32 va -> tlb_wf (tlb s) -> in_u 31 (tlb_fixed_entries s) -> 0 < tlb_fixed_entries s ->
  tlb_fixed_entries s <= Z.of_nat (length (tlb s)) -> - 2 ^ 31 <= index < 2 ^ 31 ->
  unique_match (tlb s) (probe_of (cur_asid s) va) ->
  let t' := drop_match (tlb s) (probe_of (cur_asid s) va) in
  (user_index s index ->
     add_translation_fixed arch index va pa cccc permissions s =
       Done tt (set_tlb (<[Z.to_nat index :=
         extended_entry arch va pa PAGE_1M (u32 permissions) (u32 cccc) 0 0 3]> t') s)) /\
  (~ user_index s index ->
     add_translation_fixed arch index va pa cccc permissions s = Done tt (set_tlb t' s)).
Proof.
  intros Hva Hwf Hfix Hf0 Hlen Hidx Hu t'.
  assert (tlb_wf (tlb (set_tlb t' s))) as Hwf' by by apply drop_match_wf.
  assert (tlb_fixed_entries s <= Z.of_nat (length t')) as Hlen'
    by (unfold t'; by rewrite drop_match_length).
  unfold add_translation_fixed, mbind, prog_bind.
  rewrite tlb_invalidate_eq by done. fold t'. split; intros Hi.
  - rewrite add_translation_extended_ok by done.
    change (cur_asid (set_tlb t' s)) with (cur_asid s). cbn [tlb set_tlb].
    unfold t'. rewrite drop_match_idemp by (done || apply Hwf). done.
  - by rewrite add_translation_extended_reject by done.
Qed.
End operations.

(* ------------------------------------------------------------------ *)
(** ** A concrete machine *)

Import ArrayTlb.

(** An empty TLB of eight entries, six of them fixed, as the programs find it. *)
Definition demo_upte : list Z := replicate (Z.to_nat 4096) 0.

Definition demo_sys : sys :=
  Sys (replicate 8 0) 0 0 0 0 6 demo_upte 0 (0, 0) (TestState 0 []).

Lemma demo_upte_length : Z.of_nat (length demo_upte) = 4096.
Proof. unfold demo_upte. rewrite length_replicate. lia. Qed.

Lemma demo_upte_range : Forall (in_u 16) demo_upte.
Proof. apply Forall_replicate. split; lia. Qed.

Lemma demo_wf : tlb_wf (tlb demo_sys).
Proof. split; [apply Forall_replicate; split; lia|vm_compute; congruence]. Qed.

Lemma empty_unique n x : unique_match (replicate n 0) x.
Proof. intros i j (e & [-> _]%lookup_replicate & He). discriminate. Qed.

Lemma add_translation_extended_spec_witness :
  user_index demo_sys 1 /\
  add_translation_extended 68 1 0x500000 0x300000 PAGE_1M 0xf 7 0 0 3 demo_sys =
    Done 0 (set_tlb (<[1%nat := extended_entry 68 0x500000 0x300000 PAGE_1M 0xf 7 0 0 3]> (replicate 8 0)) demo_sys).
Proof.
  assert (user_index demo_sys 1) as Hi by (split; simpl; lia).
  split; [exact Hi|].
  exact (proj1 (add_translation_extended_spec 68 demo_sys 1 0x500000 0x300000 PAGE_1M 0xf 7 0 0 3
    ltac:(split; lia) demo_wf ltac:(split; simpl; lia) ltac:(simpl; lia) ltac:(lia)) Hi).
Defined.

Lemma add_translation_installs_witness :
  user_index demo_sys 2 /\
  spec (add_translation_extended 68 2 0x500000 0x300000 (PageSize SHIFT_1M) 0xf 7 0 0 3) demo_sys
    (fun r s' => r = 0 /\ tlb_wf (tlb s') /\
       unique_match (tlb s') (probe_of (cur_asid s') 0x500000) /\
       tlb_probe 0x500000 s' = Done 2 s').
Proof.
  assert (user_index demo_sys 2) as Hi by (split; simpl; lia).
  split; [exact Hi|].
  apply (add_translation_installs 68 demo_sys 2 0x500000 0x300000 SHIFT_1M 0xf 7 0 0 3);
    first [exact Hi | exact demo_wf | apply empty_unique | by split; simpl; lia | done
          | by left | simpl; lia].
Defined.

Lemma add_translation_fixed_spec_witness :
  ~ user_index demo_sys 7 /\
  add_translation_fixed 68 7 0x500000 0x300000 7 0xf demo_sys =
    Done tt (set_tlb (drop_match (tlb demo_sys) (probe_of (cur_asid demo_sys) 0x500000)) demo_sys).
Proof.
  assert (~ user_index demo_sys 7) as Hi by (intros [_ H]; simpl in H; lia).
  split; [exact Hi|].
  refine (proj2 (add_translation_fixed_spec 68 demo_sys 7 0x500000 0x300000 7 0xf
    _ demo_wf _ _ _ _ (empty_unique _ _)) Hi); first [by split; simpl; lia | simpl; lia].
Defined.

(* ------------------------------------------------------------------ *)
(** ** The software page table *)

Definition pte_value (pa cccc : Z) : Z := Z.lor (Z.shiftl (Z.shiftr pa 20) 4) (Z.land cccc 0xf).

Lemma mb_index v : in_u 32 v -> 0 <= Z.shiftr v 20 < 4096.
Proof. intros. by apply (in_u_shiftr 32). Qed.

Lemma pte_value_range pa cccc : in_u 32 pa -> in_u 16 (pte_value pa cccc).
Proof.
  intros Hpa. apply in_u_lor; [lia|by apply (in_u_shiftl 12); [lia..|apply mb_index]|].
  eapply in_u_mono; [apply (in_u_land_r 4); [lia|split; done]|lia..].
Qed.

Lemma pte_fields e pa cccc :
  in_u 16 e -> in_u 32 pa ->
  insert_bits 16 (insert_bits 16 e 4 12 (Z.shiftr pa 20)) 0 4 cccc = pte_value pa cccc.
Proof.
  intros He Hpa. apply Z.bits_inj'. intros i Hi. rewrite !testbit_insert_bits by lia.
  unfold pte_value. change 0xf with (Z.ones 4). autorewrite with bits.
  split_cmp; simpl_bool; rewrite ?Z.sub_0_r; try done.
  all: by rewrite ?(testbit_in_u 16 e), ?(testbit_in_u 32 pa) by (done || lia).
Qed.

Lemma pte_value_pa pa cccc : in_u 32 pa -> SMALL_PTE_pa (pte_value pa cccc) = Z.shiftr pa 20.
Proof.
  intros Hpa. unfold SMALL_PTE_pa, pte_value. rewrite extract_lor, extract_shiftl_same by lia.
  rewrite (uwrap_id 12) by (by apply mb_index).
  rewrite (extract_high 4 (Z.land cccc 15)); [apply Z.lor_0_r| |lia..].
  apply in_u_land_r; [lia|split; done].
Qed.

Lemma pte_value_cache pa cccc : SMALL_PTE_cache (pte_value pa cccc) = Z.land cccc 0xf.
Proof.
  unfold SMALL_PTE_cache, pte_value. rewrite extract_lor, extract_shiftl_above by lia.
  rewrite Z.lor_0_l. apply extract_small; [|lia]. apply in_u_land_r; [lia|split; done].
Qed.

(** C31: add_translation always hits the 4096-entry table, sets the PTE of the
    address's megabyte to the top twelve bits of the physical address above the
    low four bits of cccc, and changes no other PTE and nothing else; reading
    the PTE back gives both fields. *)
Theorem add_translation_spec s va pa cccc :
  in_u 32 va -> in_u 32 pa -> Z.of_nat (length (upte s)) = 4096 -> Forall (in_u 16) (upte s) ->
  exists s',
    add_translation va pa cccc s = Done tt s' /\
    s' = set_upte (<[Z.to_nat (Z.shiftr va 20) := pte_value pa cccc]> (upte s)) s /\
    (forall va', in_u 32 va' -> exists e,
       findPTEValue va' s' = Done e s' /\
       (Z.shiftr va' 20 = Z.shiftr va 20 ->
          SMALL_PTE_pa e = Z.shiftr pa 20 /\ SMALL_PTE_cache e = Z.land cccc 0xf) /\
       (Z.shiftr va' 20 <> Z.shiftr va 20 -> findPTEValue va' s = Done e s)).
Proof.
  intros Hva Hpa Hlen Hf.
  pose proof (mb_index va Hva) as Hi. pose proof (mb_index pa Hpa) as Hp.
  exists (set_upte (<[Z.to_nat (Z.shiftr va 20) := pte_value pa cccc]> (upte s)) s).
  split_and!; [|done|].
  - destruct (lookup_lt_is_Some_2 (upte s) (Z.to_nat (Z.shiftr va 20))) as [e He]; [lia|].
    assert (in_u 16 e) as Hr by (rewrite Forall_lookup in Hf; by eapply Hf).
    unfold add_translation, findPTEAddr, gets, modify, mbind, prog_bind.
    rewrite lookupZ_spec, He by lia. cbn [of_option mret prog_ret].
    rewrite insertZ_spec by lia. cbn [of_option mret prog_ret]. cbn [upte set_upte].
    rewrite lookupZ_spec, list_lookup_insert_eq by lia. cbn [of_option mret prog_ret].
    rewrite insertZ_spec by (rewrite length_insert; lia). cbn [of_option mret prog_ret].
    rewrite list_insert_insert_eq, pte_fields by done. done.
  - intros va' Hva'. pose proof (mb_index va' Hva') as Hi'.
    unfold findPTEValue, findPTEAddr, gets, mbind, prog_bind. cbn [upte set_upte].
    rewrite !lookupZ_spec by lia.
    destruct (decide (Z.shiftr va' 20 = Z.shiftr va 20)) as [->|Hne].
    + rewrite list_lookup_insert_eq by lia. eexists. split; [done|].
      split; [intros _|done]. split; [apply pte_value_pa|apply pte_value_cache]; done.
    + rewrite list_lookup_insert_ne by lia.
      destruct (lookup_lt_is_Some_2 (upte s) (Z.to_nat (Z.shiftr va' 20))) as [e ->]; [lia|].
      by exists e.
Qed.

Lemma add_translation_spec_witness :
  in_u 32 0x500000 /\
  exists s', add_translation 0x500000 0x300000 7 demo_sys = Done tt s'.
Proof.
  split; [split; lia|].
  destruct (add_translation_spec demo_sys 0x500000 0x300000 7) as (s' & H & _);
    [split; lia|split; lia|exact demo_upte_length|exact demo_upte_range|].
  by exists s'.
Defined.
