(* ===== verification/Mmu.v ===== *)
(** [include/mmu.h]: the helpers the MMU tests share.  Decoding and building
    TLB entries, the TLB and mode-switching instructions, exception vectors and
    the exception handlers the tests install. *)

From S2P Require Import Prelude HexTest RegFields TlbHw Tlb.

Definition TARGET_PAGE_BITS : Z := 12.
Definition ONE_MB : Z := Z.shiftl 1 20.
Definition TWO_MB : Z := 2 * ONE_MB.
Definition THREE_MB : Z := 3 * ONE_MB.
Definition FOUR_MB : Z := 4 * ONE_MB.
Definition FIVE_MB : Z := 5 * ONE_MB.
Definition TWO_MB_ENTRY : Z := 2.
Definition THREE_MB_ENTRY : Z := 3.

Definition page_start (addr page_size_bits : Z) : Z :=
  let page_size := u32 (Z.shiftl 1 page_size_bits) in
  let page_align := unot 32 (page_size - 1) in
  Z.land addr page_align.

Definition tlb_entry_num (va : Z) : Z := Z.shiftr va 20.

(* ------------------------------------------------------------------ *)
(** ** Decoding and building entries *)

Definition NUM_PGSIZE_TYPES : Z := 10.

Definition size_str : list string :=
  ["4K"; "16K"; "64K"; "256K"; "1M"; "4M"; "16M"; "64M"; "256M"; "1G"]%string.

Definition pgsize_str {S} (pgsize : Z) : prog S string :=
  cassert (truth pgsize);; of_option (lookupZ size_str (ctz pgsize)).

Definition encmask_2_mask : list Z :=
  [0x0fff; 0x3fff; 0xffff; 0x3ffff; 0xfffff; 0x3fffff; 0xffffff; 0xffffffff].

Definition hex_tlb_pgsize {S} (entry : Z) : prog S Z :=
  cassert (negb (entry =? 0));;
  let size := ctz entry in
  cassert (size <? NUM_PGSIZE_TYPES);;
  mret size.

Definition hex_tlb_page_size {S} (entry : Z) : prog S Z :=
  sz ← hex_tlb_pgsize entry;
  mret (u32 (Z.shiftl 1 (TARGET_PAGE_BITS + 2 * sz))).

Definition hex_tlb_phys_page_num (entry : Z) : Z :=
  let ppd := u32 (GET_PPD entry) in
  Z.shiftr ppd 1.

(** The mask table has no element for the two largest page sizes. *)
Definition hex_tlb_phys_addr {S} (entry : Z) : prog S Z :=
  sz ← hex_tlb_pgsize entry;
  pagemask ← of_option (lookupZ encmask_2_mask sz);
  let pagenum := hex_tlb_phys_page_num entry in
  mret (Z.land (u64 (Z.shiftl pagenum TARGET_PAGE_BITS)) (unot 64 pagemask)).

Definition hex_tlb_virt_addr (entry : Z) : Z :=
  u64 (Z.shiftl (GET_FIELD entry PTE_VPN) TARGET_PAGE_BITS).

Definition create_mmu_entry (G A0 A1 ASID VA X W R U C PA SZ : Z) : Z :=
  let entry := 0 in
  let entry := SET_FIELD 64 entry PTE_V 1 in
  let entry := SET_FIELD 64 entry PTE_G G in
  let entry := SET_FIELD 64 entry PTE_ATR0 A0 in
  let entry := SET_FIELD 64 entry PTE_ATR1 A1 in
  let entry := SET_FIELD 64 entry PTE_ASID ASID in
  let entry := SET_FIELD 64 entry PTE_VPN (Z.shiftr VA TARGET_PAGE_BITS) in
  let entry := SET_FIELD 64 entry PTE_X X in
  let entry := SET_FIELD 64 entry PTE_W W in
  let entry := SET_FIELD 64 entry PTE_R R in
  let entry := SET_FIELD 64 entry PTE_U U in
  let entry := SET_FIELD 64 entry PTE_C C in
  let entry := SET_FIELD 64 entry PTE_PA35 (Z.land (Z.shiftr PA (TARGET_PAGE_BITS + 35)) 1) in
  let entry := SET_FIELD 64 entry PTE_PPD (Z.shiftr PA (TARGET_PAGE_BITS - 1)) in
  Z.lor entry SZ.

(* ------------------------------------------------------------------ *)
(** ** Instructions *)

Section mmu_h.
Context `{TlbSearch} (arch : Z).

Definition tlbr (i : Z) : prog sys Z := t ← gets tlb; of_option (lookupZ t i).

Definition tlbw (entry idx : Z) : prog sys () :=
  t ← gets tlb; t' ← of_option (insertZ t idx entry); modify (set_tlb t').

Definition tlbp (asid VA : Z) : prog sys Z :=
  let x := Z.lor (u32 (Z.shiftl (Z.land asid 0x7f) 20)) (Z.land (Z.shiftr VA 12) 0xfffff) in
  gets (fun s => tlbp_insn (tlb s) x).

Definition tlboc (entry : Z) : prog sys Z := gets (fun s => tlboc_insn (tlb s) entry).

(** The conditional write: it writes when nothing overlaps, and returns what
    the overlap check returns. *)
Definition ctlbw (entry idx : Z) : prog sys Z :=
  ret ← tlboc entry;
  if ret =? TLB_NOT_FOUND then tlbw entry idx;; mret ret else mret ret.

Definition tlbinvasid (entry_hi : Z) : prog sys () :=
  modify (fun s => set_tlb (tlbinvasid_insn (tlb s) entry_hi) s).

Definition setbit (r b : Z) : Z := Z.lor r (Z.shiftl 1 b).
Definition clrbit (r b : Z) : Z := Z.land r (unot 32 (Z.shiftl 1 b)).

Definition enter_user_mode : prog sys () :=
  r0 ← gets ssr;
  let r0 := clrbit r0 17 in
  let r0 := setbit r0 16 in
  let r0 := clrbit r0 19 in
  modify (set_ssr r0).

Definition enter_kernel_mode : prog sys () :=
  r0 ← gets ssr;
  let r0 := clrbit r0 17 in
  let r0 := clrbit r0 16 in
  let r0 := clrbit r0 19 in
  modify (set_ssr r0).

Definition getevb : prog sys Z := gets evb.
Definition setevb (new_evb : Z) : prog sys () := modify (set_evb new_evb).
Definition getbadva : prog sys Z := gets badva.
Definition inc_elr (inc : Z) : prog sys () := modify (fun s => set_elr (u32 (elr s + inc)) s).
Definition getssr : prog sys Z := gets ssr.
Definition setssr (new_ssr : Z) : prog sys () := modify (set_ssr new_ssr).

Definition set_asid (asid : Z) : prog sys () :=
  ssr ← getssr; setssr (SET_FIELD 32 ssr SSR_ASID asid).

(** [do_coredump] never comes back; the process ends with the thread-id value
    it leaves in STID. *)
Definition do_coredump : prog sys () := exit_with 2.

(* ------------------------------------------------------------------ *)
(** ** Exception vectors *)

Definition clear_exception_vector : Z * Z := (0, 0).

Definition set_exception_vector_bit (excp : Z * Z) (bit : Z) : Z * Z :=
  if bit <? 64 then (Z.lor excp.1 (Z.shiftl 1 bit), excp.2)
  else if bit <? 128 then (excp.1, Z.lor excp.2 (Z.shiftl 1 (bit - 64)))
  else excp.

Definition check_exception_vector (line : Z) (excp expect : Z * Z) (t : test_state) : test_state :=
  __check64 line excp.2 expect.2 (__check64 line excp.1 expect.1 t).

(** The causes a line of [print_exception_vector] lists, in order. *)
Definition print_exception_vector (excp : Z * Z) : list Z :=
  filter (fun i => truth (Z.land excp.1 (Z.shiftl 1 i)) = true) (seqZ 0 64) ++
  ((fun i => i + 64) <$> filter (fun i => truth (Z.land excp.2 (Z.shiftl 1 i)) = true) (seqZ 0 64)).

Definition record_exception (cause : Z) : prog sys () :=
  modify (fun s => set_my_exceptions (set_exception_vector_bit (my_exceptions s) cause) s).

Definition TLB_U : Z := Z.shiftl 1 0.
Definition TLB_R : Z := Z.shiftl 1 1.
Definition TLB_W : Z := Z.shiftl 1 2.
Definition TLB_X : Z := Z.shiftl 1 3.

Definition HEX_CAUSE_FETCH_NO_XPAGE : Z := 0x011.
Definition HEX_CAUSE_FETCH_NO_UPAGE : Z := 0x012.
Definition HEX_CAUSE_PRIV_NO_READ : Z := 0x022.
Definition HEX_CAUSE_PRIV_NO_WRITE : Z := 0x023.
Definition HEX_CAUSE_PRIV_NO_UREAD : Z := 0x024.
Definition HEX_CAUSE_PRIV_NO_UWRITE : Z := 0x025.
Definition HEX_CAUSE_IMPRECISE_MULTI_TLB_MATCH : Z := 0x044.
Definition HEX_CAUSE_TLBMISSX_NORMAL : Z := 0x060.
Definition HEX_CAUSE_TLBMISSRW_READ : Z := 0x070.
Definition HEX_CAUSE_TLBMISSRW_WRITE : Z := 0x071.

(* ------------------------------------------------------------------ *)
(** ** Exception handlers *)

(** One case of the permission switch: [entry = tlbr; SET_FIELD; tlbw]. *)
Definition add_permission (entry_num : Z) (f : reg_fields_enum) : prog sys () :=
  entry ← tlbr entry_num;
  tlbw (SET_FIELD 64 entry f 1) entry_num.

Definition my_event_handle_error_helper (ssr : Z) : prog sys () :=
  let cause := GET_FIELD ssr SSR_CAUSE in
  badva ← getbadva;
  let entry_num := tlb_entry_num badva in
  record_exception cause;;
  if cause =? HEX_CAUSE_FETCH_NO_XPAGE then add_permission entry_num PTE_X
  else if cause =? HEX_CAUSE_FETCH_NO_UPAGE then add_permission entry_num PTE_U
  else if cause =? HEX_CAUSE_PRIV_NO_READ then add_permission entry_num PTE_R
  else if cause =? HEX_CAUSE_PRIV_NO_WRITE then add_permission entry_num PTE_W
  else if cause =? HEX_CAUSE_PRIV_NO_UREAD then add_permission entry_num PTE_U
  else if cause =? HEX_CAUSE_PRIV_NO_UWRITE then add_permission entry_num PTE_U
  else do_coredump.

Definition my_event_handle_nmi_helper (ssr : Z) : prog sys () :=
  let cause := GET_FIELD ssr SSR_CAUSE in
  record_exception cause;;
  if cause =? HEX_CAUSE_IMPRECISE_MULTI_TLB_MATCH then mret tt else do_coredump.

Definition my_event_handle_tlbmissrw_helper (ssr : Z) : prog sys () :=
  let cause := GET_FIELD ssr SSR_CAUSE in
  badva ← getbadva;
  let entry_num := tlb_entry_num badva in
  let VA := page_start badva TARGET_PAGE_BITS in
  let PA := u32 (VA - u32 (entry_num * ONE_MB)) in
  let entry := create_mmu_entry 1 0 0 0 VA 0 0 0 1 0x3 PA PAGE_4K in
  let entry := if entry_num =? TWO_MB_ENTRY then SET_FIELD 64 entry PTE_R 1 else entry in
  let entry := if entry_num =? THREE_MB_ENTRY then SET_FIELD 64 entry PTE_W 1 else entry in
  record_exception cause;;
  if cause =? HEX_CAUSE_TLBMISSRW_READ then tlbw entry entry_num
  else if cause =? HEX_CAUSE_TLBMISSRW_WRITE then tlbw entry entry_num
  else do_coredump.

Definition my_event_handle_tlbmissx_helper (ssr : Z) : prog sys () :=
  let cause := GET_FIELD ssr SSR_CAUSE in
  badva ← getbadva;
  let entry_num := tlb_entry_num badva in
  let VA := page_start badva TARGET_PAGE_BITS in
  let PA := u32 (VA - u32 (entry_num * ONE_MB)) in
  let entry := create_mmu_entry 1 0 0 0 VA 0 0 0 1 0x3 PA PAGE_4K in
  record_exception cause;;
  if cause =? HEX_CAUSE_TLBMISSX_NORMAL then tlbw entry entry_num
  else do_coredump.

(** [my_event_vectors_addr] is the address the linker gives the vector table. *)
Definition install_my_event_vectors (my_event_vectors_addr : Z) : prog sys () :=
  e ← getevb;
  modify (set_old_evb e);;
  setevb my_event_vectors_addr.

(* ------------------------------------------------------------------ *)
(** ** Adding and removing translations *)

Definition remove_trans (index : Z) : prog sys () :=
  entry ← tlbr index;
  tlbw (SET_FIELD 64 entry PTE_V 0) index.

Definition clear_overlapping_entry (asid va : Z) : prog sys () :=
  index ← tlbp asid va;
  if negb (index =? TLB_NOT_FOUND) then remove_trans index else mret tt.

Definition add_trans (index va pa page_size xwru asid V G : Z) : prog sys () :=
  (if truth V then clear_overlapping_entry asid va else mret tt);;
  r ← add_translation_extended arch index va pa page_size xwru 0 asid 0
        (Z.lor (Z.shiftl (Z.land V 1) 1) (Z.land G 1));
  cassert (negb (truth r)).

End mmu_h.

(* ------------------------------------------------------------------ *)
(** ** Decoding an entry *)

(** The number of low address bits the mask table clears for a page size; the
    table stops before the two largest sizes. *)
Definition masked_bits (p : PageShift) : option Z :=
  match p with
  | SHIFT_64M => Some 32
  | SHIFT_256M | SHIFT_1G => None
  | _ => Some (page_bits p)
  end.

Lemma encmask_lookup p :
  lookupZ encmask_2_mask (shift_value p) = Z.ones <$> masked_bits p.
Proof. by destruct p. Qed.

Section decode.
Context {S : Type} (e pa b : Z) (p : PageShift).
Context (Hpa : in_u 43 pa) (Hal : page_aligned p pa) (Hb : in_u 1 b).
Context (Hppd : GET_FIELD e PTE_PPD = extract (ppn_part pa p) 0 24).
Context (Hpa35 : GET_FIELD e PTE_PA35 = b) (Hctz : ctz e = shift_value p) (He : e <> 0).

Lemma hex_tlb_pgsize_eq (s : S) : hex_tlb_pgsize e s = Done (shift_value p) s.
Proof.
  unfold hex_tlb_pgsize, mbind, prog_bind. rewrite (proj2 (Z.eqb_neq e 0)) by done.
  cbn [negb cassert mret prog_ret]. rewrite Hctz. by destruct p.
Qed.

Lemma hex_tlb_page_size_eq (s : S) : hex_tlb_page_size e s = Done (Z.shiftl 1 (page_bits p)) s.
Proof.
  unfold hex_tlb_page_size, mbind, prog_bind. rewrite hex_tlb_pgsize_eq. by destruct p.
Qed.

Lemma ppd_bits i :
  Z.testbit (u32 (GET_PPD e)) i =
    if i =? 24 then Z.testbit b 0 else (0 <=? i) && (i <? 24) && Z.testbit (ppn_part pa p) i.
Proof.
  destruct (Z.lt_ge_cases i 0) as [Hi|Hi]; [rewrite Z.testbit_neg_r by lia; by split_cmp|].
  unfold GET_PPD. rewrite Hppd, Hpa35. cbn [reg_field_info width].
  rewrite testbit_uwrap, Z.lor_spec, testbit_extract, testbit_shiftl by lia.
  rewrite Z.add_0_r. split_cmp; simpl_bool; try done; try (subst i; done).
  all: first [ by rewrite (Z.testbit_neg_r b), ?orb_false_r by lia
             | by rewrite (testbit_in_u 1 b) by (done || lia) ].
Qed.

(** The physical address an entry decodes to: the page number with the extra
    bit above it, less the bits the mask clears. *)
Lemma hex_tlb_phys_addr_eq m (s : S) :
  masked_bits p = Some m ->
  exists a, hex_tlb_phys_addr e s = Done a s /\
    forall i, 0 <= i -> Z.testbit a i =
      (m <=? i) && (if i =? 35 then Z.testbit b 0 else (i <? 35) && Z.testbit pa i).
Proof.
  intros Hm. unfold hex_tlb_phys_addr, mbind, prog_bind.
  rewrite hex_tlb_pgsize_eq, encmask_lookup, Hm. cbn [fmap option_fmap option_map of_option mret prog_ret].
  eexists. split; [done|]. intros i Hi.
  assert (page_bits p <= m /\ 12 <= m <= 32 /\ shift_value p + 12 <= m) as (Hpm & Hm32 & Hks).
  { destruct p; simpl in Hm; try done; injection Hm as <-; unfold page_bits; simpl; lia. }
  unfold hex_tlb_phys_page_num, unot, TARGET_PAGE_BITS. cbv zeta.
  generalize ppd_bits. generalize (u32 (GET_PPD e)). intros ppd Hbits. autorewrite with bits.
  pose proof (shift_value_range p).
  destruct (Z.leb_spec m i); cycle 1.
  { split_cmp; by simpl_bool. }
  rewrite Hbits. replace (i - 12 + 1) with (i - 11) by lia.
  destruct (Z.eqb_spec i 35) as [->|]; [split_cmp; by simpl_bool|].
  rewrite (proj2 (Z.eqb_neq (i - 11) 24)) by lia.
  split_cmp; simpl_bool; try done.
  rewrite ppn_part_testbit by lia. rewrite (proj2 (Z.ltb_lt 0 (i - 11))) by lia.
  rewrite (proj2 (Z.eqb_neq (i - 11) (shift_value p))) by lia. simpl_bool.
  f_equal. lia.
Qed.

Lemma hex_tlb_phys_addr_undef (s : S) : masked_bits p = None -> hex_tlb_phys_addr e s = Undef.
Proof.
  intros Hm. unfold hex_tlb_phys_addr, mbind, prog_bind.
  by rewrite hex_tlb_pgsize_eq, encmask_lookup, Hm.
Qed.
End decode.

(** Clearing low bits. *)
Definition clear_low (m a : Z) : Z := Z.land a (Z.lnot (Z.ones m)).

Lemma clear_low_bits m a i :
  0 <= m -> 0 <= i -> Z.testbit (clear_low m a) i = (m <=? i) && Z.testbit a i.
Proof.
  intros. unfold clear_low. autorewrite with bits. split_cmp; by simpl_bool.
Qed.

Lemma clear_low_aligned p a : 0 <= a -> page_aligned p a -> clear_low (page_bits p) a = a.
Proof.
  intros Ha Hal. apply Z.bits_inj'. intros i Hi. pose proof (shift_value_range p).
  rewrite clear_low_bits by (unfold page_bits; lia).
  destruct (Z.leb_spec (page_bits p) i); [done|]. symmetry. by apply (page_aligned_bit p).
Qed.

Lemma page_start_clear_low addr k :
  in_u 32 addr -> 0 <= k < 32 -> page_start addr k = clear_low k addr.
Proof.
  intros Ha Hk. unfold page_start, unot. rewrite (uwrap_id 32 (Z.shiftl 1 k)).
  2:{ rewrite Z.shiftl_1_l. split; [apply Z.pow_nonneg; lia|]. apply Z.pow_lt_mono_r; lia. }
  replace (Z.shiftl 1 k - 1) with (Z.ones k) by (rewrite Z.ones_equiv, Z.shiftl_1_l; lia).
  apply Z.bits_inj'. intros i Hi. rewrite clear_low_bits by lia. autorewrite with bits.
  split_cmp; simpl_bool; try done. by rewrite (testbit_in_u 32 addr).
Qed.

Lemma virt_addr_of e va :
  in_u 32 va -> GET_FIELD e PTE_VPN = Z.shiftr va 12 -> hex_tlb_virt_addr e = page_start va 12.
Proof.
  intros Hva He. unfold hex_tlb_virt_addr, TARGET_PAGE_BITS. rewrite He.
  rewrite page_start_clear_low by (done || lia).
  apply Z.bits_inj'. intros i Hi. rewrite clear_low_bits by lia. autorewrite with bits.
  split_cmp; simpl_bool; try done.
  - f_equal. lia.
  - by rewrite (testbit_in_u 32 va) by (done || lia).
Qed.

Lemma phys_bits36 m pa i :
  in_u 36 pa -> 0 <= m -> 0 <= i ->
  (m <=? i) && (if i =? 35 then Z.testbit (extract pa 35 1) 0 else (i <? 35) && Z.testbit pa i) =
  Z.testbit (clear_low m pa) i.
Proof.
  intros Hpa Hm Hi. rewrite clear_low_bits by lia. f_equal.
  destruct (Z.eqb_spec i 35) as [->|]; [by rewrite testbit_extract by lia|].
  split_cmp; simpl_bool; [done|]. by rewrite (testbit_in_u 36 pa) by (done || lia).
Qed.

Lemma phys_addr_36 {S} e pa p m (s : S) :
  in_u 36 pa -> page_aligned p pa ->
  GET_FIELD e PTE_PPD = extract (ppn_part pa p) 0 24 -> GET_FIELD e PTE_PA35 = extract pa 35 1 ->
  ctz e = shift_value p -> e <> 0 -> masked_bits p = Some m ->
  hex_tlb_phys_addr e s = Done (clear_low m pa) s.
Proof.
  intros Hpa Hal Hppd H35 Hc H0 Hm.
  destruct (hex_tlb_phys_addr_eq e pa (extract pa 35 1) p Hal ltac:(apply extract_range; lia) Hppd H35 Hc H0 m s Hm)
    as (a & -> & Ha).
  assert (0 <= m) by (destruct p; simpl in Hm; try done; injection Hm as <-; done).
  f_equal. apply Z.bits_inj'. intros i Hi. rewrite Ha by done. by apply phys_bits36.
Qed.

Lemma ctz_nonzero e k : Z.testbit e k = true -> e <> 0.
Proof. intros Hb ->. by rewrite Z.bits_0 in Hb. Qed.



(* ------------------------------------------------------------------ *)
(** ** Building an entry *)

Section create.
Context (G A0 A1 asid VA X W R U C PA : Z) (p : PageShift).
Context (HVA : in_u 32 VA) (HPA : 0 <= PA) (Hal : page_aligned p PA).
Abbreviation E := (create_mmu_entry G A0 A1 asid VA X W R U C PA (PageSize p)).

Ltac created :=
  rewrite GET_FIELD_extract; unfold create_mmu_entry; cbv zeta;
  cbn [reg_field_info offset width]; rewrite extract_lor;
  rewrite (extract_high 10 (PageSize p)) by (apply PageSize_range || lia);
  rewrite Z.lor_0_r, !SET_FIELD_insert; cbn [reg_field_info offset width];
  autorewrite with fields.

Lemma create_mmu_entry_VPN : GET_FIELD E PTE_VPN = Z.shiftr VA 12.
Proof. created. apply extract_small; [by apply (in_u_shiftr 32)|lia]. Qed.

Lemma create_mmu_entry_V : GET_FIELD E PTE_V = 1.
Proof. by created. Qed.

Lemma create_mmu_entry_PA35 : GET_FIELD E PTE_PA35 = extract PA 47 1.
Proof.
  created. change 1 with (Z.ones 1) at 1. rewrite extract_land_ones by lia.
  by rewrite extract_shiftr by (unfold TARGET_PAGE_BITS; lia).
Qed.

Lemma create_mmu_entry_arg f v :
  (f, v) ∈ [(PTE_G, G); (PTE_ATR0, A0); (PTE_ATR1, A1); (PTE_ASID, asid); (PTE_X, X);
            (PTE_W, W); (PTE_R, R); (PTE_U, U); (PTE_C, C)] ->
  GET_FIELD E f = extract v 0 (width (reg_field_info f)).
Proof.
  intros Hf.
  repeat (apply elem_of_cons in Hf as [[= -> ->]|Hf]; [by created|]).
  by apply not_elem_of_nil in Hf.
Qed.

Lemma create_mmu_entry_low i :
  0 <= i < 24 -> Z.testbit E i = Z.testbit (ppn_part PA p) i.
Proof.
  intros Hi. unfold create_mmu_entry. cbv zeta. rewrite Z.lor_spec, SET_FIELD_insert.
  cbn [reg_field_info offset width]. rewrite testbit_insert_bits by lia.
  unfold ppn_part, TARGET_PAGE_BITS. autorewrite with bits. split_cmp; simpl_bool.
  - do 2 f_equal. lia.
  - assert (i = 0) as -> by lia. rewrite (page_aligned_bit p); [done..|].
    pose proof (shift_value_range p). unfold page_bits. lia.
Qed.

Lemma create_mmu_entry_PPD : GET_FIELD E PTE_PPD = extract (ppn_part PA p) 0 24.
Proof.
  rewrite GET_FIELD_extract. cbn [reg_field_info offset width].
  apply Z.bits_inj'. intros i Hi. rewrite !testbit_extract by lia.
  split_cmp; [|done]. simpl. rewrite Z.add_0_r. by apply create_mmu_entry_low.
Qed.

Lemma create_mmu_entry_size_bit : Z.testbit E (shift_value p) = true.
Proof.
  pose proof (shift_value_range p). rewrite create_mmu_entry_low, ppn_part_low by (done || lia).
  apply Z.eqb_refl.
Qed.

Lemma create_mmu_entry_range : in_u 64 E.
Proof.
  apply in_u_lor; [lia|apply SET_FIELD_range; lia|].
  eapply in_u_mono; [apply PageSize_range|lia..].
Qed.

Lemma create_mmu_entry_ctz : ctz E = shift_value p.
Proof.
  pose proof (shift_value_range p). pose proof create_mmu_entry_size_bit as Hb.
  pose proof (ctz_nonzero _ _ Hb). pose proof create_mmu_entry_range as [? ?].
  apply ctz_spec; [lia|lia|done|].
  intros i Hi. rewrite create_mmu_entry_low, ppn_part_low by (done || lia). split_cmp. done.
Qed.
End create.

(** The 35-bit physical addresses are those the entry format can hold without
    its extra bit. *)
Definition low35 (pa : Z) : Z := uwrap 35 pa.

Lemma low35_aligned p pa : page_aligned p pa -> page_aligned p (low35 pa).
Proof.
  intros Ha. unfold page_aligned in *. apply Z.bits_inj'. intros i Hi. rewrite Z.bits_0.
  assert (0 <= page_bits p) by (pose proof (shift_value_range p); unfold page_bits; lia).
  unfold low35. autorewrite with bits. destruct (Z.ltb_spec i (page_bits p)).
  - rewrite (page_aligned_bit p) by done. split_cmp; by simpl_bool.
  - split_cmp; by simpl_bool.
Qed.

Lemma ppn_part_low35 p pa :
  extract (ppn_part pa p) 0 24 = extract (ppn_part (low35 pa) p) 0 24.
Proof.
  unfold ppn_part, low35. rewrite !extract_lor. f_equal.
  apply Z.bits_inj'. intros i Hi. autorewrite with bits. split_cmp; by simpl_bool.
Qed.

(** C28: create_mmu_entry stores each argument, truncated to its field, in the
    field of its name, sets the valid bit and encodes the page size; decoding
    the entry gives back the virtual page, the page size and, for page sizes up
    to 16M, the physical address without its bits 35 and up. *)
Theorem create_mmu_entry_decodes G A0 A1 ASID VA X W R U C PA p (s : ()) :
  in_u 32 VA -> in_u 36 PA -> page_aligned p PA ->
  let e := create_mmu_entry G A0 A1 ASID VA X W R U C PA (PageSize p) in
  GET_FIELD e PTE_V = 1 /\
  (forall f v,
     (f, v) ∈ [(PTE_G, G); (PTE_ATR0, A0); (PTE_ATR1, A1); (PTE_ASID, ASID); (PTE_X, X);
               (PTE_W, W); (PTE_R, R); (PTE_U, U); (PTE_C, C)] ->
     GET_FIELD e f = uwrap (width (reg_field_info f)) v) /\
  hex_tlb_virt_addr e = page_start VA 12 /\
  hex_tlb_page_size e s = Done (Z.shiftl 1 (page_bits p)) s /\
  (p <> SHIFT_64M -> p <> SHIFT_256M -> p <> SHIFT_1G ->
     hex_tlb_phys_addr e s = Done (low35 PA) s).
Proof.
  intros HVA HPA36 Hal e.
  assert (0 <= PA) as HPA by apply HPA36.
  pose proof (low35_aligned p PA Hal) as Hal35.
  assert (in_u 36 (low35 PA)) as H36.
  { eapply in_u_mono; [apply uwrap_range|..]; lia. }
  assert (GET_FIELD e PTE_PPD = extract (ppn_part (low35 PA) p) 0 24) as Hppd.
  { rewrite <- ppn_part_low35. by apply create_mmu_entry_PPD. }
  assert (GET_FIELD e PTE_PA35 = extract (low35 PA) 35 1) as H35.
  { rewrite (extract_high 35 (low35 PA)) by (try apply uwrap_range; lia).
    unfold e. rewrite create_mmu_entry_PA35. by apply (extract_high 36). }
  assert (ctz e = shift_value p) as Hctz by by apply create_mmu_entry_ctz.
  assert (e <> 0) as H0 by by apply (ctz_nonzero _ _ (create_mmu_entry_size_bit _ _ _ _ _ _ _ _ _ _ _ _ Hal)).
  split_and!.
  - apply create_mmu_entry_V.
  - intros f v Hf. rewrite uwrap_extract by (pose proof (field_in_reg f); lia).
    by apply create_mmu_entry_arg.
  - apply virt_addr_of; [done|]. by apply create_mmu_entry_VPN.
  - by apply (hex_tlb_page_size_eq e (low35 PA) p).
  - intros. rewrite (phys_addr_36 e (low35 PA) p (page_bits p)); [|done..|by destruct p].
    by rewrite clear_low_aligned by (apply H36 || done).
Qed.

Lemma create_mmu_entry_decodes_witness :
  in_u 32 0x500000 /\ in_u 36 0x900300000 /\ page_aligned SHIFT_4K 0x900300000 /\
  hex_tlb_phys_addr (create_mmu_entry 1 0 0 5 0x500000 1 1 1 0 7 0x900300000 (PageSize SHIFT_4K)) tt =
    Done 0x100300000 tt.
Proof.
  assert (in_u 32 0x500000) as H1 by (split; lia).
  assert (in_u 36 0x900300000) as H2 by (split; lia).
  assert (page_aligned SHIFT_4K 0x900300000) as H3 by reflexivity.
  do 3 (split; [assumption|]).
  destruct (create_mmu_entry_decodes 1 0 0 5 0x500000 1 1 1 0 7 0x900300000 SHIFT_4K tt H1 H2 H3)
    as (_ & _ & _ & _ & H).
  by apply H.
Defined.

(* ------------------------------------------------------------------ *)
(** ** Translations added and removed *)

Section ops.
Context `{HL : TlbSearchLaws} (arch : Z).

Lemma land_7f asid : in_u 7 (Z.land asid 0x7f).
Proof. apply in_u_land_r; [lia|]. split; done. Qed.

Lemma tlbp_eq asid va s :
  in_u 32 va -> tlbp asid va s = Done (tlbp_insn (tlb s) (probe_of (Z.land asid 0x7f) va)) s.
Proof.
  intros Hva. unfold tlbp, gets. do 2 f_equal. unfold probe_of. f_equal.
  - apply uwrap_id. eapply in_u_mono; [apply (in_u_shiftl 7 20); [lia..|apply land_7f]|lia..].
  - change 0xfffff with (Z.ones 20). rewrite Z.land_ones by lia. apply (uwrap_id 20).
    by apply (in_u_shiftr 32).
Qed.

Lemma tlbr_eq i s e : 0 <= i -> tlb s !! Z.to_nat i = Some e -> tlbr i s = Done e s.
Proof.
  intros Hi He. unfold tlbr, gets, mbind, prog_bind. by rewrite lookupZ_spec, He.
Qed.

Lemma tlbw_eq e i s :
  0 <= i < Z.of_nat (length (tlb s)) ->
  tlbw e i s = Done tt (set_tlb (<[Z.to_nat i := e]> (tlb s)) s).
Proof. apply write_tlb_entry_eq. Qed.

(** Reading an entry, changing it and writing it back. *)
Lemma rmw_entry_eq (f : Z -> Z) i s :
  0 <= i < Z.of_nat (length (tlb s)) ->
  (entry ← tlbr i; tlbw (f entry) i) s = Done tt (set_tlb (alter f (Z.to_nat i) (tlb s)) s).
Proof.
  intros Hi. destruct (lookup_lt_is_Some_2 (tlb s) (Z.to_nat i)) as [e He]; [lia|].
  unfold mbind, prog_bind. rewrite (tlbr_eq i s e), tlbw_eq by (done || lia).
  by rewrite (insert_as_alter f _ _ _ He).
Qed.

Lemma remove_trans_eq i s :
  0 <= i < Z.of_nat (length (tlb s)) ->
  remove_trans i s = Done tt (set_tlb (alter invalid (Z.to_nat i) (tlb s)) s).
Proof. apply (rmw_entry_eq invalid). Qed.

Lemma clear_overlapping_entry_eq asid va s :
  in_u 32 va ->
  clear_overlapping_entry asid va s =
    Done tt (set_tlb (drop_match (tlb s) (probe_of (Z.land asid 0x7f) va)) s).
Proof.
  intros Hva. unfold clear_overlapping_entry. unfold mbind, prog_bind. rewrite tlbp_eq by done.
  set (x := probe_of _ _). unfold drop_match.
  destruct (Z.eqb_spec (tlbp_insn (tlb s) x) TLB_NOT_FOUND); cbn [negb]; [by destruct s|].
  destruct (tlbp_sound (tlb s) x) as [|(j & -> & (e & He & _))]; [done|].
  apply remove_trans_eq. apply lookup_lt_Some in He. lia.
Qed.

Lemma alter_invalid_match t x i j :
  matches_at (alter invalid i t) x j -> j <> i /\ matches_at t x j.
Proof.
  intros (e & He & Hm). destruct (decide (j = i)) as [->|Hne].
  - rewrite list_lookup_alter_eq in He. destruct (t !! i); [|done].
    injection He as <-. by rewrite invalid_no_match in Hm.
  - rewrite list_lookup_alter_ne in He by done. split; [done|]. by exists e.
Qed.

Lemma drop_match_sub t x x' j : matches_at (drop_match t x) x' j -> matches_at t x' j.
Proof.
  unfold drop_match. destruct (_ =? _); [done|]. intros H'. by apply alter_invalid_match in H' as [_ ?].
Qed.

Lemma drop_match_unique t x x' : unique_match t x' -> unique_match (drop_match t x) x'.
Proof. intros Hu i j Hi Hj. apply Hu; by eapply drop_match_sub. Qed.

Lemma add_trans_split index va pa page_size xwru asid V G s :
  in_u 32 va -> Z.testbit V 0 = true ->
  add_trans arch index va pa page_size xwru asid V G s =
    (r ← add_translation_extended arch index va pa page_size xwru 0 asid 0
           (Z.lor (Z.shiftl (Z.land V 1) 1) (Z.land G 1));
     cassert (negb (truth r)))
    (set_tlb (drop_match (tlb s) (probe_of (Z.land asid 0x7f) va)) s).
Proof.
  intros Hva HV. unfold add_trans.
  assert (truth V = true) as ->
    by (unfold truth; destruct (Z.eqb_spec V 0) as [->|]; [by rewrite Z.bits_0 in HV|done]).
  unfold mbind at 1, prog_bind at 1. by rewrite clear_overlapping_entry_eq.
Qed.

Lemma added_entry_matches va pa p xwru asid V G :
  in_u 32 va -> in_u 43 pa -> page_aligned p pa -> Z.testbit V 0 = true ->
  entry_matches (probe_of (Z.land asid 0x7f) va)
    (extended_entry arch va pa (PageSize p) xwru 0 asid 0
       (Z.lor (Z.shiftl (Z.land V 1) 1) (Z.land G 1))) = true.
Proof.
  intros Hva Hpa Hal HV. apply own_page_matches; try done; [apply land_7f| |by right].
  rewrite Z.lor_spec, Z.shiftl_spec by lia. change (1 - 1) with 0. change 1 with (Z.ones 1).
  by rewrite Z.land_spec, HV.
Qed.

(** C25: add_trans of a valid entry leaves exactly the given entry translating
    its address in its address space, so that tlbp finds it there; with an
    index that is not a user entry the assertion ends the process. *)
Theorem add_trans_installs s index va pa p xwru asid V G :
  in_u 32 va -> in_u 43 pa -> page_aligned p pa ->
  tlb_wf (tlb s) -> in_u 31 (tlb_fixed_entries s) -> 0 < tlb_fixed_entries s ->
  tlb_fixed_entries s <= Z.of_nat (length (tlb s)) -> - 2 ^ 31 <= index < 2 ^ 31 ->
  Z.testbit V 0 = true -> unique_match (tlb s) (probe_of (Z.land asid 0x7f) va) ->
  (user_index s index ->
     spec (add_trans arch index va pa (PageSize p) xwru asid V G) s
       (fun _ s' => tlb_wf (tlb s') /\ tlbp asid va s' = Done index s' /\
          (forall i, matches_at (tlb s') (probe_of (Z.land asid 0x7f) va) i -> i = Z.to_nat index))) /\
  (~ user_index s index ->
     exists s', add_trans arch index va pa (PageSize p) xwru asid V G s = Exited 1 s').
Proof.
  intros Hva Hpa Hal Hwf Hfix Hf0 Hlen Hidx HV Hu.
  set (x := probe_of (Z.land asid 0x7f) va) in *.
  set (s1 := set_tlb (drop_match (tlb s) x) s).
  assert (tlb_wf (tlb s1)) as Hwf1 by by apply drop_match_wf.
  assert (tlb_fixed_entries s1 <= Z.of_nat (length (tlb s1))) as Hlen1
    by (simpl; by rewrite drop_match_length).
  unfold wp. rewrite (add_trans_split index va pa (PageSize p) xwru asid V G s) by done. fold x s1.
  split; intros Hi; unfold mbind, prog_bind.
  - pose proof Hi as [? ?]. rewrite add_translation_extended_ok by done. simpl.
    set (E := extended_entry _ _ _ _ _ _ _ _ _). set (t2 := drop_match _ _).
    assert (Z.to_nat index < length t2)%nat as Hlt by (unfold t2; rewrite !drop_match_length; lia).
    destruct (insert_only_match t2 x (Z.to_nat index) E) as [Hm Hone];
      [|done|by apply added_entry_matches|].
    { intros j Hj%drop_match_sub. revert Hj. apply drop_match_none; [done|apply Hwf]. }
    split_and!.
    + apply insert_wf; [by apply drop_match_wf|by apply extended_entry_range].
    + rewrite tlbp_eq by done. fold x. simpl.
      rewrite (tlbp_one _ _ (Z.to_nat index)); [do 2 f_equal; lia| |done|done].
      rewrite length_insert. unfold t2. rewrite !drop_match_length. apply Hwf.
    + done.
  - rewrite add_translation_extended_reject by done. by eexists.
Qed.
End ops.

Section machine_demo.
Import ArrayTlb.

Lemma add_trans_installs_witness :
  user_index demo_sys 1 /\
  spec (add_trans 68 1 0x500000 0x300000 (PageSize SHIFT_1M) 0xf 0 1 1) demo_sys
    (fun _ s' => tlbp 0 0x500000 s' = Done 1 s').
Proof.
  assert (user_index demo_sys 1) as Hi by (split; simpl; lia).
  split; [exact Hi|].
  eapply wp_mono; [apply (add_trans_installs 68 demo_sys 1 0x500000 0x300000 SHIFT_1M 0xf 0 1 1);
    first [exact Hi | exact demo_wf | apply empty_unique | by split; simpl; lia | done | simpl; lia]|].
  intros _ s' (_ & Hp & _). exact Hp.
Defined.
End machine_demo.

(* ------------------------------------------------------------------ *)
(** ** The exception handlers *)

(** The permission the error handler grants for a cause. *)
Definition granted_permission (cause : Z) : option reg_fields_enum :=
  if cause =? HEX_CAUSE_FETCH_NO_XPAGE then Some PTE_X
  else if cause =? HEX_CAUSE_FETCH_NO_UPAGE then Some PTE_U
  else if cause =? HEX_CAUSE_PRIV_NO_READ then Some PTE_R
  else if cause =? HEX_CAUSE_PRIV_NO_WRITE then Some PTE_W
  else if cause =? HEX_CAUSE_PRIV_NO_UREAD then Some PTE_U
  else if cause =? HEX_CAUSE_PRIV_NO_UWRITE then Some PTE_U
  else None.

Definition grant (f : reg_fields_enum) (e : Z) : Z := SET_FIELD 64 e f 1.

(** The state once the handler has recorded the cause. *)
Definition recorded (cause : Z) (s : sys) : sys :=
  set_my_exceptions (set_exception_vector_bit (my_exceptions s) cause) s.

Definition is_permission (f : reg_fields_enum) : bool :=
  match f with PTE_U | PTE_R | PTE_W | PTE_X => true | _ => false end.

Lemma granted_permission_pte c f : granted_permission c = Some f -> is_permission f = true.
Proof. unfold granted_permission. repeat case_match; by intros [= <-]. Qed.

Lemma add_permission_eq f n s :
  0 <= n < Z.of_nat (length (tlb s)) ->
  add_permission n f s = Done tt (set_tlb (alter (grant f) (Z.to_nat n) (tlb s)) s).
Proof. apply (rmw_entry_eq (grant f)). Qed.

Lemma error_helper_eq s ssr :
  0 <= badva s -> tlb_entry_num (badva s) < Z.of_nat (length (tlb s)) ->
  my_event_handle_error_helper ssr s =
    let s1 := recorded (GET_FIELD ssr SSR_CAUSE) s in
    match granted_permission (GET_FIELD ssr SSR_CAUSE) with
    | Some f => Done tt (set_tlb (alter (grant f) (Z.to_nat (tlb_entry_num (badva s))) (tlb s)) s1)
    | None => Exited 2 s1
    end.
Proof.
  intros Hb Hn. unfold my_event_handle_error_helper, getbadva, gets, record_exception, modify.
  unfold mbind, prog_bind. set (c := GET_FIELD ssr SSR_CAUSE). fold (recorded c s).
  assert (0 <= tlb_entry_num (badva s)) by (apply Z.shiftr_nonneg; lia).
  unfold granted_permission.
  repeat case_match; try (rewrite add_permission_eq by (unfold recorded; sys_simpl; lia)); simplify_eq; done.
Qed.

Lemma grant_same f e : is_permission f = true -> GET_FIELD (grant f e) f = 1.
Proof.
  intros Hf. unfold grant. assert (reg_width f = 64) as <- by by destruct f.
  rewrite get_set_same. by destruct f.
Qed.

Lemma grant_other f g e :
  is_permission f = true -> g <> f -> reg_width g = 64 ->
  GET_FIELD (grant f e) g = GET_FIELD e g.
Proof.
  intros Hf Hg Hw. unfold grant. assert (reg_width f = 64) as Hf64 by by destruct f.
  rewrite <- Hf64. apply get_set_other; congruence.
Qed.

(** The error handler records the cause and, for a permission cause, sets
    exactly the permission bit the cause names in the entry of the faulting
    megabyte: that bit becomes 1, every other field of the entry and every
    other entry keeps its value; any other cause ends the process after the
    cause is recorded. *)
Theorem error_helper_grants s ssr :
  0 <= badva s -> tlb_entry_num (badva s) < Z.of_nat (length (tlb s)) ->
  let n := Z.to_nat (tlb_entry_num (badva s)) in
  match granted_permission (GET_FIELD ssr SSR_CAUSE) with
  | Some f => exists s' e,
      my_event_handle_error_helper ssr s = Done tt s' /\
      my_exceptions s' = set_exception_vector_bit (my_exceptions s) (GET_FIELD ssr SSR_CAUSE) /\
      tlb s !! n = Some e /\ (exists e', tlb s' !! n = Some e' /\ GET_FIELD e' f = 1 /\
        forall g, g <> f -> reg_width g = 64 -> GET_FIELD e' g = GET_FIELD e g) /\
      (forall j, j <> n -> tlb s' !! j = tlb s !! j)
  | None => exists s', my_event_handle_error_helper ssr s = Exited 2 s' /\ tlb s' = tlb s
  end.
Proof.
  intros Hb Hn n. rewrite error_helper_eq by done. cbv zeta.
  destruct (granted_permission _) as [f|] eqn:Hf; [|by eexists].
  apply granted_permission_pte in Hf.
  destruct (lookup_lt_is_Some_2 (tlb s) n) as [e He].
  { unfold n. assert (0 <= tlb_entry_num (badva s)) by (apply Z.shiftr_nonneg; lia). lia. }
  eexists _, e. split_and!; [done|done|done| |].
  - exists (grant f e). unfold recorded. sys_simpl. fold n. rewrite list_lookup_alter_eq, He.
    split_and!; [done|by apply grant_same|]. intros. by apply grant_other.
  - intros j Hj. unfold recorded. sys_simpl. by apply list_lookup_alter_ne.
Qed.

Definition fault_sys : sys :=
  Sys (replicate 8 (2 ^ 63)) 0 0x100004 0 0 6 [] 0 (0, 0) (TestState 0 []).

Lemma error_helper_grants_witness :
  0 <= badva fault_sys /\
  exists s', my_event_handle_error_helper 0x22 fault_sys = Done tt s'.
Proof.
  split; [vm_compute; discriminate|].
  destruct (error_helper_grants fault_sys 0x22) as (s' & e & H & _);
    [vm_compute; discriminate|vm_compute; reflexivity|].
  by exists s'.
Defined.

(** ** The replay of a faulting access

    [fault e] is what the hardware raises for one access through entry [e]:
    nothing when the entry permits it, otherwise a permission cause.  After
    the handler returns the instruction is replayed. *)
Section replay.
Context (fault : Z -> option Z).
Context (fault_missing : forall e c, fault e = Some c ->
           exists f, granted_permission c = Some f /\ GET_FIELD e f = 0).

Definition replay_access (fuel : nat) : prog sys () :=
  iter fuel (fun _ : () =>
    n ← gets (fun s => tlb_entry_num (badva s));
    e ← tlbr n;
    match fault e with
    | None => mret (inr tt)
    | Some c =>
        modify (fun s => set_ssr (SET_FIELD 32 (ssr s) SSR_CAUSE c) s);;
        reg ← getssr;
        my_event_handle_error_helper reg;;
        mret (inl tt)
    end) tt.

(** How many permissions an entry lacks. *)
Definition lacks (e : Z) (f : reg_fields_enum) : nat := if GET_FIELD e f =? 0 then 1 else 0.
Definition missing (e : Z) : nat :=
  (lacks e PTE_U + lacks e PTE_R + lacks e PTE_W + lacks e PTE_X)%nat.

Lemma missing_grant f e :
  is_permission f = true -> GET_FIELD e f = 0 -> (missing (grant f e) < missing e)%nat.
Proof.
  intros Hf H0.
  assert (lacks (grant f e) f = 0%nat) as Hs by (unfold lacks; by rewrite grant_same).
  assert (lacks e f = 1%nat) as H1 by (unfold lacks; by rewrite H0).
  assert (forall g, g <> f -> reg_width g = 64 -> lacks (grant f e) g = lacks e g) as Ho
    by (intros; unfold lacks; by rewrite grant_other).
  unfold missing.
  destruct f; try discriminate Hf; rewrite Hs, H1, !Ho by done; lia.
Qed.

Definition fault_entry (s : sys) : Z :=
  default 0 (tlb s !! Z.to_nat (tlb_entry_num (badva s))).

(** C21: an access that the hardware replays after the error handler completes
    after at most one fault for each permission its entry lacked, and then the
    hardware raises nothing for the entry. *)
Theorem replay_access_completes s fuel :
  0 <= badva s -> tlb_entry_num (badva s) < Z.of_nat (length (tlb s)) ->
  (missing (fault_entry s) < fuel)%nat ->
  spec (replay_access fuel) s (fun _ s' =>
    fault (fault_entry s') = None /\ badva s' = badva s /\
    forall j, j <> Z.to_nat (tlb_entry_num (badva s)) -> tlb s' !! j = tlb s !! j).
Proof.
  intros Hb Hn Hfuel. set (n := tlb_entry_num (badva s)).
  apply (wp_iter _ (fun _ s' => badva s' = badva s /\ length (tlb s') = length (tlb s) /\
           forall j, j <> Z.to_nat n -> tlb s' !! j = tlb s !! j)
         (fun _ s' => missing (fault_entry s'))); [done|done|].
  intros [] s1 (Hb1 & Hl1 & Ho1).
  assert (0 <= n) as Hn0 by (apply Z.shiftr_nonneg; lia).
  destruct (lookup_lt_is_Some_2 (tlb s1) (Z.to_nat n)) as [e He]; [unfold n in *; lia|].
  assert (fault_entry s1 = e) as Hfe by (unfold fault_entry; rewrite Hb1; fold n; by rewrite He).
  apply wp_bind. unfold gets, wp at 1. rewrite Hb1. fold n.
  apply wp_bind. unfold wp at 1. rewrite (tlbr_eq n s1 e) by done.
  destruct (fault e) as [c|] eqn:Hc; [|apply wp_ret; split_and!; [by rewrite Hfe|done|done]].
  destruct (fault_missing e c Hc) as (f & Hf & Hf0).
  apply wp_bind. unfold modify, wp at 1. apply wp_bind. unfold getssr, gets, wp at 1.
  apply wp_bind. unfold wp at 1. rewrite error_helper_eq by (sys_simpl; rewrite Hb1; (done || (fold n; lia))).
  assert (GET_FIELD (ssr (set_ssr (SET_FIELD 32 (ssr s1) SSR_CAUSE c) s1)) SSR_CAUSE = c) as ->.
  { sys_simpl. rewrite (get_set_same (ssr s1) SSR_CAUSE c : GET_FIELD (SET_FIELD 32 _ _ _) _ = _).
    apply uwrap_id. revert Hf. unfold granted_permission. repeat case_match; intros [=]; subst;
      match goal with H : (_ =? _) = true |- _ => apply Z.eqb_eq in H; subst end; split; done. }
  cbv zeta. rewrite Hf. apply wp_ret.
  assert (badva (recorded c (set_ssr (SET_FIELD 32 (ssr s1) SSR_CAUSE c) s1)) = badva s) as Hb' by done.
  split; [split_and!|].
  - done.
  - unfold recorded. sys_simpl. by rewrite length_alter.
  - intros j Hj. unfold recorded. sys_simpl. rewrite Hb1. fold n. rewrite list_lookup_alter_ne by done. by apply Ho1.
  - rewrite Hfe. unfold fault_entry, recorded. sys_simpl. rewrite Hb1. fold n.
    rewrite list_lookup_alter_eq, He. cbn [fmap option_fmap option_map default]. apply missing_grant; [by eapply granted_permission_pte|done].
Qed.
End replay.

(** A page that may be read in user mode. *)
Definition demo_fault (e : Z) : option Z :=
  if GET_FIELD e PTE_U =? 0 then Some HEX_CAUSE_PRIV_NO_UREAD
  else if GET_FIELD e PTE_R =? 0 then Some HEX_CAUSE_PRIV_NO_READ
  else None.

Lemma replay_access_completes_witness :
  (forall e c, demo_fault e = Some c ->
     exists f, granted_permission c = Some f /\ GET_FIELD e f = 0) /\
  spec (replay_access demo_fault 5) fault_sys
    (fun _ s' => demo_fault (fault_entry s') = None).
Proof.
  assert (forall e c, demo_fault e = Some c ->
     exists f, granted_permission c = Some f /\ GET_FIELD e f = 0) as Hl.
  { unfold demo_fault. intros e c. case_match eqn:H1; [|case_match eqn:H2]; intros [= <-].
    - exists PTE_U. split; [done|]. by apply Z.eqb_eq.
    - exists PTE_R. split; [done|]. by apply Z.eqb_eq. }
  split; [exact Hl|].
  eapply wp_mono; [apply (replay_access_completes demo_fault Hl fault_sys 5);
    [vm_compute; discriminate|vm_compute; reflexivity|vm_compute; lia]|].
  by intros _ s' [H _].
Defined.

(** The page size is encoded in the PPD field alone. *)
Lemma ctz_of_PPD e pa p :
  0 <= e -> page_aligned p pa -> GET_FIELD e PTE_PPD = extract (ppn_part pa p) 0 24 ->
  ctz e = shift_value p /\ e <> 0.
Proof.
  intros He Hal Hppd. pose proof (shift_value_range p).
  assert (forall i, 0 <= i <= shift_value p -> Z.testbit e i = (i =? shift_value p)) as Hb.
  { intros i Hi. rewrite <- (ppn_part_low pa) by done.
    assert (Z.testbit (GET_FIELD e PTE_PPD) i = Z.testbit (extract (ppn_part pa p) 0 24) i) as Hi' by by rewrite Hppd.
    revert Hi'. rewrite GET_FIELD_extract. cbn [reg_field_info offset width].
    rewrite !testbit_extract, !Z.add_0_r by lia. split_cmp. done. }
  assert (Z.testbit e (shift_value p) = true) as Hbit by (rewrite Hb by lia; apply Z.eqb_refl).
  pose proof (ctz_nonzero _ _ Hbit). split; [|done].
  apply ctz_spec; [lia|lia|done|]. intros i Hi. rewrite Hb by lia. split_cmp. done.
Qed.

(** ** TLB misses *)

(** The entry a miss creates: the page of the faulting address, mapped to the
    address [entry_num] megabytes below, user accessible, with [r] and [w]. *)
Definition miss_entry (badva r w : Z) : Z :=
  let VA := page_start badva TARGET_PAGE_BITS in
  let entry := create_mmu_entry 1 0 0 0 VA 0 0 0 1 0x3
                 (u32 (VA - u32 (tlb_entry_num badva * ONE_MB))) PAGE_4K in
  let entry := if truth r then SET_FIELD 64 entry PTE_R r else entry in
  if truth w then SET_FIELD 64 entry PTE_W w else entry.

Section miss.
Context (badva r w : Z) (Hb : in_u 32 badva) (Hr : r = 0 \/ r = 1) (Hw : w = 0 \/ w = 1).

Lemma page_start_range : in_u 32 (page_start badva 12).
Proof.
  rewrite page_start_clear_low by (done || lia). apply in_u_testbit; [lia| |].
  - apply Z.land_nonneg. left. apply Hb.
  - intros i Hi. rewrite clear_low_bits by lia. rewrite (testbit_in_u 32 badva) by (done || lia).
    by rewrite andb_false_r.
Qed.

(** Removing whole megabytes from the address leaves its offset in the first. *)
Lemma miss_pa :
  u32 (page_start badva 12 - u32 (tlb_entry_num badva * ONE_MB)) = extract badva 12 8 * 4096.
Proof.
  rewrite page_start_clear_low by (done || lia).
  assert (clear_low 12 badva = badva - badva mod 4096) as ->.
  { change (clear_low 12 badva) with (Z.ldiff badva (Z.ones 12)).
    rewrite Z.ldiff_ones_r, Z.shiftl_mul_pow2, Z.shiftr_div_pow2 by lia.
    change (2 ^ 12) with 4096. pose proof (Z.div_mod badva 4096). lia. }
  assert (extract badva 12 8 = (badva / 4096) mod 256) as ->.
  { unfold extract. by rewrite Z.land_ones, Z.shiftr_div_pow2 by lia. }
  unfold tlb_entry_num, ONE_MB. rewrite Z.shiftr_div_pow2 by lia.
  change (Z.shiftl 1 20) with 1048576. change (2 ^ 20) with 1048576.
  destruct Hb as [Hb1 Hb2]. change (2 ^ 32) with 4294967296 in Hb2.
  change 1048576 with (4096 * 256) at 1. rewrite <- Z.div_div by lia.
  pose proof (Z.div_mod badva 4096). pose proof (Z.mod_pos_bound badva 4096).
  pose proof (Z.div_mod (badva / 4096) 256). pose proof (Z.mod_pos_bound (badva / 4096) 256).
  pose proof (Z.div_pos badva 4096). pose proof (Z.div_pos (badva / 4096) 256).
  rewrite (uwrap_id 32 (badva / 4096 / 256 * 1048576)) by (split; lia).
  rewrite uwrap_id by (split; lia). lia.
Qed.

Lemma mb_below : 0 <= tlb_entry_num badva * ONE_MB <= page_start badva 12.
Proof.
  rewrite page_start_clear_low by (done || lia).
  change (clear_low 12 badva) with (Z.ldiff badva (Z.ones 12)).
  rewrite Z.ldiff_ones_r, Z.shiftl_mul_pow2 by lia.
  unfold tlb_entry_num, ONE_MB. rewrite !Z.shiftr_div_pow2, Z.shiftl_1_l by lia.
  change (2 ^ 20) with (2 ^ 12 * 256). rewrite <- Z.div_div by lia.
  pose proof (Z.div_mod (badva / 2 ^ 12) 256). pose proof (Z.mod_pos_bound (badva / 2 ^ 12) 256).
  destruct Hb as [Hb1 _]. pose proof (Z.div_pos badva (2 ^ 12)). pose proof (Z.div_pos (badva / 2 ^ 12) 256).
  lia.
Qed.

Lemma miss_pa_exact : extract badva 12 8 * 4096 = page_start badva 12 - tlb_entry_num badva * ONE_MB.
Proof.
  pose proof page_start_range as [? ?]. pose proof mb_below.
  rewrite <- miss_pa, (uwrap_id 32 (tlb_entry_num badva * ONE_MB)) by (split; lia).
  apply uwrap_id. split; lia.
Qed.

Lemma page_start_vpn : Z.shiftr (page_start badva 12) 12 = Z.shiftr badva 12.
Proof.
  rewrite page_start_clear_low by (done || lia). apply Z.bits_inj'. intros i Hi.
  rewrite !Z.shiftr_spec, clear_low_bits by lia. split_cmp. done.
Qed.

Lemma miss_field f : f <> PTE_R -> f <> PTE_W -> reg_width f = 64 ->
  GET_FIELD (miss_entry badva r w) f =
  GET_FIELD (create_mmu_entry 1 0 0 0 (page_start badva 12) 0 0 0 1 0x3
               (extract badva 12 8 * 4096) PAGE_4K) f.
Proof.
  intros Hf1 Hf2 H64. unfold miss_entry. change TARGET_PAGE_BITS with 12. cbv zeta.
  rewrite miss_pa.
  destruct (truth r), (truth w); by rewrite ?get_set_other_at by (done || congruence).
Qed.

Lemma low8_aligned : page_aligned SHIFT_4K (extract badva 12 8 * 4096).
Proof.
  unfold page_aligned. apply Z.bits_inj'. intros i Hi. rewrite Z.bits_0.
  change 4096 with (2 ^ 12). change (page_bits SHIFT_4K) with 12.
  rewrite <- Z.shiftl_mul_pow2 by lia. autorewrite with bits. split_cmp; simpl_bool; done.
Qed.

Lemma low8_range : in_u 20 (extract badva 12 8 * 4096).
Proof.
  pose proof (extract_range badva 12 8 ltac:(lia)) as [? ?]. split; [lia|].
  change (2 ^ 20) with (2 ^ 8 * 4096). lia.
Qed.

Lemma miss_entry_range : in_u 64 (miss_entry badva r w).
Proof.
  unfold miss_entry. cbv zeta.
  destruct (truth w); [apply SET_FIELD_range; lia|].
  destruct (truth r); [apply SET_FIELD_range; lia|].
  apply create_mmu_entry_range.
Qed.

Lemma miss_entry_PPD :
  GET_FIELD (miss_entry badva r w) PTE_PPD = extract (ppn_part (extract badva 12 8 * 4096) SHIFT_4K) 0 24.
Proof. rewrite miss_field by done. apply create_mmu_entry_PPD, low8_aligned. Qed.

Lemma miss_entry_R : GET_FIELD (miss_entry badva r w) PTE_R = r.
Proof.
  unfold miss_entry. cbv zeta.
  assert (forall e, GET_FIELD (if truth w then SET_FIELD 64 e PTE_W w else e) PTE_R = GET_FIELD e PTE_R) as ->.
  { intros e. destruct (truth w); [|done]. by apply get_set_other_at. }
  destruct Hr as [-> | ->]; simpl.
  - change PAGE_4K with (PageSize SHIFT_4K).
    by rewrite (create_mmu_entry_arg _ _ _ _ _ _ _ _ _ _ _ _ PTE_R 0) by (do 6 right; left).
  - by rewrite get_set_same_at.
Qed.

Lemma miss_entry_W : GET_FIELD (miss_entry badva r w) PTE_W = w.
Proof.
  unfold miss_entry. cbv zeta. destruct Hw as [-> | ->]; simpl.
  - assert (forall e, GET_FIELD (if truth r then SET_FIELD 64 e PTE_R r else e) PTE_W = GET_FIELD e PTE_W) as ->.
    { intros e. destruct (truth r); [|done]. by apply get_set_other_at. }
    change PAGE_4K with (PageSize SHIFT_4K).
    by rewrite (create_mmu_entry_arg _ _ _ _ _ _ _ _ _ _ _ _ PTE_W 0) by (do 5 right; left).
  - by rewrite get_set_same_at.
Qed.
End miss.

Lemma b2z_cases b : Z.b2z b = 0 \/ Z.b2z b = 1.
Proof. destruct b; [by right|by left]. Qed.

Lemma tlbmissrw_eq s ssr :
  in_u 32 (badva s) -> tlb_entry_num (badva s) < Z.of_nat (length (tlb s)) ->
  my_event_handle_tlbmissrw_helper ssr s =
    let c := GET_FIELD ssr SSR_CAUSE in
    let n := tlb_entry_num (badva s) in
    if (c =? HEX_CAUSE_TLBMISSRW_READ) || (c =? HEX_CAUSE_TLBMISSRW_WRITE) then
      Done tt (set_tlb (<[Z.to_nat n :=
        miss_entry (badva s) (Z.b2z (n =? TWO_MB_ENTRY)) (Z.b2z (n =? THREE_MB_ENTRY))]> (tlb s))
        (recorded c s))
    else Exited 2 (recorded c s).
Proof.
  intros [Hb _] Hn.
  assert (0 <= tlb_entry_num (badva s)) by (apply Z.shiftr_nonneg; lia).
  unfold my_event_handle_tlbmissrw_helper, getbadva, gets, record_exception, modify, mbind, prog_bind.
  cbv zeta. fold (recorded (GET_FIELD ssr SSR_CAUSE) s).
  unfold miss_entry. cbv zeta. set (c := GET_FIELD ssr SSR_CAUSE).
  assert (tlb_entry_num (badva s) < Z.of_nat (length (tlb (recorded c s)))) by done.
  destruct (c =? HEX_CAUSE_TLBMISSRW_READ); [|destruct (c =? HEX_CAUSE_TLBMISSRW_WRITE); [|done]];
    cbn [orb]; rewrite tlbw_eq by (split; assumption);
    destruct (tlb_entry_num (badva s) =? TWO_MB_ENTRY),
             (tlb_entry_num (badva s) =? THREE_MB_ENTRY);
    change (truth (Z.b2z true)) with true; change (truth (Z.b2z false)) with false;
    change (Z.b2z true) with 1; change (Z.b2z false) with 0; cbv iota; reflexivity.
Qed.

(** On a load or store miss the handler writes, at the entry numbered by
    the address's megabyte, a global user entry for the faulting page: it
    matches the faulting address in every address space and decodes to the
    address that many megabytes lower, with read permission only in the second
    megabyte, write permission only in the third and never execute; it records
    the cause.  Any other cause ends the process. *)
Theorem tlbmissrw_maps s ssr :
  in_u 32 (badva s) -> tlb_entry_num (badva s) < Z.of_nat (length (tlb s)) ->
  let c := GET_FIELD ssr SSR_CAUSE in
  let n := tlb_entry_num (badva s) in
  if (c =? HEX_CAUSE_TLBMISSRW_READ) || (c =? HEX_CAUSE_TLBMISSRW_WRITE) then
    exists s' e,
      my_event_handle_tlbmissrw_helper ssr s = Done tt s' /\
      tlb s' = <[Z.to_nat n := e]> (tlb s) /\
      my_exceptions s' = set_exception_vector_bit (my_exceptions s) c /\
      (forall asid, in_u 7 asid -> entry_matches (probe_of asid (badva s)) e = true) /\
      hex_tlb_phys_addr e s = Done (page_start (badva s) 12 - n * ONE_MB) s /\
      [GET_FIELD e PTE_U; GET_FIELD e PTE_R; GET_FIELD e PTE_W; GET_FIELD e PTE_X] =
        [1; Z.b2z (n =? 2); Z.b2z (n =? 3); 0]
  else exists s', my_event_handle_tlbmissrw_helper ssr s = Exited 2 s' /\ tlb s' = tlb s.
Proof.
  intros Hb Hn c n. rewrite tlbmissrw_eq by done. cbv zeta. fold c n.
  destruct (_ || _); [|by eexists].
  set (r := Z.b2z (n =? TWO_MB_ENTRY)). set (w := Z.b2z (n =? THREE_MB_ENTRY)).
  assert (r = 0 \/ r = 1) as Hr by apply b2z_cases.
  assert (w = 0 \/ w = 1) as Hw by apply b2z_cases.
  pose proof (miss_entry_PPD (badva s) r w Hb) as Hppd.
  pose proof (low8_aligned (badva s)) as Hal.
  destruct (ctz_of_PPD _ _ _ (proj1 (miss_entry_range (badva s) r w)) Hal Hppd) as [Hctz H0].
  eexists _, (miss_entry (badva s) r w). split_and!; [done|done|done| | |].
  - intros asid Ha. unfold entry_matches. rewrite probe_of_vpn, Hctz, !miss_field by done.
    change PAGE_4K with (PageSize SHIFT_4K).
    rewrite create_mmu_entry_V, create_mmu_entry_VPN by (by apply page_start_range).
    rewrite (create_mmu_entry_arg _ _ _ _ _ _ _ _ _ _ _ _ PTE_G 1) by left.
    unfold same_page. rewrite page_start_vpn, Z.eqb_refl by done. done.
  - rewrite (phys_addr_36 _ (extract (badva s) 12 8 * 4096) SHIFT_4K 12); try done.
    + rewrite (clear_low_aligned SHIFT_4K) by (apply low8_range || done).
      by rewrite miss_pa_exact.
    + eapply in_u_mono; [apply low8_range|lia..].
    + rewrite miss_field by done. change PAGE_4K with (PageSize SHIFT_4K).
      rewrite create_mmu_entry_PA35, !(extract_high 20) by (apply low8_range || lia). done.
  - rewrite miss_entry_R, miss_entry_W, !miss_field by done. change PAGE_4K with (PageSize SHIFT_4K).
    rewrite (create_mmu_entry_arg _ _ _ _ _ _ _ _ _ _ _ _ PTE_U 1) by (do 7 right; left).
    by rewrite (create_mmu_entry_arg _ _ _ _ _ _ _ _ _ _ _ _ PTE_X 0) by (do 4 right; left).
Qed.

Definition miss_sys : sys :=
  Sys (replicate 8 0) 0 0x200004 0 0 6 [] 0 (0, 0) (TestState 0 []).

Lemma tlbmissrw_maps_witness :
  in_u 32 (badva miss_sys) /\
  exists s', my_event_handle_tlbmissrw_helper 0x70 miss_sys = Done tt s'.
Proof.
  assert (in_u 32 (badva miss_sys)) as Hb by (split; vm_compute; congruence).
  split; [exact Hb|].
  destruct (tlbmissrw_maps miss_sys 0x70 Hb ltac:(vm_compute; reflexivity)) as (s' & e & H & _).
  by exists s'.
Defined.

(* ------------------------------------------------------------------ *)
(** ** Mode switching *)

Lemma testbit_one_bit b i : 0 <= b -> Z.testbit (Z.shiftl 1 b) i = (i =? b).
Proof.
  intros Hb. destruct (Z.lt_ge_cases i 0).
  - rewrite Z.testbit_neg_r by lia. by split_cmp.
  - rewrite Z.shiftl_1_l. destruct (Z.eqb_spec i b) as [->|].
    + by apply Z.pow2_bits_true.
    + by apply Z.pow2_bits_false.
Qed.

(** [setbit] and [clrbit] on a one-bit field of the SSR write that field. *)
Lemma setbit_field r f :
  in_u 32 r -> reg_width f = 32 -> width (reg_field_info f) = 1 ->
  setbit r (offset (reg_field_info f)) = SET_FIELD 32 r f 1.
Proof.
  intros Hr Hw H1. pose proof (field_in_reg f) as (? & ? & ?).
  rewrite SET_FIELD_insert, H1. apply Z.bits_inj'. intros i Hi.
  unfold setbit. rewrite Z.lor_spec, testbit_one_bit, testbit_insert_bits by lia.
  split_cmp; simpl_bool; try done; try lia.
  - assert (i - offset (reg_field_info f) = 0) as -> by lia. done.
  - by rewrite (testbit_in_u 32 r).
Qed.

Lemma clrbit_field r f :
  in_u 32 r -> reg_width f = 32 -> width (reg_field_info f) = 1 ->
  clrbit r (offset (reg_field_info f)) = SET_FIELD 32 r f 0.
Proof.
  intros Hr Hw H1. pose proof (field_in_reg f) as (? & ? & ?).
  rewrite SET_FIELD_insert, H1. apply Z.bits_inj'. intros i Hi.
  unfold clrbit, unot. rewrite Z.land_spec, testbit_uwrap, testbit_lnot, testbit_one_bit,
    testbit_insert_bits, Z.bits_0 by lia.
  split_cmp; simpl_bool; try done; try lia.
Qed.

Lemma enter_user_mode_eq s :
  in_u 32 (ssr s) ->
  enter_user_mode s = Done tt (set_ssr
    (SET_FIELD 32 (SET_FIELD 32 (SET_FIELD 32 (ssr s) SSR_EX 0) SSR_UM 1) SSR_GM 0) s).
Proof.
  intros Hs. unfold enter_user_mode, gets, modify, mbind, prog_bind.
  change 17 with (offset (reg_field_info SSR_EX)). rewrite clrbit_field by done.
  change 16 with (offset (reg_field_info SSR_UM)).
  rewrite setbit_field by (try apply SET_FIELD_range; done).
  change 19 with (offset (reg_field_info SSR_GM)).
  by rewrite clrbit_field by (try apply SET_FIELD_range; done).
Qed.

Lemma enter_kernel_mode_eq s :
  in_u 32 (ssr s) ->
  enter_kernel_mode s = Done tt (set_ssr
    (SET_FIELD 32 (SET_FIELD 32 (SET_FIELD 32 (ssr s) SSR_EX 0) SSR_UM 0) SSR_GM 0) s).
Proof.
  intros Hs. unfold enter_kernel_mode, gets, modify, mbind, prog_bind.
  change 17 with (offset (reg_field_info SSR_EX)). rewrite clrbit_field by done.
  change 16 with (offset (reg_field_info SSR_UM)).
  rewrite clrbit_field by (try apply SET_FIELD_range; done).
  change 19 with (offset (reg_field_info SSR_GM)).
  by rewrite clrbit_field by (try apply SET_FIELD_range; done).
Qed.

(** Entering user or kernel mode clears EX and GM and sets or clears UM,
    and set_asid stores the low seven bits of its argument in the ASID field;
    every other SSR field, and the rest of the machine, keeps its value. *)
Theorem mode_switching s asid :
  in_u 32 (ssr s) ->
  (exists v, enter_user_mode s = Done tt (set_ssr v s) /\ in_u 32 v /\
     GET_FIELD v SSR_UM = 1 /\ GET_FIELD v SSR_EX = 0 /\ GET_FIELD v SSR_GM = 0 /\
     forall f, reg_width f = 32 -> f <> SSR_UM -> f <> SSR_EX -> f <> SSR_GM ->
       GET_FIELD v f = GET_FIELD (ssr s) f) /\
  (exists v, enter_kernel_mode s = Done tt (set_ssr v s) /\ in_u 32 v /\
     GET_FIELD v SSR_UM = 0 /\ GET_FIELD v SSR_EX = 0 /\ GET_FIELD v SSR_GM = 0 /\
     forall f, reg_width f = 32 -> f <> SSR_UM -> f <> SSR_EX -> f <> SSR_GM ->
       GET_FIELD v f = GET_FIELD (ssr s) f) /\
  (exists v, set_asid asid s = Done tt (set_ssr v s) /\ in_u 32 v /\
     GET_FIELD v SSR_ASID = uwrap 7 asid /\
     forall f, reg_width f = 32 -> f <> SSR_ASID -> GET_FIELD v f = GET_FIELD (ssr s) f).
Proof.
  intros Hs. split_and!.
  - eexists. split; [by apply enter_user_mode_eq|]. split; [apply SET_FIELD_range; lia|].
    split_and!; intros; by rewrite ?get_set_other_at, ?get_set_same_at, ?get_set_other_at by done.
  - eexists. split; [by apply enter_kernel_mode_eq|]. split; [apply SET_FIELD_range; lia|].
    split_and!; intros; by rewrite ?get_set_other_at, ?get_set_same_at, ?get_set_other_at by done.
  - eexists. split; [done|]. split; [apply SET_FIELD_range; lia|].
    split; [by rewrite get_set_same_at|]. intros. by rewrite get_set_other_at.
Qed.

Lemma mode_switching_witness :
  in_u 32 (ssr demo_sys) /\ exists v, enter_user_mode demo_sys = Done tt (set_ssr v demo_sys).
Proof.
  assert (in_u 32 (ssr demo_sys)) as H by (split; done). split; [exact H|].
  destruct (mode_switching demo_sys 3 H) as [(v & Hv & _) _]. by exists v.
Defined.

(* ------------------------------------------------------------------ *)
(** ** Exception vectors *)

(** [c] is recorded in a vector. *)
Definition vector_bit (excp : Z * Z) (c : Z) : bool :=
  if c <? 64 then Z.testbit excp.1 c else Z.testbit excp.2 (c - 64).

Lemma truth_land_bit z i : 0 <= i -> truth (Z.land z (Z.shiftl 1 i)) = Z.testbit z i.
Proof.
  intros Hi. unfold truth. destruct (Z.testbit z i) eqn:Hb.
  - destruct (Z.eqb_spec (Z.land z (Z.shiftl 1 i)) 0) as [H0|]; [|done].
    assert (Z.testbit (Z.land z (Z.shiftl 1 i)) i = true) as H1
      by (by rewrite Z.land_spec, testbit_one_bit, Z.eqb_refl, Hb by done).
    rewrite H0, Z.bits_0 in H1. done.
  - replace (Z.land z (Z.shiftl 1 i)) with 0; [done|].
    apply Z.bits_inj'. intros j Hj. rewrite Z.bits_0, Z.land_spec, testbit_one_bit by done.
    destruct (Z.eqb_spec j i) as [->|]; [by rewrite Hb|by rewrite andb_false_r].
Qed.

Lemma elem_of_print_exception_vector excp c :
  c ∈ print_exception_vector excp <-> 0 <= c < 128 /\ vector_bit excp c = true.
Proof.
  unfold print_exception_vector, vector_bit.
  rewrite elem_of_app, list_elem_of_fmap. setoid_rewrite list_elem_of_filter.
  setoid_rewrite elem_of_seqZ. split.
  - intros [[Hb Hc]|(c' & -> & Hb & Hc)]; rewrite truth_land_bit in Hb by lia; split_cmp.
    + split; [lia|done].
    + split; [lia|]. by replace (c' + 64 - 64) with c' by lia.
  - intros [Hc Hb]. destruct (Z.ltb_spec c 64).
    + left. rewrite truth_land_bit by lia. split; [done|lia].
    + right. exists (c - 64). rewrite truth_land_bit by lia. split_and!; (done || lia).
Qed.

(** An exception vector is a set of causes below 128: clearing empties it,
    recording a cause adds exactly that cause (and ignores larger ones), and
    print_exception_vector lists its members. *)
Theorem exception_vector_set excp c c' :
  0 <= c ->
  print_exception_vector clear_exception_vector = [] /\
  (c' ∈ print_exception_vector (set_exception_vector_bit excp c) <->
     c' ∈ print_exception_vector excp \/ (c' = c /\ c < 128)).
Proof.
  intros Hc. split; [by vm_compute|].
  rewrite !elem_of_print_exception_vector. unfold set_exception_vector_bit, vector_bit.
  destruct (Z.ltb_spec c 64); [|destruct (Z.ltb_spec c 128)]; simpl;
    rewrite ?Z.lor_spec, ?testbit_one_bit, ?orb_true_iff, ?Z.eqb_eq by lia.
  all: destruct (Z.ltb_spec c' 64); rewrite ?orb_true_iff, ?Z.eqb_eq; intuition lia.
Qed.

Lemma exception_vector_set_witness :
  0 <= 0x44 /\ 0x44 ∈ print_exception_vector (set_exception_vector_bit (0, 0) 0x44).
Proof.
  split; [lia|]. apply (exception_vector_set (0, 0) 0x44 0x44); [lia|]. right. split; [done|lia].
Defined.
