(* ===== verification/MmuTests.v ===== *)
(** The MMU test programs built on [include/mmu.h].  Each program is modelled
    as it is written and shown to return 0 on every machine whose TLB
    instructions behave as documented. *)

From S2P Require Import Prelude HexTest RegFields TlbHw Tlb Mmu.

(** A check of the running program. *)
Definition chk (f : test_state -> test_state) : prog sys () :=
  modify (fun s => set_tst (f (tst s)) s).

(* ------------------------------------------------------------------ *)
(** ** [mmu_overlap.c] *)

Section overlap.
Context `{TlbSearch} (arch : Z).
(** The address the linker gives the variable [data]. *)
Variable data_addr : Z.

Definition test_overlap : prog sys () :=
  let addr := data_addr in
  let page := page_start addr 20 in
  let offset := FIVE_MB in
  let new_page := u32 (page + offset) in
  let new_addr := u32 (addr + offset) in
  let data_perm := Z.lor (Z.lor (Z.lor TLB_X TLB_W) TLB_R) TLB_U in
  add_trans arch 1 new_page page PAGE_1M data_perm 0 1 1;;
  r ← tlbp 0 new_addr; chk (__check32 28 r 1);;
  let entry := create_mmu_entry 1 0 0 0 new_page 1 1 1 0 7 page PAGE_4K in
  r ← tlboc entry; chk (__check32 33 r 1);;
  r ← ctlbw entry 2; chk (__check32 35 r 0x1);;
  let entry := create_mmu_entry 1 0 0 0 (u32 (new_page + ONE_MB)) 1 1 1 0 7 page PAGE_4K in
  r ← tlboc entry; chk (__check32 40 r TLB_NOT_FOUND);;
  r ← ctlbw entry 2; chk (__check32 42 r TLB_NOT_FOUND);;
  let entry := create_mmu_entry 1 0 0 0 new_page 1 1 1 0 7 page PAGE_4M in
  r ← tlboc entry; chk (__check32 47 r 0xffffffff);;
  remove_trans 1;;
  r ← tlbp 0 new_addr; chk (__check32 51 r TLB_NOT_FOUND);;
  remove_trans 2;;
  r ← tlbp 0 (u32 (new_addr + ONE_MB)); chk (__check32 53 r TLB_NOT_FOUND).

Definition mmu_overlap_main : prog sys Z :=
  test_overlap;; gets (fun s => err (tst s)).

End overlap.

(* ------------------------------------------------------------------ *)
(** ** Global entries and the pages they cover *)

(** A valid global entry for a page of [k] size steps at a page number. *)
Record covers (e vpn k : Z) : Prop := {
  cov_V : GET_FIELD e PTE_V = 1;
  cov_G : GET_FIELD e PTE_G = 1;
  cov_VPN : GET_FIELD e PTE_VPN = vpn;
  cov_size : ctz e = k
}.

Lemma same_page_refl k a : same_page k a a = true.
Proof. apply Z.eqb_refl. Qed.

Lemma same_page_sym k a b : same_page k a b = same_page k b a.
Proof. apply Z.eqb_sym. Qed.

Lemma same_page_mono k k' a b :
  0 <= k <= k' -> same_page k a b = true -> same_page k' a b = true.
Proof.
  unfold same_page. rewrite !Z.eqb_eq. intros Hk Hs.
  replace (2 * k') with (2 * k + 2 * (k' - k)) by lia.
  by rewrite <- !Z.shiftr_shiftr, Hs by lia.
Qed.

Lemma same_page_trans k a b c :
  same_page k a b = true -> same_page k b c = true -> same_page k a c = true.
Proof. unfold same_page. rewrite !Z.eqb_eq. congruence. Qed.

Lemma covers_match e vpn k a va :
  covers e vpn k -> in_u 7 a -> in_u 32 va ->
  entry_matches (probe_of a va) e = same_page k vpn (Z.shiftr va 12).
Proof.
  intros [HV HG HN Hk] Ha Hva. unfold entry_matches.
  rewrite HV, HG, HN, Hk, probe_of_vpn by done. done.
Qed.

Lemma covers_overlap e e' vpn vpn' k k' :
  covers e vpn k -> covers e' vpn' k' -> entries_overlap e e' = same_page (Z.max k k') vpn vpn'.
Proof.
  intros [HV HG HN Hk] [HV' HG' HN' Hk']. unfold entries_overlap.
  by rewrite HV, HG, HN, HV', HN', Hk, Hk'.
Qed.

(** Whatever translates an address of a page overlaps the page's entry. *)
Lemma match_overlap E vpn k e a va :
  covers E vpn k -> 0 <= k -> in_u 7 a -> in_u 32 va ->
  same_page k vpn (Z.shiftr va 12) = true ->
  entry_matches (probe_of a va) e = true -> entries_overlap E e = true.
Proof.
  intros [HV HG HN Hk] Hk0 Ha Hva Hin. unfold entry_matches, entries_overlap.
  rewrite probe_of_vpn, HV, HG, HN, Hk by done. rewrite !andb_true_iff. intros [[HVe _] Hs].
  split_and!; [done|done|done|]. pose proof (ctz_nonneg e).
  eapply same_page_trans; [eapply same_page_mono; [|exact Hin]; lia|].
  rewrite same_page_sym. eapply same_page_mono; [|exact Hs]. lia.
Qed.

(** Whatever overlaps a page inside a larger page overlaps the larger one. *)
Lemma overlap_mono E vpn k E' vpn' k' e :
  covers E vpn k -> covers E' vpn' k' -> 0 <= k' <= k -> same_page k vpn vpn' = true ->
  entries_overlap E' e = true -> entries_overlap E e = true.
Proof.
  intros [HV HG HN Hk] [HV' HG' HN' Hk'] Hkk Hin. unfold entries_overlap.
  rewrite HV, HG, HN, HV', HG', HN', Hk, Hk', !andb_true_iff. intros [[[_ HVe] _] Hs].
  split_and!; [done|done|done|]. pose proof (ctz_nonneg e).
  eapply same_page_trans; [eapply same_page_mono; [|exact Hin]; lia|].
  eapply same_page_mono; [|exact Hs]. lia.
Qed.

Lemma covers_extended arch va pa p xwru cccc asid aa :
  in_u 32 va -> in_u 43 pa -> page_aligned p pa ->
  covers (extended_entry arch va pa (PageSize p) xwru cccc asid aa 3) (Z.shiftr va 12) (shift_value p).
Proof.
  intros. split.
  - apply extended_entry_V.
  - apply extended_entry_G.
  - by apply extended_entry_VPN.
  - by apply extended_entry_ctz.
Qed.

Lemma covers_created VA X W R U C PA p :
  in_u 32 VA -> page_aligned p PA ->
  covers (create_mmu_entry 1 0 0 0 VA X W R U C PA (PageSize p)) (Z.shiftr VA 12) (shift_value p).
Proof.
  intros. split.
  - apply create_mmu_entry_V.
  - by rewrite (create_mmu_entry_arg _ _ _ _ _ _ _ _ _ _ _ _ PTE_G 1) by left.
  - by apply create_mmu_entry_VPN.
  - by apply create_mmu_entry_ctz.
Qed.

Lemma chk_ok l v s : chk (__check32 l v v) s = Done tt s.
Proof.
  unfold chk, modify, __check32. rewrite Z.eqb_refl. by destruct s.
Qed.

(** The page size is recognised as soon as the bits of the physical address
    that share the low bits of the entry with its encoding are clear; the
    address need not be aligned to the page. *)
Lemma created_low_bits G A0 A1 asid VA X W R U C PA p i :
  0 <= i < 24 ->
  Z.testbit (create_mmu_entry G A0 A1 asid VA X W R U C PA (PageSize p)) i =
    Z.testbit PA (i + 11) || (i =? shift_value p).
Proof.
  intros Hi. pose proof (shift_value_range p).
  unfold create_mmu_entry. cbv zeta. rewrite Z.lor_spec, SET_FIELD_insert.
  cbn [reg_field_info offset width]. rewrite testbit_insert_bits by lia.
  unfold PageSize, TARGET_PAGE_BITS. rewrite testbit_one_bit by lia.
  autorewrite with bits. split_cmp; simpl_bool; f_equal; lia.
Qed.

Lemma covers_created_unaligned VA X W R U C PA p :
  in_u 32 VA -> (forall i, 0 <= i <= shift_value p -> Z.testbit PA (i + 11) = false) ->
  covers (create_mmu_entry 1 0 0 0 VA X W R U C PA (PageSize p)) (Z.shiftr VA 12) (shift_value p).
Proof.
  intros HVA Hlow. pose proof (shift_value_range p). split.
  - apply create_mmu_entry_V.
  - by rewrite (create_mmu_entry_arg _ _ _ _ _ _ _ _ _ _ _ _ PTE_G 1) by left.
  - by apply create_mmu_entry_VPN.
  - set (E := create_mmu_entry _ _ _ _ _ _ _ _ _ _ _ _).
    assert (forall i, 0 <= i <= shift_value p -> Z.testbit E i = (i =? shift_value p)) as Hb.
    { intros i Hi. unfold E. by rewrite created_low_bits, Hlow by lia. }
    assert (Z.testbit E (shift_value p) = true) as Hk by (rewrite Hb by lia; apply Z.eqb_refl).
    pose proof (ctz_nonzero _ _ Hk).
    pose proof (create_mmu_entry_range 1 0 0 0 VA X W R U C PA p) as [? _]. fold E in H1.
    apply ctz_spec; [lia|lia|done|]. intros i Hi. rewrite Hb by lia. split_cmp. done.
Qed.

Lemma matches_at_insert t x i e j :
  (i < length t)%nat ->
  matches_at (<[i := e]> t) x j <->
  (j = i /\ entry_matches x e = true) \/ (j <> i /\ matches_at t x j).
Proof.
  intros Hi. unfold matches_at. destruct (decide (j = i)) as [->|Hne].
  - rewrite list_lookup_insert_eq by done. split.
    + intros (e' & [= <-] & Hm). by left.
    + intros [[_ Hm]|[[] _]]; [by exists e|done].
  - rewrite list_lookup_insert_ne by done. split.
    + intros Hm. by right.
    + by intros [[-> _]|[_ Hm]].
Qed.

Lemma overlaps_at_insert t E i e j :
  (i < length t)%nat ->
  overlaps_at (<[i := e]> t) E j <->
  (j = i /\ entries_overlap E e = true) \/ (j <> i /\ overlaps_at t E j).
Proof.
  intros Hi. unfold overlaps_at. destruct (decide (j = i)) as [->|Hne].
  - rewrite list_lookup_insert_eq by done. split.
    + intros (e' & [= <-] & Hm). by left.
    + intros [[_ Hm]|[[] _]]; [by exists e|done].
  - rewrite list_lookup_insert_ne by done. split.
    + intros Hm. by right.
    + by intros [[-> _]|[_ Hm]].
Qed.

Section overlap_proof.
Context `{HL : TlbSearchLaws} (arch data_addr : Z) (s : sys).

(** The megabyte the test maps, and the four-megabyte page around it. *)
Definition test_mb : Z := Z.shiftr data_addr 20 + 5.
Definition test_page : Z := test_mb * ONE_MB.

Definition region_entry : Z :=
  create_mmu_entry 1 0 0 0 test_page 1 1 1 0 7 (page_start data_addr 20) PAGE_4M.

Context (Hdata : 0 <= data_addr) (Hroom : data_addr + 6 * ONE_MB < 2 ^ 32).
Context (Hgroup : test_mb mod 4 <> 3).
Context (Hwf : tlb_wf (tlb s)) (Hfix : in_u 31 (tlb_fixed_entries s)).
Context (Huser : 3 <= tlb_fixed_entries s <= Z.of_nat (length (tlb s))).
Context (Hquiet : forall i, ~ overlaps_at (tlb s) region_entry i).

Abbreviation t0 := (tlb s).
Abbreviation page := (page_start data_addr 20).

Lemma data_split : data_addr = (test_mb - 5) * ONE_MB + data_addr mod ONE_MB /\
  0 <= data_addr mod ONE_MB < ONE_MB /\ 5 <= test_mb.
Proof.
  unfold test_mb. rewrite Z.shiftr_div_pow2 by lia. change ONE_MB with (2 ^ 20).
  pose proof (Z.div_mod data_addr (2 ^ 20)). pose proof (Z.mod_pos_bound data_addr (2 ^ 20)).
  pose proof (Z.div_pos data_addr (2 ^ 20)). lia.
Qed.

Lemma page_value : page = (test_mb - 5) * ONE_MB.
Proof.
  pose proof data_split as (Hd & Hm & H5). change ONE_MB with (2 ^ 20) in *.
  rewrite page_start_clear_low by (unfold in_u; lia).
  change (clear_low 20 data_addr) with (Z.ldiff data_addr (Z.ones 20)).
  rewrite Z.ldiff_ones_r, Z.shiftl_mul_pow2 by lia. unfold test_mb. lia.
Qed.

Lemma mb_vpn m o :
  0 <= o < ONE_MB -> Z.shiftr (m * ONE_MB + o) 12 = m * 256 + Z.shiftr o 12.
Proof.
  intros Ho. rewrite !Z.shiftr_div_pow2 by lia. change ONE_MB with (256 * 2 ^ 12).
  rewrite Z.mul_assoc, Z.div_add_l by lia. done.
Qed.

Lemma mb_same m o m' o' :
  0 <= o < ONE_MB -> 0 <= o' < ONE_MB ->
  same_page 4 (Z.shiftr (m * ONE_MB + o) 12) (Z.shiftr (m' * ONE_MB + o') 12) = (m =? m').
Proof.
  intros Ho Ho'. unfold same_page. rewrite !mb_vpn, !Z.shiftr_div_pow2 by done.
  change (2 ^ (2 * 4)) with 256. change ONE_MB with (2 ^ 20) in *.
  rewrite !Z.div_add_l by lia.
  rewrite !Z.div_div by lia. change (2 ^ 12 * 256) with (2 ^ 20).
  rewrite !(Z.div_small _ (2 ^ 20)) by lia. by rewrite !Z.add_0_r.
Qed.

Lemma mb4_same m o m' o' :
  0 <= o < ONE_MB -> 0 <= o' < ONE_MB -> m / 4 = m' / 4 ->
  same_page 5 (Z.shiftr (m * ONE_MB + o) 12) (Z.shiftr (m' * ONE_MB + o') 12) = true.
Proof.
  intros Ho Ho' Hm. unfold same_page. apply Z.eqb_eq. rewrite !mb_vpn by done.
  change (2 * 5) with (8 + 2). rewrite <- !Z.shiftr_shiftr by lia.
  rewrite !Z.shiftr_div_pow2 by lia. change (2 ^ 8) with 256. change (2 ^ 2) with 4.
  change ONE_MB with (2 ^ 20) in *.
  rewrite !Z.div_add_l by lia. rewrite !(Z.div_div _ (2 ^ 12) 256) by lia.
  change (2 ^ 12 * 256) with (2 ^ 20).
  rewrite !(Z.div_small _ (2 ^ 20)) by lia. by rewrite !Z.add_0_r.
Qed.

Lemma page_facts : page_aligned SHIFT_1M page /\ in_u 43 page /\ in_u 32 page.
Proof.
  pose proof data_split as (Hd & Hm & H5). rewrite page_value.
  change ONE_MB with (2 ^ 20) in *. split_and!.
  - unfold page_aligned. change (page_bits SHIFT_1M) with 20. rewrite Z.land_ones by lia.
    by rewrite Z.mod_mul by lia.
  - unfold in_u. lia.
  - unfold in_u. lia.
Qed.

Lemma page_aligned_4k : page_aligned SHIFT_4K page.
Proof.
  rewrite page_value. unfold page_aligned. change (page_bits SHIFT_4K) with 12.
  rewrite Z.land_ones by lia. change ONE_MB with (256 * 2 ^ 12). rewrite Z.mul_assoc.
  by rewrite Z.mod_mul by lia.
Qed.

(** The addresses the test uses do not wrap. *)
Lemma test_addresses :
  u32 (page + FIVE_MB) = test_page /\ u32 (test_page + ONE_MB) = test_page + ONE_MB /\
  u32 (data_addr + FIVE_MB) = data_addr + FIVE_MB /\
  u32 (data_addr + FIVE_MB + ONE_MB) = data_addr + FIVE_MB + ONE_MB /\
  in_u 32 test_page /\ in_u 32 (test_page + ONE_MB) /\
  in_u 32 (data_addr + FIVE_MB) /\ in_u 32 (data_addr + FIVE_MB + ONE_MB).
Proof.
  pose proof data_split as (Hd & Hm & H5). rewrite page_value. unfold test_page.
  change FIVE_MB with (5 * 2 ^ 20). change ONE_MB with (2 ^ 20) in *.
  split_and!; try (unfold in_u; lia); rewrite uwrap_id; try (unfold in_u; lia); lia.
Qed.

(** The same addresses as megabyte and offset. *)
Lemma data_offset : exists o, 0 <= o < ONE_MB /\
  data_addr + FIVE_MB = test_mb * ONE_MB + o /\
  data_addr + FIVE_MB + ONE_MB = (test_mb + 1) * ONE_MB + o.
Proof.
  pose proof data_split as (Hd & Hm & H5). exists (data_addr mod ONE_MB).
  change FIVE_MB with (5 * 2 ^ 20). change ONE_MB with (2 ^ 20) in *. lia.
Qed.

Lemma next_mb_group : (test_mb + 1) / 4 = test_mb / 4.
Proof.
  pose proof (Z.div_mod test_mb 4). pose proof (Z.mod_pos_bound test_mb 4).
  symmetry. apply (Z.div_unique_pos _ _ _ (test_mb mod 4 + 1)); lia.
Qed.

Definition mapped_entry : Z := extended_entry arch test_page page (PageSize SHIFT_1M) 15 0 0 0 3.
Definition small_entry : Z := create_mmu_entry 1 0 0 0 test_page 1 1 1 0 7 page PAGE_4K.
Definition next_entry : Z := create_mmu_entry 1 0 0 0 (test_page + ONE_MB) 1 1 1 0 7 page PAGE_4K.

Lemma covers_mapped : covers mapped_entry (Z.shiftr (test_mb * ONE_MB + 0) 12) 4.
Proof.
  pose proof test_addresses as (_ & _ & _ & _ & ? & _). pose proof page_facts as (? & ? & _).
  rewrite Z.add_0_r. by apply covers_extended.
Qed.

Lemma covers_small : covers small_entry (Z.shiftr (test_mb * ONE_MB + 0) 12) 0.
Proof.
  pose proof test_addresses as (_ & _ & _ & _ & ? & _). rewrite Z.add_0_r.
  apply (covers_created _ _ _ _ _ _ _ SHIFT_4K); [done|apply page_aligned_4k].
Qed.

Lemma covers_next : covers next_entry (Z.shiftr ((test_mb + 1) * ONE_MB + 0) 12) 0.
Proof.
  pose proof test_addresses as (_ & _ & _ & _ & _ & ? & _).
  replace ((test_mb + 1) * ONE_MB + 0) with (test_page + ONE_MB) by (unfold test_page; lia).
  apply (covers_created _ _ _ _ _ _ _ SHIFT_4K); [done|apply page_aligned_4k].
Qed.

Lemma covers_region : covers region_entry (Z.shiftr (test_mb * ONE_MB + 0) 12) 5.
Proof.
  pose proof test_addresses as (_ & _ & _ & _ & ? & _). pose proof page_facts as (Hal & _).
  rewrite Z.add_0_r. apply (covers_created_unaligned _ _ _ _ _ _ _ SHIFT_4M); [done|].
  intros i Hi. apply (page_aligned_bit SHIFT_1M); [done|]. unfold page_bits. simpl in *. lia.
Qed.

Lemma quiet_match va o m i :
  in_u 32 va -> va = m * ONE_MB + o -> 0 <= o < ONE_MB -> m / 4 = test_mb / 4 ->
  ~ matches_at t0 (probe_of 0 va) i.
Proof.
  intros Hva Hv Ho Hm (e & He & Hmt). apply (Hquiet i). exists e. split; [done|].
  eapply match_overlap; [apply covers_region|lia| |exact Hva| |exact Hmt]; [split; done|].
  rewrite Hv. apply mb4_same; [split; done|done|done].
Qed.

Lemma quiet_overlap E m k i :
  covers E (Z.shiftr (m * ONE_MB + 0) 12) k -> 0 <= k <= 5 -> m / 4 = test_mb / 4 ->
  ~ overlaps_at t0 E i.
Proof.
  intros HE Hk Hm (e & He & Ho). apply (Hquiet i). exists e. split; [done|].
  eapply overlap_mono; [apply covers_region|exact HE|done| |exact Ho].
  apply mb4_same; [split; done|split; done|done].
Qed.

(** The TLB after each of the two writes, and after the first removal. *)
Definition tlb1 : list Z := <[1%nat := mapped_entry]> t0.
Definition tlb2 : list Z := <[2%nat := next_entry]> tlb1.

Lemma tlb_lengths : (2 < length t0)%nat /\ length tlb1 = length t0 /\ length tlb2 = length t0.
Proof. unfold tlb2, tlb1. rewrite !length_insert. lia. Qed.

Lemma tlb1_matches va o m i :
  in_u 32 va -> va = m * ONE_MB + o -> 0 <= o < ONE_MB -> m / 4 = test_mb / 4 ->
  matches_at tlb1 (probe_of 0 va) i <-> i = 1%nat /\ m = test_mb.
Proof.
  intros Hva Hv Ho Hm. pose proof tlb_lengths as (? & _). unfold tlb1.
  rewrite matches_at_insert by lia.
  rewrite (covers_match _ _ _ _ _ covers_mapped) by (done || (split; done)).
  rewrite Hv at 1. rewrite mb_same, Z.eqb_eq by (done || (split; done)).
  pose proof (quiet_match va o m i Hva Hv Ho Hm). intuition congruence.
Qed.

Lemma tlb1_overlaps E m k i :
  covers E (Z.shiftr (m * ONE_MB + 0) 12) k -> 0 <= k <= 4 -> m / 4 = test_mb / 4 ->
  overlaps_at tlb1 E i <-> i = 1%nat /\ m = test_mb.
Proof.
  intros HE Hk Hm. pose proof tlb_lengths as (? & _). unfold tlb1.
  rewrite overlaps_at_insert by lia.
  rewrite (covers_overlap _ _ _ _ _ _ HE covers_mapped).
  replace (Z.max k 4) with 4 by lia. rewrite mb_same, Z.eqb_eq by (split; done).
  pose proof (quiet_overlap E m k i HE ltac:(lia) Hm). intuition congruence.
Qed.

Lemma tlb2_both :
  overlaps_at tlb2 region_entry 1 /\ overlaps_at tlb2 region_entry 2.
Proof.
  pose proof tlb_lengths as (? & ? & _). unfold tlb2, tlb1. split.
  - rewrite overlaps_at_insert by (rewrite length_insert; lia). right. split; [done|].
    rewrite overlaps_at_insert by lia. left. split; [done|].
    rewrite (covers_overlap _ _ _ _ _ _ covers_region covers_mapped). apply same_page_refl.
  - rewrite overlaps_at_insert by (rewrite length_insert; lia). left. split; [done|].
    rewrite (covers_overlap _ _ _ _ _ _ covers_region covers_next).
    apply mb4_same; [split; done|split; done|]. symmetry. apply next_mb_group.
Qed.

Lemma tlb2_matches va o m i :
  in_u 32 va -> va = m * ONE_MB + o -> 0 <= o < ONE_MB -> m / 4 = test_mb / 4 ->
  matches_at tlb2 (probe_of 0 va) i ->
  (i = 1%nat /\ m = test_mb) \/ (i = 2%nat /\ m = test_mb + 1).
Proof.
  intros Hva Hv Ho Hm. pose proof tlb_lengths as (? & ? & _). unfold tlb2.
  rewrite matches_at_insert by lia. intros [[-> Hn]|[_ Hm1]].
  - right. split; [done|].
    rewrite (covers_match _ _ _ _ _ covers_next) in Hn by (done || (split; done)).
    apply (same_page_mono 0 4) in Hn; [|lia].
    rewrite Hv, mb_same, Z.eqb_eq in Hn by (done || (split; done)). done.
  - left. by apply (tlb1_matches va o m i) in Hm1.
Qed.

Lemma first_write : add_trans arch 1 test_page page PAGE_1M 15 0 1 1 s = Done tt (set_tlb tlb1 s).
Proof.
  pose proof test_addresses as (_ & _ & _ & _ & ? & _).
  rewrite add_trans_split by done. unfold mbind, prog_bind.
  assert (forall a, in_u 7 a -> drop_match t0 (probe_of a test_page) = t0) as Hid.
  { intros a Ha. unfold drop_match. rewrite tlbp_none; [done|].
    intros i (e & He & Hmt). apply (Hquiet i). exists e. split; [done|].
    eapply match_overlap; [apply covers_region|lia|exact Ha|done| |exact Hmt].
    rewrite Z.add_0_r. apply same_page_refl. }
  change (Z.land 0 127) with 0. rewrite (Hid 0) by (split; done).
  rewrite add_translation_extended_ok by (done || (split; sys_simpl; lia) || (sys_simpl; lia)).
  sys_simpl. change (cur_asid (set_tlb t0 s)) with (cur_asid s).
  rewrite Hid by apply cur_asid_range. done.
Qed.
Definition tlb3 : list Z := alter invalid 1%nat tlb2.
Definition tlb4 : list Z := alter invalid 2%nat tlb3.

(** Entries are compared by name, not by value, while the program runs. *)
Opaque create_mmu_entry extended_entry.

Lemma tlbp_at t va r :
  in_u 32 va -> tlbp_insn t (probe_of 0 va) = r ->
  tlbp 0 va (set_tlb t s) = Done r (set_tlb t s).
Proof. intros Hva <-. by rewrite tlbp_eq. Qed.

Lemma tlboc_at t e r : tlboc_insn t e = r -> tlboc e (set_tlb t s) = Done r (set_tlb t s).
Proof. by intros <-. Qed.

Lemma ctlbw_hit t e i r :
  tlboc_insn t e = r -> r <> TLB_NOT_FOUND -> ctlbw e i (set_tlb t s) = Done r (set_tlb t s).
Proof.
  intros <- Hr. unfold ctlbw. next_step (tlboc_at t e _ eq_refl).
  by rewrite (proj2 (Z.eqb_neq _ _) Hr).
Qed.

Lemma ctlbw_miss t e i :
  tlboc_insn t e = TLB_NOT_FOUND -> 0 <= i < Z.of_nat (length t) ->
  ctlbw e i (set_tlb t s) = Done TLB_NOT_FOUND (set_tlb (<[Z.to_nat i := e]> t) s).
Proof.
  intros Hr Hi. unfold ctlbw. next_step (tlboc_at t e _ Hr). rewrite Z.eqb_refl.
  by next_step (tlbw_eq e i (set_tlb t s) Hi).
Qed.

Lemma remove_at t i :
  0 <= i < Z.of_nat (length t) ->
  remove_trans i (set_tlb t s) = Done tt (set_tlb (alter invalid (Z.to_nat i) t) s).
Proof. intros Hi. by rewrite remove_trans_eq. Qed.

Lemma probe_results o :
  0 <= o < ONE_MB -> data_addr + FIVE_MB = test_mb * ONE_MB + o ->
  tlbp_insn tlb1 (probe_of 0 (data_addr + FIVE_MB)) = 1 /\
  tlbp_insn tlb3 (probe_of 0 (data_addr + FIVE_MB)) = TLB_NOT_FOUND /\
  tlbp_insn tlb4 (probe_of 0 (data_addr + FIVE_MB + ONE_MB)) = TLB_NOT_FOUND.
Proof.
  intros Ho Hd. pose proof test_addresses as (_ & _ & _ & _ & _ & _ & Hr3 & Hr4).
  pose proof tlb_lengths as (HL0 & HL1 & HL2). destruct Hwf as [_ Hcap].
  assert (data_addr + FIVE_MB + ONE_MB = (test_mb + 1) * ONE_MB + o) as Hd' by lia.
  split_and!.
  - rewrite (tlbp_one _ _ 1%nat); [done|by rewrite HL1|by eapply tlb1_matches|].
    intros j Hj. by eapply tlb1_matches in Hj as [-> _].
  - apply tlbp_none. intros j [Hne Hj]%alter_invalid_match.
    apply (tlb2_matches _ o test_mb) in Hj as [[-> _]|[-> Hm]]; try done. lia.
  - apply tlbp_none. intros j [Hne2 [Hne1 Hj]%alter_invalid_match]%alter_invalid_match.
    apply (tlb2_matches _ o (test_mb + 1)) in Hj as [[-> _]|[-> _]]; try done. apply next_mb_group.
Qed.

Lemma check_results :
  tlboc_insn tlb1 small_entry = 1 /\
  tlboc_insn tlb1 next_entry = TLB_NOT_FOUND /\
  tlboc_insn tlb2 region_entry = 0xffffffff.
Proof.
  split_and!.
  - rewrite (tlboc_one _ _ 1%nat); [done|apply (tlb1_overlaps _ test_mb 0 _ covers_small); (done || lia)|].
    intros j Hj. apply (tlb1_overlaps _ test_mb 0 _ covers_small) in Hj as [-> _]; (done || lia).
  - apply tlboc_none. intros j Hj.
    apply (tlb1_overlaps _ (test_mb + 1) 0 _ covers_next) in Hj as [_ Hm];
      [lia|lia|apply next_mb_group].
  - destruct tlb2_both as [Hb1 Hb2]. by apply (tlboc_many _ _ 1 2).
Qed.

Lemma test_overlap_runs : test_overlap arch data_addr s = Done tt (set_tlb tlb4 s).
Proof.
  pose proof test_addresses as (Ha1 & Ha2 & Ha3 & Ha4 & Hr1 & Hr2 & Hr3 & Hr4).
  destruct data_offset as (o & Ho & Hna & _). pose proof tlb_lengths as (HL0 & HL1 & HL2).
  destruct (probe_results o Ho Hna) as (Hp1 & Hp3 & Hp4). destruct check_results as (Hc1 & Hc2 & Hc3).
  unfold test_overlap. cbv zeta.
  rewrite Ha1, Ha2, Ha3, Ha4. change (Z.lor (Z.lor (Z.lor TLB_X TLB_W) TLB_R) TLB_U) with 15.
  next_step first_write.
  next_step (tlbp_at tlb1 _ _ Hr3 Hp1). next_step (chk_ok 28 1 (set_tlb tlb1 s)).
  next_step (tlboc_at tlb1 _ _ Hc1). next_step (chk_ok 33 1 (set_tlb tlb1 s)).
  next_step (ctlbw_hit tlb1 _ 2 _ Hc1 ltac:(done)). next_step (chk_ok 35 1 (set_tlb tlb1 s)).
  next_step (tlboc_at tlb1 _ _ Hc2). next_step (chk_ok 40 TLB_NOT_FOUND (set_tlb tlb1 s)).
  next_step (ctlbw_miss tlb1 _ 2 Hc2 ltac:(lia)). change (<[Z.to_nat 2 := next_entry]> tlb1) with tlb2.
  next_step (chk_ok 42 TLB_NOT_FOUND (set_tlb tlb2 s)).
  next_step (tlboc_at tlb2 _ _ Hc3). next_step (chk_ok 47 0xffffffff (set_tlb tlb2 s)).
  next_step (remove_at tlb2 1 ltac:(lia)). change (alter invalid (Z.to_nat 1) tlb2) with tlb3.
  next_step (tlbp_at tlb3 _ _ Hr3 Hp3). next_step (chk_ok 51 TLB_NOT_FOUND (set_tlb tlb3 s)).
  next_step (remove_at tlb3 2 ltac:(unfold tlb3; rewrite length_alter; lia)).
  change (alter invalid (Z.to_nat 2) tlb3) with tlb4.
  next_step (tlbp_at tlb4 _ _ Hr4 Hp4). apply chk_ok.
Qed.

(** C14: the overlap test passes: on any machine that obeys the documented TLB
    instructions, when nothing translates the four megabytes around the page
    the test maps and that page is not the last megabyte of them, every check
    of mmu_overlap holds, main returns the err it started with, and the TLB is
    as before except that entries 1 and 2 are invalid. *)
Theorem mmu_overlap_passes :
  spec (mmu_overlap_main arch data_addr) s (fun r s' =>
    r = err (tst s) /\ tst s' = tst s /\
    (forall i, i <> 1%nat -> i <> 2%nat -> tlb s' !! i = t0 !! i) /\
    (forall i e, i = 1%nat \/ i = 2%nat -> tlb s' !! i = Some e -> GET_FIELD e PTE_V = 0)).
Proof.
  unfold wp, mmu_overlap_main. rewrite (bind_done _ _ _ _ _ test_overlap_runs). unfold gets. sys_simpl.
  split_and!; [done|done| |].
  - intros i Hi1 Hi2. unfold tlb4, tlb3, tlb2, tlb1.
    by rewrite !list_lookup_alter_ne, !list_lookup_insert_ne by done.
  - intros i e Hi He. assert (exists e0, e = invalid e0) as [e0 ->].
    { revert He. unfold tlb4. destruct (decide (i = 2%nat)) as [->|Hne].
      - rewrite list_lookup_alter_eq. intros (e0 & _ & ->)%fmap_Some_1. by exists e0.
      - destruct Hi as [->|]; [|done]. rewrite list_lookup_alter_ne by done. unfold tlb3.
        rewrite list_lookup_alter_eq. intros (e0 & _ & ->)%fmap_Some_1. by exists e0. }
    unfold invalid. by rewrite get_set_same_at.
Qed.

End overlap_proof.

(** An empty TLB, with the variable in the first megabyte. *)
Section overlap_demo.
Import ArrayTlb.

Lemma mmu_overlap_passes_witness :
  test_mb 0x1234 mod 4 <> 3 /\
  spec (mmu_overlap_main 68 0x1234) demo_sys (fun r _ => r = 0).
Proof.
  assert (test_mb 0x1234 mod 4 <> 3) as Hg by (vm_compute; discriminate).
  split; [exact Hg|].
  eapply wp_mono; [apply (mmu_overlap_passes 68 0x1234 demo_sys);
    [lia|vm_compute; reflexivity|exact Hg|exact demo_wf|split; vm_compute; congruence
    |vm_compute; split; congruence|]|].
  - intros i (e & [-> _]%lookup_replicate & Ho). vm_compute in Ho. discriminate.
  - intros r s' [Hr _]. exact Hr.
Defined.
End overlap_demo.
