(* ===== verification/MmuTyped.v ===== *)
(** The widths of the MMU code: every operation of crt0/tlb.c and include/mmu.h
    on arguments of their C types leaves each register and table entry within
    its width and the TLB with as many entries as it had.  The judgement
    [typed P m] says so of a program with a result in [P], and its rules follow
    the program's constructs. *)

From S2P Require Import Prelude HexTest RegFields TlbHw Tlb Mmu.

Record sys_typed (n : nat) (s : sys) : Prop := {
  ty_tlb : Forall (in_u 64) (tlb s);
  ty_entries : length (tlb s) = n;
  ty_ssr : in_u 32 (ssr s);
  ty_badva : in_u 32 (badva s);
  ty_evb : in_u 32 (evb s);
  ty_elr : in_u 32 (elr s);
  ty_fixed : in_u 32 (tlb_fixed_entries s);
  ty_upte : Forall (in_u 16) (upte s);
  ty_old_evb : in_u 32 (old_evb s);
  ty_exceptions : in_u 64 (my_exceptions s).1 /\ in_u 64 (my_exceptions s).2
}.

Lemma insertZ_Forall {A} (P : A -> Prop) l i x l' :
  insertZ l i x = Some l' -> Forall P l -> P x -> Forall P l'.
Proof. intros [_ ->]%insertZ_Some Hl Hx. by apply Forall_insert. Qed.

Lemma lookupZ_Forall {A} (P : A -> Prop) (l : list A) i x : lookupZ l i = Some x -> Forall P l -> P x.
Proof.
  unfold lookupZ. destruct (0 <=? i); [|done]. intros Hx Hl. rewrite Forall_lookup in Hl. by eapply Hl.
Qed.

Section typed.
Context (n : nat).

Definition typed {A} (P : A -> Prop) (m : prog sys A) : Prop := forall s, sys_typed n s ->
  match m s with
  | Done a s' => P a /\ sys_typed n s'
  | Exited _ s' => sys_typed n s'
  | Undef => True
  | NoFuel => False
  end.

Lemma typed_ret {A} (P : A -> Prop) a : P a -> typed P (mret a).
Proof. by intros Ha s Hs. Qed.

Lemma typed_bind {A B} (P : A -> Prop) (Q : B -> Prop) m (k : A -> prog sys B) :
  typed P m -> (forall a, P a -> typed Q (k a)) -> typed Q (m ≫= k).
Proof.
  intros Hm Hk s Hs. specialize (Hm s Hs). unfold mbind, prog_bind.
  destruct (m s) as [a s'| | |]; [|done..]. destruct Hm as [Ha Hs']. by apply Hk.
Qed.

Lemma typed_gets {A} (P : A -> Prop) f : (forall s, sys_typed n s -> P (f s)) -> typed P (gets f).
Proof. intros Hf s Hs. split; [by apply Hf|done]. Qed.

Lemma typed_modify f : (forall s, sys_typed n s -> sys_typed n (f s)) -> typed (fun _ => True) (modify f).
Proof. intros Hf s Hs. split; [done|by apply Hf]. Qed.

Lemma typed_of_option {A} (P : A -> Prop) o : (forall a, o = Some a -> P a) -> typed P (of_option o).
Proof. intros Ho s Hs. destruct o as [a|]; [split; [by apply Ho|done]|done]. Qed.

Lemma typed_if {A} (P : A -> Prop) (b : bool) m1 m2 : typed P m1 -> typed P m2 -> typed P (if b then m1 else m2).
Proof. by destruct b. Qed.

Lemma typed_exit {A} (P : A -> Prop) c : typed P (exit_with c).
Proof. by intros s Hs. Qed.

Lemma typed_assert b : typed (fun _ => True) (cassert b).
Proof. unfold cassert. apply typed_if; [by apply typed_ret|apply typed_exit]. Qed.

Lemma typed_weaken {A} (P Q : A -> Prop) m : typed P m -> (forall a, P a -> Q a) -> typed Q m.
Proof. intros Hm HP s Hs. specialize (Hm s Hs). destruct (m s); naive_solver. Qed.

(** *** Reading and writing the machine *)

Lemma typed_read_entry i : typed (in_u 64) (tlbr i).
Proof.
  apply (typed_bind (Forall (in_u 64))); [apply typed_gets; by intros s []|]. intros t Ht.
  apply typed_of_option. intros e He. by eapply lookupZ_Forall.
Qed.

Lemma typed_write_entry e i : in_u 64 e -> typed (fun _ => True) (tlbw e i).
Proof.
  intros He. apply (typed_bind (fun t => Forall (in_u 64) t /\ length t = n)); [apply typed_gets; by intros s []|].
  intros t [Ht Hl]. apply (typed_bind (fun t => Forall (in_u 64) t /\ length t = n)).
  { apply typed_of_option. intros t' Hi. split; [by eapply insertZ_Forall|].
    apply insertZ_Some in Hi as [_ ->]. by rewrite length_insert. }
  intros t' [Ht' Hl']. apply typed_modify. by intros s [].
Qed.

Lemma typed_probe f : typed (fun _ : Z => True) (gets f).
Proof. by apply typed_gets. Qed.

End typed.

Create HintDb typed.
#[export] Hint Resolve typed_ret typed_if typed_exit typed_assert typed_read_entry typed_write_entry typed_probe
  SET_FIELD_range : typed.
#[export] Hint Extern 1 (0 <= _) => lia : typed.

Lemma bit_range w b : 0 <= b < w -> in_u w (Z.shiftl 1 b).
Proof.
  intros Hb. rewrite Z.shiftl_1_l. split; [apply Z.pow_nonneg; lia|apply Z.pow_lt_mono_r; lia].
Qed.

Lemma setbit_range r b : in_u 32 r -> 0 <= b < 32 -> in_u 32 (setbit r b).
Proof. intros Hr Hb. apply in_u_lor; [lia|done|by apply bit_range]. Qed.

Lemma land_range w a b : 0 <= w -> in_u w a -> in_u w (Z.land a b).
Proof. intros Hw Ha. rewrite Z.land_comm. by apply in_u_land_r. Qed.

Lemma clrbit_range r b : in_u 32 r -> in_u 32 (clrbit r b).
Proof. intros Hr. by apply land_range. Qed.

Lemma basic_entry_range arch va pa pagesize : in_u 32 pagesize -> in_u 64 (basic_entry arch va pa pagesize).
Proof.
  intros Hp. unfold basic_entry. cbv zeta. apply in_u_lor; [lia|destruct (pagesize =? 1); apply set_T_range|].
  apply in_u_lor; [lia|apply uwrap_range; lia|]. eapply in_u_mono; [exact Hp|lia..].
Qed.

Lemma create_entry_range G A0 A1 asid VA X W R U C PA SZ :
  in_u 32 SZ -> in_u 64 (create_mmu_entry G A0 A1 asid VA X W R U C PA SZ).
Proof.
  intros HS. apply in_u_lor; [lia|apply SET_FIELD_range; lia|]. eapply in_u_mono; [exact HS|lia..].
Qed.

Lemma vector_bit_range x b : 0 <= b -> in_u 64 x.1 /\ in_u 64 x.2 ->
  in_u 64 (set_exception_vector_bit x b).1 /\ in_u 64 (set_exception_vector_bit x b).2.
Proof.
  intros Hb [H1 H2]. unfold set_exception_vector_bit.
  destruct (Z.ltb_spec b 64), (Z.ltb_spec b 128); cbn [fst snd]; (split; try done);
    apply in_u_lor; (done || lia || apply bit_range; lia).
Qed.

(* ------------------------------------------------------------------ *)
(** ** The operations *)

Section ops.
Context `{HL : TlbSearchLaws} (arch : Z) (n : nat).
Abbreviation typed := (typed n).
Abbreviation ok := (fun _ => True).

Lemma typed_tlb_invalidate va : typed ok (tlb_invalidate va).
Proof.
  apply (typed_bind _ ok); [apply (typed_bind _ ok); [apply typed_probe|intros v _; apply typed_probe]|]. intros e _.
  apply typed_if; [by apply typed_ret|]. apply (typed_bind _ (in_u 64)); [apply typed_read_entry|]. intros raw Hraw.
  apply typed_write_entry, land_range; [lia|done].
Qed.

Lemma typed_add_translation_extended index va pa page_size xwru cccc asid aa vg :
  typed (fun r => r = 0 \/ r = -1) (add_translation_extended arch index va pa page_size xwru cccc asid aa vg).
Proof.
  apply (typed_bind _ ok); [apply typed_probe|]. intros k _.
  apply typed_if; [by apply typed_ret; right|].
  apply (typed_bind _ ok); [apply typed_tlb_invalidate|]. intros _ _.
  apply (typed_bind _ ok); [apply typed_write_entry, extended_entry_range|]. intros _ _. by apply typed_ret; left.
Qed.

Lemma typed_add_translation_fixed index va pa cccc permissions :
  typed ok (add_translation_fixed arch index va pa cccc permissions).
Proof.
  apply (typed_bind _ ok); [apply typed_tlb_invalidate|]. intros _ _.
  eapply typed_bind; [apply typed_add_translation_extended|]. intros _ _. by apply typed_ret.
Qed.

Lemma typed_upte : typed (Forall (in_u 16)) (gets upte).
Proof. apply typed_gets. by intros s []. Qed.

Lemma typed_update_pte i off w v :
  typed ok (t ← gets upte; e ← of_option (lookupZ t i);
    t1 ← of_option (insertZ t i (insert_bits 16 e off w v)); modify (set_upte t1)).
Proof.
  eapply typed_bind; [apply typed_upte|]. intros t Ht.
  apply (typed_bind _ ok); [by apply typed_of_option|]. intros e _.
  apply (typed_bind _ (Forall (in_u 16))).
  { apply typed_of_option. intros t1 H1. eapply insertZ_Forall; [done|done|]. apply insert_bits_range. lia. }
  intros t1 H1. apply typed_modify. by intros s [].
Qed.

Lemma typed_add_translation va pa cccc : typed ok (add_translation va pa cccc).
Proof.
  intros s Hs. unfold add_translation. cbv zeta.
  pose proof (typed_update_pte (findPTEAddr va) 4 12 (Z.shiftr pa 20) s Hs) as H1.
  unfold mbind, prog_bind in *. cbn [gets] in *.
  destruct (lookupZ (upte s) (findPTEAddr va)) as [e|]; cbn in *; [|done].
  destruct (insertZ (upte s) (findPTEAddr va) _) as [t1|]; cbn in *; [|done].
  apply (typed_update_pte (findPTEAddr va) 0 4 cccc _ (proj2 H1)).
Qed.

Lemma typed_ctlbw entry idx : in_u 64 entry -> typed ok (ctlbw entry idx).
Proof.
  intros He. apply (typed_bind _ ok); [apply typed_probe|]. intros r _.
  apply typed_if; [|auto with typed]. apply (typed_bind _ ok); auto with typed.
Qed.

Lemma typed_tlbinvasid hi : typed ok (tlbinvasid hi).
Proof.
  apply typed_modify. intros s [T1 T2 T3 T4 T5 T6 T7 T8 T9 T10]. split; try done; sys_simpl; rewrite tlbinvasid_each.
  - apply Forall_fmap. eapply Forall_impl; [exact T1|]. intros e He. cbn.
    destruct (_ && _); [apply SET_FIELD_range; lia|done].
  - by rewrite length_fmap.
Qed.

Lemma typed_set_ssr v : in_u 32 v -> typed ok (setssr v).
Proof. intros Hv. apply typed_modify. by intros s []. Qed.

Lemma typed_get_ssr : typed (in_u 32) (gets ssr).
Proof. apply typed_gets. by intros s []. Qed.

Lemma typed_get_badva : typed (in_u 32) getbadva.
Proof. apply typed_gets. by intros s []. Qed.

Lemma typed_enter_user_mode : typed ok enter_user_mode.
Proof.
  eapply typed_bind; [apply typed_get_ssr|]. intros v Hv.
  apply typed_set_ssr, clrbit_range, setbit_range; [by apply clrbit_range|lia].
Qed.

Lemma typed_enter_kernel_mode : typed ok enter_kernel_mode.
Proof. eapply typed_bind; [apply typed_get_ssr|]. intros v Hv. by apply typed_set_ssr, clrbit_range, clrbit_range, clrbit_range. Qed.

Lemma typed_set_asid asid : typed ok (set_asid asid).
Proof. eapply typed_bind; [apply typed_get_ssr|]. intros v Hv. apply typed_set_ssr, SET_FIELD_range. lia. Qed.

Lemma typed_inc_elr inc : typed ok (inc_elr inc).
Proof. apply typed_modify. intros s []. split; try done. apply uwrap_range. lia. Qed.

Lemma typed_setevb a : in_u 32 a -> typed ok (setevb a).
Proof. intros Ha. apply typed_modify. by intros s []. Qed.

Lemma typed_install_vectors a : in_u 32 a -> typed ok (install_my_event_vectors a).
Proof.
  intros Ha. apply (typed_bind _ (in_u 32)); [apply typed_gets; by intros s []|]. intros e He.
  apply (typed_bind _ ok); [apply typed_modify; by intros s []|]. intros _ _. by apply typed_setevb.
Qed.

Lemma typed_record_exception cause : 0 <= cause -> typed ok (record_exception cause).
Proof.
  intros Hc. apply typed_modify. intros s [T1 T2 T3 T4 T5 T6 T7 T8 T9 T10]. split; try done.
  by apply vector_bit_range.
Qed.

Lemma cause_nonneg v : 0 <= GET_FIELD v SSR_CAUSE.
Proof. apply GET_FIELD_range. Qed.

Lemma typed_add_permission i f : typed ok (add_permission i f).
Proof. eapply typed_bind; [apply typed_read_entry|]. intros e He. apply typed_write_entry, SET_FIELD_range. lia. Qed.
#[local] Hint Resolve typed_add_permission : typed.

Lemma typed_error_handler v : typed ok (my_event_handle_error_helper v).
Proof.
  eapply typed_bind; [apply typed_get_badva|]. intros b _.
  apply (typed_bind _ ok); [apply typed_record_exception, cause_nonneg|]. intros _ _.
  unfold do_coredump. auto 20 with typed.
Qed.

Lemma typed_nmi_handler v : typed ok (my_event_handle_nmi_helper v).
Proof.
  apply (typed_bind _ ok); [apply typed_record_exception, cause_nonneg|]. intros _ _.
  unfold do_coredump. auto with typed.
Qed.

Lemma page_4k_range : in_u 32 PAGE_4K.
Proof. done. Qed.

Lemma typed_tlbmissrw_handler v : typed ok (my_event_handle_tlbmissrw_helper v).
Proof.
  eapply typed_bind; [apply typed_get_badva|]. intros b _.
  apply (typed_bind _ ok); [apply typed_record_exception, cause_nonneg|]. intros _ _. cbv zeta.
  assert (forall e, in_u 64 e -> in_u 64 (if tlb_entry_num b =? THREE_MB_ENTRY then SET_FIELD 64 e PTE_W 1 else e)) as Hw.
  { intros e He. destruct (tlb_entry_num b =? THREE_MB_ENTRY); [apply SET_FIELD_range; lia|done]. }
  assert (forall e, in_u 64 e -> in_u 64 (if tlb_entry_num b =? TWO_MB_ENTRY then SET_FIELD 64 e PTE_R 1 else e)) as Hr.
  { intros e He. destruct (tlb_entry_num b =? TWO_MB_ENTRY); [apply SET_FIELD_range; lia|done]. }
  apply typed_if; [|apply typed_if; [|apply typed_exit]]; by apply typed_write_entry, Hw, Hr, create_entry_range, page_4k_range.
Qed.

Lemma typed_tlbmissx_handler v : typed ok (my_event_handle_tlbmissx_helper v).
Proof.
  eapply typed_bind; [apply typed_get_badva|]. intros b _.
  apply (typed_bind _ ok); [apply typed_record_exception, cause_nonneg|]. intros _ _. cbv zeta.
  apply typed_if; [|apply typed_exit]. by apply typed_write_entry, create_entry_range, page_4k_range.
Qed.

Lemma typed_remove_trans i : typed ok (remove_trans i).
Proof. eapply typed_bind; [apply typed_read_entry|]. intros e He. apply typed_write_entry, SET_FIELD_range. lia. Qed.

Lemma typed_clear_overlapping asid va : typed ok (clear_overlapping_entry asid va).
Proof.
  apply (typed_bind _ ok); [apply typed_probe|]. intros i _. apply typed_if; [apply typed_remove_trans|auto with typed].
Qed.

Lemma typed_add_trans index va pa page_size xwru asid V G : typed ok (add_trans arch index va pa page_size xwru asid V G).
Proof.
  apply (typed_bind _ ok); [apply typed_if; [apply typed_clear_overlapping|auto with typed]|]. intros _ _.
  eapply typed_bind; [apply typed_add_translation_extended|]. intros r _. apply typed_assert.
Qed.

(** *** Sequences of operations *)

Inductive mmu_op :=
  | OpTlbInvalidate (va : Z)
  | OpAddTranslationExtended (index va pa page_size xwru cccc asid aa vg : Z)
  | OpAddTranslationFixed (index va pa cccc permissions : Z)
  | OpAddTranslation (va pa cccc : Z)
  | OpTlbw (entry idx : Z)
  | OpCtlbw (entry idx : Z)
  | OpTlbinvasid (entry_hi : Z)
  | OpEnterUserMode
  | OpEnterKernelMode
  | OpSetAsid (asid : Z)
  | OpIncElr (inc : Z)
  | OpSetSsr (v : Z)
  | OpSetEvb (a : Z)
  | OpInstallVectors (a : Z)
  | OpErrorHandler (v : Z)
  | OpNmiHandler (v : Z)
  | OpTlbmissrwHandler (v : Z)
  | OpTlbmissxHandler (v : Z)
  | OpRemoveTrans (index : Z)
  | OpClearOverlapping (asid va : Z)
  | OpAddTrans (index va pa page_size xwru asid V G : Z).

Definition run_op (o : mmu_op) : prog sys () :=
  match o with
  | OpTlbInvalidate va => tlb_invalidate va
  | OpAddTranslationExtended i va pa sz x c asid aa vg =>
      add_translation_extended arch i va pa sz x c asid aa vg;; mret tt
  | OpAddTranslationFixed i va pa c p => add_translation_fixed arch i va pa c p
  | OpAddTranslation va pa c => add_translation va pa c
  | OpTlbw e i => tlbw e i
  | OpCtlbw e i => ctlbw e i;; mret tt
  | OpTlbinvasid hi => tlbinvasid hi
  | OpEnterUserMode => enter_user_mode
  | OpEnterKernelMode => enter_kernel_mode
  | OpSetAsid asid => set_asid asid
  | OpIncElr inc => inc_elr inc
  | OpSetSsr v => setssr v
  | OpSetEvb a => setevb a
  | OpInstallVectors a => install_my_event_vectors a
  | OpErrorHandler v => my_event_handle_error_helper v
  | OpNmiHandler v => my_event_handle_nmi_helper v
  | OpTlbmissrwHandler v => my_event_handle_tlbmissrw_helper v
  | OpTlbmissxHandler v => my_event_handle_tlbmissx_helper v
  | OpRemoveTrans i => remove_trans i
  | OpClearOverlapping asid va => clear_overlapping_entry asid va
  | OpAddTrans i va pa sz x asid V G => add_trans arch i va pa sz x asid V G
  end.

(** The arguments stored as they are have the width of where they go; the others
    may be anything, since the code cuts them down. *)
Definition args_typed (o : mmu_op) : Prop :=
  match o with
  | OpTlbw e _ | OpCtlbw e _ => in_u 64 e
  | OpSetSsr v | OpSetEvb v | OpInstallVectors v => in_u 32 v
  | _ => True
  end.

Fixpoint run_ops (l : list mmu_op) : prog sys () :=
  match l with [] => mret tt | o :: l => run_op o;; run_ops l end.

Lemma typed_run_op o : args_typed o -> typed ok (run_op o).
Proof.
  destruct o; cbn [args_typed run_op]; intros Ho.
  - apply typed_tlb_invalidate.
  - eapply typed_bind; [apply typed_add_translation_extended|]. intros _ _. by apply typed_ret.
  - apply typed_add_translation_fixed.
  - apply typed_add_translation.
  - by apply typed_write_entry.
  - eapply typed_bind; [by apply typed_ctlbw|]. intros _ _. by apply typed_ret.
  - apply typed_tlbinvasid.
  - apply typed_enter_user_mode.
  - apply typed_enter_kernel_mode.
  - apply typed_set_asid.
  - apply typed_inc_elr.
  - by apply typed_set_ssr.
  - by apply typed_setevb.
  - by apply typed_install_vectors.
  - apply typed_error_handler.
  - apply typed_nmi_handler.
  - apply typed_tlbmissrw_handler.
  - apply typed_tlbmissx_handler.
  - apply typed_remove_trans.
  - apply typed_clear_overlapping.
  - apply typed_add_trans.
Qed.

End ops.

Section witness.
Import ArrayTlb.

Definition typed_machine : sys :=
  Sys (replicate 64 0) 0 0x123456 0 0 16 (replicate 16 0) 0 (0, 0) (TestState 0 []).

Lemma typed_machine_ok : sys_typed 64 typed_machine.
Proof.
  split; try done.
  - cbn [tlb typed_machine]. apply Forall_replicate. done.
  - cbn [upte typed_machine]. apply Forall_replicate. done.
Qed.

End witness.
