(* ===== verification/MmuMem.v ===== *)
(** Memory behind the MMU: accesses through the TLB, the exceptions they raise
    and the handlers that serve them.  [access] is one load, store, fetch or
    cache operation: the processor looks the address up, raises a miss or a
    permission exception through the event vectors, and replays the access when
    the handler returns.  The handlers are those of [include/mmu.h], bound by
    each test with MY_EVENT_HANDLE and DEFAULT_EVENT_HANDLE, and those of the
    runtime ([crt0/crt0_standalone.S]), which refill the TLB from the software
    page table. *)

From S2P Require Import Prelude HexTest RegFields TlbHw Tlb Mmu.

(* ------------------------------------------------------------------ *)
(** ** What the processor checks *)

(** The kinds of access: loads, stores, instruction fetches, and the cache
    operations on data and on instructions. *)
Inductive access_kind : Type := Read | Write | Fetch | DcOp | IcOp.

#[export] Instance access_kind_eq_dec : EqDecision access_kind.
Proof. solve_decision. Defined.

(** [permitted k user e]: entry [e] allows the access in user mode or not. *)
Definition permitted (k : access_kind) (user : bool) (e : Z) : bool :=
  match k with
  | Read => truth (GET_FIELD e PTE_R)
  | Write => truth (GET_FIELD e PTE_W)
  | Fetch => truth (GET_FIELD e PTE_X)
  | DcOp => truth (GET_FIELD e PTE_R) || truth (GET_FIELD e PTE_W)
  | IcOp => true
  end && match k with IcOp => true | _ => negb user || truth (GET_FIELD e PTE_U) end.

(** The cause that reports a missing permission. *)
Definition perm_cause (k : access_kind) (f : reg_fields_enum) : option Z :=
  match k, f with
  | (Read | DcOp), PTE_R => Some HEX_CAUSE_PRIV_NO_READ
  | (Read | DcOp), PTE_U => Some HEX_CAUSE_PRIV_NO_UREAD
  | Write, PTE_W => Some HEX_CAUSE_PRIV_NO_WRITE
  | Write, PTE_U => Some HEX_CAUSE_PRIV_NO_UWRITE
  | Fetch, PTE_X => Some HEX_CAUSE_FETCH_NO_XPAGE
  | Fetch, PTE_U => Some HEX_CAUSE_FETCH_NO_UPAGE
  | _, _ => None
  end.

(** The part of the processor the source relies on: the permission check and
    the physical address of a translated access. *)
Class MmuHw := {
  access_fault : access_kind -> bool -> Z -> option Z;
  phys_addr : Z -> Z -> Z
}.

(** What the architecture documents of them.  When several permissions are
    missing, which one is reported first is not documented. *)
Class MmuHwLaws `{MmuHw} : Prop := {
  fault_none k u e : access_fault k u e = None <-> permitted k u e = true;
  fault_some k u e c :
    access_fault k u e = Some c ->
    exists f, perm_cause k f = Some c /\ GET_FIELD e f = 0 /\ (f = PTE_U -> u = true);
  (* the page number of the entry above the offset in the page *)
  phys_addr_bits e va i :
    0 <= i -> GET_FIELD e PTE_PA35 = 0 -> GET_FIELD e PTE_ATR0 = 0 -> GET_FIELD e PTE_ATR1 = 0 ->
    Z.testbit (phys_addr e va) i =
      if i <? 12 + 2 * ctz e then Z.testbit va i else Z.testbit (GET_FIELD e PTE_PPD) (i - 11)
}.

(** A processor that satisfies the laws. *)
Module SimMmu.

Definition report (k : access_kind) (fs : list reg_fields_enum) (e : Z) : option Z :=
  match filter (fun f => GET_FIELD e f = 0) fs with
  | [] => None
  | f :: _ => perm_cause k f
  end.

#[export] Instance sim_mmu : MmuHw := {
  access_fault k u e :=
    if permitted k u e then None
    else report k (match k with Read | DcOp => [PTE_R; PTE_U] | Write => [PTE_W; PTE_U]
                   | Fetch => [PTE_X; PTE_U] | IcOp => [] end) e;
  phys_addr e va :=
    let b := 12 + 2 * ctz e in
    Z.lor (Z.land va (Z.ones b))
          (Z.shiftl (Z.shiftr (Z.shiftl (GET_FIELD e PTE_PPD) 11) b) b)
}.

#[export] Instance sim_mmu_laws : MmuHwLaws.
Proof.
  assert (forall e f, GET_FIELD e f = 0 \/ truth (GET_FIELD e f) = true) as Ht.
  { intros e f. unfold truth. destruct (Z.eqb_spec (GET_FIELD e f) 0); auto. }
  assert (forall e f, GET_FIELD e f = 0 -> truth (GET_FIELD e f) = false) as Hf0 by by intros e f ->.
  assert (forall e f, truth (GET_FIELD e f) = true -> GET_FIELD e f <> 0) as Hf1 by by intros e f H ?%Hf0; congruence.
  split.
  - intros k u e. cbn [access_fault sim_mmu]. destruct (permitted k u e) eqn:Hp; [done|].
    split; [|done]. unfold permitted, report in *. intros Hn. exfalso. revert Hp Hn.
    destruct (Ht e PTE_R) as [HR|HR], (Ht e PTE_W) as [HW|HW], (Ht e PTE_X) as [HX|HX],
      (Ht e PTE_U) as [HU|HU], k, u; rewrite ?filter_cons, ?filter_nil;
      repeat first [rewrite decide_True by assumption | rewrite decide_False by auto];
      rewrite ?HR, ?HW, ?HX, ?HU; done.
  - intros k u e c. cbn [access_fault sim_mmu]. destruct (permitted k u e) eqn:Hp; [done|].
    unfold permitted, report in *. revert Hp.
    destruct (Ht e PTE_R) as [HR|HR], (Ht e PTE_W) as [HW|HW], (Ht e PTE_X) as [HX|HX],
      (Ht e PTE_U) as [HU|HU], k, u; rewrite ?filter_cons, ?filter_nil;
      repeat first [rewrite decide_True by assumption | rewrite decide_False by auto];
      rewrite ?HR, ?HW, ?HX, ?HU; try done; intros _ Hc; eexists; (split; [exact Hc|]); done.
  - intros e va i Hi _ _ _. cbn [phys_addr sim_mmu].
    pose proof (ctz_nonneg e).
    autorewrite with bits. split_cmp; simpl_bool; try done; try lia.
    f_equal. lia.
Qed.

End SimMmu.

(* ------------------------------------------------------------------ *)
(** ** The machine with its memory *)

(** The registers and TLB of [sys], with the words of physical memory and the
    two variables of the runtime's refill code. *)
Record msys := MSys {
  cpu : sys;
  mem : Z -> Z;            (* by physical address *)
  tlb_idx : Z;             (* __tlb_idx, the entry refilled last *)
  NumTLBEntries : Z        (* _NumTLBEntries, the highest entry number *)
}.

Definition set_cpu (c : sys) (s : msys) : msys := MSys c (mem s) (tlb_idx s) (NumTLBEntries s).
Definition set_mem (m : Z -> Z) (s : msys) : msys := MSys (cpu s) m (tlb_idx s) (NumTLBEntries s).
Definition set_tlb_idx (i : Z) (s : msys) : msys := MSys (cpu s) (mem s) i (NumTLBEntries s).

(** Code that only touches the registers and the TLB. *)
Definition on_cpu {A} (m : prog sys A) : prog msys A := fun s =>
  match m (cpu s) with
  | Done a c => Done a (set_cpu c s)
  | Exited e c => Exited e (set_cpu c s)
  | Undef => Undef
  | NoFuel => NoFuel
  end.

Lemma on_cpu_done {A} (m : prog sys A) a c s : m (cpu s) = Done a c -> on_cpu m s = Done a (set_cpu c s).
Proof. unfold on_cpu. by intros ->. Qed.

(** A loop the code never leaves. *)
Definition forever {A} : prog msys A := fun _ => NoFuel.

(** Running in user mode: UM is set and no exception is being handled. *)
Definition user_mode (c : sys) : bool :=
  truth (GET_FIELD (ssr c) SSR_UM) && negb (truth (GET_FIELD (ssr c) SSR_EX)).

(* ------------------------------------------------------------------ *)
(** ** Event vectors *)

(** The names the vector tables jump to. *)
Inductive handle : Type :=
  | H_reset | H_nmi | H_error | H_rsvd | H_tlbmissx | H_tlbmissrw
  | H_trap0 | H_trap1 | H_fperror | H_int.

#[export] Instance handle_eq_dec : EqDecision handle.
Proof. solve_decision. Defined.

(** [my_event_vectors]: the table of the tests. *)
Definition my_event_vectors : list handle :=
  [H_reset; H_nmi; H_error; H_rsvd; H_tlbmissx; H_rsvd; H_tlbmissrw; H_rsvd;
   H_trap0; H_trap1; H_rsvd; H_fperror; H_rsvd; H_rsvd; H_rsvd; H_rsvd] ++ replicate 32 H_int.

(** [.EventVectors]: the table of the runtime. *)
Definition EventVectors : list handle :=
  [H_reset; H_nmi; H_error; H_rsvd; H_tlbmissx; H_rsvd; H_tlbmissrw; H_rsvd;
   H_trap0; H_trap1; H_rsvd; H_rsvd; H_rsvd; H_rsvd; H_rsvd; H_rsvd] ++ replicate 32 H_int.

(** The offsets HANDLE_x_OFFSET that DEFAULT_EVENT_HANDLE adds to the old
    vector base. *)
Definition HANDLE_OFFSET (h : handle) : Z :=
  match h with
  | H_reset => 0x00 | H_nmi => 0x04 | H_error => 0x08 | H_rsvd => 0x0c
  | H_tlbmissx => 0x10 | H_tlbmissrw => 0x18 | H_trap0 => 0x20 | H_trap1 => 0x24
  | H_fperror => 0x28 | H_int => 0x40
  end.

(** The events an access or a probe raises, and the offset of their vector. *)
Inductive event : Type := EvNmi | EvError | EvTlbmissx | EvTlbmissrw.

Definition event_offset (ev : event) : Z :=
  match ev with EvNmi => 0x04 | EvError => 0x08 | EvTlbmissx => 0x10 | EvTlbmissrw => 0x18 end.

Definition event_handle (ev : event) : handle :=
  match ev with
  | EvNmi => H_nmi | EvError => H_error | EvTlbmissx => H_tlbmissx | EvTlbmissrw => H_tlbmissrw
  end.

(** The jump a table at [base] holds at an address. *)
Definition vector_at (base : Z) (table : list handle) (addr : Z) : option handle :=
  if (addr - base) mod 4 =? 0 then lookupZ table ((addr - base) / 4) else None.

(** How a test binds a handler: MY_EVENT_HANDLE(name, helper), which saves the
    registers, calls [helper(ssr)] and returns from the exception, or
    DEFAULT_EVENT_HANDLE(name, offset), which jumps through the old table. *)
Inductive binding : Type :=
  | MY_EVENT_HANDLE (helper : Z -> prog sys ())
  | DEFAULT_EVENT_HANDLE (offset : Z).

(** DEFAULT_EVENT_HANDLES: every handler forwards to the runtime. *)
Definition DEFAULT_EVENT_HANDLES (h : handle) : binding := DEFAULT_EVENT_HANDLE (HANDLE_OFFSET h).

(* ------------------------------------------------------------------ *)
(** ** The handlers of the runtime *)

Section handlers.
Context `{TlbSearch}.

(** Return from exception. *)
Definition rte : prog msys () :=
  on_cpu (modify (fun c => set_ssr (SET_FIELD 32 (ssr c) SSR_EX 0) c)).

(** The entry number to refill: the next one, and after the last one the first
    that is not fixed. *)
Definition next_tlb_idx : prog msys Z :=
  r1 ← on_cpu get_tlb_fixed_entries;
  r3 ← gets NumTLBEntries;
  r6 ← gets tlb_idx;
  let r6 := u32 (r6 + 1) in
  let r6 := if negb (r6 <? r3) then r1 else r6 in
  modify (set_tlb_idx r6);;
  mret r6.

(** The two halves of the entry for a megabyte, from its software PTE. *)
Definition refill_hi (mb : Z) : Z := Z.lor 0xc0000000 (Z.shiftl mb 8).
Definition refill_lo (pte : Z) : Z :=
  Z.lor (Z.lor 0xf0000010 (Z.shiftl (extract pte 4 12) 9)) (Z.shiftl (extract pte 0 4) 24).
Definition refill_entry (mb pte : Z) : Z := Z.lor (Z.shiftl (refill_hi mb) 32) (refill_lo pte).

(** A miss of a load or store.  When the probe finds an entry after all it must
    not be a fixed one: the handler then stops in a loop. *)
Definition event_handle_tlbmissrw : prog msys () :=
  b ← on_cpu getbadva;
  let r7 := Z.shiftr b 20 in
  r6 ← next_tlb_idx;
  r3 ← on_cpu (t ← gets upte; of_option (lookupZ t r7));
  r5 ← on_cpu (gets (fun c => tlbp_insn (tlb c) (refill_hi r7)));
  (if Z.testbit r5 31 then on_cpu (tlbw (refill_entry r7 r3) r6)
   else
     r4 ← on_cpu get_tlb_fixed_entries;
     if r5 <? r4 then forever else mret tt);;
  rte.

(** A miss of a fetch: the page of ELR, or the next one. *)
Definition event_handle_tlbmissx : prog msys () :=
  r8 ← on_cpu getssr;
  r7 ← on_cpu (gets elr);
  let r7 := Z.shiftr r7 12 in
  let r7 := if Z.testbit r8 0 then r7 + 1 else r7 in
  r6 ← next_tlb_idx;
  let r7 := Z.shiftr r7 8 in
  r3 ← on_cpu (t ← gets upte; of_option (lookupZ t r7));
  r5 ← on_cpu (gets (fun c => tlbp_insn (tlb c) (refill_hi r7)));
  (if Z.testbit r5 31 then on_cpu (tlbw (refill_entry r7 r3) r6) else mret tt);;
  rte.

(** The runtime's handlers of the events above; the core dump ends the process
    with the number left in STID.  The remaining entries of the table serve
    events that no access raises. *)
Definition runtime_handle (h : handle) : prog msys () :=
  match h with
  | H_nmi => exit_with 1
  | H_error => exit_with 2
  | H_rsvd => exit_with 0xdeadbeef
  | H_tlbmissx => event_handle_tlbmissx
  | H_tlbmissrw => event_handle_tlbmissrw
  | _ => undef
  end.

(* ------------------------------------------------------------------ *)
(** ** Exceptions and accesses *)

(** [my_addr] and [rt_addr] are the addresses of the two vector tables,
    [handles] the bindings of the test and [pc] the address of the code that
    makes the access. *)
Context `{MmuHw} (my_addr rt_addr pc : Z) (handles : handle -> binding).

(** The code a vector of the runtime's table jumps to. *)
Definition jump_runtime (addr : Z) : prog msys () :=
  match vector_at rt_addr EventVectors addr with Some h => runtime_handle h | None => undef end.

Definition run_binding (b : binding) : prog msys () :=
  match b with
  | MY_EVENT_HANDLE helper =>
      r0 ← on_cpu getssr;
      on_cpu (helper r0);;
      rte
  | DEFAULT_EVENT_HANDLE offset =>
      r0 ← on_cpu (gets old_evb);
      jump_runtime (r0 + offset)
  end.

Definition take_vector (addr : Z) : prog msys () :=
  match vector_at my_addr my_event_vectors addr with
  | Some h => run_binding (handles h)
  | None => jump_runtime addr
  end.

(** The processor raises an event: it records the cause and the address, enters
    exception mode and goes through the vector table. *)
Definition raise (ev : event) (cause va epc : Z) : prog msys () :=
  on_cpu (modify (set_badva va));;
  on_cpu (modify (set_elr epc));;
  on_cpu (modify (fun c => set_ssr (SET_FIELD 32 (SET_FIELD 32 (ssr c) SSR_CAUSE cause) SSR_EX 1) c));;
  base ← on_cpu getevb;
  take_vector (base + event_offset ev).

Definition miss_event (k : access_kind) : event * Z :=
  match k with
  | Read | DcOp => (EvTlbmissrw, HEX_CAUSE_TLBMISSRW_READ)
  | Write => (EvTlbmissrw, HEX_CAUSE_TLBMISSRW_WRITE)
  | Fetch | IcOp => (EvTlbmissx, HEX_CAUSE_TLBMISSX_NORMAL)
  end.

(** A fetch faults at its own address. *)
Definition fault_pc (k : access_kind) (va : Z) : Z := if decide (k = Fetch) then va else pc.

(** One attempt: the physical address, or an exception after which the access
    is replayed. *)
Definition access_try (k : access_kind) (va : Z) : prog msys (() + Z) :=
  c ← gets cpu;
  let i := tlbp_insn (tlb c) (probe_of (cur_asid c) va) in
  if i =? TLB_NOT_FOUND then
    raise (miss_event k).1 (miss_event k).2 va (fault_pc k va);; mret (inl tt)
  else
    e ← on_cpu (tlbr i);
    match access_fault k (user_mode c) e with
    | Some cause => raise EvError cause va (fault_pc k va);; mret (inl tt)
    | None => mret (inr (phys_addr e va))
    end.

(** Replays: one miss, and one fault for each of the four permissions. *)
Definition replays : nat := 6.

Definition access (k : access_kind) (va : Z) : prog msys Z :=
  iter replays (fun _ : () => access_try k va) tt.

(** [*(mmu_variable * )va] and an assignment to it; [data] is aligned. *)
Definition load (va : Z) : prog msys Z :=
  if negb (va mod 4 =? 0) then undef
  else pa ← access Read va; gets (fun s => mem s pa).
Definition store (va v : Z) : prog msys () :=
  if negb (va mod 4 =? 0) then undef
  else pa ← access Write va; modify (fun s => set_mem (fun a => if a =? pa then v else mem s a) s).

(** [memw(p++#4) = v]: the address register changes when the store completes. *)
Definition store_inc (p v : Z) : prog msys Z := store p v;; mret (u32 (p + 4)).

(** A call of [func_return_pc], two instructions at physical address [func], by
    the virtual address [va]: it returns its own address. *)
Definition call_func (func va : Z) : prog msys Z :=
  a1 ← access Fetch va;
  a2 ← access Fetch (u32 (va + 4));
  if (a1 =? func) && (a2 =? func + 4) then mret va else undef.

End handlers.

(** A check of the running program. *)
Definition check (f : test_state -> test_state) : prog msys () :=
  on_cpu (modify (fun c => set_tst (f (tst c)) c)).

(** [clear_exception_vector(my_exceptions)] *)
Definition set_exceptions (x : Z * Z) : prog msys () := on_cpu (modify (set_my_exceptions x)).

(* ------------------------------------------------------------------ *)
(** ** The tables agree *)

Lemma vector_at_slot base table i :
  0 <= i -> vector_at base table (base + 4 * i) = lookupZ table i.
Proof.
  intros Hi. unfold vector_at. replace (base + 4 * i - base) with (i * 4) by lia.
  by rewrite Z.mod_mul, Z.div_mul by lia.
Qed.

Lemma vector_at_far base table addr :
  ~ (base <= addr < base + 4 * Z.of_nat (length table)) -> vector_at base table addr = None.
Proof.
  intros Hf. unfold vector_at. destruct (Z.eqb_spec ((addr - base) mod 4) 0) as [Hm|]; [|done].
  destruct (lookupZ table ((addr - base) / 4)) as [h|] eqn:Hl; [|done]. exfalso.
  assert (is_Some (lookupZ table ((addr - base) / 4))) as [H1 H2]%lookupZ_is_Some by (by eexists).
  pose proof (Z.div_mod (addr - base) 4). lia.
Qed.

Lemma event_vector ev :
  exists i, event_offset ev = 4 * i /\ 0 <= i /\
    lookupZ my_event_vectors i = Some (event_handle ev) /\
    lookupZ EventVectors i = Some (event_handle ev) /\
    HANDLE_OFFSET (event_handle ev) = 4 * i.
Proof.
  destruct ev; [exists 1|exists 2|exists 4|exists 6]; by vm_compute.
Qed.

(* ------------------------------------------------------------------ *)
(** ** Pages and the entries that reach them *)

(** [reaches e vpn k]: the entry translates some address of the page of [k]
    size steps at page number [vpn], in some address space. *)
Definition reaches (e vpn k : Z) : bool :=
  truth (GET_FIELD e PTE_V) && (Z.shiftr (GET_FIELD e PTE_VPN) (2 * Z.max (ctz e) k) =?
                                Z.shiftr vpn (2 * Z.max (ctz e) k)).

(** Only entry [i] can translate an address of the page. *)
Definition sole (t : list Z) (vpn k : Z) (i : nat) : Prop :=
  forall j e, t !! j = Some e -> reaches e vpn k = true -> j = i.

(** Nothing translates an address of the page. *)
Definition quiet (t : list Z) (vpn k : Z) : Prop :=
  forall j e, t !! j = Some e -> reaches e vpn k = false.

(** The one entry that translates a probe. *)
Definition hit (t : list Z) (x : Z) (i : nat) (e : Z) : Prop :=
  t !! i = Some e /\ entry_matches x e = true /\ forall j, matches_at t x j -> j = i.

Lemma shiftr_mono a b m n : 0 <= m <= n -> Z.shiftr a m = Z.shiftr b m -> Z.shiftr a n = Z.shiftr b n.
Proof.
  intros Hn Hs. replace n with (m + (n - m)) by lia. rewrite <- !Z.shiftr_shiftr by lia. by rewrite Hs.
Qed.

(** An address a page contains: its page number. *)
Definition in_page (vpn k va : Z) : Prop := Z.shiftr (Z.shiftr va 12) (2 * k) = Z.shiftr vpn (2 * k).

Lemma match_reaches a va e vpn k :
  in_u 7 a -> in_u 32 va -> 0 <= k -> in_page vpn k va ->
  entry_matches (probe_of a va) e = true -> reaches e vpn k = true.
Proof.
  intros Ha Hva Hk Hp. unfold entry_matches, reaches, same_page.
  rewrite probe_of_vpn, !andb_true_iff, !Z.eqb_eq by done. intros [[HV _] Hs]. split; [done|].
  pose proof (ctz_nonneg e).
  etransitivity; [eapply shiftr_mono, Hs; lia|]. eapply shiftr_mono, Hp. lia.
Qed.

(** A page inside another. *)
Lemma reaches_mono e vpn k vpn' k' :
  0 <= k' <= k -> Z.shiftr vpn' (2 * k) = Z.shiftr vpn (2 * k) ->
  reaches e vpn' k' = true -> reaches e vpn k = true.
Proof.
  intros Hk Hp. unfold reaches. rewrite !andb_true_iff, !Z.eqb_eq. intros [HV Hs]. split; [done|].
  pose proof (ctz_nonneg e).
  etransitivity; [eapply shiftr_mono, Hs; lia|]. eapply shiftr_mono, Hp. lia.
Qed.

Lemma overlap_reaches E e :
  entries_overlap E e = true -> reaches e (GET_FIELD E PTE_VPN) (ctz E) = true.
Proof.
  unfold entries_overlap, reaches, same_page. rewrite !andb_true_iff, !Z.eqb_eq.
  intros [[[HV HV'] _] Hs]. split; [done|]. by rewrite (Z.max_comm (ctz e)).
Qed.

Lemma quiet_sole t vpn k i : quiet t vpn k -> sole t vpn k i.
Proof. intros Hq j e He Hr. by rewrite (Hq j e He) in Hr. Qed.

Lemma sole_mono t vpn k vpn' k' i :
  sole t vpn k i -> 0 <= k' <= k -> Z.shiftr vpn' (2 * k) = Z.shiftr vpn (2 * k) -> sole t vpn' k' i.
Proof. intros Hs Hk Hp j e He Hr. eapply Hs; [done|]. by eapply reaches_mono. Qed.

Lemma quiet_mono t vpn k vpn' k' :
  quiet t vpn k -> 0 <= k' <= k -> Z.shiftr vpn' (2 * k) = Z.shiftr vpn (2 * k) -> quiet t vpn' k'.
Proof.
  intros Hs Hk Hp j e He. apply not_true_iff_false. intros Hr.
  assert (reaches e vpn k = true) as Hr' by by eapply reaches_mono. by rewrite (Hs j e He) in Hr'.
Qed.

Lemma sole_insert t vpn k i j e :
  sole t vpn k i -> j = i \/ reaches e vpn k = false -> sole (<[j := e]> t) vpn k i.
Proof.
  intros Hs Hj j' e' He' Hr. destruct (decide (j' = j)) as [->|Hne].
  - destruct Hj as [->|Hj]; [done|]. exfalso.
    assert (e' = e) as ->; [|congruence].
    destruct (decide (j < length t)%nat); [rewrite list_lookup_insert_eq in He' by done; congruence|].
    apply lookup_lt_Some in He'. rewrite length_insert in He'. lia.
  - rewrite list_lookup_insert_ne in He' by done. by eapply Hs.
Qed.

Lemma quiet_insert t vpn k j e :
  quiet t vpn k -> reaches e vpn k = false -> quiet (<[j := e]> t) vpn k.
Proof.
  intros Hs Hj j' e' He'. destruct (decide (j' = j)) as [->|Hne].
  - destruct (decide (j < length t)%nat); [rewrite list_lookup_insert_eq in He' by done; congruence|].
    apply lookup_lt_Some in He'. rewrite length_insert in He'. lia.
  - rewrite list_lookup_insert_ne in He' by done. by eapply Hs.
Qed.

(** A page only an entry that does not reach it could reach is quiet. *)
Lemma sole_quiet t vpn k i e :
  sole t vpn k i -> t !! i = Some e -> reaches e vpn k = false -> quiet t vpn k.
Proof.
  intros Hs He Hr j e' He'. apply not_true_iff_false. intros Hr'.
  pose proof (Hs j e' He' Hr') as ->. congruence.
Qed.

(** A change of an entry that cannot make it reach more. *)
Lemma sole_alter t vpn k i j f :
  sole t vpn k i -> (forall e, reaches (f e) vpn k = true -> reaches e vpn k = true) ->
  sole (alter f j t) vpn k i.
Proof.
  intros Hs Hf j' e' He' Hr. destruct (decide (j' = j)) as [->|Hne].
  - rewrite list_lookup_alter_eq in He'. destruct (t !! j) as [e|] eqn:He; [|done].
    injection He' as <-. eapply Hs; [done|]. by apply Hf.
  - rewrite list_lookup_alter_ne in He' by done. by eapply Hs.
Qed.

Lemma reaches_invalid e vpn k : reaches (invalid e) vpn k = false.
Proof.
  unfold reaches, invalid. by rewrite (get_set_same e PTE_V 0 : GET_FIELD (SET_FIELD 64 e PTE_V 0) PTE_V = _).
Qed.

Section hits.
Context `{HL : TlbSearchLaws}.

Lemma sole_hit t vpn k i a va e :
  sole t vpn k i -> in_u 7 a -> in_u 32 va -> 0 <= k -> in_page vpn k va ->
  t !! i = Some e -> entry_matches (probe_of a va) e = true -> hit t (probe_of a va) i e.
Proof.
  intros Hs Ha Hva Hk Hp He Hm. split_and!; [done|done|]. intros j (e' & He' & Hm').
  eapply Hs; [done|]. by eapply match_reaches.
Qed.

Lemma hit_tlbp t x i e : Z.of_nat (length t) < TLB_NOT_FOUND -> hit t x i e -> tlbp_insn t x = Z.of_nat i.
Proof. intros Hl (He & Hm & Hu). apply tlbp_one; [done|by exists e|done]. Qed.

Lemma quiet_tlbp t vpn k a va :
  quiet t vpn k -> in_u 7 a -> in_u 32 va -> 0 <= k -> in_page vpn k va ->
  tlbp_insn t (probe_of a va) = TLB_NOT_FOUND.
Proof.
  intros Hq Ha Hva Hk Hp. apply tlbp_none. intros i (e & He & Hm).
  assert (reaches e vpn k = true) as Hr by by eapply match_reaches. by rewrite (Hq i e He) in Hr.
Qed.

Lemma quiet_tlboc t E :
  quiet t (GET_FIELD E PTE_VPN) (ctz E) -> tlboc_insn t E = TLB_NOT_FOUND.
Proof.
  intros Hq. apply tlboc_none. intros i (e & He & Ho%overlap_reaches).
  by rewrite (Hq i e He) in Ho.
Qed.

Lemma sole_tlboc t E i e :
  sole t (GET_FIELD E PTE_VPN) (ctz E) i -> t !! i = Some e -> entries_overlap E e = true ->
  tlboc_insn t E = Z.of_nat i.
Proof.
  intros Hs He Ho. apply tlboc_one; [by exists e|]. intros j (e' & He' & Ho'%overlap_reaches).
  by eapply Hs.
Qed.
End hits.

(* ------------------------------------------------------------------ *)
(** ** What an exception leaves unchanged *)

(** Everything but the memory, the TLB, the refill index, the recorded
    exceptions and the registers that describe the last exception. *)
Record frame (s s' : msys) : Prop := {
  fr_num : NumTLBEntries s' = NumTLBEntries s;
  fr_tst : tst (cpu s') = tst (cpu s);
  fr_evb : evb (cpu s') = evb (cpu s);
  fr_old : old_evb (cpu s') = old_evb (cpu s);
  fr_fixed : tlb_fixed_entries (cpu s') = tlb_fixed_entries (cpu s);
  fr_upte : upte (cpu s') = upte (cpu s);
  fr_ssr : forall f, reg_width f = 32 -> f <> SSR_CAUSE ->
    GET_FIELD (ssr (cpu s')) f = GET_FIELD (ssr (cpu s)) f
}.

#[export] Instance frame_refl : Reflexive frame.
Proof. by intros s; split. Qed.

#[export] Instance frame_trans : Transitive frame.
Proof. intros s1 s2 s3 [] []. split; try congruence. intros. by rewrite fr_ssr1, fr_ssr0. Qed.

Lemma frame_asid s s' : frame s s' -> cur_asid (cpu s') = cur_asid (cpu s).
Proof. intros H. by apply (fr_ssr _ _ H). Qed.

Lemma frame_user s s' : frame s s' -> user_mode (cpu s') = user_mode (cpu s).
Proof. intros H. unfold user_mode. by rewrite !(fr_ssr _ _ H). Qed.

Section events.
Context `{HL : TlbSearchLaws} `{HM : MmuHwLaws} (my_addr rt_addr pc : Z) (handles : handle -> binding).

(** The state when the handler of an event starts. *)
Definition raised (cause va epc : Z) (s : msys) : msys :=
  set_cpu (set_ssr (SET_FIELD 32 (SET_FIELD 32 (ssr (cpu s)) SSR_CAUSE cause) SSR_EX 1)
             (set_elr epc (set_badva va (cpu s)))) s.

(** The state after [rte]. *)
Definition returned (s : msys) : msys :=
  set_cpu (set_ssr (SET_FIELD 32 (ssr (cpu s)) SSR_EX 0) (cpu s)) s.

Lemma rte_eq s : rte s = Done tt (returned s).
Proof. done. Qed.

Lemma raise_my ev cause va epc s :
  evb (cpu s) = my_addr ->
  raise my_addr rt_addr handles ev cause va epc s =
    run_binding rt_addr (handles (event_handle ev)) (raised cause va epc s).
Proof.
  intros He. destruct (event_vector ev) as (i & Ho & Hi & Hm & _).
  unfold raise, on_cpu, modify, getevb, gets, mbind, prog_bind. cbn [evb cpu set_cpu].
  change (evb (set_ssr _ _)) with (evb (cpu s)). rewrite He, Ho. unfold take_vector.
  by rewrite vector_at_slot, Hm.
Qed.

Lemma jump_runtime_ev ev base s :
  base = rt_addr -> jump_runtime rt_addr (base + event_offset ev) s = runtime_handle (event_handle ev) s.
Proof.
  intros ->. destruct (event_vector ev) as (i & Ho & Hi & _ & Hm & _). unfold jump_runtime.
  by rewrite Ho, vector_at_slot, Hm.
Qed.

(** The tables are apart. *)
Definition tables_apart : Prop := rt_addr + 192 <= my_addr \/ my_addr + 192 <= rt_addr.

Lemma raise_runtime ev cause va epc s :
  tables_apart -> evb (cpu s) = rt_addr ->
  raise my_addr rt_addr handles ev cause va epc s = runtime_handle (event_handle ev) (raised cause va epc s).
Proof.
  intros Ha He. unfold raise, on_cpu, modify, getevb, gets, mbind, prog_bind. cbn [evb cpu set_cpu].
  change (evb (set_ssr _ _)) with (evb (cpu s)). rewrite He. unfold take_vector.
  rewrite vector_at_far; [by apply jump_runtime_ev|].
  destruct Ha; destruct ev; cbn [event_offset length my_event_vectors app replicate Nat.add]; simpl; lia.
Qed.

(** A handler forwarded to the runtime. *)
Lemma default_forwards ev s :
  old_evb (cpu s) = rt_addr ->
  run_binding rt_addr (DEFAULT_EVENT_HANDLES (event_handle ev)) s = runtime_handle (event_handle ev) s.
Proof.
  intros Ho. unfold DEFAULT_EVENT_HANDLES, run_binding, on_cpu, gets, mbind, prog_bind.
  destruct s as [c m i n]. cbn [cpu set_cpu mem tlb_idx NumTLBEntries] in *. rewrite Ho.
  destruct (event_vector ev) as (j & Hj & _ & _ & _ & Hh). rewrite Hh, <- Hj. by apply jump_runtime_ev.
Qed.

Lemma my_handler helper cause va epc s s1 :
  helper (ssr (cpu (raised cause va epc s))) (cpu (raised cause va epc s)) = Done tt s1 ->
  run_binding rt_addr (MY_EVENT_HANDLE helper) (raised cause va epc s) = Done tt (returned (set_cpu s1 s)).
Proof.
  intros Hh. unfold run_binding, on_cpu at 1, getssr, gets, mbind, prog_bind.
  unfold on_cpu at 1. cbn [cpu set_cpu]. by rewrite Hh.
Qed.

Lemma raised_cause cause va epc s : in_u 8 cause -> GET_FIELD (ssr (cpu (raised cause va epc s))) SSR_CAUSE = cause.
Proof.
  intros Hc. unfold raised. cbn [cpu set_cpu]. sys_simpl.
  rewrite get_set_other_at, get_set_same_at by done. by apply uwrap_id.
Qed.

(** What the registers look like after an exception whose handler left them. *)
Lemma returned_ssr cause va epc s c f :
  GET_FIELD (ssr (cpu s)) SSR_EX = 0 -> ssr c = ssr (cpu (raised cause va epc s)) ->
  reg_width f = 32 -> f <> SSR_CAUSE ->
  GET_FIELD (ssr (cpu (returned (set_cpu c s)))) f = GET_FIELD (ssr (cpu s)) f.
Proof.
  intros Hx Hc Hw Hf. unfold returned. cbn [cpu set_cpu]. sys_simpl. rewrite Hc. unfold raised.
  cbn [cpu set_cpu]. sys_simpl. destruct (decide (f = SSR_EX)) as [->|].
  - by rewrite get_set_same_at, Hx.
  - by rewrite !get_set_other_at by (done || congruence).
Qed.
End events.

(* ------------------------------------------------------------------ *)
(** ** Accesses *)

Section accesses.
Context `{HL : TlbSearchLaws} `{HM : MmuHwLaws} (my_addr rt_addr pc : Z) (handles : handle -> binding).
Abbreviation access_try' := (access_try my_addr rt_addr pc handles).
Abbreviation access_n n k va := (iter n (fun _ : () => access_try' k va) tt).

(** The TLB can be searched. *)
Definition searchable (s : msys) : Prop := Z.of_nat (length (tlb (cpu s))) < TLB_NOT_FOUND.

(** The entry that translates an address in the current address space. *)
Definition translates (s : msys) (va : Z) (i : nat) (e : Z) : Prop :=
  searchable s /\ hit (tlb (cpu s)) (probe_of (cur_asid (cpu s)) va) i e.

Lemma access_try_hit k va s i e :
  translates s va i e ->
  access_try' k va s =
    match access_fault k (user_mode (cpu s)) e with
    | Some c => (raise my_addr rt_addr handles EvError c va (fault_pc pc k va);; mret (inl tt)) s
    | None => Done (inr (phys_addr e va)) s
    end.
Proof.
  intros [Hl Hh]. unfold access_try, gets, mbind, prog_bind.
  rewrite (hit_tlbp _ _ _ _ Hl Hh). destruct Hh as (He & _ & _).
  destruct (Z.eqb_spec (Z.of_nat i) TLB_NOT_FOUND) as [Hn|_].
  { apply lookup_lt_Some in He. unfold searchable in Hl. lia. }
  unfold on_cpu. rewrite (tlbr_eq (Z.of_nat i) (cpu s) e) by (rewrite ?Nat2Z.id; (lia || done)).
  unfold set_cpu. destruct s. cbn [cpu mem tlb_idx NumTLBEntries]. by destruct (access_fault _ _ e).
Qed.

(** An access the entry permits. *)
Lemma access_ok n k va s i e :
  translates s va i e -> permitted k (user_mode (cpu s)) e = true ->
  access_n (Datatypes.S n) k va s = Done (phys_addr e va) s.
Proof.
  intros Ht Hp. apply iter_inr. by rewrite (access_try_hit _ _ _ _ _ Ht), (proj2 (fault_none _ _ _) Hp).
Qed.

(** An access that lacks a permission, with the handler that grants it. *)
Lemma access_granted n k va s i e :
  handles H_error = MY_EVENT_HANDLE my_event_handle_error_helper ->
  evb (cpu s) = my_addr -> GET_FIELD (ssr (cpu s)) SSR_EX = 0 ->
  0 <= va -> tlb_entry_num va = Z.of_nat i ->
  translates s va i e -> permitted k (user_mode (cpu s)) e = false ->
  exists s' f c,
    access_n (Datatypes.S n) k va s = access_n n k va s' /\
    perm_cause k f = Some c /\ GET_FIELD e f = 0 /\ (f = PTE_U -> user_mode (cpu s) = true) /\
    frame s s' /\ mem s' = mem s /\ tlb_idx s' = tlb_idx s /\
    tlb (cpu s') = alter (grant f) i (tlb (cpu s)) /\
    my_exceptions (cpu s') = set_exception_vector_bit (my_exceptions (cpu s)) c.
Proof.
  intros Hh Hev Hx Hva Hi Ht Hp.
  destruct (access_fault k (user_mode (cpu s)) e) as [c|] eqn:Hf.
  2:{ apply fault_none in Hf. congruence. }
  destruct (fault_some _ _ _ _ Hf) as (f & Hc & HF0 & HU).
  assert (granted_permission c = Some f /\ in_u 8 c) as [Hg Hc8].
  { destruct k, f; simpl in Hc; try done; injection Hc as <-; split; done. }
  set (s0 := raised c va (fault_pc pc k va) s).
  assert (0 <= Z.of_nat i < Z.of_nat (length (tlb (cpu s)))) as Hr.
  { destruct Ht as [_ (He & _)]. apply lookup_lt_Some in He. lia. }
  set (c' := set_tlb (alter (grant f) i (tlb (cpu s))) (recorded c (cpu s0))).
  assert (my_event_handle_error_helper (ssr (cpu s0)) (cpu s0) = Done tt c') as Hrun.
  { rewrite error_helper_eq; [|done|].
    2:{ unfold s0, raised. cbn [cpu set_cpu]. sys_simpl. rewrite Hi. lia. }
    replace (GET_FIELD (ssr (cpu s0)) SSR_CAUSE) with c by (symmetry; by apply raised_cause).
    cbv zeta. rewrite Hg. change (badva (cpu s0)) with va. by rewrite Hi, Nat2Z.id. }
  exists (returned (set_cpu c' s)), f, c. split_and!; try done.
  - apply iter_inl. rewrite (access_try_hit _ _ _ _ _ Ht), Hf. unfold mbind, prog_bind.
    rewrite raise_my by done. cbn [event_handle]. rewrite Hh. fold s0. unfold s0 in *.
    by rewrite (my_handler _ _ _ _ _ _ _ Hrun).
  - split; try done. intros g Hg32 Hgc. by apply (returned_ssr c va (fault_pc pc k va)).
Qed.


(** ** Misses *)

Lemma access_try_miss k va s :
  tlbp_insn (tlb (cpu s)) (probe_of (cur_asid (cpu s)) va) = TLB_NOT_FOUND ->
  access_try' k va s =
    (raise my_addr rt_addr handles (miss_event k).1 (miss_event k).2 va (fault_pc pc k va);;
     mret (inl tt)) s.
Proof.
  intros Hn. unfold access_try, gets, mbind, prog_bind. by rewrite Hn.
Qed.

(** A miss served by one of the test's helpers, which writes an entry at the
    number of the address's megabyte. *)
Lemma access_missed n k va s e helper :
  handles (event_handle (miss_event k).1) = MY_EVENT_HANDLE helper ->
  evb (cpu s) = my_addr -> GET_FIELD (ssr (cpu s)) SSR_EX = 0 ->
  0 <= va -> tlb_entry_num va < Z.of_nat (length (tlb (cpu s))) ->
  tlbp_insn (tlb (cpu s)) (probe_of (cur_asid (cpu s)) va) = TLB_NOT_FOUND ->
  (forall c, badva c = va -> GET_FIELD (ssr c) SSR_CAUSE = (miss_event k).2 -> tlb c = tlb (cpu s) ->
     helper (ssr c) c = Done tt (set_tlb (<[Z.to_nat (tlb_entry_num va) := e]> (tlb c))
                                  (recorded (miss_event k).2 c))) ->
  exists s',
    access_n (Datatypes.S n) k va s = access_n n k va s' /\
    frame s s' /\ mem s' = mem s /\ tlb_idx s' = tlb_idx s /\
    tlb (cpu s') = <[Z.to_nat (tlb_entry_num va) := e]> (tlb (cpu s)) /\
    my_exceptions (cpu s') = set_exception_vector_bit (my_exceptions (cpu s)) (miss_event k).2.
Proof.
  intros Hh Hev Hx Hva Hi Hn Hrun.
  set (s0 := raised (miss_event k).2 va (fault_pc pc k va) s).
  assert (GET_FIELD (ssr (cpu s0)) SSR_CAUSE = (miss_event k).2) as Hc
    by (apply raised_cause; destruct k; done).
  specialize (Hrun (cpu s0) eq_refl Hc eq_refl).
  eexists. split_and!; [| | | | |].
  - apply iter_inl. rewrite (access_try_miss _ _ _ Hn). unfold mbind, prog_bind.
    rewrite raise_my, Hh by done. unfold s0 in Hrun. by rewrite (my_handler _ _ _ _ _ _ _ Hrun).
  - split; try done. intros g Hg32 Hgc. by apply (returned_ssr (miss_event k).2 va (fault_pc pc k va)).
  - done.
  - done.
  - done.
  - done.
Qed.

(** ** Refills from the software page table *)

(** The entry number the runtime refills next. *)
Definition refill_index (s : msys) : Z :=
  let r := u32 (tlb_idx s + 1) in
  if r <? NumTLBEntries s then r else tlb_fixed_entries (cpu s).

Lemma next_tlb_idx_eq s : next_tlb_idx s = Done (refill_index s) (set_tlb_idx (refill_index s) s).
Proof.
  unfold next_tlb_idx, refill_index, on_cpu, get_tlb_fixed_entries, gets, modify, mbind, prog_bind.
  destruct s as [c m i n]. cbn [cpu set_cpu mem tlb_idx NumTLBEntries]. by destruct (_ <? n).
Qed.

(** The events of the test go to the runtime: the vectors are the runtime's, or
    the test forwards its own. *)
Definition runtime_serves (h : handle) (c : sys) : Prop :=
  (tables_apart my_addr rt_addr /\ evb c = rt_addr) \/
  (evb c = my_addr /\ old_evb c = rt_addr /\ handles h = DEFAULT_EVENT_HANDLES h).

Lemma raise_served ev cause va epc s :
  runtime_serves (event_handle ev) (cpu s) ->
  raise my_addr rt_addr handles ev cause va epc s = runtime_handle (event_handle ev) (raised cause va epc s).
Proof.
  intros [[Ha He]|(He & Ho & Hd)]; [by apply raise_runtime|].
  rewrite raise_my, Hd by done. by apply default_forwards.
Qed.

Lemma refill_handler k va s pte :
  (miss_event k).1 = EvTlbmissrw ->
  upte (cpu s) !! Z.to_nat (Z.shiftr va 20) = Some pte -> 0 <= va ->
  tlbp_insn (tlb (cpu s)) (refill_hi (Z.shiftr va 20)) = TLB_NOT_FOUND ->
  0 <= refill_index s < Z.of_nat (length (tlb (cpu s))) ->
  event_handle_tlbmissrw (raised (miss_event k).2 va (fault_pc pc k va) s) =
    Done tt (returned (set_tlb_idx (refill_index s) (set_cpu
      (set_tlb (<[Z.to_nat (refill_index s) := refill_entry (Z.shiftr va 20) pte]> (tlb (cpu s)))
         (cpu (raised (miss_event k).2 va (fault_pc pc k va) s))) s))).
Proof.
  intros Hk Hp Hva Hn Hr. set (s0 := raised _ _ _ _).
  assert (refill_index s0 = refill_index s) as Hri by done.
  unfold event_handle_tlbmissrw. unfold mbind at 1, prog_bind at 1.
  assert (on_cpu getbadva s0 = Done va s0) as -> by done. cbv zeta.
  unfold mbind at 1, prog_bind at 1. rewrite next_tlb_idx_eq, Hri.
  set (s1 := set_tlb_idx _ s0).
  assert (on_cpu (t ← gets upte; of_option (lookupZ t (Z.shiftr va 20))) s1 = Done pte s1) as Hu.
  { unfold on_cpu, gets, mbind, prog_bind. change (upte (cpu s1)) with (upte (cpu s)).
    rewrite lookupZ_spec, Hp by (apply Z.shiftr_nonneg; lia). done. }
  unfold mbind at 1, prog_bind at 1. rewrite Hu.
  unfold mbind at 1, prog_bind at 1.
  assert (on_cpu (gets (fun c => tlbp_insn (tlb c) (refill_hi (Z.shiftr va 20)))) s1 =
    Done TLB_NOT_FOUND s1) as Hg.
  { unfold on_cpu, gets. change (tlb (cpu s1)) with (tlb (cpu s)). by rewrite Hn. }
  rewrite Hg. change (Z.testbit TLB_NOT_FOUND 31) with true. cbv iota.
  unfold mbind, prog_bind. unfold on_cpu at 1. rewrite tlbw_eq by done. done.
Qed.

Lemma access_refilled n k va s pte :
  (miss_event k).1 = EvTlbmissrw -> runtime_serves H_tlbmissrw (cpu s) ->
  GET_FIELD (ssr (cpu s)) SSR_EX = 0 ->
  upte (cpu s) !! Z.to_nat (Z.shiftr va 20) = Some pte -> 0 <= va ->
  tlbp_insn (tlb (cpu s)) (probe_of (cur_asid (cpu s)) va) = TLB_NOT_FOUND ->
  tlbp_insn (tlb (cpu s)) (refill_hi (Z.shiftr va 20)) = TLB_NOT_FOUND ->
  0 <= refill_index s < Z.of_nat (length (tlb (cpu s))) ->
  exists s',
    access_n (Datatypes.S n) k va s = access_n n k va s' /\
    frame s s' /\ mem s' = mem s /\ tlb_idx s' = refill_index s /\
    tlb (cpu s') = <[Z.to_nat (refill_index s) := refill_entry (Z.shiftr va 20) pte]> (tlb (cpu s)) /\
    my_exceptions (cpu s') = my_exceptions (cpu s).
Proof.
  intros Hk Hs Hx Hp Hva Hn Hn' Hr. eexists. split_and!.
  - apply iter_inl. rewrite (access_try_miss _ _ _ Hn). unfold mbind, prog_bind.
    rewrite Hk, raise_served by done. cbn [event_handle runtime_handle].
    by rewrite (refill_handler k va s pte).
  - split; try done. intros g Hg32 Hgc.
    by apply (returned_ssr (miss_event k).2 va (fault_pc pc k va) s
      (set_tlb _ (cpu (raised (miss_event k).2 va (fault_pc pc k va) s)))).
  - done.
  - done.
  - done.
  - done.
Qed.

End accesses.

(* ------------------------------------------------------------------ *)
(** ** What an entry maps *)

(** A valid entry for a page of size [p] at page number [vpn], mapped to the
    page at [pa]. *)
Record maps (e vpn : Z) (p : PageShift) (pa : Z) : Prop := {
  mp_V : GET_FIELD e PTE_V = 1;
  mp_VPN : GET_FIELD e PTE_VPN = vpn;
  mp_size : ctz e = shift_value p;
  mp_PPD : GET_FIELD e PTE_PPD = extract (ppn_part pa p) 0 24;
  mp_35 : GET_FIELD e PTE_PA35 = 0;
  mp_0 : GET_FIELD e PTE_ATR0 = 0;
  mp_1 : GET_FIELD e PTE_ATR1 = 0
}.

Lemma maps_reaches e vpn p pa v k :
  maps e vpn p pa -> reaches e v k = same_page (Z.max (shift_value p) k) vpn v.
Proof. intros []. unfold reaches. by rewrite mp_V0, mp_VPN0, mp_size0. Qed.

(** The entry translates an address of its page in an address space it serves. *)
Definition serves (e a : Z) : bool := truth (GET_FIELD e PTE_G) || (GET_FIELD e PTE_ASID =? a).

Lemma maps_match e vpn p pa a va :
  maps e vpn p pa -> in_u 7 a -> in_u 32 va ->
  entry_matches (probe_of a va) e = serves e a && same_page (shift_value p) vpn (Z.shiftr va 12).
Proof.
  intros [] Ha Hva. unfold entry_matches, serves.
  by rewrite probe_of_asid, probe_of_vpn, mp_V0, mp_VPN0, mp_size0.
Qed.

Lemma maps_phys `{HM : MmuHwLaws} e vpn p pa va :
  maps e vpn p pa -> in_u 35 pa -> page_aligned p pa -> 0 <= va ->
  phys_addr e va = pa + va mod 2 ^ page_bits p.
Proof.
  intros [] Hpa Hal Hva. pose proof (shift_value_range p).
  assert (0 <= page_bits p) by (unfold page_bits; lia).
  rewrite <- (Z.land_ones va) by done.
  rewrite Z.add_nocarry_lxor.
  2:{ apply Z.bits_inj'. intros i Hi. rewrite Z.bits_0. autorewrite with bits.
      destruct (Z.ltb_spec i (page_bits p)); [|split_cmp; by simpl_bool].
      rewrite (page_aligned_bit p) by done. by simpl_bool. }
  apply Z.bits_inj'. intros i Hi. rewrite phys_addr_bits, mp_size0, mp_PPD0 by done.
  autorewrite with bits. fold (page_bits p). unfold page_bits in *.
  destruct (Z.ltb_spec i (12 + 2 * shift_value p)).
  - rewrite (page_aligned_bit p pa) by (done || (unfold page_bits; lia)).
    split_cmp; simpl_bool. by destruct (Z.testbit va i).
  - replace (i - 11 + 0) with (i - 11) by lia. split_cmp; simpl_bool; rewrite ?xorb_false_r.
    + rewrite ppn_part_testbit by lia. rewrite (proj2 (Z.eqb_neq (i - 11) (shift_value p))) by lia.
      rewrite (proj2 (Z.ltb_lt 0 (i - 11))) by lia. simpl_bool. f_equal. lia.
    + by rewrite (testbit_in_u 35 pa) by (done || lia).
Qed.

Lemma maps_grant f e vpn p pa :
  is_permission f = true -> maps e vpn p pa -> in_u 64 e -> maps (grant f e) vpn p pa.
Proof.
  intros Hf [] He.
  assert (forall g, g <> f -> reg_width g = 64 -> GET_FIELD (grant f e) g = GET_FIELD e g) as Ho
    by (intros; by apply grant_other).
  split; rewrite ?Ho by (done || by intros <-); try done.
  rewrite <- mp_size0. unfold grant. rewrite SET_FIELD_insert. set (e' := insert_bits _ _ _ _ _).
  assert (forall i, 0 <= i < 28 -> Z.testbit e' i = Z.testbit e i) as Hlow.
  { intros i Hi. unfold e'. destruct f; try done; cbn [reg_field_info offset width];
      rewrite testbit_insert_bits by lia; split_cmp; by simpl_bool. }
  pose proof (shift_value_range p).
  assert (e <> 0) as H0 by by intros ->.
  assert (Z.testbit e (ctz e) = true /\ forall i, 0 <= i < ctz e -> Z.testbit e i = false) as [Ht Hn].
  { destruct He as [Hp _]. destruct e as [|q|]; try done. clear. cbn [ctz].
    induction q as [q IH|q IH|]; cbn [ctz_pos]; try (split; [done|lia]).
    destruct IH as [IH1 IH2].
    assert (0 <= ctz_pos q) by (apply (ctz_nonneg (Zpos q))).
    change (Zpos q~0) with (2 * Zpos q). split.
    - replace (1 + ctz_pos q) with (Z.succ (ctz_pos q)) by lia. by rewrite Z.testbit_even_succ by lia.
    - intros i Hi. destruct (decide (i = 0)) as [->|]; [apply Z.testbit_even_0|].
      replace i with (Z.succ (i - 1)) by lia. rewrite Z.testbit_even_succ by lia. apply IH2. lia. }
  pose proof (ctz_nonneg e). assert (0 <= e') by (apply insert_bits_range; lia).
  apply ctz_spec; [|lia|by rewrite Hlow by lia|intros i Hi; rewrite Hlow by lia; by apply Hn].
  destruct (decide (e' = 0)) as [Hz|]; [|lia]. rewrite <- (Hlow (ctz e)), Hz, Z.bits_0 in Ht by lia. done.
Qed.

(** ** The entries of the tests *)

Lemma maps_created G A0 A1 asid VA X W R U C PA p :
  in_u 32 VA -> in_u 35 PA -> page_aligned p PA -> extract A0 0 1 = 0 -> extract A1 0 1 = 0 ->
  maps (create_mmu_entry G A0 A1 asid VA X W R U C PA (PageSize p)) (Z.shiftr VA 12) p PA.
Proof.
  intros HVA HPA Hal H0 H1. split.
  - apply create_mmu_entry_V.
  - by apply create_mmu_entry_VPN.
  - by apply create_mmu_entry_ctz.
  - by apply create_mmu_entry_PPD.
  - rewrite create_mmu_entry_PA35. apply (extract_high 35); [done|lia..].
  - rewrite (create_mmu_entry_arg _ _ _ _ _ _ _ _ _ _ _ _ PTE_ATR0 A0) by (right; left). done.
  - rewrite (create_mmu_entry_arg _ _ _ _ _ _ _ _ _ _ _ _ PTE_ATR1 A1) by (do 2 right; left). done.
Qed.

Lemma extended_entry_ATR arch va pa p xwru cccc asid off :
  in_u 35 pa -> off = 59 \/ off = 60 ->
  extract (extended_entry arch va pa (PageSize p) xwru cccc asid 0 3) off 1 = 0.
Proof.
  intros Hpa Hoff.
  assert (forall T, extract (if arch <? 73 then Z.lor T (u64 (Z.shiftl (Z.land 0 3) 59)) else T) off 1 =
    extract T off 1) as Hor.
  { intros T. change (u64 (Z.shiftl (Z.land 0 3) 59)) with 0. rewrite Z.lor_0_r. by destruct (_ <? _). }
  unfold extended_entry. cbv zeta. rewrite Hor. unfold set_T. cbn [TLBEntry_layout offset width].
  rewrite !extract_insert_other by lia. rewrite basic_entry_high by (eapply in_u_mono; [exact Hpa|lia..] || lia).
  cbv zeta. unfold set_T. cbn [TLBEntry_layout offset width]. rewrite extract_insert_other by lia.
  destruct (72 <? arch).
  - rewrite extract_insert_sub, extract_extract by lia. apply (extract_high 35); (done || lia).
  - rewrite extract_insert_other by lia. apply extract_0_l. lia.
Qed.

Lemma maps_extended arch va pa p xwru cccc asid :
  in_u 32 va -> in_u 35 pa -> page_aligned p pa ->
  maps (extended_entry arch va pa (PageSize p) xwru cccc asid 0 3) (Z.shiftr va 12) p pa.
Proof.
  intros Hva Hpa Hal. assert (in_u 43 pa) as Hpa' by (eapply in_u_mono; [done|lia..]). split.
  - apply extended_entry_V.
  - by apply extended_entry_VPN.
  - by apply extended_entry_ctz.
  - by apply extended_entry_PPD.
  - rewrite extended_entry_PA35 by done. apply (extract_high 35); [done|lia..].
  - rewrite GET_FIELD_extract. apply extended_entry_ATR; [done|by left].
  - rewrite GET_FIELD_extract. apply extended_entry_ATR; [done|by right].
Qed.

(** The frame of a megabyte in the software page table. *)
Definition pte_frame (pte : Z) : Z := Z.shiftl (SMALL_PTE_pa pte) 20.

Lemma pte_frame_range pte : in_u 32 (pte_frame pte).
Proof. apply (in_u_shiftl 12 20); [lia..|]. apply extract_range. lia. Qed.

Lemma pte_frame_aligned pte : page_aligned SHIFT_1M (pte_frame pte).
Proof.
  unfold page_aligned, pte_frame. change (page_bits SHIFT_1M) with 20.
  rewrite Z.land_ones, Z.shiftl_mul_pow2 by lia. apply Z.mod_mul. lia.
Qed.

Section refill.
Context (mb pte : Z) (Hmb : in_u 12 mb).

Lemma refill_entry_bit i :
  0 <= i -> Z.testbit (refill_entry mb pte) i =
    (i <? 64) && (if 32 <=? i then Z.testbit 0xc0000000 (i - 32) || Z.testbit mb (i - 40)
    else Z.testbit 0xf0000010 i || ((9 <=? i) && (i <? 21) && Z.testbit (SMALL_PTE_pa pte) (i - 9))
         || ((24 <=? i) && (i <? 28) && Z.testbit (SMALL_PTE_cache pte) (i - 24))).
Proof.
  intros Hi. unfold refill_entry, refill_hi, refill_lo, SMALL_PTE_pa, SMALL_PTE_cache.
  autorewrite with bits.
  assert (in_u 32 0xc0000000) as H1 by (split; done). assert (in_u 32 0xf0000010) as H2 by (split; done).
  replace (i - 32 - 8) with (i - 40) by lia.
  destruct (Z.ltb_spec i 64), (Z.leb_spec 32 i); try lia; simpl_bool.
  - rewrite (testbit_in_u 32 0xf0000010 i) by (done || lia). split_cmp; by simpl_bool.
  - rewrite (Z.testbit_neg_r _ (i - 32)) by lia. split_cmp; simpl_bool; try done; f_equal; lia.
  - rewrite (testbit_in_u 32 0xc0000000), (testbit_in_u 32 0xf0000010 i), (testbit_in_u 12 mb) by (done || lia).
    split_cmp; by simpl_bool.
Qed.

(** The fields of a refilled entry: reads of a constant or of the PTE. *)
Lemma refill_one_bit f :
  width (reg_field_info f) = 1 -> reg_width f = 64 ->
  GET_FIELD (refill_entry mb pte) f =
    Z.b2z (bool_decide (f ∈ [PTE_V; PTE_G; PTE_X; PTE_W; PTE_R; PTE_U])).
Proof using Hmb.
  intros H1 H64. rewrite GET_FIELD_extract, H1. unfold extract. rewrite Z.land_ones by lia.
  change (2 ^ 1) with 2. rewrite <- Z.bit0_mod, Z.shiftr_spec by lia. f_equal.
  destruct f; try done; cbn [reg_field_info offset]; rewrite refill_entry_bit by lia.
  all: rewrite ?(testbit_in_u 12 mb) by (done || lia); by vm_compute.
Qed.

Lemma refill_size_bit i : 0 <= i < 24 -> Z.testbit 0xf0000010 i = (i =? 4).
Proof.
  intros Hi. change 0xf0000010 with (Z.lor (Z.shiftl 0xf 28) (Z.shiftl 1 4)).
  rewrite Z.lor_spec, testbit_shiftl, (Z.testbit_neg_r 0xf), testbit_one_bit by lia. by simpl_bool.
Qed.

Lemma refill_entry_range : in_u 64 (refill_entry mb pte).
Proof using Hmb.
  apply in_u_testbit; [lia| |].
  - unfold refill_entry, refill_hi, refill_lo. pose proof (proj1 Hmb).
    repeat first [done | apply Z.lor_nonneg; split | apply Z.shiftl_nonneg].
    + apply (extract_range pte 4 12). lia.
    + apply (extract_range pte 0 4). lia.
  - intros i Hi. rewrite refill_entry_bit by lia. by rewrite (proj2 (Z.ltb_ge i 64)) by lia.
Qed.

Lemma maps_refill : maps (refill_entry mb pte) (mb * 256) SHIFT_1M (pte_frame pte).
Proof using Hmb.
  assert (in_u 12 (SMALL_PTE_pa pte)) as Hp by (apply extract_range; lia).
  assert (GET_FIELD (refill_entry mb pte) PTE_PPD = extract (ppn_part (pte_frame pte) SHIFT_1M) 0 24) as Hppd.
  { rewrite GET_FIELD_extract. cbn [reg_field_info offset width].
    apply Z.bits_inj'. intros i Hi. rewrite !testbit_extract by lia.
    destruct (Z.ltb_spec i 24); [|by rewrite !andb_false_r].
    rewrite refill_entry_bit by lia. rewrite !Z.add_0_r, ppn_part_testbit by lia.
    rewrite refill_size_bit by lia. unfold pte_frame. rewrite testbit_shiftl. change (shift_value SHIFT_1M) with 4.
    replace (i + 11 - 20) with (i - 9) by lia. split_cmp; simpl_bool; try done.
    all: rewrite ?(Z.testbit_neg_r (SMALL_PTE_pa pte)) by lia.
    all: by rewrite ?(testbit_in_u 12 (SMALL_PTE_pa pte)) by (done || lia). }
  split.
  - by rewrite refill_one_bit.
  - rewrite GET_FIELD_extract. cbn [reg_field_info offset width].
    apply Z.bits_inj'. intros i Hi. rewrite testbit_extract, refill_entry_bit by lia.
    change 256 with (2 ^ 8). rewrite <- Z.shiftl_mul_pow2, testbit_shiftl by lia.
    replace (i + 32 - 32) with i by lia. replace (i + 32 - 40) with (i - 8) by lia.
    change 0xc0000000 with (Z.shiftl 3 30). rewrite testbit_shiftl.
    split_cmp; simpl_bool; try done.
    all: first [by rewrite (testbit_in_u 12 mb) by (done || lia) | by rewrite (Z.testbit_neg_r 3) by lia].
  - eapply ctz_of_PPD; [apply refill_entry_range|apply pte_frame_aligned|exact Hppd].
  - exact Hppd.
  - by rewrite refill_one_bit.
  - by rewrite refill_one_bit.
  - by rewrite refill_one_bit.
Qed.
End refill.
