(* ===== verification/MmuLayout.v ===== *)
(** The TLB as the MMU tests find it and change it: the runtime's fixed entry
    maps the program's megabyte to itself, and a test adds and removes pages
    that nothing else translates.  The lemmas run the operations of the tests
    on such a TLB. *)

From S2P Require Import Prelude HexTest RegFields TlbHw Tlb Mmu MmuMem.

(** The entry the startup code writes at index 0 for a program linked at
    address 0: one megabyte, mapped to itself, global, every permission. *)
Definition boot_entry : Z :=
  let r2 := Z.shiftr 0 12 in
  let r1 := Z.lor 0xc3f00000 r2 in
  let r0 := Z.lor 0xf7000000 (Z.shiftl r2 1) in
  let r0 := setbit r0 4 in
  let r0 := Z.land r0 (u32 (-16)) in
  Z.lor (Z.shiftl r1 32) r0.

Lemma maps_boot : maps boot_entry 0 SHIFT_1M 0.
Proof. split; vm_compute; reflexivity. Qed.

Lemma boot_serves a : serves boot_entry a = true.
Proof. unfold serves. by replace (truth (GET_FIELD boot_entry PTE_G)) with true by (vm_compute; reflexivity). Qed.

Lemma boot_permitted k u : permitted k u boot_entry = true.
Proof. destruct k, u; vm_compute; reflexivity. Qed.

(** The program's megabyte is mapped by entry 0 alone. *)
Record home (t : list Z) : Prop := {
  hm_entry : t !! 0%nat = Some boot_entry;
  hm_sole : sole t 0 4 0
}.

(** An address of the program. *)
Definition own (va : Z) : Prop := 0 <= va < ONE_MB.

Lemma ONE_MB_value : ONE_MB = 2 ^ 20.
Proof. reflexivity. Qed.

Lemma own_range va : own va -> in_u 32 va.
Proof. unfold own, in_u. rewrite ONE_MB_value. lia. Qed.

Lemma own_page va : own va -> in_page 0 4 va.
Proof.
  intros Hva. unfold own in Hva. rewrite ONE_MB_value in Hva.
  unfold in_page. rewrite Z.shiftr_shiftr, !Z.shiftr_div_pow2 by lia.
  by rewrite Z.div_small by (simpl; lia).
Qed.

(** ** Changing one entry *)

Lemma insert_alter {A} (f : A -> A) (t : list A) i e : <[i := e]> (alter f i t) = <[i := e]> t.
Proof.
  apply list_eq. intros j. destruct (decide (j = i)) as [->|Hne].
  - destruct (decide (i < length t)%nat).
    + by rewrite !list_lookup_insert_eq by (rewrite ?length_alter; done).
    + rewrite !(proj2 (lookup_ge_None _ _)); [done|rewrite length_insert; lia|].
      rewrite length_insert, length_alter. lia.
  - by rewrite !list_lookup_insert_ne, list_lookup_alter_ne by done.
Qed.

Lemma alter_wf f i t : (forall e, in_u 64 (f e)) -> tlb_wf t -> tlb_wf (alter f i t).
Proof.
  intros Hf [Ht Hl]. split; [|by rewrite length_alter]. by apply Forall_alter.
Qed.

Lemma home_insert t i e : home t -> (0 < i)%nat -> reaches e 0 4 = false -> home (<[i := e]> t).
Proof.
  intros [He Hs] Hi Hr. split; [by rewrite list_lookup_insert_ne by lia|].
  apply sole_insert; auto.
Qed.

Lemma home_alter t i f :
  home t -> (0 < i)%nat -> (forall e, reaches (f e) 0 4 = true -> reaches e 0 4 = true) -> home (alter f i t).
Proof.
  intros [He Hs] Hi Hr. split; [by rewrite list_lookup_alter_ne by lia|]. by apply sole_alter.
Qed.

Section drop.
Context `{HL : TlbSearchLaws}.

(** Dropping the translation of an address only [i] can translate. *)
Lemma drop_sole t vpn k i a va :
  sole t vpn k i -> in_u 7 a -> in_u 32 va -> 0 <= k -> in_page vpn k va ->
  drop_match t (probe_of a va) = t \/ drop_match t (probe_of a va) = alter invalid i t.
Proof.
  intros Hs Ha Hva Hk Hp. unfold drop_match. set (x := probe_of a va).
  destruct (Z.eqb_spec (tlbp_insn t x) TLB_NOT_FOUND); [by left|right].
  destruct (tlbp_sound t x) as [|(j & -> & (e & He & Hm))]; [done|].
  rewrite Nat2Z.id. f_equal. eapply Hs; [exact He|]. by eapply match_reaches.
Qed.

Lemma drop_sole_sole t vpn k i a va :
  sole t vpn k i -> in_u 7 a -> in_u 32 va -> 0 <= k -> in_page vpn k va ->
  sole (drop_match t (probe_of a va)) vpn k i.
Proof.
  intros Hs Ha Hva Hk Hp. destruct (drop_sole t vpn k i a va) as [-> | ->]; [done..|].
  apply sole_alter; [done|]. intros e. by rewrite reaches_invalid.
Qed.

Lemma insert_drop t vpn k i a va e :
  sole t vpn k i -> in_u 7 a -> in_u 32 va -> 0 <= k -> in_page vpn k va ->
  <[i := e]> (drop_match t (probe_of a va)) = <[i := e]> t.
Proof.
  intros. destruct (drop_sole t vpn k i a va) as [-> | ->]; [done..|]. apply insert_alter.
Qed.

(** The TLB and the number of fixed entries allow the user entries. *)
Record sized (c : sys) : Prop := {
  sz_wf : tlb_wf (tlb c);
  sz_fixed : in_u 31 (tlb_fixed_entries c);
  sz_user : 6 <= tlb_fixed_entries c <= Z.of_nat (length (tlb c))
}.

(** add_trans on a page only its own entry can translate writes that entry and
    changes nothing else. *)
Lemma add_trans_writes arch c i va pa p xwru asid :
  sized c -> 1 <= i <= 5 -> in_u 32 va -> in_u 35 pa -> page_aligned p pa ->
  sole (tlb c) (Z.shiftr va 12) (shift_value p) (Z.to_nat i) ->
  add_trans arch i va pa (PageSize p) xwru asid 1 1 c =
    Done tt (set_tlb (<[Z.to_nat i := extended_entry arch va pa (PageSize p) xwru 0 asid 0 3]> (tlb c)) c).
Proof.
  intros [Hwf Hfix Huser] Hi Hva Hpa Hal Hs. pose proof (shift_value_range p).
  rewrite add_trans_split by done. change (Z.lor (Z.shiftl (Z.land 1 1) 1) (Z.land 1 1)) with 3.
  unfold mbind, prog_bind.
  assert (in_page (Z.shiftr va 12) (shift_value p) va) as Hp by done.
  rewrite add_translation_extended_ok; [|done|by apply drop_match_wf|done| |split; sys_simpl; lia].
  2:{ sys_simpl. rewrite drop_match_length. lia. }
  sys_simpl. cbn [truth Z.eqb negb cassert mret prog_ret].
  rewrite (insert_drop _ (Z.shiftr va 12) (shift_value p)), (insert_drop _ (Z.shiftr va 12) (shift_value p));
    try done; try lia.
  - apply land_7f.
  - apply drop_sole_sole; try done; [apply land_7f|lia].
  - apply cur_asid_range.
Qed.

Lemma sized_insert c i e : sized c -> in_u 64 e -> sized (set_tlb (<[i := e]> (tlb c)) c).
Proof. intros [Hwf Hf Hu] He. split; sys_simpl; [by apply insert_wf|done|by rewrite length_insert]. Qed.

Lemma sized_alter c i f : sized c -> (forall e, in_u 64 (f e)) -> sized (set_tlb (alter f i (tlb c)) c).
Proof. intros [Hwf Hf Hu] He. split; sys_simpl; [by apply alter_wf|done|by rewrite length_alter]. Qed.
End drop.

(* ------------------------------------------------------------------ *)
(** ** Accesses to the program's own megabyte and to a test's pages *)

Section loads.
Context `{HL : TlbSearchLaws} `{HM : MmuHwLaws} (my_addr rt_addr pc : Z) (handles : handle -> binding).
Abbreviation load' := (load my_addr rt_addr pc handles).
Abbreviation store' := (store my_addr rt_addr pc handles).

Definition upd (a v : Z) (m : Z -> Z) : Z -> Z := fun a' => if a' =? a then v else m a'.

Lemma upd_same a v m : upd a v m a = v.
Proof. unfold upd. by rewrite Z.eqb_refl. Qed.

Lemma upd_other a v m a' : a' <> a -> upd a v m a' = m a'.
Proof. intros. unfold upd. by rewrite (proj2 (Z.eqb_neq _ _)). Qed.

Lemma translates_home s va :
  searchable s -> home (tlb (cpu s)) -> own va -> translates s va 0 boot_entry.
Proof.
  intros Hl [He Hs] Hva. pose proof (own_range va Hva). split; [done|].
  eapply (sole_hit _ 0 4); try done; [apply cur_asid_range|by apply own_page|].
  rewrite (maps_match _ _ _ _ _ _ maps_boot), boot_serves by (done || apply cur_asid_range).
  apply Z.eqb_eq. pose proof (own_page va Hva) as Hp. unfold in_page in Hp.
  change (2 * shift_value SHIFT_1M) with (2 * 4). by rewrite Hp.
Qed.

Lemma boot_phys va : own va -> phys_addr boot_entry va = va.
Proof.
  intros Hva. rewrite (maps_phys _ _ _ _ _ maps_boot); [|split; done|done|apply Hva].
  change (2 ^ page_bits SHIFT_1M) with ONE_MB. by rewrite Z.mod_small by apply Hva.
Qed.

Lemma access_own k s va :
  searchable s -> home (tlb (cpu s)) -> own va -> access my_addr rt_addr pc handles k va s = Done va s.
Proof.
  intros Hl Hh Hva. unfold access, replays.
  rewrite (access_ok _ _ _ _ _ _ _ _ _ _ (translates_home s va Hl Hh Hva)) by apply boot_permitted.
  by rewrite boot_phys.
Qed.

Lemma load_of va s pa s' :
  va mod 4 = 0 -> access my_addr rt_addr pc handles Read va s = Done pa s' ->
  load' va s = Done (mem s' pa) s'.
Proof. intros Ha Hx. unfold load. rewrite Ha. cbn [Z.eqb negb]. by rewrite (bind_done _ _ _ _ _ Hx). Qed.

Lemma store_of va v s pa s' :
  va mod 4 = 0 -> access my_addr rt_addr pc handles Write va s = Done pa s' ->
  store' va v s = Done tt (set_mem (upd pa v (mem s')) s').
Proof. intros Ha Hx. unfold store. rewrite Ha. cbn [Z.eqb negb]. by rewrite (bind_done _ _ _ _ _ Hx). Qed.

Lemma load_own va s :
  va mod 4 = 0 -> searchable s -> home (tlb (cpu s)) -> own va -> load' va s = Done (mem s va) s.
Proof. intros. apply load_of; [done|]. by apply access_own. Qed.

Lemma store_own va v s :
  va mod 4 = 0 -> searchable s -> home (tlb (cpu s)) -> own va ->
  store' va v s = Done tt (set_mem (upd va v (mem s)) s).
Proof. intros. apply store_of; [done|]. by apply access_own. Qed.

(** Accesses through an entry with the permission. *)
Lemma access_page k va s i e :
  translates s va i e -> permitted k (user_mode (cpu s)) e = true ->
  access my_addr rt_addr pc handles k va s = Done (phys_addr e va) s.
Proof. intros. by eapply access_ok. Qed.

Lemma check_same l v s : check (__check32 l v v) s = Done tt s.
Proof.
  unfold check, on_cpu, modify, __check32. rewrite Z.eqb_refl. by destruct s as [[] ? ? ?].
Qed.

Lemma check_vector_same l X s : check (check_exception_vector l X X) s = Done tt s.
Proof.
  unfold check, on_cpu, modify, check_exception_vector, __check64. rewrite !Z.eqb_refl. by destruct s as [[] ? ? ?].
Qed.

Lemma check_differs l v w s : v <> w -> check (__check32_ne l v w) s = Done tt s.
Proof.
  intros Hn. unfold check, on_cpu, modify, __check32_ne. rewrite (proj2 (Z.eqb_neq _ _)) by done.
  by destruct s as [[] ? ? ?].
Qed.
End loads.

(* ------------------------------------------------------------------ *)
(** ** One page per megabyte *)

(** The TLB of the tests that use the five user entries: entry 0 is the
    runtime's, and each of the next five megabytes belongs to the entry of its
    number. *)
Record layout (t : list Z) : Prop := {
  ly_home : home t;
  ly_sole : forall b, 1 <= b <= 5 -> sole t (b * 256) 4 (Z.to_nat b)
}.

(** An entry that translates addresses of one megabyte only. *)
Definition in_mb (e b : Z) : Prop := forall b', b' <> b -> reaches e (b' * 256) 4 = false.

Lemma layout_insert t b e : layout t -> 1 <= b <= 5 -> in_mb e b -> layout (<[Z.to_nat b := e]> t).
Proof.
  intros [Hh Hs] Hb He. split.
  - apply home_insert; [done|lia|]. apply (He 0). lia.
  - intros b' Hb'. apply sole_insert; [by apply Hs|]. destruct (decide (b' = b)) as [->|]; [by left|right].
    by apply He.
Qed.

Lemma layout_alter t b f e :
  layout t -> 1 <= b <= 5 -> t !! Z.to_nat b = Some e -> in_mb (f e) b -> layout (alter f (Z.to_nat b) t).
Proof. intros Ht Hb He Hf. rewrite <- (insert_as_alter f _ _ _ He). by apply layout_insert. Qed.

(** Where an address of the program is seen [b] megabytes higher. *)
Record moved (addr b : Z) : Prop := {
  mv_page_sum : u32 (page_start addr 12 + b * ONE_MB) = page_start addr 12 + b * ONE_MB;
  mv_addr_sum : u32 (addr + b * ONE_MB) = addr + b * ONE_MB;
  mv_page : in_u 32 (page_start addr 12 + b * ONE_MB);
  mv_addr : in_u 32 (addr + b * ONE_MB);
  mv_num : tlb_entry_num (addr + b * ONE_MB) = b;
  mv_mb : Z.shiftr (Z.shiftr (page_start addr 12 + b * ONE_MB) 12) 8 = b;
  mv_start : page_start (addr + b * ONE_MB) 12 = page_start addr 12 + b * ONE_MB;
  mv_in : Z.shiftr (addr + b * ONE_MB) 12 = Z.shiftr (page_start addr 12 + b * ONE_MB) 12;
  mv_range : in_u 35 (page_start addr 12);
  mv_aligned : page_aligned SHIFT_4K (page_start addr 12);
  mv_off : page_start addr 12 + (addr + b * ONE_MB) mod 2 ^ page_bits SHIFT_4K = addr;
  mv_mod : (addr + b * ONE_MB) mod 4 = addr mod 4
}.

Lemma page_start_sub addr : in_u 32 addr -> page_start addr 12 = addr - addr mod 4096.
Proof.
  intros Ha. rewrite page_start_clear_low by (done || lia).
  unfold clear_low. rewrite <- Z.ldiff_land, Z.ldiff_ones_r, Z.shiftl_mul_pow2, Z.shiftr_div_pow2 by lia.
  change (2 ^ 12) with 4096. pose proof (Z.div_mod addr 4096). lia.
Qed.

Lemma own_moved addr b : own addr -> 0 <= b <= 5 -> moved addr b.
Proof.
  intros Ha Hb. unfold own in Ha. rewrite ONE_MB_value in Ha.
  assert (in_u 32 addr) as Hr by (split; lia).
  assert (in_u 32 (addr + b * ONE_MB)) as Hr' by (rewrite ONE_MB_value; split; lia).
  pose proof (page_start_sub addr Hr) as Hps. pose proof (page_start_sub _ Hr') as Hps'.
  pose proof (Z.mod_pos_bound addr 4096). pose proof (Z.div_mod addr 4096).
  assert ((addr + b * ONE_MB) mod 4096 = addr mod 4096) as Hm.
  { replace (b * ONE_MB) with (b * 256 * 4096) by (rewrite ONE_MB_value; lia). apply Z.mod_add. lia. }
  assert (forall x, Z.shiftr x 12 = x / 4096) as Hs by (intros; by rewrite Z.shiftr_div_pow2 by lia).
  assert (page_start addr 12 + b * ONE_MB = (addr / 4096 + b * 256) * 4096) as Hpm
    by (rewrite Hps, ONE_MB_value; lia).
  assert (addr / 4096 < 256) by (apply Z.div_lt_upper_bound; lia).
  assert (0 <= addr / 4096) by (apply Z.div_pos; lia).
  assert ((addr + b * ONE_MB) / 4096 = addr / 4096 + b * 256) as Hda.
  { replace (b * ONE_MB) with (b * 256 * 4096) by (rewrite ONE_MB_value; lia). apply Z.div_add. lia. }
  rewrite ONE_MB_value in *. split; rewrite ?ONE_MB_value.
  - apply uwrap_id. split; lia.
  - by apply uwrap_id.
  - split; lia.
  - done.
  - unfold tlb_entry_num. rewrite Z.shiftr_div_pow2, Z.div_add, Z.div_small by lia. lia.
  - rewrite Hs, Hpm, Z.div_mul, Z.shiftr_div_pow2 by lia. change (2 ^ 8) with 256.
    rewrite Z.div_add, Z.div_small by lia. lia.
  - rewrite Hps', Hm. lia.
  - by rewrite !Hs, Hda, Hpm, Z.div_mul by lia.
  - split; lia.
  - unfold page_aligned. rewrite Z.land_ones by (vm_compute; congruence).
    change (2 ^ page_bits SHIFT_4K) with 4096. rewrite Hps.
    replace (addr - addr mod 4096) with (addr / 4096 * 4096) by lia. apply Z.mod_mul. lia.
  - change (2 ^ page_bits SHIFT_4K) with 4096. rewrite Hm. lia.
  - replace (b * 2 ^ 20) with (b * 2 ^ 18 * 4) by lia. apply Z.mod_add. lia.
Qed.

(** The next word of an address that is not the last one of its page. *)
Lemma moved_next addr b :
  own addr -> 0 <= b <= 5 -> addr mod 4096 < 4092 ->
  let va := addr + b * ONE_MB in
  u32 (va + 4) = va + 4 /\ in_u 32 (va + 4) /\ Z.shiftr (va + 4) 12 = Z.shiftr va 12.
Proof.
  intros Ha Hb Hlast va.
  assert (va mod 4096 = addr mod 4096) as Hm.
  { unfold va. replace (b * ONE_MB) with (b * 256 * 4096) by (rewrite ONE_MB_value; lia). apply Z.mod_add. lia. }
  assert (0 <= va < 2 ^ 23) as Hva by (unfold va, own in *; rewrite ONE_MB_value in *; lia).
  assert (in_u 32 (va + 4)) as Hr by (split; lia).
  split_and!; [by apply uwrap_id|done|].
  rewrite !Z.shiftr_div_pow2 by lia. change (2 ^ 12) with 4096.
  pose proof (Z.div_mod va 4096). pose proof (Z.mod_pos_bound va 4096).
  symmetry. apply (Z.div_unique_pos _ _ _ (va mod 4096 + 4)); lia.
Qed.

(** An entry for the page of [addr], [b] megabytes higher. *)
Record page_of (e addr b : Z) : Prop := {
  po_maps : maps e (Z.shiftr (page_start addr 12 + b * ONE_MB) 12) SHIFT_4K (page_start addr 12);
  po_range : in_u 64 e;
  po_global : GET_FIELD e PTE_G = 1
}.

Lemma page_in_mb e addr b : own addr -> 0 <= b <= 5 -> page_of e addr b -> in_mb e b.
Proof.
  intros Ha Hb [Hm _ _] b' Hne. destruct (own_moved addr b Ha Hb).
  rewrite (maps_reaches _ _ _ _ _ _ Hm). apply Z.eqb_neq. change (2 * Z.max (shift_value SHIFT_4K) 4) with 8.
  rewrite mv_mb0. change 256 with (2 ^ 8). rewrite <- Z.shiftl_mul_pow2, Z.shiftr_shiftl_l by lia.
  rewrite Z.shiftl_0_r. congruence.
Qed.

Lemma page_of_grant f e addr b : is_permission f = true -> page_of e addr b -> page_of (grant f e) addr b.
Proof.
  intros Hf [Hm Hr Hg]. split.
  - by apply maps_grant.
  - apply SET_FIELD_range. lia.
  - rewrite grant_other; [done|done|by intros <-|done].
Qed.

Section page.
Context `{HL : TlbSearchLaws} `{HM : MmuHwLaws}.

Lemma page_translates s addr b e va :
  searchable s -> layout (tlb (cpu s)) -> own addr -> 1 <= b <= 5 ->
  tlb (cpu s) !! Z.to_nat b = Some e -> page_of e addr b ->
  in_u 32 va -> Z.shiftr va 12 = Z.shiftr (page_start addr 12 + b * ONE_MB) 12 ->
  translates s va (Z.to_nat b) e.
Proof.
  intros Hl [_ Hs] Ha Hb He [Hm _ Hg] Hva Hin. destruct (own_moved addr b Ha ltac:(lia)).
  split; [done|]. eapply (sole_hit _ (b * 256) 4); try done.
  - by apply Hs.
  - apply cur_asid_range.
  - unfold in_page. change (2 * 4) with 8. rewrite Hin, mv_mb0. change 256 with (2 ^ 8).
    by rewrite <- Z.shiftl_mul_pow2, Z.shiftr_shiftl_l, Z.shiftl_0_r by lia.
  - rewrite (maps_match _ _ _ _ _ _ Hm) by (done || apply cur_asid_range). unfold serves. rewrite Hg.
    apply Z.eqb_eq. by rewrite Hin.
Qed.

Lemma page_phys e addr b off :
  own addr -> 0 <= b <= 5 -> page_of e addr b -> 0 <= off -> addr mod 4096 + off < 4096 ->
  phys_addr e (addr + b * ONE_MB + off) = addr + off.
Proof.
  intros Ha Hb [Hm _ _] Hoff Hlast. destruct (own_moved addr b Ha Hb).
  rewrite (maps_phys _ _ _ _ _ Hm) by (done || (destruct mv_addr0; lia)).
  change (2 ^ page_bits SHIFT_4K) with 4096 in *. pose proof (own_range addr Ha).
  rewrite page_start_sub in * by done.
  assert ((addr + b * ONE_MB) mod 4096 = addr mod 4096) as Hmm by lia.
  rewrite <- Z.add_mod_idemp_l, Hmm by lia. pose proof (Z.mod_pos_bound addr 4096).
  rewrite (Z.mod_small (addr mod 4096 + off)) by lia. lia.
Qed.

Lemma page_phys_start e addr b :
  own addr -> 0 <= b <= 5 -> page_of e addr b -> phys_addr e (addr + b * ONE_MB) = addr.
Proof.
  intros Ha Hb Hpo. pose proof (page_phys e addr b 0 Ha Hb Hpo) as Hp. rewrite !Z.add_0_r in Hp.
  apply Hp; [done|]. by apply Z.mod_pos_bound.
Qed.
End page.

(* ------------------------------------------------------------------ *)
(** ** Accesses that are granted their permissions on the way *)

Record permissions := Perms { pR : bool; pW : bool; pX : bool; pU : bool }.

Definition perms (e : Z) : permissions :=
  Perms (truth (GET_FIELD e PTE_R)) (truth (GET_FIELD e PTE_W)) (truth (GET_FIELD e PTE_X))
        (truth (GET_FIELD e PTE_U)).

Definition perm_of (p : permissions) (f : reg_fields_enum) : bool :=
  match f with PTE_R => pR p | PTE_W => pW p | PTE_X => pX p | PTE_U => pU p | _ => false end.

Definition set_perm (f : reg_fields_enum) (p : permissions) : permissions :=
  match f with
  | PTE_R => Perms true (pW p) (pX p) (pU p)
  | PTE_W => Perms (pR p) true (pX p) (pU p)
  | PTE_X => Perms (pR p) (pW p) true (pU p)
  | PTE_U => Perms (pR p) (pW p) (pX p) true
  | _ => p
  end.

Definition permitted_by (k : access_kind) (user : bool) (p : permissions) : bool :=
  match k with
  | Read => pR p | Write => pW p | Fetch => pX p | DcOp => pR p || pW p | IcOp => true
  end && match k with IcOp => true | _ => negb user || pU p end.

Lemma permitted_perms k u e : permitted k u e = permitted_by k u (perms e).
Proof. by destruct k. Qed.

Lemma perms_grant f e : is_permission f = true -> perms (grant f e) = set_perm f (perms e).
Proof.
  intros Hf. unfold perms, set_perm.
  destruct f; try done; by rewrite grant_same, !grant_other by done.
Qed.

Section granting.
Context `{HL : TlbSearchLaws} `{HM : MmuHwLaws} (my_addr rt_addr pc : Z) (handles : handle -> binding).
Context (Hhandle : handles H_error = MY_EVENT_HANDLE my_event_handle_error_helper).
Abbreviation access_n n k va := (iter n (fun _ : () => access_try my_addr rt_addr pc handles k va) tt).

(** The state of a test that has installed its vectors and runs outside the
    handlers. *)
Record running (s : msys) : Prop := {
  rn_search : searchable s;
  rn_layout : layout (tlb (cpu s));
  rn_evb : evb (cpu s) = my_addr;
  rn_ex : GET_FIELD (ssr (cpu s)) SSR_EX = 0
}.

Lemma running_next s s' b e :
  running s -> frame s s' -> 1 <= b <= 5 -> in_mb e b -> tlb (cpu s') = <[Z.to_nat b := e]> (tlb (cpu s)) ->
  running s'.
Proof.
  intros [Hl Hy He Hx] Hf Hb Hm Ht. split.
  - unfold searchable. by rewrite Ht, length_insert.
  - rewrite Ht. by apply layout_insert.
  - by rewrite (fr_evb _ _ Hf).
  - by rewrite (fr_ssr _ _ Hf).
Qed.

Section access.
Context (s : msys) (addr b va : Z) (Hrun : running s) (Haddr : own addr) (Hb : 1 <= b <= 5).
Context (Hva : in_u 32 va) (Hin : Z.shiftr va 12 = Z.shiftr (page_start addr 12 + b * ONE_MB) 12).

Lemma va_num : tlb_entry_num va = b.
Proof.
  destruct (own_moved addr b Haddr ltac:(lia)). unfold tlb_entry_num.
  change 20 with (12 + 8). rewrite <- Z.shiftr_shiftr, Hin by lia. done.
Qed.

(** One permission granted. *)
Lemma grant_step n k e :
  tlb (cpu s) !! Z.to_nat b = Some e -> page_of e addr b ->
  permitted_by k (user_mode (cpu s)) (perms e) = false ->
  exists s' f c,
    access_n (Datatypes.S n) k va s = access_n n k va s' /\
    perm_cause k f = Some c /\ perm_of (perms e) f = false /\ (f = PTE_U -> user_mode (cpu s) = true) /\
    frame s s' /\ mem s' = mem s /\ running s' /\
    tlb (cpu s') = <[Z.to_nat b := grant f e]> (tlb (cpu s)) /\ page_of (grant f e) addr b /\
    perms (grant f e) = set_perm f (perms e) /\
    my_exceptions (cpu s') = set_exception_vector_bit (my_exceptions (cpu s)) c.
Proof.
  intros He Hpo Hper. pose proof Hrun as [Hl Hy Hev Hx].
  destruct (access_granted my_addr rt_addr pc handles n k va s (Z.to_nat b) e)
    as (s' & f & c & Hi & Hc & H0' & HU & Hf & Hm & _ & Ht & HX);
    [done..|apply Hva|rewrite va_num; lia|by apply (page_translates s addr)|by rewrite permitted_perms|].
  assert (is_permission f = true) as Hpf by (destruct k, f; done).
  rewrite <- (insert_as_alter _ _ _ _ He) in Ht.
  pose proof (page_of_grant f e addr b Hpf Hpo) as Hpo'.
  exists s', f, c. split_and!; try done.
  - destruct k, f; try done; unfold perms, perm_of; cbn [pR pW pX pU]; by rewrite H0'.
  - eapply running_next; [exact Hrun|done..| |exact Ht]. apply (page_in_mb _ addr); (done || lia).
  - by apply perms_grant.
Qed.

(** An access that lacks exactly the permission [f]. *)
Lemma access_one k e f c :
  tlb (cpu s) !! Z.to_nat b = Some e -> page_of e addr b ->
  permitted_by k (user_mode (cpu s)) (perms e) = false -> perm_cause k f = Some c ->
  (forall f', perm_cause k f' <> None -> (f' = PTE_U -> user_mode (cpu s) = true) ->
     perm_of (perms e) f' = false -> f' = f) ->
  permitted_by k (user_mode (cpu s)) (set_perm f (perms e)) = true ->
  exists s' e', access my_addr rt_addr pc handles k va s = Done (phys_addr e' va) s' /\
    frame s s' /\ mem s' = mem s /\ running s' /\
    tlb (cpu s') = <[Z.to_nat b := e']> (tlb (cpu s)) /\ page_of e' addr b /\ perms e' = set_perm f (perms e) /\
    my_exceptions (cpu s') = set_exception_vector_bit (my_exceptions (cpu s)) c.
Proof.
  intros He Hpo Hper Hc Hone Hok.
  destruct (grant_step 5 k e He Hpo Hper) as (s' & f' & c' & Hi & Hc' & Hp & HU & Hf & Hm & Hr & Ht & Hpo' & Hpe & HX).
  assert (f' = f) as -> by (apply Hone; [congruence|done|done]).
  assert (c' = c) as -> by congruence.
  exists s', (grant f e). split_and!; try done.
  unfold access, replays. rewrite Hi. apply access_ok with (i := Z.to_nat b).
  - pose proof Hr as [Hl' Hy' _ _]. apply (page_translates s' addr); try done.
    rewrite Ht. apply list_lookup_insert_eq. by apply lookup_lt_Some in He.
  - by rewrite permitted_perms, Hpe, (frame_user _ _ Hf).
Qed.
End access.
End granting.

(* ------------------------------------------------------------------ *)
(** ** Adding the page of an address *)

Section adding.
Context `{HL : TlbSearchLaws} (arch : Z).

(** The entry add_trans writes for the page of [addr], [b] megabytes higher. *)
Definition added (addr b xwru : Z) : Z :=
  extended_entry arch (page_start addr 12 + b * ONE_MB) (page_start addr 12) PAGE_4K xwru 0 0 0 3.

Lemma added_page addr b xwru : own addr -> 0 <= b <= 5 -> page_of (added addr b xwru) addr b.
Proof.
  intros Ha Hb. destruct (own_moved addr b Ha Hb). unfold added, PAGE_4K. split.
  - by apply maps_extended.
  - apply extended_entry_range.
  - by rewrite extended_entry_G.
Qed.

Lemma added_perms addr b xwru :
  perms (added addr b xwru) =
    Perms (Z.testbit xwru 1) (Z.testbit xwru 2) (Z.testbit xwru 3) (Z.testbit xwru 0).
Proof.
  unfold perms, added, PAGE_4K.
  rewrite (extended_entry_perm _ _ _ _ _ _ _ _ _ PTE_U 0), (extended_entry_perm _ _ _ _ _ _ _ _ _ PTE_R 1),
    (extended_entry_perm _ _ _ _ _ _ _ _ _ PTE_W 2), (extended_entry_perm _ _ _ _ _ _ _ _ _ PTE_X 3)
    by (clear; set_solver).
  by rewrite !truth_bit.
Qed.

Lemma add_page c t addr b xwru :
  sized (set_tlb t c) -> layout t -> own addr -> 1 <= b <= 5 ->
  add_trans arch b (page_start addr 12 + b * ONE_MB) (page_start addr 12) PAGE_4K xwru 0 1 1 (set_tlb t c) =
    Done tt (set_tlb (<[Z.to_nat b := added addr b xwru]> t) c) /\
  sized (set_tlb (<[Z.to_nat b := added addr b xwru]> t) c) /\
  layout (<[Z.to_nat b := added addr b xwru]> t) /\
  (Z.to_nat b < length t)%nat /\
  tlbp 0 (addr + b * ONE_MB) (set_tlb (<[Z.to_nat b := added addr b xwru]> t) c) =
    Done b (set_tlb (<[Z.to_nat b := added addr b xwru]> t) c).
Proof.
  intros Hsz Hy Ha Hb. destruct (own_moved addr b Ha ltac:(lia)).
  pose proof (added_page addr b xwru Ha ltac:(lia)) as Hpo.
  assert (sized (set_tlb (<[Z.to_nat b := added addr b xwru]> t) c)) as Hsz'
    by (apply (sized_insert (set_tlb t c)); [done|apply Hpo]).
  assert (layout (<[Z.to_nat b := added addr b xwru]> t)) as Hy'
    by (apply layout_insert; [done..|]; apply (page_in_mb _ addr); (done || lia)).
  assert (Z.to_nat b < length t)%nat as Hlen.
  { destruct Hsz as [_ _ Hu]. revert Hu. sys_simpl. lia. }
  split_and!; try done.
  - unfold PAGE_4K. rewrite add_trans_writes; try done. cbn [set_tlb tlb shift_value].
    eapply sole_mono; [by apply (ly_sole _ Hy b)|lia|]. change (2 * 4) with 8. rewrite mv_mb0.
    change 256 with (2 ^ 8). by rewrite <- Z.shiftl_mul_pow2, Z.shiftr_shiftl_l, Z.shiftl_0_r by lia.
  - rewrite tlbp_eq by done. sys_simpl. do 2 f_equal. destruct Hsz' as [[_ Hl] _ _].
    destruct (page_translates (MSys (set_ssr 0 (set_tlb (<[Z.to_nat b := added addr b xwru]> t) c)) (fun _ => 0) 0 0)
      addr b (added addr b xwru) (addr + b * ONE_MB)) as [_ Hh]; try done.
    { by apply list_lookup_insert_eq. }
    change (Z.land 0 127) with 0.
    erewrite (hit_tlbp _ _ (Z.to_nat b)); [lia|done|exact Hh].
Qed.
End adding.

(* ------------------------------------------------------------------ *)
(** ** A machine as the startup code leaves it *)

Definition boot_sys : sys :=
  Sys (boot_entry :: replicate 7 0) 0 0 0x1000 0 6 demo_upte 0 (0, 0) (TestState 0 []).
Definition boot_msys : msys := MSys boot_sys (fun _ => 0) 5 127.

Lemma boot_sized : sized boot_sys.
Proof.
  split; [split; [|vm_compute; congruence]|split; vm_compute; congruence|vm_compute; split; congruence].
  apply Forall_cons. split; [split; vm_compute; congruence|]. apply Forall_replicate. split; lia.
Qed.

Lemma boot_quiet vpn k : 0 <= k -> Z.shiftr vpn (2 * Z.max 4 k) <> 0 -> quiet (tlb boot_sys) vpn k.
Proof.
  intros Hk Hv j e He. destruct j as [|j].
  - injection He as <-. rewrite (maps_reaches _ _ _ _ _ _ maps_boot). apply Z.eqb_neq.
    change (shift_value SHIFT_1M) with 4. by rewrite Z.shiftr_0_l.
  - change (replicate 7 0 !! j = Some e) in He. by apply lookup_replicate in He as [-> _].
Qed.

Lemma boot_home : home (tlb boot_sys).
Proof.
  split; [done|]. intros j e He Hr. destruct j as [|j]; [done|exfalso].
  change (replicate 7 0 !! j = Some e) in He. by apply lookup_replicate in He as [-> _].
Qed.

Lemma boot_mb_quiet b : b <> 0 -> quiet (tlb boot_sys) (b * 256) 4.
Proof.
  intros Hb. apply boot_quiet; [lia|]. change (2 * Z.max 4 4) with 8. change 256 with (2 ^ 8).
  by rewrite <- Z.shiftl_mul_pow2, Z.shiftr_shiftl_l, Z.shiftl_0_r by lia.
Qed.

Lemma boot_layout : layout (tlb boot_sys).
Proof. split; [exact boot_home|]. intros b Hb. apply quiet_sole, boot_mb_quiet. lia. Qed.
