(* ===== verification/MmuPageSize.v ===== *)
(** [mmu_page_size.c]: a page of every size is mapped elsewhere, read, written
    and executed through, and removed again. *)

From S2P Require Import Prelude HexTest RegFields TlbHw Tlb Mmu MmuMem MmuLayout.

Section page_size.
Context `{TlbSearch} `{MmuHw} (arch : Z).
(** The addresses the linker gives [data], [func_return_pc], the vector table of
    the program and the one of the runtime, and the code of the test. *)
Variables data_addr func_addr my_addr rt_addr pc : Z.

(** The event handlers of the program. *)
Definition page_size_handles (h : handle) : binding :=
  match h with
  | H_error => MY_EVENT_HANDLE my_event_handle_error_helper
  | H_nmi => MY_EVENT_HANDLE my_event_handle_nmi_helper
  | _ => DEFAULT_EVENT_HANDLE (HANDLE_OFFSET h)
  end.

Abbreviation load := (load my_addr rt_addr pc page_size_handles).
Abbreviation store := (store my_addr rt_addr pc page_size_handles).
Abbreviation call_func := (call_func my_addr rt_addr pc page_size_handles func_addr).

Definition test_page_size (pgsize page_size_bits : Z) : prog msys () :=
  let page_size := u32 (Z.shiftl 1 page_size_bits) in
  let addr := data_addr in
  let page := page_start addr page_size_bits in
  let offset := if page_size <=? ONE_MB then FIVE_MB else page_size in
  let new_page := u32 (page + offset) in
  let new_addr := u32 (addr + offset) in
  let f := func_addr in
  store addr 0xdeadbeef;;
  on_cpu (add_trans arch 1 new_page page pgsize (Z.lor (Z.lor (Z.lor TLB_X TLB_W) TLB_R) TLB_U) 0 1 1);;
  r ← on_cpu (tlbp 0 new_addr); check (__check32 56 r 1);;
  v ← load new_addr; check (__check32 59 v 0xdeadbeef);;
  store new_addr 0xcafebabe;;
  v ← load addr; check (__check32 63 v 0xcafebabe);;
  on_cpu (remove_trans 1);;
  r ← on_cpu (tlbp 0 new_addr); check (__check32 67 r TLB_NOT_FOUND);;
  let addr := f in
  let page := page_start addr page_size_bits in
  let offset := if page_size <=? ONE_MB then FIVE_MB else page_size in
  let new_page := u32 (page + offset) in
  let new_addr := u32 (addr + offset) in
  on_cpu (add_trans arch 2 new_page page pgsize (Z.lor (Z.lor (Z.lor TLB_X TLB_W) TLB_R) TLB_U) 0 1 1);;
  r ← on_cpu (tlbp 0 new_addr); check (__check32 85 r 2);;
  r ← call_func new_addr; check (__check32 92 r new_addr);;
  on_cpu (remove_trans 2);;
  r ← on_cpu (tlbp 0 new_addr); check (__check32 96 r TLB_NOT_FOUND).

Definition mmu_page_size_main : prog msys Z :=
  test_page_size (PageSize SHIFT_4K) 12;;
  test_page_size (PageSize SHIFT_16K) 14;;
  test_page_size (PageSize SHIFT_64K) 16;;
  test_page_size (PageSize SHIFT_256K) 18;;
  test_page_size (PageSize SHIFT_1M) 20;;
  test_page_size (PageSize SHIFT_4M) 22;;
  test_page_size (PageSize SHIFT_16M) 24;;
  test_page_size (PageSize SHIFT_64M) 26;;
  test_page_size (PageSize SHIFT_256M) 28;;
  test_page_size (PageSize SHIFT_1G) 30;;
  gets (fun s => err (tst (cpu s))).

End page_size.

(* ------------------------------------------------------------------ *)
(** ** Where a page of each size goes *)

Definition page_offset (p : PageShift) : Z := if 2 ^ page_bits p <=? ONE_MB then FIVE_MB else 2 ^ page_bits p.

(** The page that must be free: the sixth megabyte for the small sizes, the
    second page of the size for the others. *)
Definition free_vpn (p : PageShift) : Z := Z.shiftr (page_offset p) 12.
Definition free_size (p : PageShift) : Z := Z.max 4 (shift_value p).

Record placed_at (p : PageShift) (addr np na : Z) : Prop := {
  pl_np : in_u 32 np;
  pl_na : in_u 32 na;
  pl_page : in_u 35 (page_start addr (page_bits p));
  pl_aligned : page_aligned p (page_start addr (page_bits p));
  pl_off : page_start addr (page_bits p) + na mod 2 ^ page_bits p = addr;
  pl_in : in_page (Z.shiftr np 12) (shift_value p) na;
  pl_home : Z.shiftr (Z.shiftr np 12) (2 * Z.max (shift_value p) 4) <> 0;
  pl_free : Z.shiftr (Z.shiftr np 12) (2 * free_size p) = Z.shiftr (free_vpn p) (2 * free_size p);
  pl_mod : na mod 4 = addr mod 4
}.

Lemma page_offset_code p :
  (if u32 (Z.shiftl 1 (page_bits p)) <=? ONE_MB then FIVE_MB else u32 (Z.shiftl 1 (page_bits p))) = page_offset p.
Proof. destruct p; reflexivity. Qed.

Lemma page_start_own p addr : own addr -> page_start addr (page_bits p) = addr - addr mod 2 ^ page_bits p.
Proof.
  intros Ha. assert (0 <= page_bits p < 32) by (destruct p; vm_compute; split; congruence).
  rewrite page_start_clear_low by (done || by apply own_range).
  unfold clear_low. rewrite <- Z.ldiff_land, Z.ldiff_ones_r, Z.shiftl_mul_pow2, Z.shiftr_div_pow2 by lia.
  pose proof (Z.div_mod addr (2 ^ page_bits p)). lia.
Qed.

Lemma placed p addr :
  own addr ->
  u32 (page_start addr (page_bits p) + page_offset p) = page_start addr (page_bits p) + page_offset p /\
  u32 (addr + page_offset p) = addr + page_offset p /\
  placed_at p addr (page_start addr (page_bits p) + page_offset p) (addr + page_offset p).
Proof.
  intros Ha. rewrite (page_start_own p addr Ha). unfold own in Ha. rewrite ONE_MB_value in Ha.
  set (m := 2 ^ page_bits p).
  assert (0 < m) by (destruct p; vm_compute; done).
  pose proof (Z.mod_pos_bound addr m). pose proof (Z.div_mod addr m). pose proof (Z.div_pos addr m).
  assert (exists q, page_offset p = q * m /\ 0 < q) as (q & Hq & Hq0).
  { destruct p; [exists 1280|exists 320|exists 80|exists 20|exists 5|exists 1..]; split; reflexivity. }
  assert (page_offset p <= 2 ^ 30) by (destruct p; vm_compute; congruence).
  assert ((addr + page_offset p) mod m = addr mod m) as Hm by (rewrite Hq; apply Z.mod_add; lia).
  assert (forall b, 12 <= b -> forall x, Z.shiftr (Z.shiftr x 12) (b - 12) = x / 2 ^ b) as Hs.
  { intros b Hb x. rewrite Z.shiftr_shiftr, Z.shiftr_div_pow2 by lia. do 2 f_equal. lia. }
  assert (addr - addr mod m = m * (addr / m)) as Hpg by lia.
  assert (addr - addr mod m + page_offset p = (addr / m + q) * m) as Hnp by lia.
  assert (2 * shift_value p = page_bits p - 12) as Hb1 by (unfold page_bits; lia).
  assert (2 * Z.max (shift_value p) 4 = Z.max (page_bits p) 20 - 12) as Hb2 by (unfold page_bits; lia).
  assert (12 <= page_bits p <= 30) as Hbits by (destruct p; vm_compute; split; congruence).
  assert ((addr - addr mod m + page_offset p) / 2 ^ Z.max (page_bits p) 20 = page_offset p / 2 ^ Z.max (page_bits p) 20
    /\ page_offset p / 2 ^ Z.max (page_bits p) 20 <> 0) as [Hfree Hhome].
  { destruct (Z.le_ge_cases (page_bits p) 20) as [Hle|Hge].
    - assert (page_offset p = 5 * 2 ^ 20) as -> by (destruct p; try reflexivity; vm_compute in Hle; congruence).
      rewrite Z.max_r by lia. rewrite Z.div_add, Z.div_mul, Z.div_small by lia. lia.
    - assert (page_offset p = 5 * m \/ page_offset p = m) as Hpo
        by (destruct p; try (vm_compute in Hge; congruence); unfold m; vm_compute; auto).
      rewrite Z.max_l by lia. fold m.
      assert (2 ^ 20 <= m) by (apply Z.pow_le_mono_r; lia).
      rewrite (Z.mod_small addr m), Z.sub_diag, Z.add_0_l by lia.
      split; [done|]. destruct Hpo as [-> | ->]; rewrite ?Z.div_mul, ?Z.div_same by lia; lia. }
  split_and!; [apply uwrap_id; split; lia|apply uwrap_id; split; lia|].
  split; rewrite ?(page_start_own p addr) by (unfold own; rewrite ONE_MB_value; lia); fold m.
  - split; lia.
  - split; lia.
  - split; lia.
  - unfold page_aligned. rewrite Z.land_ones by lia. fold m. rewrite Hpg, Z.mul_comm. apply Z.mod_mul. lia.
  - rewrite Hm. lia.
  - unfold in_page. rewrite Hb1, !Hs by lia. fold m. rewrite Hnp, Z.div_mul by lia.
    rewrite Hq, Z.div_add by lia. done.
  - rewrite Hb2, Hs by lia. by rewrite Hfree.
  - unfold free_size, free_vpn. rewrite (Z.max_comm 4), Hb2, !Hs by lia. done.
  - rewrite Hq. assert (exists m', m = m' * 4) as [m' ->]
      by (exists (2 ^ (page_bits p - 2)); unfold m; rewrite <- (Z.pow_add_r 2 _ 2) by lia; f_equal; lia).
    rewrite Z.mul_assoc. apply Z.mod_add. lia.
Qed.

(* ------------------------------------------------------------------ *)
(** ** One page mapped and removed *)

Section entry.
Context `{HM : MmuHwLaws} (arch : Z).

Definition page_entry (p : PageShift) (addr : Z) : Z :=
  extended_entry arch (page_start addr (page_bits p) + page_offset p) (page_start addr (page_bits p))
    (PageSize p) 15 0 0 0 3.

Context (p : PageShift) (addr : Z) (Haddr : own addr).
Abbreviation E := (page_entry p addr).
Abbreviation na := (addr + page_offset p).
Abbreviation np := (page_start addr (page_bits p) + page_offset p).

Lemma E_maps : maps E (Z.shiftr np 12) p (page_start addr (page_bits p)).
Proof. destruct (placed p addr Haddr) as (_ & _ & []). unfold page_entry. by apply maps_extended. Qed.

Lemma E_serves a : serves E a = true.
Proof. unfold serves, page_entry. by rewrite extended_entry_G. Qed.

Lemma E_permitted k u : permitted k u E = true.
Proof using Type.
  unfold permitted, page_entry.
  rewrite (extended_entry_perm _ _ _ _ _ _ _ _ _ PTE_U 0), (extended_entry_perm _ _ _ _ _ _ _ _ _ PTE_R 1),
    (extended_entry_perm _ _ _ _ _ _ _ _ _ PTE_W 2), (extended_entry_perm _ _ _ _ _ _ _ _ _ PTE_X 3)
    by (clear; set_solver).
  by destruct k, u.
Qed.

Lemma E_range : in_u 64 E.
Proof. destruct (placed p addr Haddr) as (_ & _ & []). unfold page_entry. apply extended_entry_range. Qed.

Lemma E_phys : phys_addr E na = addr.
Proof.
  destruct (placed p addr Haddr) as (_ & _ & []).
  rewrite (maps_phys _ _ _ _ _ E_maps); [done..|]. apply pl_na0.
Qed.

(** The second instruction of the function is in the same page. *)
Lemma next_word : addr mod 4096 < 4092 ->
  u32 (na + 4) = na + 4 /\ in_u 32 (na + 4) /\
  in_page (Z.shiftr np 12) (shift_value p) (na + 4) /\ phys_addr E (na + 4) = addr + 4.
Proof.
  intros Hlast. destruct (placed p addr Haddr) as (_ & _ & []).
  assert (12 <= page_bits p) by (pose proof (shift_value_range p); unfold page_bits; lia).
  set (mm := 2 ^ page_bits p) in *.
  assert (exists q, mm = 4096 * q /\ 0 < q) as (q & Hq & Hq0).
  { exists (2 ^ (page_bits p - 12)). split; [|apply Z.pow_pos_nonneg; lia].
    unfold mm. change 4096 with (2 ^ 12). rewrite <- Z.pow_add_r by lia. f_equal. lia. }
  assert (na mod mm = addr mod mm) as Hr by (rewrite page_start_own in pl_off0 by done; fold mm in pl_off0; lia).
  pose proof (Z.mod_pos_bound addr mm). pose proof (Z.div_mod na mm).
  assert (addr mod mm + 4 < mm) as Hlt.
  { rewrite Hq, Z.rem_mul_r by lia. pose proof (Z.mod_pos_bound (addr / 4096) q). nia. }
  assert ((na + 4) / mm = na / mm) as Hdiv by (symmetry; apply (Z.div_unique_pos _ _ _ (addr mod mm + 4)); lia).
  assert ((na + 4) mod mm = addr mod mm + 4) as Hmod
    by (symmetry; apply (Z.mod_unique_pos _ _ (na / mm)); lia).
  assert (in_u 32 (na + 4)) as Hna4.
  { assert (page_offset p <= 2 ^ 30) by (destruct p; vm_compute; congruence).
    unfold own in Haddr. rewrite ONE_MB_value in Haddr. destruct pl_na0. split; lia. }
  split_and!; [by apply uwrap_id|done| |].
  - unfold in_page in *. rewrite <- pl_in0. rewrite !Z.shiftr_shiftr, !Z.shiftr_div_pow2
      by (pose proof (shift_value_range p); lia).
    fold (page_bits p). by fold mm.
  - rewrite (maps_phys _ _ _ _ _ E_maps); [|done|done|apply Hna4]. fold mm. rewrite Hmod. lia.
Qed.
End entry.

Section proof.
Context `{HL : TlbSearchLaws} `{HM : MmuHwLaws} (arch : Z).
Context (data_addr func_addr my_addr rt_addr pc : Z) (s : msys).
Context (Hdata : own data_addr) (Hdata4 : data_addr mod 4 = 0).
Context (Hfunc : own func_addr) (Hpage : func_addr mod 4096 < 4092).

(** The state with another TLB and memory. *)
Definition st (t : list Z) (m : Z -> Z) : msys := MSys (set_tlb t (cpu s)) m (tlb_idx s) (NumTLBEntries s).

(** The TLB between two page sizes. *)
Record ready (t : list Z) : Prop := {
  rd_sized : sized (set_tlb t (cpu s));
  rd_home : home t;
  rd_free : forall q, quiet t (free_vpn q) (free_size q)
}.

Section one.
Context (p : PageShift) (addr : Z) (Haddr : own addr) (t : list Z) (m : Z -> Z) (Ht : ready t).
Context (i : Z) (Hi : 1 <= i <= 5).
Abbreviation E := (page_entry arch p addr).
Abbreviation na := (addr + page_offset p).
Abbreviation np := (page_start addr (page_bits p) + page_offset p).
Definition t1 : list Z := <[Z.to_nat i := E]> t.
Definition t2 : list Z := alter invalid (Z.to_nat i) t1.

Lemma page_quiet : quiet t (Z.shiftr np 12) (shift_value p).
Proof.
  destruct (placed p addr Haddr) as (_ & _ & []). pose proof (shift_value_range p).
  eapply quiet_mono; [apply (rd_free _ Ht p)| |done]. unfold free_size. lia.
Qed.

Lemma E_add :
  add_trans arch i np (page_start addr (page_bits p)) (PageSize p) 15 0 1 1 (set_tlb t (cpu s)) =
    Done tt (set_tlb t1 (cpu s)).
Proof.
  destruct (placed p addr Haddr) as (_ & _ & []).
  rewrite add_trans_writes; [done|apply Ht|done..|]. apply quiet_sole, page_quiet.
Qed.

Lemma length_t1 : length t1 = length t /\ 6 <= Z.of_nat (length t).
Proof.
  destruct Ht as [[_ _ Hu] _ _]. unfold t1. rewrite length_insert. split; [done|].
  cbn [set_tlb tlb tlb_fixed_entries] in Hu. lia.
Qed.

Lemma t1_lookup : t1 !! Z.to_nat i = Some E.
Proof. pose proof length_t1 as [_ ?]. apply list_lookup_insert_eq. lia. Qed.

Lemma t1_home : home t1.
Proof.
  destruct (placed p addr Haddr) as (_ & _ & []). apply home_insert; [apply Ht|lia|].
  rewrite (maps_reaches _ _ _ _ _ _ (E_maps arch p addr Haddr)). apply Z.eqb_neq. by rewrite Z.shiftr_0_l.
Qed.

Lemma t1_hit va : in_u 32 va -> in_page (Z.shiftr np 12) (shift_value p) va ->
  forall a, in_u 7 a -> hit t1 (probe_of a va) (Z.to_nat i) E.
Proof.
  intros Hva Hin a Ha. pose proof (shift_value_range p).
  eapply sole_hit; [|done|done|apply shift_value_range|exact Hin|apply t1_lookup|].
  - apply sole_insert; [apply quiet_sole, page_quiet|by left].
  - rewrite (maps_match _ _ _ _ _ _ (E_maps arch p addr Haddr)), (E_serves arch p addr) by done. apply Z.eqb_eq. by rewrite Hin.
Qed.

Lemma t1_searchable : Z.of_nat (length t1) < TLB_NOT_FOUND.
Proof. pose proof length_t1 as [-> _]. apply Ht. Qed.

Lemma t1_translates va : in_u 32 va -> in_page (Z.shiftr np 12) (shift_value p) va ->
  translates (st t1 m) va (Z.to_nat i) E.
Proof.
  intros Hva Hin. split; [apply t1_searchable|]. by apply t1_hit; [| |apply cur_asid_range].
Qed.

Lemma t2_insert : t2 = <[Z.to_nat i := invalid E]> t.
Proof. unfold t2. rewrite <- (insert_as_alter _ _ _ _ t1_lookup). unfold t1. apply list_insert_insert_eq. Qed.

Lemma t2_ready : ready t2.
Proof.
  rewrite t2_insert. destruct Ht as [Hsz Hh Hf]. split.
  - apply (sized_insert (set_tlb t (cpu s))); [done|]. apply SET_FIELD_range. lia.
  - apply home_insert; [done|lia|apply reaches_invalid].
  - intros q. apply quiet_insert; [apply Hf|apply reaches_invalid].
Qed.

Lemma t2_none : tlbp_insn t2 (probe_of 0 na) = TLB_NOT_FOUND.
Proof.
  destruct (placed p addr Haddr) as (_ & _ & []). pose proof (shift_value_range p).
  eapply quiet_tlbp; [|split; done|done|apply shift_value_range|exact pl_in0].
  rewrite t2_insert. apply quiet_insert; [apply page_quiet|apply reaches_invalid].
Qed.

End one.

Lemma on_cpu_st {A} (f : prog sys A) a t t' m :
  f (set_tlb t (cpu s)) = Done a (set_tlb t' (cpu s)) -> on_cpu f (st t m) = Done a (st t' m).
Proof. unfold on_cpu, st. cbn [cpu]. by intros ->. Qed.

Lemma probe_st t m va r :
  in_u 32 va -> tlbp_insn t (probe_of 0 va) = r -> on_cpu (tlbp 0 va) (st t m) = Done r (st t m).
Proof. intros Hva <-. apply on_cpu_st. by rewrite tlbp_eq. Qed.

Lemma remove_st t m i :
  0 <= i < Z.of_nat (length t) ->
  on_cpu (remove_trans i) (st t m) = Done tt (st (alter invalid (Z.to_nat i) t) m).
Proof. intros Hi. apply on_cpu_st. by rewrite remove_trans_eq. Qed.

Opaque page_entry create_mmu_entry extended_entry.

Section size.
Context (p : PageShift).
Abbreviation d_na := (data_addr + page_offset p).
Abbreviation f_na := (func_addr + page_offset p).
Abbreviation handles := page_size_handles.

Section state.
Context (t : list Z) (Ht : ready t).
Abbreviation td := (t1 p data_addr t 1).
Abbreviation tf := (t1 p func_addr t 2).

Lemma own_st t' m : home t' -> Z.of_nat (length t') < TLB_NOT_FOUND ->
  load my_addr rt_addr pc handles data_addr (st t' m) = Done (m data_addr) (st t' m) /\
  forall v, store my_addr rt_addr pc handles data_addr v (st t' m) = Done tt (st t' (upd data_addr v m)).
Proof. intros Hh Hl. split; intros; [by apply load_own|by apply store_own]. Qed.

Lemma data_at m k :
  access my_addr rt_addr pc handles k d_na (st td m) = Done data_addr (st td m).
Proof.
  destruct (placed p data_addr Hdata) as (_ & _ & []).
  pose proof (t1_translates p data_addr Hdata t m Ht 1 ltac:(lia) _ pl_na0 pl_in0) as Htr.
  rewrite (access_page my_addr rt_addr pc handles k _ _ _ _ Htr (E_permitted arch p data_addr k _)).
  by rewrite (E_phys arch p data_addr Hdata).
Qed.

Lemma data_page m :
  d_na mod 4 = 0 /\
  load my_addr rt_addr pc handles d_na (st td m) = Done (m data_addr) (st td m) /\
  forall v, store my_addr rt_addr pc handles d_na v (st td m) = Done tt (st td (upd data_addr v m)).
Proof.
  destruct (placed p data_addr Hdata) as (_ & _ & []).
  assert (d_na mod 4 = 0) as H4 by by rewrite pl_mod0. split; [done|].
  split; intros; [by rewrite (load_of _ _ _ _ _ _ _ _ H4 (data_at m Read))
                 |by rewrite (store_of _ _ _ _ _ _ _ _ _ H4 (data_at m Write))].
Qed.

Lemma func_call m :
  call_func my_addr rt_addr pc handles func_addr f_na (st tf m) = Done f_na (st tf m).
Proof.
  destruct (placed p func_addr Hfunc) as (_ & _ & []).
  destruct (next_word arch p func_addr Hfunc Hpage) as (H4 & Hr4 & Hin4 & Hphys4).
  pose proof (t1_translates p func_addr Hfunc t m Ht 2 ltac:(lia)) as Htr.
  unfold call_func. rewrite H4.
  next_step (access_page my_addr rt_addr pc handles Fetch _ _ _ _ (Htr _ pl_na0 pl_in0) (E_permitted arch p func_addr _ _)).
  next_step (access_page my_addr rt_addr pc handles Fetch _ _ _ _ (Htr _ Hr4 Hin4) (E_permitted arch p func_addr _ _)).
  by rewrite Hphys4, (E_phys arch p func_addr Hfunc), !Z.eqb_refl.
Qed.

Lemma probe_at addr i m :
  own addr -> 1 <= i <= 5 ->
  on_cpu (tlbp 0 (addr + page_offset p)) (st (t1 p addr t i) m) = Done i (st (t1 p addr t i) m) /\
  on_cpu (tlbp 0 (addr + page_offset p)) (st (t2 p addr t i) m) = Done TLB_NOT_FOUND (st (t2 p addr t i) m) /\
  on_cpu (remove_trans i) (st (t1 p addr t i) m) = Done tt (st (t2 p addr t i) m) /\
  on_cpu (add_trans arch i (page_start addr (page_bits p) + page_offset p) (page_start addr (page_bits p))
    (PageSize p) 15 0 1 1) (st t m) = Done tt (st (t1 p addr t i) m).
Proof.
  intros Ha Hi. destruct (placed p addr Ha) as (_ & _ & []).
  pose proof (length_t1 p addr t Ht i) as [Hl ?]. split_and!.
  - apply probe_st; [done|]. erewrite hit_tlbp; [|by apply t1_searchable|by apply t1_hit; try (split; done)]. lia.
  - apply probe_st; [done|]. by apply (t2_none p addr Ha t).
  - apply remove_st. lia.
  - apply on_cpu_st. by apply (E_add p addr Ha t Ht i Hi).
Qed.
End state.

(** From a ready TLB: the data is mapped at entry 1, read and written through,
    and removed; then the function at entry 2, called, and removed. *)
Lemma test_page_size_runs t m :
  ready t ->
  exists t', ready t' /\ (forall j, j <> 1%nat -> j <> 2%nat -> t' !! j = t !! j) /\
    exists m', (forall a, a <> data_addr -> m' a = m a) /\
    test_page_size arch data_addr func_addr my_addr rt_addr pc (PageSize p) (page_bits p) (st t m) =
    Done tt (st t' m').
Proof.
  intros Ht. pose proof (placed p data_addr Hdata) as (Hp1 & Ha1 & _).
  pose proof (placed p func_addr Hfunc) as (Hp2 & Ha2 & _).
  set (td := t2 p data_addr t 1).
  assert (ready td) as Ht1 by (apply t2_ready; (done || lia)).
  exists (t2 p func_addr td 2). split; [apply t2_ready; (done || lia)|].
  split.
  { intros j Hj1 Hj2. unfold td, t2, t1. by do 2 rewrite list_lookup_alter_ne, list_lookup_insert_ne by lia. }
  set (m1 := upd data_addr 0xdeadbeef m). set (m2 := upd data_addr 0xcafebabe m1).
  exists m2. split; [intros a Ha; unfold m2, m1; by rewrite !upd_other|].
  assert (home t /\ Z.of_nat (length t) < TLB_NOT_FOUND) as [Hh Hl] by (destruct Ht as [[[_ ?]] ?]; done).
  destruct (probe_at t Ht data_addr 1 m1 Hdata ltac:(lia)) as (Hq1 & _ & _ & Hadd1).
  destruct (probe_at t Ht data_addr 1 m2 Hdata ltac:(lia)) as (_ & Hq2 & Hrm1 & _).
  destruct (probe_at td Ht1 func_addr 2 m2 Hfunc ltac:(lia)) as (Hq3 & Hq4 & Hrm2 & Hadd2).
  destruct (data_page t Ht m1) as (_ & Hld1 & Hst1).
  destruct (own_st (t1 p data_addr t 1) m2) as [Hld2 _]; [by apply t1_home|by apply t1_searchable|].
  replace (m1 data_addr) with 0xdeadbeef in Hld1 by (symmetry; apply upd_same).
  replace (m2 data_addr) with 0xcafebabe in Hld2 by (symmetry; apply upd_same).
  unfold test_page_size. cbv zeta. rewrite !page_offset_code, Hp1, Ha1, Hp2, Ha2.
  change (Z.lor (Z.lor (Z.lor TLB_X TLB_W) TLB_R) TLB_U) with 15.
  next_step (proj2 (own_st t m Hh Hl) 0xdeadbeef). next_step Hadd1.
  next_step Hq1. next_step (check_same 56 1 _). next_step Hld1. next_step (check_same 59 0xdeadbeef _).
  next_step (Hst1 0xcafebabe). next_step Hld2. next_step (check_same 63 0xcafebabe _).
  next_step Hrm1. next_step Hq2. next_step (check_same 67 TLB_NOT_FOUND _).
  next_step Hadd2. next_step Hq3. next_step (check_same 85 2 _).
  next_step (func_call td Ht1 m2). next_step (check_same 92 f_na _).
  next_step Hrm2. next_step Hq4. apply check_same.
Qed.
End size.

(** Several page sizes one after the other. *)
Definition steps (t t' : list Z) (m m' : Z -> Z) : Prop :=
  ready t' /\ (forall j, j <> 1%nat -> j <> 2%nat -> t' !! j = t !! j) /\
  (forall a, a <> data_addr -> m' a = m a).

Lemma test_page_size_next {A} p b (k : () -> prog msys A) (Q : A -> msys -> Prop) t0 m0 t m :
  b = page_bits p -> steps t0 t m0 m ->
  (forall t' m', steps t0 t' m0 m' -> spec (k tt) (st t' m') Q) ->
  spec (test_page_size arch data_addr func_addr my_addr rt_addr pc (PageSize p) b ≫= k) (st t m) Q.
Proof.
  intros -> (Hr & Ht & Hm) Hk. destruct (test_page_size_runs p t m Hr) as (t' & Hr' & Ht' & m' & Hm' & Hrun).
  unfold wp. rewrite (bind_done _ _ _ _ _ Hrun). apply Hk. split; [done|]. split.
  - intros j H1 H2. by rewrite Ht', Ht.
  - intros a Ha. by rewrite Hm', Hm.
Qed.

(** C17: the page size test passes: on any machine whose MMU behaves as
    documented, where the runtime's entry alone maps the program's megabyte and
    nothing maps the pages the test uses, every check holds for all ten page
    sizes, from 4K to 1G: the page is found at the entry it was written to, reads
    and writes through it reach the variable, a call through it runs the function
    at its new address, and it is gone once removed.  main returns the err it
    started with, no other entry changes and no other word is written. *)
Theorem mmu_page_size_passes :
  sized (cpu s) -> home (tlb (cpu s)) ->
  (forall q, quiet (tlb (cpu s)) (free_vpn q) (free_size q)) ->
  spec (mmu_page_size_main arch data_addr func_addr my_addr rt_addr pc) s (fun r s' =>
    r = err (tst (cpu s)) /\ tst (cpu s') = tst (cpu s) /\
    (forall j, j <> 1%nat -> j <> 2%nat -> tlb (cpu s') !! j = tlb (cpu s) !! j) /\
    (forall a, a <> data_addr -> mem s' a = mem s a)).
Proof.
  intros Hsz Hh Hq.
  assert (st (tlb (cpu s)) (mem s) = s) as Hs by (unfold st; by destruct s as [[] ? ? ?]).
  match goal with |- wp ?E ?p s ?Q => assert (wp E p (st (tlb (cpu s)) (mem s)) Q); [|by rewrite <- Hs] end.
  assert (steps (tlb (cpu s)) (tlb (cpu s)) (mem s) (mem s)) as Hst.
  { split_and!; [|done|done]. split; [|done|done]. by destruct Hsz; split. }
  unfold mmu_page_size_main.
  do 10 (eapply test_page_size_next; [|exact Hst|clear Hst; intros ? ? Hst]; [reflexivity|]).
  destruct Hst as (_ & Ht & Hm). unfold wp, gets. split_and!; [done|done|exact Ht|exact Hm].
Qed.
End proof.

(** A program in the first megabyte on a machine with eight entries. *)
Section demo.
Import ArrayTlb SimMmu.

Lemma mmu_page_size_passes_witness :
  own 0x4000 /\ spec (mmu_page_size_main 68 0x4000 0x2000 0x8000 0x1000 0x3000) boot_msys (fun r _ => r = 0).
Proof.
  assert (own 0x4000) as Ho by (split; vm_compute; congruence). split; [exact Ho|].
  eapply wp_mono; [apply (mmu_page_size_passes 68 0x4000 0x2000 0x8000 0x1000 0x3000 boot_msys);
    [exact Ho|reflexivity|split; vm_compute; congruence|vm_compute; reflexivity
    |exact boot_sized|exact boot_home|]|].
  - intros q. apply boot_quiet; [destruct q; vm_compute; congruence|destruct q; vm_compute; congruence].
  - intros r s' [Hr _]. exact Hr.
Defined.
End demo.
