(* ===== verification/MmuPermissions.v ===== *)
(** [mmu_permissions.c]: five pages that each lack a permission.  Every access
    in user mode faults, the handler grants the permission in the entry, and
    the replayed access completes. *)

From S2P Require Import Prelude HexTest RegFields TlbHw Tlb Mmu MmuMem MmuLayout.

Section permissions.
Context `{TlbSearch} `{MmuHw} (arch : Z).
(** The addresses of [data], [func_return_pc], the program's vector table, the
    runtime's and the code of the test. *)
Variables data_addr func_addr my_addr rt_addr pc : Z.

(** The event handlers of the program. *)
Definition permissions_handles (h : handle) : binding :=
  match h with
  | H_error => MY_EVENT_HANDLE my_event_handle_error_helper
  | _ => DEFAULT_EVENT_HANDLE (HANDLE_OFFSET h)
  end.

Abbreviation load := (load my_addr rt_addr pc permissions_handles).
Abbreviation store := (store my_addr rt_addr pc permissions_handles).
Abbreviation store_inc := (store_inc my_addr rt_addr pc permissions_handles).
Abbreviation call_func := (call_func my_addr rt_addr pc permissions_handles func_addr).

(** The first half of [test_permissions]: the five pages are added. *)
Definition map_pages : prog msys () :=
  let data_page := page_start data_addr TARGET_PAGE_BITS in
  let data_offset := ONE_MB in
  let new_data_page := u32 (data_page + data_offset) in
  let read_data_addr := u32 (data_addr + data_offset) in
  let data_perm := Z.lor (Z.lor TLB_X TLB_W) TLB_U in
  let func_page := page_start func_addr TARGET_PAGE_BITS in
  let func_offset := FIVE_MB in
  let new_func_page := u32 (func_page + func_offset) in
  let exec_addr := u32 (func_addr + func_offset) in
  let func_perm := Z.lor TLB_W TLB_R in
  set_exceptions clear_exception_vector;;
  store data_addr 0xdeadbeef;;
  on_cpu (add_trans arch 1 new_data_page data_page PAGE_4K data_perm 0 1 1);;
  r ← on_cpu (tlbp 0 read_data_addr); check (__check32 56 r 1);;
  let data_offset := TWO_MB in
  let new_data_page := u32 (data_page + data_offset) in
  let read_user_data_addr := u32 (data_addr + data_offset) in
  let data_perm := Z.lor (Z.lor TLB_X TLB_W) TLB_R in
  on_cpu (add_trans arch 2 new_data_page data_page PAGE_4K data_perm 0 1 1);;
  r ← on_cpu (tlbp 0 read_user_data_addr); check (__check32 64 r 2);;
  let data_offset := THREE_MB in
  let new_data_page := u32 (data_page + data_offset) in
  let write_data_addr := u32 (data_addr + data_offset) in
  let data_perm := Z.lor (Z.lor TLB_X TLB_R) TLB_U in
  on_cpu (add_trans arch 3 new_data_page data_page PAGE_4K data_perm 0 1 1);;
  r ← on_cpu (tlbp 0 write_data_addr); check (__check32 72 r 3);;
  let data_offset := FOUR_MB in
  let new_data_page := u32 (data_page + data_offset) in
  let write_user_data_addr := u32 (data_addr + data_offset) in
  let data_perm := Z.lor (Z.lor TLB_X TLB_R) TLB_W in
  on_cpu (add_trans arch 4 new_data_page data_page PAGE_4K data_perm 0 1 1);;
  r ← on_cpu (tlbp 0 write_user_data_addr); check (__check32 80 r 4);;
  on_cpu (add_trans arch 5 new_func_page func_page PAGE_4K func_perm 0 1 1);;
  r ← on_cpu (tlbp 0 exec_addr); check (__check32 84 r 5).

(** The second half: the accesses in user mode, and the exceptions they took. *)
Definition access_pages : prog msys () :=
  let read_data_addr := u32 (data_addr + ONE_MB) in
  let read_user_data_addr := u32 (data_addr + TWO_MB) in
  let write_data_addr := u32 (data_addr + THREE_MB) in
  let write_user_data_addr := u32 (data_addr + FOUR_MB) in
  let exec_addr := u32 (func_addr + FIVE_MB) in
  on_cpu (install_my_event_vectors my_addr);;
  on_cpu enter_user_mode;;
  v ← load read_data_addr; check (__check32 90 v 0xdeadbeef);;
  v ← load read_user_data_addr; check (__check32 91 v 0xdeadbeef);;
  p ← store_inc write_data_addr 0xc0ffee;
  v ← load data_addr; check (__check32 98 v 0xc0ffee);;
  check (__check32 99 p (u32 (write_data_addr + 4)));;
  store write_user_data_addr 0xc0ffee;;
  v ← load data_addr; check (__check32 102 v 0xc0ffee);;
  r ← call_func exec_addr; check (__check32 105 r exec_addr);;
  let expected_exceptions := clear_exception_vector in
  let expected_exceptions := set_exception_vector_bit expected_exceptions HEX_CAUSE_FETCH_NO_XPAGE in
  let expected_exceptions := set_exception_vector_bit expected_exceptions HEX_CAUSE_FETCH_NO_UPAGE in
  let expected_exceptions := set_exception_vector_bit expected_exceptions HEX_CAUSE_PRIV_NO_READ in
  let expected_exceptions := set_exception_vector_bit expected_exceptions HEX_CAUSE_PRIV_NO_WRITE in
  let expected_exceptions := set_exception_vector_bit expected_exceptions HEX_CAUSE_PRIV_NO_UREAD in
  let expected_exceptions := set_exception_vector_bit expected_exceptions HEX_CAUSE_PRIV_NO_UWRITE in
  x ← on_cpu (gets my_exceptions);
  check (check_exception_vector 119 x expected_exceptions).

Definition test_permissions : prog msys () := map_pages;; access_pages.

Definition mmu_permissions_main : prog msys Z :=
  test_permissions;; gets (fun s => err (tst (cpu s))).

End permissions.

(* ------------------------------------------------------------------ *)
(** ** The test passes *)

Section proof.
Context `{HL : TlbSearchLaws} `{HM : MmuHwLaws} (arch : Z).
Context (data_addr func_addr my_addr rt_addr pc : Z) (s : msys).
Context (Hdata : own data_addr) (Hdata4 : data_addr mod 4 = 0).
Context (Hfunc : own func_addr) (Hpage : func_addr mod 4096 < 4092).
Abbreviation handles := permissions_handles.

(** The state before the vectors are installed. *)
Definition st (t : list Z) (m : Z -> Z) : msys :=
  MSys (set_tlb t (set_my_exceptions (0, 0) (cpu s))) m (tlb_idx s) (NumTLBEntries s).

Lemma on_cpu_pages {A} (f : prog sys A) a t t' m :
  f (set_tlb t (set_my_exceptions (0, 0) (cpu s))) =
    Done a (set_tlb t' (set_my_exceptions (0, 0) (cpu s))) ->
  on_cpu f (st t m) = Done a (st t' m).
Proof. unfold on_cpu, st. cbn [cpu]. by intros ->. Qed.

(** The five pages. *)
Definition page_addr (b : Z) : Z := if b =? 5 then func_addr else data_addr.
Definition page_perm (b : Z) : Z := match b with 1 => 13 | 2 => 14 | 3 => 11 | 4 => 14 | _ => 6 end.
Definition page_entry (b : Z) : Z := added arch (page_addr b) b (page_perm b).

Lemma page_addr_own b : own (page_addr b).
Proof. unfold page_addr. by destruct (b =? 5). Qed.

(** A TLB with the first [n] pages. *)
Record pages (n : Z) (t : list Z) : Prop := {
  pg_sized : sized (set_tlb t (set_my_exceptions (0, 0) (cpu s)));
  pg_layout : layout t;
  pg_entry : forall b, 1 <= b <= n -> t !! Z.to_nat b = Some (page_entry b)
}.

Lemma pages_next n t m b :
  b = n + 1 -> 1 <= b <= 5 -> pages n t ->
  let t' := <[Z.to_nat b := page_entry b]> t in
  pages b t' /\
  on_cpu (add_trans arch b (page_start (page_addr b) 12 + b * ONE_MB) (page_start (page_addr b) 12)
    PAGE_4K (page_perm b) 0 1 1) (st t m) = Done tt (st t' m) /\
  on_cpu (tlbp 0 (page_addr b + b * ONE_MB)) (st t' m) = Done b (st t' m).
Proof.
  intros -> Hb [Hsz Hy He] t'.
  destruct (add_page arch _ t (page_addr (n + 1)) (n + 1) (page_perm (n + 1)) Hsz Hy (page_addr_own _) Hb)
    as (Hadd & Hsz' & Hy' & Hlen & Hp).
  split_and!; [|by apply on_cpu_pages|by apply on_cpu_pages]. split; [done|done|].
  intros b Hb'. destruct (decide (b = n + 1)) as [->|].
  - by apply list_lookup_insert_eq.
  - unfold t'. rewrite list_lookup_insert_ne by lia. apply He. lia.
Qed.

Lemma mb_sums addr : own addr ->
  u32 (page_start addr 12 + ONE_MB) = page_start addr 12 + 1 * ONE_MB /\ u32 (addr + ONE_MB) = addr + 1 * ONE_MB /\
  u32 (page_start addr 12 + TWO_MB) = page_start addr 12 + 2 * ONE_MB /\ u32 (addr + TWO_MB) = addr + 2 * ONE_MB /\
  u32 (page_start addr 12 + THREE_MB) = page_start addr 12 + 3 * ONE_MB /\ u32 (addr + THREE_MB) = addr + 3 * ONE_MB /\
  u32 (page_start addr 12 + FOUR_MB) = page_start addr 12 + 4 * ONE_MB /\ u32 (addr + FOUR_MB) = addr + 4 * ONE_MB /\
  u32 (page_start addr 12 + FIVE_MB) = page_start addr 12 + 5 * ONE_MB /\ u32 (addr + FIVE_MB) = addr + 5 * ONE_MB.
Proof.
  intros Ha. rewrite <- (Z.mul_1_l ONE_MB) at 1 3.
  split_and!; (apply mv_page_sum || apply mv_addr_sum); by apply own_moved.
Qed.

Lemma map_pages_runs :
  sized (cpu s) -> layout (tlb (cpu s)) ->
  exists t, pages 5 t /\
    map_pages arch data_addr func_addr my_addr rt_addr pc s = Done tt (st t (upd data_addr 0xdeadbeef (mem s))).
Proof.
  intros Hsz Hy. set (m := upd data_addr 0xdeadbeef (mem s)).
  assert (pages 0 (tlb (cpu s))) as H0' by (split; [by destruct Hsz; split|done|intros; lia]).
  destruct (pages_next 0 _ m 1 eq_refl ltac:(lia) H0') as (H1' & Ha1 & Hp1).
  destruct (pages_next 1 _ m 2 eq_refl ltac:(lia) H1') as (H2' & Ha2 & Hp2).
  destruct (pages_next 2 _ m 3 eq_refl ltac:(lia) H2') as (H3' & Ha3 & Hp3).
  destruct (pages_next 3 _ m 4 eq_refl ltac:(lia) H3') as (H4' & Ha4 & Hp4).
  destruct (pages_next 4 _ m 5 eq_refl ltac:(lia) H4') as (H5' & Ha5 & Hp5).
  eexists. split; [exact H5'|].
  destruct (mb_sums data_addr Hdata) as (Ep1 & Ed1 & Ep2 & Ed2 & Ep3 & Ed3 & Ep4 & Ed4 & _).
  destruct (mb_sums func_addr Hfunc) as (_ & _ & _ & _ & _ & _ & _ & _ & Ep5 & Ed5).
  unfold map_pages. cbv zeta. change TARGET_PAGE_BITS with 12.
  rewrite Ep1, Ed1, Ep2, Ed2, Ep3, Ed3, Ep4, Ed4, Ep5, Ed5.
  assert (set_exceptions clear_exception_vector s = Done tt (st (tlb (cpu s)) (mem s))) as Hclear
    by (unfold st; by destruct s as [[] ? ? ?]).
  next_step Hclear.
  assert (store my_addr rt_addr pc handles data_addr 0xdeadbeef (st (tlb (cpu s)) (mem s)) =
    Done tt (st (tlb (cpu s)) m)) as Hst.
  { apply store_own; [done| |apply Hy|done]. apply Hsz. }
  next_step Hst.
  next_step Ha1. next_step Hp1. next_step (check_same 56 1 _).
  next_step Ha2. next_step Hp2. next_step (check_same 64 2 _).
  next_step Ha3. next_step Hp3. next_step (check_same 72 3 _).
  next_step Ha4. next_step Hp4. next_step (check_same 80 4 _).
  next_step Ha5. next_step Hp5. apply (check_same 84 5).
Qed.

(** ** The accesses *)

(** The state of the second half: in user mode with the vectors installed. *)
Record in_user (s' : msys) (t : list Z) (m : Z -> Z) (x : Z * Z) : Prop := {
  iu_running : running my_addr s';
  iu_user : user_mode (cpu s') = true;
  iu_tlb : tlb (cpu s') = t;
  iu_mem : mem s' = m;
  iu_exc : my_exceptions (cpu s') = x;
  iu_tst : tst (cpu s') = tst (cpu s)
}.

Lemma enter_runs t m :
  in_u 32 (ssr (cpu s)) -> pages 5 t ->
  exists s', in_user s' t m (0, 0) /\
    forall A (k : prog msys A),
      (on_cpu (install_my_event_vectors my_addr);; on_cpu enter_user_mode;; k) (st t m) = k s'.
Proof.
  intros Hssr [Hsz Hy _].
  set (c1 := set_evb my_addr (set_old_evb (evb (cpu s)) (set_tlb t (set_my_exceptions (0, 0) (cpu s))))).
  assert (on_cpu (install_my_event_vectors my_addr) (st t m) = Done tt (set_cpu c1 (st t m))) as Hi by done.
  pose proof (enter_user_mode_eq c1 Hssr) as He.
  set (v := SET_FIELD 32 (SET_FIELD 32 (SET_FIELD 32 (ssr c1) SSR_EX 0) SSR_UM 1) SSR_GM 0) in He.
  assert (GET_FIELD v SSR_EX = 0 /\ GET_FIELD v SSR_UM = 1) as [Hx Hu].
  { unfold v. split; repeat first [rewrite get_set_other_at by done | rewrite get_set_same_at by done]; done. }
  exists (set_cpu (set_ssr v c1) (st t m)). split.
  - split; try done.
    + split; [apply Hsz|done|done|done].
    + unfold user_mode. cbn [cpu set_cpu]. sys_simpl. by rewrite Hx, Hu.
  - intros A k. unfold mbind, prog_bind. rewrite Hi. unfold on_cpu at 1. cbn [cpu set_cpu]. by rewrite He.
Qed.

(** An access to the data that lacks one permission. *)
Lemma data_access s' t m x b k e f c :
  in_user s' t m x -> 1 <= b <= 5 -> t !! Z.to_nat b = Some e -> page_of e data_addr b ->
  permitted_by k true (perms e) = false -> perm_cause k f = Some c ->
  (forall f', perm_cause k f' <> None -> perm_of (perms e) f' = false -> f' = f) ->
  permitted_by k true (set_perm f (perms e)) = true ->
  exists s'' e', access my_addr rt_addr pc handles k (data_addr + b * ONE_MB) s' = Done data_addr s'' /\
    in_user s'' (<[Z.to_nat b := e']> t) m (set_exception_vector_bit x c).
Proof.
  intros [Hr Hu Ht Hm Hx Htst] Hb He Hpo Hper Hc Hone Hok.
  destruct (own_moved data_addr b Hdata ltac:(lia)).
  destruct (access_one my_addr rt_addr pc handles eq_refl s' data_addr b (data_addr + b * ONE_MB) Hr Hdata Hb
    mv_addr mv_in k e f c) as (s'' & e' & Ha & Hf & Hm' & Hr' & Ht' & Hpo' & Hpe' & Hx');
    rewrite ?Hu, ?Ht; try done; [by intros f' ? _; apply Hone|].
  exists s'', e'. split.
  - rewrite Ha. do 2 f_equal. apply page_phys_start; (done || lia).
  - split; try done.
    + by rewrite (frame_user _ _ Hf).
    + by rewrite Ht', Ht.
    + by rewrite Hm', Hm.
    + by rewrite Hx', Hx.
    + by rewrite (fr_tst _ _ Hf).
Qed.

(** The first fetch of the function takes both of its faults, in either order. *)
Lemma func_access s' t m x e :
  in_user s' t m x -> t !! 5%nat = Some e -> page_of e func_addr 5 -> perms e = Perms true true false false ->
  exists s'' e' c c',
    access my_addr rt_addr pc handles Fetch (func_addr + 5 * ONE_MB) s' = Done func_addr s'' /\
    in_user s'' (<[5%nat := e']> t) m (set_exception_vector_bit (set_exception_vector_bit x c) c') /\
    page_of e' func_addr 5 /\ perms e' = Perms true true true true /\
    (c = HEX_CAUSE_FETCH_NO_XPAGE /\ c' = HEX_CAUSE_FETCH_NO_UPAGE \/
     c = HEX_CAUSE_FETCH_NO_UPAGE /\ c' = HEX_CAUSE_FETCH_NO_XPAGE).
Proof.
  intros [Hr Hu Ht Hm Hx Htst] He Hpo Hp.
  destruct (own_moved func_addr 5 Hfunc ltac:(lia)).
  set (va := func_addr + 5 * ONE_MB) in *.
  destruct (grant_step my_addr rt_addr pc handles eq_refl s' func_addr 5 va Hr Hfunc
    ltac:(lia) mv_addr mv_in 5 Fetch e) as (s1 & f & c & Hi & Hc & Hpf & _ & Hf & Hm1 & Hr1 & Ht1 & Hpo1 & Hp1 & Hx1);
    [by rewrite Ht|done|by rewrite Hu, Hp|].
  rewrite Hp in Hp1, Hpf. rewrite Ht in Ht1.
  assert (tlb (cpu s1) !! Z.to_nat 5 = Some (grant f e)) as He1
    by (rewrite Ht1; apply list_lookup_insert_eq; by apply lookup_lt_Some in He).
  assert (user_mode (cpu s1) = true) as Hu1 by by rewrite (frame_user _ _ Hf).
  destruct (grant_step my_addr rt_addr pc handles eq_refl s1 func_addr 5 va Hr1 Hfunc
    ltac:(lia) mv_addr mv_in 4 Fetch (grant f e) He1 Hpo1)
    as (s2 & f' & c' & Hi' & Hc' & Hpf' & _ & Hf' & Hm2 & Hr2 & Ht2 & Hpo2 & Hp2 & Hx2);
    [by rewrite Hu1, Hp1; destruct f|].
  rewrite Hp1 in Hp2, Hpf'. rewrite Ht1, list_insert_insert_eq in Ht2.
  set (e2 := grant f' (grant f e)) in *.
  assert (perms e2 = Perms true true true true /\
    (c = HEX_CAUSE_FETCH_NO_XPAGE /\ c' = HEX_CAUSE_FETCH_NO_UPAGE \/
     c = HEX_CAUSE_FETCH_NO_UPAGE /\ c' = HEX_CAUSE_FETCH_NO_XPAGE)) as [Hall Hcc].
  { rewrite Hp2. destruct f; try done; destruct f'; try done; injection Hc as <-; injection Hc' as <-;
      (split; [done|]); by auto. }
  exists s2, e2, c, c'. split_and!; [| |done|done|done].
  - unfold access, replays. rewrite Hi, Hi'. rewrite (access_ok _ _ _ _ _ _ _ _ 5%nat e2).
    + do 2 f_equal. by apply page_phys_start.
    + pose proof Hr2 as [? ? _ _]. apply (page_translates s2 func_addr 5); try done.
      rewrite Ht2. apply list_lookup_insert_eq. by apply lookup_lt_Some in He.
    + by rewrite permitted_perms, Hall, (frame_user _ _ Hf'), Hu1.
  - split; try done.
    + by rewrite (frame_user _ _ Hf').
    + by rewrite Hm2, Hm1.
    + by rewrite Hx2, Hx1, Hx.
    + by rewrite (fr_tst _ _ Hf'), (fr_tst _ _ Hf).
Qed.

Abbreviation load' := (load my_addr rt_addr pc handles).
Abbreviation store' := (store my_addr rt_addr pc handles).

Lemma in_user_mem s' t m m' x : in_user s' t m x -> in_user (set_mem m' s') t m' x.
Proof. intros [[] ? ? ? ? ?]. by split; [split|..]. Qed.

Lemma own_access s' t m x :
  in_user s' t m x -> load' data_addr s' = Done (m data_addr) s'.
Proof.
  intros [[] ? ? <- ? ?]. apply load_own; try done. apply rn_layout.
Qed.

Lemma moved_mod4 b : 1 <= b <= 5 -> (data_addr + b * ONE_MB) mod 4 = 0.
Proof. intros Hb. by rewrite (mv_mod _ _ (own_moved data_addr b Hdata ltac:(lia))). Qed.

(** The step for the page [b]: the state before has the pages from [b] on as
    they were added. *)
Definition intact (b : Z) (t : list Z) : Prop :=
  forall b', b <= b' <= 5 -> t !! Z.to_nat b' = Some (page_entry b').

Lemma page_access s' t m x b k f c :
  in_user s' t m x -> 1 <= b <= 4 -> intact b t ->
  permitted_by k true (perms (page_entry b)) = false -> perm_cause k f = Some c ->
  (forall f', perm_cause k f' <> None -> perm_of (perms (page_entry b)) f' = false -> f' = f) ->
  permitted_by k true (set_perm f (perms (page_entry b))) = true ->
  exists s'' t',
    access my_addr rt_addr pc handles k (data_addr + b * ONE_MB) s' = Done data_addr s'' /\
    in_user s'' t' m (set_exception_vector_bit x c) /\ intact (b + 1) t'.
Proof.
  intros Hin Hb Hi Hper Hc Hone Hok.
  assert (page_of (page_entry b) data_addr b) as Hpo.
  { unfold page_entry, page_addr. rewrite (proj2 (Z.eqb_neq b 5)) by lia. apply added_page; (done || lia). }
  destruct (data_access s' t m x b k (page_entry b) f c Hin ltac:(lia) (Hi b ltac:(lia)) Hpo Hper Hc Hone Hok)
    as (s'' & e' & Ha & Hin').
  exists s'', (<[Z.to_nat b := e']> t). split_and!; [done|done|].
  intros b' Hb'. rewrite list_lookup_insert_ne by lia. apply Hi. lia.
Qed.

Ltac one_missing := unfold page_entry, page_perm; rewrite ?added_perms; solve
  [vm_compute; reflexivity | intros []; vm_compute; congruence].

Lemma exec_call s' t m x :
  in_user s' t m x -> intact 5 t ->
  exists s'' t' c c',
    call_func my_addr rt_addr pc handles func_addr (func_addr + 5 * ONE_MB) s' = Done (func_addr + 5 * ONE_MB) s'' /\
    in_user s'' t' m (set_exception_vector_bit (set_exception_vector_bit x c) c') /\
    (c = HEX_CAUSE_FETCH_NO_XPAGE /\ c' = HEX_CAUSE_FETCH_NO_UPAGE \/
     c = HEX_CAUSE_FETCH_NO_UPAGE /\ c' = HEX_CAUSE_FETCH_NO_XPAGE).
Proof.
  intros Hin Hi. pose proof (Hi 5 ltac:(lia)) as He.
  assert (page_of (page_entry 5) func_addr 5) as Hpo by (apply (added_page arch func_addr 5 6); [done|lia]).
  destruct (func_access s' t m x (page_entry 5) Hin He Hpo) as (s'' & e' & c & c' & Ha & Hin' & Hpo' & Hp' & Hcc);
    [one_missing|].
  exists s'', (<[5%nat := e']> t), c, c'. split_and!; [|done|done].
  destruct (moved_next func_addr 5 Hfunc ltac:(lia) Hpage) as (Hu & Hr4 & Hs).
  pose proof (mv_in _ _ (own_moved func_addr 5 Hfunc ltac:(lia))) as Hpg.
  set (va := func_addr + 5 * ONE_MB) in *.
  unfold call_func. next_step Ha. rewrite Hu.
  assert (access my_addr rt_addr pc handles Fetch (va + 4) s'' = Done (func_addr + 4) s'') as Ha4.
  { unfold access, replays. rewrite (access_ok _ _ _ _ _ _ _ _ 5%nat e').
    - do 2 f_equal. apply page_phys; try done. lia.
    - destruct Hin' as [[] _ Ht' _ _ _]. apply (page_translates s'' func_addr 5); try done.
      + rewrite Ht'. apply list_lookup_insert_eq. by apply lookup_lt_Some in He.
      + by rewrite Hs, Hpg.
    - rewrite permitted_perms, Hp'. by rewrite (iu_user _ _ _ _ Hin'). }
  next_step Ha4. by rewrite !Z.eqb_refl.
Qed.

Lemma load_page s' t m x b f c v :
  in_user s' t m x -> 1 <= b <= 4 -> intact b t -> m data_addr = v ->
  permitted_by Read true (perms (page_entry b)) = false -> perm_cause Read f = Some c ->
  (forall f', perm_cause Read f' <> None -> perm_of (perms (page_entry b)) f' = false -> f' = f) ->
  permitted_by Read true (set_perm f (perms (page_entry b))) = true ->
  exists s'' t', load' (data_addr + b * ONE_MB) s' = Done v s'' /\
    in_user s'' t' m (set_exception_vector_bit x c) /\ intact (b + 1) t'.
Proof.
  intros Hin Hb Hi <- Hper Hc Hone Hok.
  destruct (page_access s' t m x b Read f c Hin Hb Hi Hper Hc Hone Hok) as (s'' & t' & Ha & Hin' & Hi').
  exists s'', t'. split_and!; [|done|done].
  rewrite (load_of _ _ _ _ _ _ _ _ (moved_mod4 b ltac:(lia)) Ha). by rewrite (iu_mem _ _ _ _ Hin').
Qed.

Lemma store_page s' t m x b f c v :
  in_user s' t m x -> 1 <= b <= 4 -> intact b t ->
  permitted_by Write true (perms (page_entry b)) = false -> perm_cause Write f = Some c ->
  (forall f', perm_cause Write f' <> None -> perm_of (perms (page_entry b)) f' = false -> f' = f) ->
  permitted_by Write true (set_perm f (perms (page_entry b))) = true ->
  exists s'' t', store' (data_addr + b * ONE_MB) v s' = Done tt s'' /\
    in_user s'' t' (upd data_addr v m) (set_exception_vector_bit x c) /\ intact (b + 1) t'.
Proof.
  intros Hin Hb Hi Hper Hc Hone Hok.
  destruct (page_access s' t m x b Write f c Hin Hb Hi Hper Hc Hone Hok) as (s'' & t' & Ha & Hin' & Hi').
  exists (set_mem (upd data_addr v (mem s'')) s''), t'. split_and!; [|rewrite (iu_mem _ _ _ _ Hin'); by eapply in_user_mem|done].
  by rewrite (store_of _ _ _ _ _ _ _ _ _ (moved_mod4 b ltac:(lia)) Ha).
Qed.

Lemma access_pages_runs t m :
  in_u 32 (ssr (cpu s)) -> pages 5 t -> m data_addr = 0xdeadbeef ->
  exists s' m', access_pages data_addr func_addr my_addr rt_addr pc (st t m) = Done tt s' /\
    tst (cpu s') = tst (cpu s) /\ mem s' = m' /\ forall a, a <> data_addr -> m' a = m a.
Proof.
  intros Hssr Hpg Hv. pose proof (pg_entry _ _ Hpg) as Hi0.
  destruct (enter_runs t m Hssr Hpg) as (s0 & Hin0 & Hrun0).
  destruct (load_page s0 t m (0, 0) 1 PTE_R HEX_CAUSE_PRIV_NO_READ 0xdeadbeef Hin0 ltac:(lia) Hi0 Hv)
    as (s1 & t1 & Ha1 & Hin1 & Hi1); [one_missing..|].
  destruct (load_page s1 t1 m _ 2 PTE_U HEX_CAUSE_PRIV_NO_UREAD 0xdeadbeef Hin1 ltac:(lia) Hi1 Hv)
    as (s2 & t2 & Ha2 & Hin2 & Hi2); [one_missing..|].
  destruct (store_page s2 t2 m _ 3 PTE_W HEX_CAUSE_PRIV_NO_WRITE 0xc0ffee Hin2 ltac:(lia) Hi2)
    as (s3 & t3 & Ha3 & Hin3 & Hi3); [one_missing..|].
  pose proof (own_access _ _ _ _ Hin3) as Hl3. rewrite upd_same in Hl3.
  destruct (store_page s3 t3 _ _ 4 PTE_U HEX_CAUSE_PRIV_NO_UWRITE 0xc0ffee Hin3 ltac:(lia) Hi3)
    as (s4 & t4 & Ha4 & Hin4 & Hi4); [one_missing..|].
  pose proof (own_access _ _ _ _ Hin4) as Hl4. rewrite upd_same in Hl4.
  destruct (exec_call s4 t4 _ _ Hin4 Hi4) as (s5 & t5 & c & c' & Ha5 & Hin5 & Hcc).
  destruct (mb_sums data_addr Hdata) as (_ & Ed1 & _ & Ed2 & _ & Ed3 & _ & Ed4 & _).
  destruct (mb_sums func_addr Hfunc) as (_ & _ & _ & _ & _ & _ & _ & _ & _ & Ed5).
  exists s5, (mem s5). split_and!; [|apply Hin5|done|intros a Ha; rewrite (iu_mem _ _ _ _ Hin5); by rewrite !upd_other].
  unfold access_pages. cbv zeta. rewrite Ed1, Ed2, Ed3, Ed4, Ed5, Hrun0.
  next_step Ha1. next_step (check_same 90 0xdeadbeef _).
  next_step Ha2. next_step (check_same 91 0xdeadbeef _).
  assert (store_inc my_addr rt_addr pc handles (data_addr + 3 * ONE_MB) 0xc0ffee s2 =
    Done (u32 (data_addr + 3 * ONE_MB + 4)) s3) as Ha3' by (unfold store_inc; by next_step Ha3).
  next_step Ha3'. next_step Hl3. next_step (check_same 98 0xc0ffee _).
  next_step (check_same 99 (u32 (data_addr + 3 * ONE_MB + 4)) _).
  next_step Ha4. next_step Hl4. next_step (check_same 102 0xc0ffee _).
  next_step Ha5. next_step (check_same 105 (func_addr + 5 * ONE_MB) _).
  unfold on_cpu, gets, mbind, prog_bind. rewrite (iu_exc _ _ _ _ Hin5).
  destruct Hcc as [[-> ->]|[-> ->]]; unfold check, on_cpu, modify; destruct s5 as [[] ? ? ?]; vm_compute; reflexivity.
Qed.

(** C15: the permissions test passes: on any machine whose MMU behaves as
    documented, whatever order it reports missing permissions in, where the
    runtime's entry maps the program's megabyte and no other entry reaches the
    five megabytes above it but the one of its number, every user-mode access
    faults, is granted exactly its missing permissions, and completes with the
    right value or effect; the recorded exceptions are exactly the six expected
    ones, main returns the err it started with and no other word is written. *)
Theorem mmu_permissions_passes :
  sized (cpu s) -> layout (tlb (cpu s)) -> in_u 32 (ssr (cpu s)) ->
  spec (mmu_permissions_main arch data_addr func_addr my_addr rt_addr pc) s (fun r s' =>
    r = err (tst (cpu s)) /\ tst (cpu s') = tst (cpu s) /\
    forall a, a <> data_addr -> mem s' a = mem s a).
Proof.
  intros Hsz Hy Hssr. destruct (map_pages_runs Hsz Hy) as (t & Hpg & Hmap).
  destruct (access_pages_runs t _ Hssr Hpg (upd_same data_addr 0xdeadbeef (mem s))) as (s' & m' & Hacc & Htst & Hm & Ho).
  unfold wp, mmu_permissions_main, test_permissions.
  rewrite prog_bind_assoc, (bind_done _ _ _ _ _ Hmap), (bind_done _ _ _ _ _ Hacc). unfold gets.
  rewrite Htst. split_and!; [done|done|]. intros a Ha. rewrite Hm, Ho by done. by apply upd_other.
Qed.
End proof.

Section demo.
Import ArrayTlb SimMmu.

Lemma mmu_permissions_passes_witness :
  own 0x4000 /\ spec (mmu_permissions_main 68 0x4000 0x2000 0x8000 0x1000 0x3000) boot_msys (fun r _ => r = 0).
Proof.
  assert (own 0x4000) as Ho by (split; vm_compute; congruence). split; [exact Ho|].
  eapply wp_mono; [apply (mmu_permissions_passes 68 0x4000 0x2000 0x8000 0x1000 0x3000 boot_msys);
    [exact Ho|reflexivity|split; vm_compute; congruence|vm_compute; reflexivity
    |exact boot_sized|exact boot_layout|split; vm_compute; congruence]|].
  intros r s' [Hr _]. exact Hr.
Defined.
End demo.
