(* ===== verification/MmuSpaces.v ===== *)
(** Entries of one address space: the tests of address spaces and of multiple
    matches write an entry for the page of the variable that is not global, and
    invalidate address spaces. *)

From S2P Require Import Prelude HexTest RegFields TlbHw Tlb Mmu MmuMem MmuLayout.

(* ------------------------------------------------------------------ *)
(** ** Invalidating an address space *)

(** What tlbinvasid does to one entry. *)
Definition drop_asid (a e : Z) : Z :=
  if negb (truth (GET_FIELD e PTE_G)) && (GET_FIELD e PTE_ASID =? a) then invalid e else e.

Lemma drop_asid_reaches a e vpn k : reaches (drop_asid a e) vpn k = true -> reaches e vpn k = true.
Proof. unfold drop_asid. destruct (_ && _); [by rewrite reaches_invalid|done]. Qed.

Lemma drop_asid_range a e : in_u 64 e -> in_u 64 (drop_asid a e).
Proof. unfold drop_asid. destruct (_ && _); [intros _; apply SET_FIELD_range; lia|done]. Qed.

Lemma drop_asid_boot a : drop_asid a boot_entry = boot_entry.
Proof.
  unfold drop_asid. replace (truth (GET_FIELD boot_entry PTE_G)) with true by (vm_compute; reflexivity). done.
Qed.

Lemma sole_fmap t a vpn k i : sole t vpn k i -> sole (drop_asid a <$> t) vpn k i.
Proof.
  intros Hs j e. rewrite list_lookup_fmap. intros (e' & He & ->)%fmap_Some Hr.
  eapply Hs; [done|]. by eapply drop_asid_reaches.
Qed.

Lemma home_fmap t a : home t -> home (drop_asid a <$> t).
Proof.
  intros [He Hs]. split; [by rewrite list_lookup_fmap, He; cbn; rewrite drop_asid_boot|]. by apply sole_fmap.
Qed.

Lemma sized_fmap c a : sized c -> sized (set_tlb (drop_asid a <$> tlb c) c).
Proof.
  intros [[Hf Hl] Hfix Hu]. split; sys_simpl; [split|done|]; rewrite ?length_fmap; try done.
  apply Forall_fmap. eapply Forall_impl; [exact Hf|]. intros e. apply drop_asid_range.
Qed.

Lemma tlbinvasid_eq `{HL : TlbSearchLaws} hi c :
  tlbinvasid hi c = Done tt (set_tlb (drop_asid (probe_asid hi) <$> tlb c) c).
Proof. unfold tlbinvasid, modify. by rewrite tlbinvasid_each. Qed.

(* ------------------------------------------------------------------ *)
(** ** An entry of address space 1 *)

(** The page of [addr], [b] megabytes higher. *)
Abbreviation space_entry addr b :=
  (create_mmu_entry 0 0 0 1 (page_start addr 12 + b * ONE_MB) 1 1 1 0 7 (page_start addr 12) PAGE_4K).

Section entry.
Context (addr b : Z) (Haddr : own addr) (Hb : 0 <= b <= 5).
Abbreviation E := (space_entry addr b).

Lemma space_entry_maps : maps E (Z.shiftr (page_start addr 12 + b * ONE_MB) 12) SHIFT_4K (page_start addr 12).
Proof using Haddr Hb. destruct (own_moved addr b Haddr Hb). by apply maps_created. Qed.

Lemma space_entry_field f v :
  (f, v) ∈ [(PTE_G, 0); (PTE_ATR0, 0); (PTE_ATR1, 0); (PTE_ASID, 1); (PTE_X, 1);
            (PTE_W, 1); (PTE_R, 1); (PTE_U, 0); (PTE_C, 7)] ->
  GET_FIELD E f = extract v 0 (width (reg_field_info f)).
Proof using Type. apply create_mmu_entry_arg. Qed.

Lemma space_entry_G : GET_FIELD E PTE_G = 0.
Proof using Type. by rewrite (space_entry_field PTE_G 0) by left. Qed.

Lemma space_entry_ASID : GET_FIELD E PTE_ASID = 1.
Proof using Type. by rewrite (space_entry_field PTE_ASID 1) by (do 3 right; left). Qed.

Lemma space_entry_serves a : serves E a = (1 =? a).
Proof using Type. unfold serves. by rewrite space_entry_G, space_entry_ASID. Qed.

Lemma space_entry_permitted k : permitted k false E = true.
Proof using Type.
  unfold permitted. rewrite (space_entry_field PTE_X 1) by (do 4 right; left).
  rewrite (space_entry_field PTE_W 1) by (do 5 right; left).
  rewrite (space_entry_field PTE_R 1) by (do 6 right; left). by destruct k.
Qed.

Lemma space_entry_range : in_u 64 E.
Proof using Type. apply (create_mmu_entry_range _ _ _ _ _ _ _ _ _ _ _ SHIFT_4K). Qed.

Lemma space_entry_in_mb : in_mb E b.
Proof using Haddr Hb.
  intros b' Hne. destruct (own_moved addr b Haddr Hb).
  rewrite (maps_reaches _ _ _ _ _ _ space_entry_maps). apply Z.eqb_neq.
  change (2 * Z.max (shift_value SHIFT_4K) 4) with 8.
  rewrite mv_mb. change 256 with (2 ^ 8).
  rewrite <- Z.shiftl_mul_pow2, Z.shiftr_shiftl_l, Z.shiftl_0_r by lia. congruence.
Qed.

Lemma space_entry_hi : probe_asid (u32 (Z.shiftr E 32)) = 1.
Proof using Type.
  unfold probe_asid. rewrite extract_uwrap, extract_shiftr by lia.
  transitivity (GET_FIELD E PTE_ASID); [by rewrite GET_FIELD_extract|apply space_entry_ASID].
Qed.

Lemma space_entry_matches a :
  in_u 7 a -> entry_matches (probe_of a (addr + b * ONE_MB)) E = (1 =? a).
Proof using Haddr Hb.
  intros Ha. destruct (own_moved addr b Haddr Hb).
  rewrite (maps_match _ _ _ _ _ _ space_entry_maps), space_entry_serves by done. unfold same_page.
  rewrite mv_in, Z.eqb_refl. apply andb_true_r.
Qed.

(** It overlaps itself. *)
Lemma space_entry_overlap : entries_overlap E E = true.
Proof using Haddr Hb.
  unfold entries_overlap, same_page. by rewrite (mp_V _ _ _ _ space_entry_maps), !Z.eqb_refl, !orb_true_r.
Qed.

(** Its page lies in the megabyte. *)
Lemma space_entry_page : Z.shiftr (GET_FIELD E PTE_VPN) (2 * 4) = Z.shiftr (b * 256) (2 * 4).
Proof using Haddr Hb.
  destruct (own_moved addr b Haddr Hb). rewrite (mp_VPN _ _ _ _ space_entry_maps). change (2 * 4) with 8.
  rewrite mv_mb. change 256 with (2 ^ 8). by rewrite <- Z.shiftl_mul_pow2, Z.shiftr_shiftl_l, Z.shiftl_0_r by lia.
Qed.

Context `{HL : TlbSearchLaws}.

Lemma space_entry_tlboc t i : sole t (b * 256) 4 i -> t !! i = Some E -> tlboc_insn t E = Z.of_nat i.
Proof using Haddr Hb HL.
  intros Hs He. eapply sole_tlboc; [|exact He|apply space_entry_overlap].
  rewrite (mp_size _ _ _ _ space_entry_maps).
  eapply sole_mono; [exact Hs|cbn; lia|apply space_entry_page].
Qed.

Lemma space_entry_tlboc_none t i e :
  sole t (b * 256) 4 i -> t !! i = Some e -> (forall vpn k, reaches e vpn k = false) ->
  tlboc_insn t E = TLB_NOT_FOUND.
Proof using Haddr Hb HL.
  intros Hs He Hr. apply quiet_tlboc. eapply (sole_quiet _ _ _ i e); [|exact He|apply Hr].
  rewrite (mp_size _ _ _ _ space_entry_maps).
  eapply sole_mono; [exact Hs|cbn; lia|apply space_entry_page].
Qed.
End entry.
