(* ===== verification/MmuAsids.v ===== *)
(** [mmu_asids.c]: an entry of address space 1 translates in that space only,
    and is gone once the space is invalidated; in another space the runtime
    refills the TLB and the address means the physical word there. *)

From S2P Require Import Prelude HexTest RegFields TlbHw Tlb Mmu MmuMem MmuLayout MmuSpaces.

Section asids.
Context `{TlbSearch} `{MmuHw}.
(** The addresses of [data], the program's vector table, the runtime's and the
    code of the test. *)
Variables data_addr my_addr rt_addr pc : Z.

Abbreviation load := (load my_addr rt_addr pc DEFAULT_EVENT_HANDLES).
Abbreviation store := (store my_addr rt_addr pc DEFAULT_EVENT_HANDLES).

Definition test_asids : prog msys () :=
  let addr := data_addr in
  let page := page_start addr TARGET_PAGE_BITS in
  let offset := FIVE_MB in
  let new_addr := u32 (addr + offset) in
  let new_page := u32 (page + offset) in
  let entry := create_mmu_entry 0 0 0 1 new_page 1 1 1 0 7 page PAGE_4K in
  on_cpu (tlbw entry 1);;
  r ← on_cpu (tlboc entry); check (__check32 35 r 1);;
  on_cpu (tlbinvasid (u32 (Z.shiftr entry 32)));;
  r ← on_cpu (tlboc entry); check (__check32 37 r TLB_NOT_FOUND);;
  store addr 0xdeadbeef;;
  on_cpu (tlbw entry 1);;
  on_cpu (set_asid 1);;
  v ← load new_addr; check (__check32 47 v 0xdeadbeef);;
  store new_addr 0xcafebabe;;
  v ← load addr; check (__check32 49 v 0xcafebabe);;
  on_cpu (set_asid 2);;
  store addr 0xdeadbeef;;
  v ← load new_addr; check (__check32_ne 59 v 0xdeadbeef);;
  on_cpu (tlbinvasid (u32 (Z.shiftr entry 32)));;
  on_cpu (set_asid 1);;
  store addr 0xcafebabe;;
  v ← load new_addr; check (__check32_ne 68 v 0xcafebabe).

Definition mmu_asids_main : prog msys Z :=
  test_asids;; gets (fun s => err (tst (cpu s))).

End asids.

(* ------------------------------------------------------------------ *)
(** ** The refill *)

(** The probe of the refill code. *)
Lemma refill_probe mb e :
  in_u 12 mb -> entry_matches (refill_hi mb) e = entry_matches (probe_of 0 (mb * ONE_MB)) e.
Proof.
  intros Hmb. assert (in_u 32 (mb * ONE_MB)) as Hr by (rewrite ONE_MB_value; destruct Hmb; split; lia).
  unfold entry_matches. rewrite probe_of_asid, probe_of_vpn by (done || (split; done)).
  assert (probe_asid (refill_hi mb) = 0 /\ probe_vpn (refill_hi mb) = Z.shiftr (mb * ONE_MB) 12) as [-> ->]; [|done].
  unfold probe_asid, probe_vpn, refill_hi. rewrite !extract_lor. split.
  - rewrite (extract_shiftl_below mb 8 12) by (done || lia). vm_compute. reflexivity.
  - replace (extract 0xc0000000 0 20) with 0 by (vm_compute; reflexivity).
    rewrite Z.lor_0_l, extract_small.
    + rewrite ONE_MB_value, <- Z.shiftl_mul_pow2, Z.shiftr_shiftl_l by lia. done.
    + by apply (in_u_shiftl 12 8).
    + lia.
Qed.

(* ------------------------------------------------------------------ *)
(** ** The test passes *)

Section proof.
Context `{HL : TlbSearchLaws} `{HM : MmuHwLaws} (data_addr my_addr rt_addr pc : Z) (s : msys).
Context (Hdata : own data_addr) (Hdata4 : data_addr mod 4 = 0).
Context (Hapart : tables_apart my_addr rt_addr) (Hevb : evb (cpu s) = rt_addr).

Let H05 : 0 <= 5 <= 5.
Proof. lia. Qed.

Abbreviation page := (page_start data_addr 12).
Abbreviation na := (data_addr + 5 * ONE_MB).
Abbreviation E := (space_entry data_addr 5).
Abbreviation load' := (load my_addr rt_addr pc DEFAULT_EVENT_HANDLES).
Abbreviation store' := (store my_addr rt_addr pc DEFAULT_EVENT_HANDLES).

(** A state of the test: its TLB, memory and address space. *)
Record state (s' : msys) (t : list Z) (m : Z -> Z) (a : Z) : Prop := {
  at_tlb : tlb (cpu s') = t;
  at_mem : mem s' = m;
  at_asid : cur_asid (cpu s') = a;
  at_user : user_mode (cpu s') = false;
  at_ex : GET_FIELD (ssr (cpu s')) SSR_EX = 0;
  at_evb : evb (cpu s') = rt_addr;
  at_upte : upte (cpu s') = upte (cpu s);
  at_tst : tst (cpu s') = tst (cpu s);
  at_sized : sized (cpu s');
  at_home : home t
}.

Lemma state_mem s' t m m' a : state s' t m a -> state (set_mem m' s') t m' a.
Proof. intros []. by split. Qed.

Lemma state_searchable s' t m a : state s' t m a -> searchable s'.
Proof. intros H1. apply (at_sized _ _ _ _ H1). Qed.

Lemma own_ops s' t m a :
  state s' t m a ->
  load' data_addr s' = Done (m data_addr) s' /\
  forall v, store' data_addr v s' = Done tt (set_mem (upd data_addr v m) s').
Proof.
  intros Hs. pose proof (state_searchable _ _ _ _ Hs). destruct Hs as [<- <- _ _ _ _ _ _ _ Hh].
  split; intros; [by apply load_own|by apply store_own].
Qed.

Lemma na_page : in_page (5 * 256) 4 na.
Proof.
  destruct (own_moved data_addr 5 Hdata ltac:(lia)). unfold in_page. change (2 * 4) with 8.
  by rewrite mv_in, mv_mb.
Qed.

(** Writing the entry at index 1. *)
Lemma write_E s' t m a :
  state s' t m a ->
  exists s'', on_cpu (tlbw E 1) s' = Done tt s'' /\ state s'' (<[1%nat := E]> t) m a /\
    refill_index s'' = refill_index s' /\ (1 < length t)%nat.
Proof.
  intros []. assert (6 <= Z.of_nat (length t)) as Hlen by (destruct at_sized0 as [_ _ ?]; rewrite at_tlb0 in *; lia).
  exists (set_cpu (set_tlb (<[1%nat := E]> t) (cpu s')) s'). split_and!; [| |done|lia].
  - unfold on_cpu. rewrite tlbw_eq by (rewrite at_tlb0; lia). by rewrite at_tlb0.
  - split; try done.
    + rewrite <- at_tlb0. apply sized_insert; [done|apply (space_entry_range data_addr 5)].
    + apply home_insert; [done|lia|]. by apply (space_entry_in_mb data_addr 5 Hdata H05 0).
Qed.

(** Invalidating address space 1. *)
Lemma drop_E s' t m a :
  state s' t m a ->
  exists s'', on_cpu (tlbinvasid (u32 (Z.shiftr E 32))) s' = Done tt s'' /\ state s'' (drop_asid 1 <$> t) m a /\
    refill_index s'' = refill_index s'.
Proof.
  intros [].
  exists (set_cpu (set_tlb (drop_asid 1 <$> t) (cpu s')) s'). split_and!; [| |done].
  - unfold on_cpu, tlbinvasid, modify. by rewrite tlbinvasid_each, (space_entry_hi data_addr 5), at_tlb0.
  - split; try done.
    + rewrite <- at_tlb0. by apply sized_fmap.
    + by apply home_fmap.
Qed.

(** Entering an address space. *)
Lemma enter_asid s' t m a a' :
  state s' t m a -> in_u 7 a' ->
  exists s'', on_cpu (set_asid a') s' = Done tt s'' /\ state s'' t m a' /\ refill_index s'' = refill_index s'.
Proof.
  intros [] Ha.
  exists (set_cpu (set_ssr (SET_FIELD 32 (ssr (cpu s')) SSR_ASID a') (cpu s')) s'). split_and!; [done| |done].
  split; try done.
  - unfold cur_asid. cbn [cpu set_cpu]. sys_simpl. rewrite get_set_same_at by done. by apply uwrap_id.
  - rewrite <- at_user0. unfold user_mode. cbn [cpu set_cpu]. sys_simpl. by rewrite !get_set_other_at by done.
  - rewrite <- at_ex0. cbn [cpu set_cpu]. sys_simpl. by rewrite get_set_other_at by done.
  - by destruct at_sized0; split.
Qed.

Lemma overlap_at s' t m a :
  state s' t m a -> sole t (5 * 256) 4 1 ->
  (t !! 1%nat = Some E -> on_cpu (tlboc E) s' = Done 1 s') /\
  (t !! 1%nat = Some (invalid E) -> on_cpu (tlboc E) s' = Done TLB_NOT_FOUND s').
Proof.
  intros Hs Hs1.
  assert (forall r, tlboc_insn t E = r -> on_cpu (tlboc E) s' = Done r s') as Hrun.
  { intros r <-. unfold on_cpu, tlboc, gets. rewrite (at_tlb _ _ _ _ Hs). by destruct s'. }
  split; intros He; apply Hrun.
  - by apply (space_entry_tlboc data_addr 5 Hdata H05 t 1).
  - eapply (space_entry_tlboc_none data_addr 5 Hdata H05); [exact Hs1|exact He|apply reaches_invalid].
Qed.

(** ** Through the entry, and past it *)

Lemma na_mod4 : na mod 4 = 0.
Proof. by rewrite (mv_mod _ _ (own_moved data_addr 5 Hdata ltac:(lia))). Qed.

(** Only the entry and the refilled entry [r] reach the page. *)
Definition reached_by (t : list Z) (r : nat) : Prop :=
  forall j e, t !! j = Some e -> reaches e (5 * 256) 4 = true -> j = 1%nat \/ j = r.

(** In an address space where only entry [i] serves the address. *)
Lemma na_translates s' t m a r i e :
  state s' t m a -> reached_by t r -> t !! i = Some e ->
  entry_matches (probe_of a na) e = true ->
  (forall j e', j = 1%nat \/ j = r -> j <> i -> t !! j = Some e' -> entry_matches (probe_of a na) e' = false) ->
  translates s' na i e.
Proof.
  intros Hs Hr He Hm Hother. destruct (own_moved data_addr 5 Hdata ltac:(lia)).
  split; [by eapply state_searchable|]. rewrite (at_tlb _ _ _ _ Hs), (at_asid _ _ _ _ Hs).
  split_and!; [done|done|]. intros j (e' & He' & Hm'). destruct (decide (j = i)) as [|Hne]; [done|].
  assert (reaches e' (5 * 256) 4 = true) as Hre.
  { eapply (match_reaches a na); [|done|lia|apply na_page|done].
    rewrite <- (at_asid _ _ _ _ Hs). apply cur_asid_range. }
  rewrite (Hother j e') in Hm'; [done|by eapply Hr|done|done].
Qed.

(** Address space 1 sees the data. *)
Lemma through_E s' t m k :
  state s' t m 1 -> sole t (5 * 256) 4 1 -> t !! 1%nat = Some E ->
  access my_addr rt_addr pc DEFAULT_EVENT_HANDLES k na s' = Done data_addr s'.
Proof.
  intros Hs Hs1 He. destruct (own_moved data_addr 5 Hdata ltac:(lia)).
  assert (translates s' na 1 E) as Ht.
  { apply (na_translates s' t m 1 1%nat); try done; [intros j e ? ?; left; by eapply Hs1|by apply space_entry_matches|].
    intros j e' [->| ->]; done. }
  rewrite (access_page _ _ _ _ _ _ _ _ _ Ht) by (rewrite (at_user _ _ _ _ Hs); apply space_entry_permitted).
  do 2 f_equal. rewrite (maps_phys _ _ _ _ _ (space_entry_maps data_addr 5 Hdata H05)); [exact mv_off|done|done|apply mv_addr].
Qed.

(** The entry the runtime refills for the page. *)
Context (pte : Z) (Hpte : upte (cpu s) !! 5%nat = Some pte) (Hframe : pte_frame pte = 5 * ONE_MB).
Abbreviation RE := (refill_entry 5 pte).

Lemma RE_maps : maps RE (5 * 256) SHIFT_1M (5 * ONE_MB).
Proof. rewrite <- Hframe. apply maps_refill. split; done. Qed.

Lemma RE_one f : f ∈ [PTE_G; PTE_X; PTE_W; PTE_R; PTE_U] -> GET_FIELD RE f = 1.
Proof.
  intros Hf. assert (in_u 12 5) as H5 by (split; done).
  repeat (apply elem_of_cons in Hf as [->|Hf]; [by rewrite refill_one_bit|]). by apply not_elem_of_nil in Hf.
Qed.

Lemma RE_matches a : in_u 7 a -> entry_matches (probe_of a na) RE = true.
Proof.
  intros Ha. destruct (own_moved data_addr 5 Hdata ltac:(lia)).
  rewrite (maps_match _ _ _ _ _ _ RE_maps) by done. unfold serves.
  rewrite (RE_one PTE_G) by left. apply Z.eqb_eq. symmetry. apply na_page.
Qed.

Lemma RE_access n s' t m a r k :
  state s' t m a -> reached_by t r -> r <> 1%nat -> t !! r = Some RE ->
  (forall e, t !! 1%nat = Some e -> entry_matches (probe_of a na) e = false) ->
  iter (Datatypes.S n) (fun _ : () => access_try my_addr rt_addr pc DEFAULT_EVENT_HANDLES k na) tt s' = Done na s'.
Proof.
  intros Hs Hr Hne He H1. destruct (own_moved data_addr 5 Hdata ltac:(lia)).
  assert (in_u 7 a) as Ha by (rewrite <- (at_asid _ _ _ _ Hs); apply cur_asid_range).
  assert (translates s' na r RE) as Ht.
  { apply (na_translates s' t m a r); try done; [by apply RE_matches|].
    intros j e' [->| ->] Hj; [by apply H1|done]. }
  rewrite (access_ok _ _ _ _ _ _ _ _ _ _ Ht).
  - do 2 f_equal. rewrite (maps_phys _ _ _ _ _ RE_maps); [|split; done|vm_compute; reflexivity|apply mv_addr].
    change (2 ^ page_bits SHIFT_1M) with ONE_MB. rewrite Z.mod_add by (vm_compute; congruence).
    rewrite Z.mod_small by done. lia.
  - unfold permitted. rewrite (at_user _ _ _ _ Hs), (RE_one PTE_R), (RE_one PTE_W), (RE_one PTE_X) by set_solver.
    by destruct k.
Qed.

Lemma sole_reached t r : sole t (5 * 256) 4 1 -> reached_by (<[r := RE]> t) r.
Proof.
  intros Hs j e He Hre. destruct (decide (j = r)) as [|Hne]; [by right|left].
  rewrite list_lookup_insert_ne in He by done. by eapply Hs.
Qed.

(** In address space 2 the access misses, and the runtime's refill serves it. *)
Lemma refill_na s' t m :
  state s' t m 2 -> sole t (5 * 256) 4 1 -> t !! 1%nat = Some E ->
  5 < refill_index s' < Z.of_nat (length t) ->
  exists s'' r, access my_addr rt_addr pc DEFAULT_EVENT_HANDLES Read na s' = Done na s'' /\
    state s'' (<[r := RE]> t) m 2 /\ (5 < r < length t)%nat.
Proof.
  intros Hs Hs1 He Hri. pose proof (at_tlb _ _ _ _ Hs) as Ht.
  destruct (own_moved data_addr 5 Hdata ltac:(lia)). unfold tlb_entry_num in mv_num.
  assert (forall j e, t !! j = Some e -> reaches e (5 * 256) 4 = true -> e = E) as HE.
  { intros j e Hj Hre. pose proof (Hs1 j e Hj Hre) as ->. congruence. }
  destruct (access_refilled my_addr rt_addr pc DEFAULT_EVENT_HANDLES 5 Read na s' pte)
    as (s'' & Hi & Hf & Hm & _ & Ht' & _); try done.
  - left. by rewrite (at_evb _ _ _ _ Hs).
  - apply Hs.
  - by rewrite mv_num, (at_upte _ _ _ _ Hs).
  - apply mv_addr.
  - rewrite Ht, (at_asid _ _ _ _ Hs). apply tlbp_none. intros j (e & Hj & Hmt).
    assert (e = E) as ->; [|by rewrite (space_entry_matches data_addr 5 Hdata H05) in Hmt].
    eapply HE; [exact Hj|]. eapply (match_reaches 2 na); (done || lia || apply na_page).
  - rewrite Ht, mv_num. apply tlbp_none. intros j (e & Hj & Hmt).
    rewrite refill_probe in Hmt by (split; done).
    assert (in_u 32 (5 * ONE_MB)) as H5 by (vm_compute; split; congruence).
    assert (e = E) as ->.
    { eapply HE; [exact Hj|]. eapply (match_reaches 0 (5 * ONE_MB)); try done. }
    rewrite (maps_match _ _ _ _ _ _ (space_entry_maps data_addr 5 Hdata H05)), (space_entry_serves data_addr 5) in Hmt by done. done.
  - rewrite Ht. lia.
  - rewrite Ht, mv_num in Ht'. set (r := Z.to_nat (refill_index s')) in *.
    assert (state s'' (<[r := RE]> t) m 2) as Hs'.
    { destruct Hs. split; try done.
      - by rewrite Hm.
      - by rewrite (frame_asid _ _ Hf).
      - by rewrite (frame_user _ _ Hf).
      - by rewrite (fr_ssr _ _ Hf).
      - by rewrite (fr_evb _ _ Hf).
      - by rewrite (fr_upte _ _ Hf).
      - by rewrite (fr_tst _ _ Hf).
      - destruct at_sized0 as [Hwf Hfix Hu]. split; rewrite ?(fr_fixed _ _ Hf); [|done|].
        + rewrite Ht', <- Ht. apply insert_wf; [done|]. by apply refill_entry_range.
        + by rewrite Ht', length_insert, <- Ht.
      - apply home_insert; [done|lia|]. by rewrite (maps_reaches _ _ _ _ _ _ RE_maps). }
    exists s'', r. split_and!; [|done|lia|lia].
    unfold access, replays. rewrite Hi.
    apply (RE_access 4 s'' (<[r := RE]> t) m 2 r); [done|by apply sole_reached|lia| |].
    + apply list_lookup_insert_eq. lia.
    + intros e. rewrite list_lookup_insert_ne by lia. rewrite He. intros [= <-]. by rewrite (space_entry_matches data_addr 5 Hdata H05).
Qed.

Lemma load_na s' s'' pa :
  access my_addr rt_addr pc DEFAULT_EVENT_HANDLES Read na s' = Done pa s'' ->
  load' na s' = Done (mem s'' pa) s''.
Proof. apply load_of, na_mod4. Qed.

(** The first half: the entry is found, invalidated, written again, and in
    address space 1 it reaches the data. *)
Lemma entry_rewritten t m a :
  state s t m a -> quiet t (5 * 256) 4 ->
  exists s1 s2 s3 s4 t', 
    on_cpu (tlbw E 1) s = Done tt s1 /\ on_cpu (tlboc E) s1 = Done 1 s1 /\
    on_cpu (tlbinvasid (u32 (Z.shiftr E 32))) s1 = Done tt s2 /\
    on_cpu (tlboc E) s2 = Done TLB_NOT_FOUND s2 /\
    store' data_addr 0xdeadbeef s2 = Done tt s3 /\
    on_cpu (tlbw E 1) s3 = Done tt s4 /\
    state s4 t' (upd data_addr 0xdeadbeef m) a /\ sole t' (5 * 256) 4 1 /\ t' !! 1%nat = Some E /\
    length t' = length t /\ refill_index s4 = refill_index s.
Proof.
  intros Hs Hq. destruct (write_E s t m a Hs) as (s1 & Hw1 & Hs1 & Hi1 & Hl1).
  assert (sole (<[1%nat := E]> t) (5 * 256) 4 1) as Hso1 by (apply sole_insert; [by apply quiet_sole|by left]).
  destruct (drop_E s1 _ m a Hs1) as (s2 & Hd2 & Hs2 & Hi2).
  assert (drop_asid 1 E = invalid E) as HdE by (unfold drop_asid; by rewrite (space_entry_G data_addr 5), (space_entry_ASID data_addr 5)).
  assert ((drop_asid 1 <$> <[1%nat := E]> t) !! 1%nat = Some (invalid E)) as He2
    by (by rewrite list_lookup_fmap, list_lookup_insert_eq, <- HdE by done).
  destruct (own_ops s2 _ m a Hs2) as [_ Hst].
  pose proof (state_mem _ _ _ (upd data_addr 0xdeadbeef m) _ Hs2) as Hs3.
  destruct (write_E _ _ _ _ Hs3) as (s4 & Hw4 & Hs4 & Hi4 & Hl4).
  exists s1, s2, (set_mem (upd data_addr 0xdeadbeef m) s2), s4, (<[1%nat := E]> (drop_asid 1 <$> <[1%nat := E]> t)).
  split_and!; [done| |done| |apply Hst|exact Hw4|exact Hs4| | | |].
  - apply (overlap_at _ _ _ _ Hs1 Hso1). by apply list_lookup_insert_eq.
  - apply (overlap_at _ _ _ _ Hs2); [by apply sole_fmap|done].
  - apply sole_insert; [by apply sole_fmap|by left].
  - by apply list_lookup_insert_eq.
  - by rewrite length_insert, length_fmap, length_insert.
  - rewrite Hi4. by rewrite <- Hi1, <- Hi2.
Qed.

(** The second half: through address space 1, past it in address space 2, and
    past it again once the space is invalidated. *)
Lemma spaces_seen s4 t m a :
  state s4 t m a -> sole t (5 * 256) 4 1 -> t !! 1%nat = Some E ->
  5 < refill_index s4 < Z.of_nat (length t) -> m data_addr = 0xdeadbeef ->
  exists s1 s2 s3 s4' s5 s6 s7,
    on_cpu (set_asid 1) s4 = Done tt s1 /\ load' na s1 = Done 0xdeadbeef s1 /\
    store' na 0xcafebabe s1 = Done tt s2 /\ load' data_addr s2 = Done 0xcafebabe s2 /\
    on_cpu (set_asid 2) s2 = Done tt s3 /\ store' data_addr 0xdeadbeef s3 = Done tt s4' /\
    load' na s4' = Done (m na) s5 /\ on_cpu (tlbinvasid (u32 (Z.shiftr E 32))) s5 = Done tt s6 /\
    exists s8, on_cpu (set_asid 1) s6 = Done tt s7 /\ store' data_addr 0xcafebabe s7 = Done tt s8 /\
    load' na s8 = Done (m na) s8 /\ tst (cpu s8) = tst (cpu s).
Proof.
  intros Hs Hs1 He Hri Hm.
  assert (na <> data_addr) as Hne by (rewrite ONE_MB_value; lia).
  destruct (enter_asid s4 t m a 1 Hs) as (s1 & Hr1 & Ht1 & Hi1); [split; done|].
  pose proof (load_na _ _ _ (through_E s1 t m Read Ht1 Hs1 He)) as Hl1.
  pose proof (store_of _ _ _ _ _ 0xcafebabe _ _ _ na_mod4 (through_E s1 t m Write Ht1 Hs1 He)) as Hst1.
  rewrite (at_mem _ _ _ _ Ht1) in Hl1, Hst1. rewrite Hm in Hl1.
  pose proof (state_mem _ _ _ (upd data_addr 0xcafebabe m) _ Ht1) as Ht2.
  destruct (own_ops _ _ _ _ Ht2) as [Hl2 _]. rewrite upd_same in Hl2.
  destruct (enter_asid _ _ _ _ 2 Ht2) as (s3 & Hr3 & Ht3 & Hi3); [split; done|].
  destruct (own_ops _ _ _ _ Ht3) as [_ Hst3]. specialize (Hst3 0xdeadbeef).
  pose proof (state_mem _ _ _ (upd data_addr 0xdeadbeef (upd data_addr 0xcafebabe m)) _ Ht3) as Ht4.
  destruct (refill_na _ _ _ Ht4 Hs1 He) as (s5 & r & Ha5 & Ht5 & Hr5).
  { change (5 < refill_index s3 < Z.of_nat (length t)). rewrite Hi3. change (5 < refill_index s1 < Z.of_nat (length t)).
    by rewrite Hi1. }
  pose proof (load_na _ _ _ Ha5) as Hl5. rewrite (at_mem _ _ _ _ Ht5), !(upd_other _ _ _ _ Hne) in Hl5.
  destruct (drop_E _ _ _ _ Ht5) as (s6 & Hd6 & Ht6 & _).
  destruct (enter_asid _ _ _ _ 1 Ht6) as (s7 & Hr7 & Ht7 & _); [split; done|].
  destruct (own_ops _ _ _ _ Ht7) as [_ Hst7]. specialize (Hst7 0xcafebabe).
  set (m7 := upd data_addr 0xcafebabe _) in Hst7. pose proof (state_mem _ _ _ m7 _ Ht7) as Ht8.
  assert (drop_asid 1 RE = RE) as HdR by (unfold drop_asid; by rewrite (RE_one PTE_G) by left).
  assert (load' na (set_mem m7 s7) = Done (m na) (set_mem m7 s7)) as Hl8.
  { erewrite load_na.
    2:{ unfold access, replays. eapply (RE_access 5 _ _ m7 1 r); [exact Ht8| |lia| |].
        - intros j e. rewrite list_lookup_fmap. intros (e' & He' & ->)%fmap_Some Hre%drop_asid_reaches.
          by eapply (sole_reached t r).
        - rewrite list_lookup_fmap, list_lookup_insert_eq by lia. cbn. by rewrite HdR.
        - intros e. rewrite list_lookup_fmap, list_lookup_insert_ne, He by lia.
          intros He'. apply (inj Some) in He' as <-. unfold drop_asid. rewrite (space_entry_G data_addr 5), (space_entry_ASID data_addr 5).
          apply invalid_no_match. }
    do 2 f_equal. cbn [mem set_mem]. unfold m7. by rewrite !(upd_other _ _ _ _ Hne). }
  exists s1, (set_mem (upd data_addr 0xcafebabe m) s1), s3, (set_mem (upd data_addr 0xdeadbeef (upd data_addr 0xcafebabe m)) s3), s5, s6, s7.
  split_and!; try done. exists (set_mem m7 s7). split_and!; try done. apply (at_tst _ _ _ _ Ht8).
Qed.

(** C16: the address space test passes: on any machine whose MMU behaves as
    documented, where the runtime's entry maps the program's megabyte and
    nothing reaches the sixth megabyte, the entry of space 1 is found until the
    space is invalidated; in space 1 the address reads and writes the variable;
    in space 2 the access misses, the runtime refills the TLB from the software
    page table, and the load sees the physical word there; invalidating space 1
    makes space 1 see that word too.  When the word differs from the two test
    values, main returns the err it started with. *)
Theorem mmu_asids_passes :
  sized (cpu s) -> home (tlb (cpu s)) -> quiet (tlb (cpu s)) (5 * 256) 4 ->
  user_mode (cpu s) = false -> GET_FIELD (ssr (cpu s)) SSR_EX = 0 ->
  5 < refill_index s < Z.of_nat (length (tlb (cpu s))) ->
  mem s na <> 0xdeadbeef -> mem s na <> 0xcafebabe ->
  spec (mmu_asids_main data_addr my_addr rt_addr pc) s (fun r s' =>
    r = err (tst (cpu s)) /\ tst (cpu s') = tst (cpu s)).
Proof.
  intros Hsz Hh Hq Hu Hx Hri Hm1 Hm2.
  assert (state s (tlb (cpu s)) (mem s) (cur_asid (cpu s))) as Hs by by split.
  assert (na <> data_addr) as Hne by (rewrite ONE_MB_value; lia).
  destruct (entry_rewritten _ _ _ Hs Hq)
    as (s1 & s2 & s3 & s4 & t' & H1 & H2 & H3 & H4 & H5 & H6 & Hs4 & Hs1 & He & Hl & Hi).
  destruct (spaces_seen s4 t' _ _ Hs4 Hs1 He) as
    (s5 & s6 & s7 & s8 & s9 & s10 & s11 & H7 & H8 & H9 & H10 & H11 & H12 & H13 & H14 & s12 & H15 & H16 & H17 & Ht);
    [rewrite Hl, Hi; done|apply upd_same|].
  rewrite (upd_other _ _ _ _ Hne) in H13, H17.
  destruct (own_moved data_addr 5 Hdata ltac:(lia)).
  assert (test_asids data_addr my_addr rt_addr pc s = Done tt s12) as Hrun.
  { unfold test_asids. cbv zeta. change TARGET_PAGE_BITS with 12. change FIVE_MB with (5 * ONE_MB).
    rewrite mv_page_sum, mv_addr_sum.
    next_step H1. next_step H2. next_step (check_same 35 1 _). next_step H3. next_step H4.
    next_step (check_same 37 TLB_NOT_FOUND _). next_step H5. next_step H6. next_step H7. next_step H8.
    next_step (check_same 47 0xdeadbeef _). next_step H9. next_step H10. next_step (check_same 49 0xcafebabe _).
    next_step H11. next_step H12. next_step H13. next_step (check_differs 59 _ _ _ Hm1).
    next_step H14. next_step H15. next_step H16. next_step H17. by apply check_differs. }
  unfold wp, mmu_asids_main. rewrite (bind_done _ _ _ _ _ Hrun). unfold gets. by rewrite Ht.
Qed.
End proof.

Section demo.
Import ArrayTlb SimMmu.

(** The software page table of the runtime: every megabyte mapped to itself. *)
Definition UPTE : list Z := (fun mb => pte_value (mb * ONE_MB) 7) <$> seqZ 0 4096.

Definition asid_msys : msys :=
  MSys (set_upte UPTE boot_sys) (fun _ => 0) 5 7.

Lemma mmu_asids_passes_witness :
  5 < refill_index asid_msys < Z.of_nat (length (tlb (cpu asid_msys))) /\
  spec (mmu_asids_main 0x4000 0x8000 0x1000 0x3000) asid_msys (fun r _ => r = 0).
Proof.
  assert (5 < refill_index asid_msys < Z.of_nat (length (tlb (cpu asid_msys)))) as Hi by (vm_compute; split; congruence).
  split; [exact Hi|].
  eapply wp_mono; [apply (mmu_asids_passes 0x4000 0x8000 0x1000 0x3000 asid_msys) with (pte := pte_value (5 * ONE_MB) 7);
    [split; vm_compute; congruence|reflexivity|unfold tables_apart; lia|reflexivity
    |vm_compute; reflexivity|vm_compute; reflexivity|destruct boot_sized; split; assumption|exact boot_home
    |apply boot_quiet; [lia|vm_compute; congruence]|vm_compute; reflexivity|vm_compute; reflexivity
    |exact Hi|vm_compute; congruence|vm_compute; congruence]|].
  intros r s' [Hr _]. exact Hr.
Defined.
End demo.
