(* ===== verification/MmuMultiTlb.v ===== *)
(** [mmu_multi_tlb.c]: two entries for the same page.  The overlap check reports
    the conflict, a probe returns the lower entry and raises an imprecise
    exception, which the test's handler records. *)

From S2P Require Import Prelude HexTest RegFields TlbHw Tlb Mmu MmuMem MmuLayout MmuSpaces.

(** A probe that several entries match returns the lowest of their indices. *)
Class TlbFirst `{TlbSearch} : Prop := {
  tlbp_first t x i :
    Z.of_nat (length t) < TLB_NOT_FOUND -> matches_at t x i -> (forall j, matches_at t x j -> (i <= j)%nat) ->
    tlbp_insn t x = Z.of_nat i
}.

(** Whether more than one entry matches a probe. *)
Definition multi_match (t : list Z) (x : Z) : bool :=
  (1 <? length (filter (fun e => entry_matches x e = true) t))%nat.

Section multi.
Context `{TlbSearch} `{MmuHw}.
(** The addresses of [data], the program's vector table, the runtime's and the
    code of the test. *)
Variables data_addr my_addr rt_addr pc : Z.

Definition multi_tlb_handles (h : handle) : binding :=
  match h with
  | H_nmi => MY_EVENT_HANDLE my_event_handle_nmi_helper
  | h => DEFAULT_EVENT_HANDLE (HANDLE_OFFSET h)
  end.

(** [tlbp] on a TLB where several entries may match: the imprecise exception is
    taken before the result is used, and leaves BADVA as it was. *)
Definition tlbp_multi (asid VA : Z) : prog msys Z :=
  index ← on_cpu (tlbp asid VA);
  c ← gets cpu;
  (if multi_match (tlb c) (probe_of (Z.land asid 0x7f) VA) then
     raise my_addr rt_addr multi_tlb_handles EvNmi HEX_CAUSE_IMPRECISE_MULTI_TLB_MATCH (badva c) pc
   else mret tt);;
  mret index.

Definition test_multi_tlb : prog msys () :=
  let addr := data_addr in
  let page := page_start addr TARGET_PAGE_BITS in
  let offset := ONE_MB in
  let new_addr := u32 (addr + offset) in
  let new_page := u32 (page + offset) in
  let entry := create_mmu_entry 0 0 0 1 new_page 1 1 1 0 7 page PAGE_4K in
  on_cpu (install_my_event_vectors my_addr);;
  set_exceptions clear_exception_vector;;
  let expected_exceptions := clear_exception_vector in
  let expected_exceptions :=
    set_exception_vector_bit expected_exceptions HEX_CAUSE_IMPRECISE_MULTI_TLB_MATCH in
  on_cpu (set_asid 1);;
  on_cpu (tlbinvasid 1);;
  on_cpu (tlbw entry 1);;
  r ← on_cpu (tlboc entry); check (__check32 54 r 1);;
  r ← tlbp_multi 1 new_addr; check (__check32 55 r 1);;
  on_cpu (tlbw entry 2);;
  r ← on_cpu (tlboc entry); check (__check32 57 r 0xffffffff);;
  r ← tlbp_multi 1 new_addr; check (__check32 58 r 1);;
  x ← on_cpu (gets my_exceptions);
  check (check_exception_vector 59 x expected_exceptions);;
  on_cpu (remove_trans 1);;
  on_cpu (remove_trans 2).

Definition mmu_multi_tlb_main : prog msys Z :=
  test_multi_tlb;; gets (fun s => err (tst (cpu s))).

End multi.

(* ------------------------------------------------------------------ *)
(** ** How many entries match *)

Lemma filter_one {A} (P : A -> Prop) `{forall x, Decision (P x)} (l : list A) i :
  (forall j x, l !! j = Some x -> P x -> j = i) -> (length (filter P l) <= 1)%nat.
Proof.
  revert i. induction l as [|x l IH]; intros i Hu; [cbn; lia|].
  rewrite filter_cons. destruct (decide (P x)) as [Hx|].
  - assert (filter P l = []) as ->; [|cbn; lia].
    destruct (filter P l) as [|y l'] eqn:Hf; [done|exfalso].
    assert (y ∈ filter P l) as [Hy [j Hj]%list_elem_of_lookup]%list_elem_of_filter by (rewrite Hf; left).
    pose proof (Hu 0%nat x eq_refl Hx). pose proof (Hu (Datatypes.S j) y Hj Hy). lia.
  - apply (IH (Nat.pred i)). intros j y Hj Hy. rewrite <- (Hu (Datatypes.S j) y Hj Hy). done.
Qed.

Lemma filter_two {A} (P : A -> Prop) `{forall x, Decision (P x)} (l : list A) i j x y :
  l !! i = Some x -> l !! j = Some y -> P x -> P y -> (i < j)%nat -> (1 < length (filter P l))%nat.
Proof.
  intros Hi Hj Hx Hy Hij.
  rewrite <- (take_drop j l), filter_app, length_app.
  assert (x ∈ filter P (take j l)) as H1.
  { apply list_elem_of_filter. split; [done|]. apply list_elem_of_lookup. exists i. by rewrite lookup_take_lt. }
  assert (y ∈ filter P (drop j l)) as H2.
  { apply list_elem_of_filter. split; [done|]. apply list_elem_of_lookup. exists 0%nat.
    by rewrite lookup_drop, Nat.add_0_r. }
  destruct (filter P (take j l)); [by apply not_elem_of_nil in H1|].
  destruct (filter P (drop j l)); [by apply not_elem_of_nil in H2|]. cbn. lia.
Qed.

Lemma multi_match_sole t x i : (forall j, matches_at t x j -> j = i) -> multi_match t x = false.
Proof.
  intros Hu. apply Nat.ltb_ge, (filter_one _ _ i). intros j e He Hm. apply Hu. by exists e.
Qed.

Lemma multi_match_two t x i j :
  matches_at t x i -> matches_at t x j -> (i < j)%nat -> multi_match t x = true.
Proof.
  intros (e & He & Hm) (e' & He' & Hm') Hij. apply Nat.ltb_lt. by apply (filter_two _ t i j e e').
Qed.

(* ------------------------------------------------------------------ *)
(** ** The test passes *)

Section proof.
Context `{HL : TlbSearchLaws} `{HF : !TlbFirst} (data_addr my_addr rt_addr pc : Z) (s : msys).
Context (Hdata : own data_addr).

Let H05 : 0 <= 1 <= 5.
Proof. lia. Qed.

Abbreviation E := (space_entry data_addr 1).
Abbreviation na := (data_addr + 1 * ONE_MB).
Abbreviation x := (probe_of 1 na).
Abbreviation tlbp' := (tlbp_multi my_addr rt_addr pc 1 na).

(** The states of the test: the vectors are installed. *)
Record state (s' : msys) (t : list Z) (X : Z * Z) : Prop := {
  at_tlb : tlb (cpu s') = t;
  at_exc : my_exceptions (cpu s') = X;
  at_evb : evb (cpu s') = my_addr;
  at_tst : tst (cpu s') = tst (cpu s)
}.

Lemma na_in : in_u 32 na /\ in_page (1 * 256) 4 na.
Proof.
  destruct (own_moved data_addr 1 Hdata H05). split; [done|]. unfold in_page. change (2 * 4) with 8.
  by rewrite mv_in, mv_mb.
Qed.

Lemma E_match : entry_matches x E = true.
Proof. by rewrite (space_entry_matches data_addr 1 Hdata H05). Qed.

(** A probe that entry 1 alone matches. *)
Lemma probe_single s' t X :
  state s' t X -> tlb_wf t -> sole t (1 * 256) 4 1 -> t !! 1%nat = Some E -> tlbp' s' = Done 1 s'.
Proof.
  intros Hs [_ Hl] Hs1 He. destruct na_in as [Hna Hin].
  destruct (sole_hit t (1 * 256) 4 1 1 na E) as (_ & Hm & Hu); try done; [apply E_match|].
  unfold tlbp_multi. next_step (on_cpu_done _ _ _ s' (tlbp_eq 1 na _ Hna)).
  unfold gets, mbind, prog_bind. cbn [cpu set_cpu]. rewrite (at_tlb _ _ _ Hs).
  change (Z.land 1 0x7f) with 1. rewrite (multi_match_sole _ _ _ Hu).
  rewrite (tlbp_one t x 1 Hl) by (done || by exists E). by destruct s'.
Qed.

(** A probe that both entries match. *)
Lemma probe_double s' t :
  state s' t clear_exception_vector -> tlb_wf t -> t !! 1%nat = Some E -> t !! 2%nat = Some E ->
  (forall j, matches_at t x j -> j = 1%nat \/ j = 2%nat) ->
  exists s'', tlbp' s' = Done 1 s'' /\
    state s'' t (set_exception_vector_bit clear_exception_vector HEX_CAUSE_IMPRECISE_MULTI_TLB_MATCH).
Proof.
  intros Hs [_ Hl] He1 He2 Hu. destruct na_in as [Hna Hin].
  assert (matches_at t x 1) as Hm1 by (exists E; split; [done|apply E_match]).
  assert (matches_at t x 2) as Hm2 by (exists E; split; [done|apply E_match]).
  assert (tlbp_insn t x = 1) as Hi by (apply (tlbp_first t x 1 Hl Hm1); intros j [-> | ->]%Hu; lia).
  set (c := HEX_CAUSE_IMPRECISE_MULTI_TLB_MATCH).
  set (s0 := raised c (badva (cpu s')) pc s').
  assert (GET_FIELD (ssr (cpu s0)) SSR_CAUSE = c) as Hc by by apply raised_cause.
  assert (my_event_handle_nmi_helper (ssr (cpu s0)) (cpu s0) = Done tt (recorded c (cpu s0))) as Hrun.
  { unfold my_event_handle_nmi_helper. rewrite Hc. done. }
  eexists. split.
  - unfold tlbp_multi. next_step (on_cpu_done _ _ _ s' (tlbp_eq 1 na _ Hna)).
    change (Z.land 1 0x7f) with 1. rewrite (at_tlb _ _ _ Hs), Hi.
    assert (set_cpu (cpu s') s' = s') as -> by by destruct s'.
    unfold gets, mbind, prog_bind. rewrite (at_tlb _ _ _ Hs), (multi_match_two t x 1 2) by (done || lia).
    rewrite raise_my by apply (at_evb _ _ _ Hs). cbn [event_handle multi_tlb_handles].
    rewrite (my_handler _ _ _ _ _ _ _ Hrun). reflexivity.
  - destruct Hs as [Ht HX He Htst]. split; [exact Ht| |exact He|exact Htst].
    cbn [cpu set_cpu returned]. sys_simpl. unfold recorded. sys_simpl. by rewrite <- HX.
Qed.

(** The entries of the test, installed and removed. *)
Lemma invalid_both t :
  sole t (1 * 256) 4 1 -> (2 < length t)%nat ->
  quiet (alter invalid 2%nat (alter invalid 1%nat (<[2%nat := E]> (<[1%nat := E]> t)))) (1 * 256) 4.
Proof.
  intros Hs Hlen j e He. destruct (decide (j = 2%nat)) as [->|H2].
  - rewrite list_lookup_alter_eq in He. apply fmap_Some in He as (e' & _ & ->). apply reaches_invalid.
  - rewrite list_lookup_alter_ne in He by done. destruct (decide (j = 1%nat)) as [->|H1].
    + rewrite list_lookup_alter_eq in He. apply fmap_Some in He as (e' & _ & ->). apply reaches_invalid.
    + rewrite list_lookup_alter_ne, !list_lookup_insert_ne in He by done.
      apply not_true_iff_false. intros Hr. by apply H1, (Hs j e).
Qed.

Lemma both_match t :
  sole t (1 * 256) 4 1 -> forall j, matches_at (<[2%nat := E]> t) x j -> j = 1%nat \/ j = 2%nat.
Proof.
  intros Hs j (e & He & Hm). destruct na_in as [Hna Hin].
  destruct (decide (j = 2%nat)) as [|Hne]; [by right|left].
  rewrite list_lookup_insert_ne in He by done. apply (Hs j e He).
  by apply (match_reaches 1 na).
Qed.

(** A step that changes the TLB only. *)
Lemma tlb_step s' t t' X (f : prog sys ()) :
  state s' t X -> (tlb (cpu s') = t -> f (cpu s') = Done tt (set_tlb t' (cpu s'))) ->
  exists s'', on_cpu f s' = Done tt s'' /\ state s'' t' X.
Proof.
  intros Hs Hf. exists (set_cpu (set_tlb t' (cpu s')) s'). split.
  - apply on_cpu_done, Hf, (at_tlb _ _ _ Hs).
  - by destruct Hs; split.
Qed.

Lemma overlap_step s' t X r : state s' t X -> tlboc_insn t E = r -> on_cpu (tlboc E) s' = Done r s'.
Proof. intros Hs <-. unfold on_cpu, tlboc, gets. rewrite (at_tlb _ _ _ Hs). by destruct s'. Qed.

(** The first four steps. *)
Lemma setup_runs :
  exists s', state s' (drop_asid 0 <$> tlb (cpu s)) clear_exception_vector /\
    forall A (k : prog msys A),
      (on_cpu (install_my_event_vectors my_addr);; set_exceptions clear_exception_vector;;
       on_cpu (set_asid 1);; on_cpu (tlbinvasid 1);; k) s = k s'.
Proof.
  set (c1 := set_evb my_addr (set_old_evb (evb (cpu s)) (cpu s))).
  set (c2 := set_my_exceptions clear_exception_vector c1).
  set (c3 := set_ssr (SET_FIELD 32 (ssr c2) SSR_ASID 1) c2).
  exists (set_cpu (set_tlb (drop_asid 0 <$> tlb c3) c3) s). split; [by split|]. intros A k.
  assert (on_cpu (install_my_event_vectors my_addr) s = Done tt (set_cpu c1 s)) as H1 by done.
  assert (set_exceptions clear_exception_vector (set_cpu c1 s) = Done tt (set_cpu c2 s)) as H2 by done.
  assert (on_cpu (set_asid 1) (set_cpu c2 s) = Done tt (set_cpu c3 s)) as H3 by done.
  next_step H1. next_step H2. next_step H3.
  pose proof (on_cpu_done _ _ _ (set_cpu c3 s) (tlbinvasid_eq 1 c3)) as H4. by next_step H4.
Qed.

(** C18: the multiple match test passes: on any machine whose MMU behaves as
    documented, where a probe of several matches returns the lowest and nothing
    maps the second megabyte, the overlap check finds the single entry and then
    reports several, the second probe raises the multiple-match exception, which
    is the only one recorded, and still returns entry 1.  main returns the err
    it started with; the two entries are invalid afterwards, and of the others
    exactly the non-global ones of address space 0 have been invalidated. *)
Theorem mmu_multi_tlb_passes :
  sized (cpu s) -> quiet (tlb (cpu s)) (1 * 256) 4 ->
  spec (mmu_multi_tlb_main data_addr my_addr rt_addr pc) s (fun r s' =>
    r = err (tst (cpu s)) /\ tst (cpu s') = tst (cpu s) /\ quiet (tlb (cpu s')) (1 * 256) 4 /\
    forall j, j <> 1%nat -> j <> 2%nat -> tlb (cpu s') !! j = drop_asid 0 <$> tlb (cpu s) !! j).
Proof.
  intros Hsz Hq. destruct (own_moved data_addr 1 Hdata H05).
  set (t0 := drop_asid 0 <$> tlb (cpu s)).
  assert (quiet t0 (1 * 256) 4) as Hq0.
  { intros j e. unfold t0. rewrite list_lookup_fmap. intros (e' & He' & ->)%fmap_Some.
    apply not_true_iff_false. intros Hr%drop_asid_reaches. by rewrite (Hq j e' He') in Hr. }
  assert (tlb_wf t0 /\ 6 <= Z.of_nat (length t0)) as [Hwf Hlen].
  { pose proof (sized_fmap (cpu s) 0 Hsz) as [Hwf _ Hu]. revert Hwf Hu. sys_simpl. fold t0. intros Hwf Hu. split; [exact Hwf|lia]. }
  set (t1 := <[1%nat := E]> t0). set (t2 := <[2%nat := E]> t1).
  assert (sole t1 (1 * 256) 4 1) as Hs1 by (apply sole_insert; [by apply quiet_sole|by left]).
  assert (length t1 = length t0 /\ length t2 = length t0) as [Hl1 Hl2] by (unfold t2, t1; by rewrite !length_insert).
  assert (t1 !! 1%nat = Some E) as He1 by (apply list_lookup_insert_eq; lia).
  assert (t2 !! 2%nat = Some E) as He2 by (apply list_lookup_insert_eq; lia).
  assert (t2 !! 1%nat = Some E) as He12 by (unfold t2; by rewrite list_lookup_insert_ne).
  assert (tlb_wf t1 /\ tlb_wf t2) as [Hwf1 Hwf2].
  { assert (tlb_wf t1) by (apply insert_wf; [done|apply (space_entry_range data_addr 1)]).
    split; [done|]. apply insert_wf; [done|apply (space_entry_range data_addr 1)]. }
  destruct setup_runs as (s1 & Hs & Hsetup). fold t0 in Hs.
  destruct (tlb_step _ _ t1 _ (tlbw E 1) Hs) as (s2 & Hw1 & Hst1).
  { intros Ht. rewrite tlbw_eq, Ht by (rewrite Ht; lia). done. }
  pose proof (overlap_step _ _ _ 1 Hst1 (space_entry_tlboc data_addr 1 Hdata H05 t1 1 Hs1 He1)) as Ho1.
  pose proof (probe_single _ _ _ Hst1 Hwf1 Hs1 He1) as Hp1.
  destruct (tlb_step _ _ t2 _ (tlbw E 2) Hst1) as (s3 & Hw2 & Hst2).
  { intros Ht. rewrite tlbw_eq, Ht by (rewrite Ht; lia). done. }
  assert (tlboc_insn t2 E = 0xffffffff) as Hmany.
  { apply (tlboc_many t2 E 1%nat 2%nat); [exists E..|done]; split; try done;
      apply (space_entry_overlap data_addr 1 Hdata H05). }
  pose proof (overlap_step _ _ _ _ Hst2 Hmany) as Ho2.
  destruct (probe_double _ _ Hst2 Hwf2 He12 He2 (both_match t1 Hs1)) as (s4 & Hp2 & Hst3).
  destruct (tlb_step _ _ (alter invalid 1%nat t2) _ (remove_trans 1) Hst3) as (s5 & Hr1 & Hst4).
  { intros Ht. rewrite remove_trans_eq, Ht by (rewrite Ht; lia). done. }
  destruct (tlb_step _ _ (alter invalid 2%nat (alter invalid 1%nat t2)) _ (remove_trans 2) Hst4) as (s6 & Hr2 & Hst5).
  { intros Ht. rewrite remove_trans_eq, Ht by (rewrite Ht, length_alter; lia). done. }
  assert (on_cpu (gets my_exceptions) s4 = Done (set_exception_vector_bit clear_exception_vector
    HEX_CAUSE_IMPRECISE_MULTI_TLB_MATCH) s4) as Hx.
  { unfold on_cpu, gets. rewrite (at_exc _ _ _ Hst3). by destruct s4. }
  assert (test_multi_tlb data_addr my_addr rt_addr pc s = Done tt s6) as Hrun.
  { unfold test_multi_tlb. cbv zeta. change TARGET_PAGE_BITS with 12. change ONE_MB with (1 * ONE_MB).
    rewrite mv_page_sum, mv_addr_sum, Hsetup.
    next_step Hw1. next_step Ho1. next_step (check_same 54 1 _). next_step Hp1. next_step (check_same 55 1 _).
    next_step Hw2. next_step Ho2. next_step (check_same 57 0xffffffff _). next_step Hp2.
    next_step (check_same 58 1 _).
    next_step Hx.
    next_step (check_vector_same 59 _ s4). by next_step Hr1. }
  unfold wp, mmu_multi_tlb_main. rewrite (bind_done _ _ _ _ _ Hrun). unfold gets.
  rewrite (at_tst _ _ _ Hst5), (at_tlb _ _ _ Hst5). split_and!; [done|done| |].
  - apply invalid_both; [by apply quiet_sole|lia].
  - intros j H1 H2. rewrite !list_lookup_alter_ne by done. unfold t2, t1.
    rewrite !list_lookup_insert_ne by done. unfold t0. by rewrite list_lookup_fmap.
Qed.
End proof.

Section demo.
Import ArrayTlb.

Lemma hits_least p i t j : j ∈ hits p i t -> exists k l, hits p i t = k :: l /\ (k <= j)%nat.
Proof.
  revert i. induction t as [|e t IH]; intros i; cbn [hits]; [by intros ?%not_elem_of_nil|].
  destruct (p e).
  - intros Hj. exists i, (hits p (Datatypes.S i) t). split; [done|].
    apply elem_of_cons in Hj as [->|Hj]; [done|]. apply elem_of_hits in Hj. lia.
  - apply IH.
Qed.

#[local] Instance array_tlb_first : TlbFirst.
Proof.
  split. intros t x i Hl Hi Hmin. cbn [tlbp_insn array_tlb]. unfold first_hit.
  destruct (hits_least (entry_matches x) 0 t i) as (k & l & Hk & Hki); [by apply hits_spec|].
  rewrite Hk. f_equal. assert (matches_at t x k) as Hm%Hmin by (apply hits_spec; rewrite Hk; left). lia.
Qed.

Lemma mmu_multi_tlb_passes_witness :
  own 0x4000 /\ spec (mmu_multi_tlb_main 0x4000 0x8000 0x1000 0x3000) boot_msys (fun r _ => r = 0).
Proof.
  assert (own 0x4000) as Ho by (split; vm_compute; congruence). split; [exact Ho|].
  eapply wp_mono; [apply (mmu_multi_tlb_passes 0x4000 0x8000 0x1000 0x3000 boot_msys);
    [exact Ho|exact boot_sized|apply boot_quiet; [lia|vm_compute; congruence]]|].
  intros r s' [Hr _]. exact Hr.
Defined.
End demo.
