(* ===== verification/MmuCacheOps.v ===== *)
(** [mmu_cacheops.c]: cache operations go through the MMU.  A data cache
    operation on an unmapped page misses, and faults when the page it then gets
    allows neither reads nor writes; an instruction cache operation only misses. *)

From S2P Require Import Prelude HexTest RegFields TlbHw Tlb Mmu MmuMem MmuLayout.

Section cacheops.
Context `{TlbSearch} `{MmuHw}.
(** The addresses of [data], the program's vector table, the runtime's and the
    code of the test. *)
Variables data_addr my_addr rt_addr pc : Z.

Definition cacheops_handles (h : handle) : binding :=
  match h with
  | H_error => MY_EVENT_HANDLE my_event_handle_error_helper
  | H_tlbmissrw => MY_EVENT_HANDLE my_event_handle_tlbmissrw_helper
  | H_tlbmissx => MY_EVENT_HANDLE my_event_handle_tlbmissx_helper
  | h => DEFAULT_EVENT_HANDLE (HANDLE_OFFSET h)
  end.

(** The instructions dcinva, dccleaninva, dccleana and icinva, as far as the MMU
    is concerned: an access that transfers nothing. *)
Definition cache_op (k : access_kind) (va : Z) : prog msys () :=
  access my_addr rt_addr pc cacheops_handles k va;; mret tt.

(** One of the four parts of the test. *)
Definition check_cache_op (line : Z) (k : access_kind) (va : Z) (causes : list Z) : prog msys () :=
  set_exceptions clear_exception_vector;;
  let expected_exceptions := foldl set_exception_vector_bit clear_exception_vector causes in
  cache_op k va;;
  x ← on_cpu (gets my_exceptions);
  check (check_exception_vector line x expected_exceptions).

Definition test_data_cache_ops : prog msys () :=
  on_cpu (install_my_event_vectors my_addr);;
  on_cpu enter_user_mode;;
  check_cache_op 61 DcOp (u32 (data_addr + ONE_MB)) [HEX_CAUSE_TLBMISSRW_READ; HEX_CAUSE_PRIV_NO_READ];;
  check_cache_op 70 DcOp (u32 (data_addr + TWO_MB)) [HEX_CAUSE_TLBMISSRW_READ];;
  check_cache_op 79 DcOp (u32 (data_addr + THREE_MB)) [HEX_CAUSE_TLBMISSRW_READ];;
  check_cache_op 93 IcOp (u32 (data_addr + FOUR_MB)) [HEX_CAUSE_TLBMISSX_NORMAL].

Definition mmu_cacheops_main : prog msys Z :=
  test_data_cache_ops;; gets (fun s => err (tst (cpu s))).

End cacheops.

(* ------------------------------------------------------------------ *)
(** ** The entry a miss creates *)

Section miss.
Context (addr b r w : Z) (Haddr : own addr) (Hb : 0 <= b <= 5) (Hr : r = 0 \/ r = 1) (Hw : w = 0 \/ w = 1).
Abbreviation va := (addr + b * ONE_MB).

Lemma miss_page : page_of (miss_entry va r w) addr b.
Proof.
  destruct (own_moved addr b Haddr Hb).
  assert (extract va 12 8 * 4096 = page_start addr 12) as Hpa
    by (rewrite miss_pa_exact, mv_start, mv_num by done; lia).
  pose proof (miss_entry_PPD va r w mv_addr) as Hppd. rewrite Hpa in Hppd.
  destruct (ctz_of_PPD _ _ SHIFT_4K (proj1 (miss_entry_range va r w)) mv_aligned Hppd) as [Hctz _].
  pose proof (fun f H1 H2 H3 => miss_field va r w mv_addr f H1 H2 H3) as Hf. rewrite Hpa, mv_start in Hf.
  pose proof (maps_created 1 0 0 0 (page_start addr 12 + b * ONE_MB) 0 0 0 1 3 (page_start addr 12) SHIFT_4K
    mv_page mv_range mv_aligned eq_refl eq_refl) as [H1 H2 _ _ H3 H4 H5].
  change PAGE_4K with (PageSize SHIFT_4K) in Hf.
  split; [split; [rewrite Hf by done; exact H1|rewrite Hf by done; exact H2|exact Hctz|exact Hppd
    |rewrite Hf by done; exact H3|rewrite Hf by done; exact H4|rewrite Hf by done; exact H5]
    |apply miss_entry_range|].
  rewrite Hf by done. by rewrite (create_mmu_entry_arg _ _ _ _ _ _ _ _ _ _ _ _ PTE_G 1) by left.
Qed.

Lemma miss_perms : perms (miss_entry va r w) = Perms (truth r) (truth w) false true.
Proof.
  destruct (own_moved addr b Haddr Hb). unfold perms. rewrite miss_entry_R, miss_entry_W, !miss_field by done.
  change PAGE_4K with (PageSize SHIFT_4K).
  rewrite (create_mmu_entry_arg _ _ _ _ _ _ _ _ _ _ _ _ PTE_X 0) by (do 4 right; left).
  by rewrite (create_mmu_entry_arg _ _ _ _ _ _ _ _ _ _ _ _ PTE_U 1) by (do 7 right; left).
Qed.
End miss.

Lemma tlbmissx_eq s ssr :
  in_u 32 (badva s) -> tlb_entry_num (badva s) < Z.of_nat (length (tlb s)) ->
  my_event_handle_tlbmissx_helper ssr s =
    let c := GET_FIELD ssr SSR_CAUSE in
    if c =? HEX_CAUSE_TLBMISSX_NORMAL then
      Done tt (set_tlb (<[Z.to_nat (tlb_entry_num (badva s)) := miss_entry (badva s) 0 0]> (tlb s)) (recorded c s))
    else Exited 2 (recorded c s).
Proof.
  intros [Hb _] Hn. assert (0 <= tlb_entry_num (badva s)) by (apply Z.shiftr_nonneg; lia).
  unfold my_event_handle_tlbmissx_helper, getbadva, gets, record_exception, modify, mbind, prog_bind.
  cbv zeta. fold (recorded (GET_FIELD ssr SSR_CAUSE) s). unfold miss_entry. cbv zeta. set (c := GET_FIELD ssr SSR_CAUSE).
  assert (tlb_entry_num (badva s) < Z.of_nat (length (tlb (recorded c s)))) by done.
  destruct (c =? HEX_CAUSE_TLBMISSX_NORMAL); [|done]. rewrite tlbw_eq by (split; assumption).
  change (truth 0) with false. cbv iota. reflexivity.
Qed.

(* ------------------------------------------------------------------ *)
(** ** The test passes *)

Section proof.
Context `{HL : TlbSearchLaws} `{HM : MmuHwLaws} (data_addr my_addr rt_addr pc : Z) (s : msys).
Context (Hdata : own data_addr).
Abbreviation handles := cacheops_handles.
Abbreviation access_n n k va := (iter n (fun _ : () => access_try my_addr rt_addr pc handles k va) tt).

(** The state of the test in user mode, with the exceptions recorded so far. *)
Record at_user (s' : msys) (t : list Z) (x : Z * Z) : Prop := {
  au_running : running my_addr s';
  au_user : user_mode (cpu s') = true;
  au_tlb : tlb (cpu s') = t;
  au_mem : mem s' = mem s;
  au_exc : my_exceptions (cpu s') = x;
  au_tst : tst (cpu s') = tst (cpu s)
}.

(** The read and write permissions the handlers give the page of a megabyte. *)
Definition miss_rw (k : access_kind) (b : Z) : Z * Z :=
  match k with DcOp => (Z.b2z (b =? TWO_MB_ENTRY), Z.b2z (b =? THREE_MB_ENTRY)) | _ => (0, 0) end.

Definition miss_page_entry (k : access_kind) (b : Z) : Z :=
  miss_entry (data_addr + b * ONE_MB) (miss_rw k b).1 (miss_rw k b).2.

Lemma miss_page_entry_of k b : 0 <= b <= 5 -> page_of (miss_page_entry k b) data_addr b.
Proof. intros Hb. by apply miss_page. Qed.

Lemma miss_page_entry_perms k b :
  0 <= b <= 5 ->
  perms (miss_page_entry k b) = Perms (truth (miss_rw k b).1) (truth (miss_rw k b).2) false true.
Proof. intros Hb. apply miss_perms; [done|done| |]; destruct k; try (by left); apply b2z_cases. Qed.

(** The miss of an operation on a page nothing maps. *)
Lemma miss_step n k s' t x b :
  k = DcOp \/ k = IcOp -> at_user s' t x -> 1 <= b <= 4 -> b < Z.of_nat (length t) ->
  quiet t (b * 256) 4 ->
  let va := data_addr + b * ONE_MB in
  exists s'', access_n (Datatypes.S n) k va s' = access_n n k va s'' /\
    at_user s'' (<[Z.to_nat b := miss_page_entry k b]> t) (set_exception_vector_bit x (miss_event k).2).
Proof.
  intros Hk [Hr Hu Ht Hm Hx Htst] Hb Hlen Hq va. destruct (own_moved data_addr b Hdata ltac:(lia)). subst va.
  destruct Hr as [Hse Hla Hev Hex].
  destruct (access_missed my_addr rt_addr pc handles n k (data_addr + b * ONE_MB) s' (miss_page_entry k b)
    (if decide (k = DcOp) then my_event_handle_tlbmissrw_helper else my_event_handle_tlbmissx_helper))
    as (s'' & Hi & Hf & Hm' & _ & Ht' & Hx').
  - by destruct Hk as [-> | ->].
  - done.
  - done.
  - apply mv_addr.
  - by rewrite mv_num, Ht.
  - rewrite Ht. eapply (quiet_tlbp t (b * 256) 4); [done|apply cur_asid_range|done|lia|].
    unfold in_page. change (2 * 4) with 8. rewrite mv_in, mv_mb. change 256 with (2 ^ 8).
    by rewrite <- Z.shiftl_mul_pow2, Z.shiftr_shiftl_l, Z.shiftl_0_r by lia.
  - intros c Hc Hcause Htc.
    assert (in_u 32 (badva c) /\ tlb_entry_num (badva c) < Z.of_nat (length (tlb c))) as [H1 H2]
      by (rewrite Hc, mv_num, Htc, Ht; done).
    destruct Hk as [-> | ->]; cbn [decide decide_rel] in *.
    + rewrite decide_True by done. rewrite tlbmissrw_eq by done. cbv zeta. rewrite Hcause, Hc, mv_num.
      unfold miss_page_entry, miss_rw. cbn [miss_event fst snd]. rewrite Z.eqb_refl. cbn [orb]. reflexivity.
    + rewrite decide_False by done. rewrite tlbmissx_eq by done. cbv zeta. rewrite Hcause, Hc, mv_num.
      unfold miss_page_entry, miss_rw. cbn [miss_event fst snd]. rewrite Z.eqb_refl. cbn [orb]. reflexivity.
  - exists s''. split; [done|]. rewrite mv_num, Ht in Ht'. split; try done.
    + apply (running_next my_addr s' s'' b (miss_page_entry k b)); [by split|done|lia| |by rewrite Ht', Ht].
      apply (page_in_mb _ data_addr); [done|lia|by apply miss_page_entry_of; lia].
    + by rewrite (frame_user _ _ Hf).
    + by rewrite Hm'.
    + by rewrite Hx', Hx.
    + by rewrite (fr_tst _ _ Hf).
Qed.

Lemma au_translates s' t x b e :
  at_user s' t x -> 1 <= b <= 5 -> t !! Z.to_nat b = Some e -> page_of e data_addr b ->
  translates s' (data_addr + b * ONE_MB) (Z.to_nat b) e.
Proof.
  intros [[] _ Ht _ _ _] Hb He Hpo. destruct (own_moved data_addr b Hdata ltac:(lia)).
  apply (page_translates s' data_addr b); try done. by rewrite Ht.
Qed.

(** The exceptions an operation takes on an unmapped page. *)
Definition cache_causes (k : access_kind) (b : Z) : list Z :=
  (miss_event k).2 ::
  (if permitted_by k true (Perms (truth (miss_rw k b).1) (truth (miss_rw k b).2) false true)
   then [] else [HEX_CAUSE_PRIV_NO_READ]).

Lemma cache_op_runs k s' t x b :
  k = DcOp \/ k = IcOp -> at_user s' t x -> 1 <= b <= 4 -> b < Z.of_nat (length t) ->
  quiet t (b * 256) 4 ->
  exists s'' e, cache_op my_addr rt_addr pc k (data_addr + b * ONE_MB) s' = Done tt s'' /\
    page_of e data_addr b /\
    at_user s'' (<[Z.to_nat b := e]> t) (foldl set_exception_vector_bit x (cache_causes k b)).
Proof.
  intros Hk Hs Hb Hlen Hq. destruct (own_moved data_addr b Hdata ltac:(lia)).
  destruct (miss_step 5 k s' t x b Hk Hs Hb Hlen Hq) as (s1 & Hi & Hs1).
  pose proof (miss_page_entry_of k b ltac:(lia)) as Hpo.
  pose proof (miss_page_entry_perms k b ltac:(lia)) as Hpe.
  set (e := miss_page_entry k b) in *.
  assert ((Z.to_nat b < length t)%nat) as Hlt by lia.
  assert ((<[Z.to_nat b := e]> t) !! Z.to_nat b = Some e) as He by by apply list_lookup_insert_eq.
  unfold cache_causes. rewrite <- Hpe. destruct (permitted_by k true (perms e)) eqn:Hper.
  - exists s1, e. split_and!; [|done|done].
    assert (access my_addr rt_addr pc handles k (data_addr + b * ONE_MB) s' =
      Done (phys_addr e (data_addr + b * ONE_MB)) s1) as Ha.
    { unfold access, replays. rewrite Hi. apply access_ok with (i := Z.to_nat b).
      - by eapply au_translates; [|lia|..].
      - by rewrite permitted_perms, (au_user _ _ _ Hs1). }
    unfold cache_op. by next_step Ha.
  - destruct (grant_step my_addr rt_addr pc handles eq_refl s1 data_addr b (data_addr + b * ONE_MB)
      (au_running _ _ _ Hs1) Hdata ltac:(lia) mv_addr mv_in 4 k e)
      as (s2 & f & c & Hi2 & Hc & Hpf & _ & Hf & Hm2 & Hr2 & Ht2 & Hpo2 & Hp2 & Hx2);
      [by rewrite (au_tlb _ _ _ Hs1)|done|by rewrite (au_user _ _ _ Hs1)|].
    assert (k = DcOp /\ f = PTE_R /\ c = HEX_CAUSE_PRIV_NO_READ) as (-> & -> & ->).
    { destruct Hk as [-> | ->]; [|done]. rewrite Hpe in Hpf. destruct f; try done.
      by injection Hc as <-. }
    rewrite (au_tlb _ _ _ Hs1), list_insert_insert_eq in Ht2.
    assert (at_user s2 (<[Z.to_nat b := grant PTE_R e]> t)
      (set_exception_vector_bit (set_exception_vector_bit x HEX_CAUSE_TLBMISSRW_READ) HEX_CAUSE_PRIV_NO_READ)) as Hs2.
    { destruct Hs1 as [_ Hu1 _ Hm1 Hx1 Htst1]. split; [done| |done| | |].
      - by rewrite (frame_user _ _ Hf).
      - by rewrite Hm2.
      - by rewrite Hx2, Hx1.
      - by rewrite (fr_tst _ _ Hf). }
    exists s2, (grant PTE_R e). split_and!; [|done|done].
    assert (access my_addr rt_addr pc handles DcOp (data_addr + b * ONE_MB) s' =
      Done (phys_addr (grant PTE_R e) (data_addr + b * ONE_MB)) s2) as Ha.
    { unfold access, replays. rewrite Hi, Hi2. apply access_ok with (i := Z.to_nat b).
      - eapply au_translates; [exact Hs2|lia|by apply list_lookup_insert_eq|done].
      - rewrite permitted_perms, Hp2, (au_user _ _ _ Hs2), Hpe. done. }
    unfold cache_op. by next_step Ha.
Qed.

(** The pages from megabyte [b] on are still unmapped. *)
Definition unmapped_from (b : Z) (t : list Z) : Prop :=
  4 < Z.of_nat (length t) /\ forall b', b <= b' <= 4 -> quiet t (b' * 256) 4.

(** A part of the test: the check after it sees exactly the expected causes. *)
Lemma check_cache_op_runs line k s' t x b :
  k = DcOp \/ k = IcOp -> at_user s' t x -> 1 <= b <= 4 -> unmapped_from b t ->
  exists s'' t' x', check_cache_op my_addr rt_addr pc line k (data_addr + b * ONE_MB) (cache_causes k b) s' = Done tt s'' /\
    unmapped_from (b + 1) t' /\ at_user s'' t' x'.
Proof.
  intros Hk Hs Hb [Hlen Hq].
  set (s0 := set_cpu (set_my_exceptions clear_exception_vector (cpu s')) s').
  assert (at_user s0 t clear_exception_vector) as Hs0 by (destruct Hs as [[] ? ? ? ? ?]; split; [split|..]; done).
  destruct (cache_op_runs k s0 t _ b Hk Hs0 Hb ltac:(lia) (Hq b ltac:(lia))) as (s1 & e & Ha & Hpo & Hs1).
  exists s1, (<[Z.to_nat b := e]> t), (foldl set_exception_vector_bit clear_exception_vector (cache_causes k b)).
  split_and!; [|split; [by rewrite length_insert|intros b' Hb'; apply quiet_insert; [apply Hq; lia|]]|exact Hs1].
  - assert (set_exceptions clear_exception_vector s' = Done tt s0) as Hc0 by done.
    assert (on_cpu (gets my_exceptions) s1 =
      Done (foldl set_exception_vector_bit clear_exception_vector (cache_causes k b)) s1) as Hx.
    { unfold on_cpu, gets. rewrite (au_exc _ _ _ Hs1). by destruct s1. }
    unfold check_cache_op. next_step Hc0. cbv zeta. next_step Ha. next_step Hx. apply check_vector_same.
  - apply (page_in_mb e data_addr b Hdata ltac:(lia) Hpo). lia.
Qed.

(** C19: the cache operation test passes: on any machine whose MMU behaves as
    documented, where the runtime's entry maps the program's megabyte and
    nothing maps the next four, each operation takes exactly the expected
    exceptions: a miss, and a read fault on the page that got neither read nor
    write permission.  main returns the err it started with, and no word of
    memory changes. *)
Theorem mmu_cacheops_passes :
  sized (cpu s) -> layout (tlb (cpu s)) -> in_u 32 (ssr (cpu s)) ->
  (forall b, 1 <= b <= 4 -> quiet (tlb (cpu s)) (b * 256) 4) ->
  spec (mmu_cacheops_main data_addr my_addr rt_addr pc) s (fun r s' =>
    r = err (tst (cpu s)) /\ tst (cpu s') = tst (cpu s) /\ mem s' = mem s).
Proof.
  intros Hsz Hy Hssr Hq.
  set (c1 := set_evb my_addr (set_old_evb (evb (cpu s)) (cpu s))).
  set (v := SET_FIELD 32 (SET_FIELD 32 (SET_FIELD 32 (ssr c1) SSR_EX 0) SSR_UM 1) SSR_GM 0).
  assert (on_cpu (install_my_event_vectors my_addr) s = Done tt (set_cpu c1 s)) as H1 by done.
  assert (on_cpu enter_user_mode (set_cpu c1 s) = Done tt (set_cpu (set_ssr v c1) s)) as H2.
  { by rewrite (on_cpu_done _ _ _ (set_cpu c1 s) (enter_user_mode_eq c1 Hssr)). }
  set (s0 := set_cpu (set_ssr v c1) s) in *.
  assert (GET_FIELD v SSR_EX = 0 /\ GET_FIELD v SSR_UM = 1) as [Hx Hu].
  { unfold v. split; repeat first [rewrite get_set_other_at by done | rewrite get_set_same_at by done]; done. }
  assert (at_user s0 (tlb (cpu s)) (my_exceptions (cpu s))) as Hs0.
  { split; try done.
    - split; [apply Hsz|done|done|done].
    - unfold user_mode, s0. cbn [cpu set_cpu]. sys_simpl. by rewrite Hx, Hu. }
  assert (unmapped_from 1 (tlb (cpu s))) as Hf0 by (split; [destruct Hsz; lia|done]).
  destruct (check_cache_op_runs 61 DcOp s0 _ _ 1 ltac:(by left) Hs0 ltac:(lia) Hf0) as (s1 & t1 & x1 & Hr1 & Hf1 & Hs1).
  destruct (check_cache_op_runs 70 DcOp s1 _ _ 2 ltac:(by left) Hs1 ltac:(lia) Hf1) as (s2 & t2 & x2 & Hr2 & Hf2 & Hs2).
  destruct (check_cache_op_runs 79 DcOp s2 _ _ 3 ltac:(by left) Hs2 ltac:(lia) Hf2) as (s3 & t3 & x3 & Hr3 & Hf3 & Hs3).
  destruct (check_cache_op_runs 93 IcOp s3 _ _ 4 ltac:(by right) Hs3 ltac:(lia) Hf3) as (s4 & t4 & x4 & Hr4 & _ & Hs4).
  pose proof (fun b Hb => mv_addr_sum _ _ (own_moved data_addr b Hdata Hb)) as Hsum.
  assert (test_data_cache_ops data_addr my_addr rt_addr pc s = Done tt s4) as Hrun.
  { unfold test_data_cache_ops, TWO_MB, THREE_MB, FOUR_MB. replace (data_addr + ONE_MB) with (data_addr + 1 * ONE_MB) by lia.
    rewrite !Hsum by lia. next_step H1. next_step H2. next_step Hr1. next_step Hr2. next_step Hr3. exact Hr4. }
  unfold wp, mmu_cacheops_main. rewrite (bind_done _ _ _ _ _ Hrun). unfold gets.
  by rewrite (au_tst _ _ _ Hs4), (au_mem _ _ _ Hs4).
Qed.
End proof.

Section demo.
Import ArrayTlb SimMmu.

Lemma mmu_cacheops_passes_witness :
  own 0x4000 /\ spec (mmu_cacheops_main 0x4000 0x8000 0x1000 0x3000) boot_msys (fun r _ => r = 0).
Proof.
  assert (own 0x4000) as Ho by (split; vm_compute; congruence). split; [exact Ho|].
  eapply wp_mono; [apply (mmu_cacheops_passes 0x4000 0x8000 0x1000 0x3000 boot_msys);
    [exact Ho|exact boot_sized|exact boot_layout|split; vm_compute; congruence|]|].
  - intros b Hb. apply boot_mb_quiet. lia.
  - intros r s' [Hr _]. exact Hr.
Defined.
End demo.
