(* ===== verification/ByteMem.v ===== *)
(** Flat little-endian byte memory: a finite map from addresses to bytes, loads
    and stores of [n]-byte values, and arrays of such values laid out in it. *)

From S2P Require Import Prelude.

Abbreviation mem := (gmap Z Z).

(** Bytes not written yet read as an arbitrary fixed value. *)
Definition mget (m : mem) (a : Z) : Z := default 0 (m !! a).

Fixpoint load (n : nat) (m : mem) (a : Z) : Z :=
  match n with
  | O => 0
  | S n => mget m a + 256 * load n m (a + 1)
  end.

Fixpoint store (n : nat) (m : mem) (a v : Z) : mem :=
  match n with
  | O => m
  | S n => <[a := v mod 256]> (store n m (a + 1) (v / 256))
  end.

(** Byte [k] of a value. *)
Definition byte_of (v k : Z) : Z := (v / 256 ^ k) mod 256.

Lemma byte_of_0 v : byte_of v 0 = v mod 256.
Proof. unfold byte_of. by rewrite Z.div_1_r. Qed.

Lemma byte_of_succ v k : 0 <= k -> byte_of v (k + 1) = byte_of (v / 256) k.
Proof.
  intros Hk. unfold byte_of. rewrite Z.add_comm, Z.pow_add_r by lia.
  by rewrite Z.div_div by lia.
Qed.

Lemma byte_of_range v k : 0 <= byte_of v k < 256.
Proof. apply Z.mod_pos_bound. lia. Qed.

Lemma mget_insert m a b v : mget (<[a := v]> m) b = if a =? b then v else mget m b.
Proof.
  unfold mget. destruct (Z.eqb_spec a b) as [->|].
  - by rewrite lookup_insert_eq.
  - by rewrite lookup_insert_ne.
Qed.

Lemma lookup_store n m a v b :
  store n m a v !! b =
    if (a <=? b) && (b <? a + Z.of_nat n) then Some (byte_of v (b - a)) else m !! b.
Proof.
  revert a v. induction n as [|n IH]; intros a v; cbn [store].
  - replace ((a <=? b) && (b <? a + Z.of_nat 0)) with false by (split_cmp; done). done.
  - destruct (decide (a = b)) as [->|Hne].
    + rewrite lookup_insert_eq. replace ((b <=? b) && _) with true by (split_cmp; done).
      by rewrite Z.sub_diag, byte_of_0.
    + rewrite lookup_insert_ne, IH by done. split_cmp; simpl; try done.
      rewrite <- byte_of_succ by lia. do 2 f_equal. lia.
Qed.

Lemma mget_store n m a v b :
  mget (store n m a v) b =
    if (a <=? b) && (b <? a + Z.of_nat n) then byte_of v (b - a) else mget m b.
Proof. unfold mget. rewrite lookup_store. by destruct (_ && _). Qed.

(** Stores to disjoint places commute. *)
Lemma store_comm n m a v n' a' v' :
  a + Z.of_nat n <= a' \/ a' + Z.of_nat n' <= a ->
  store n (store n' m a' v') a v = store n' (store n m a v) a' v'.
Proof.
  intros Hd. apply map_eq. intros b. rewrite !lookup_store. split_cmp; done.
Qed.

(** A load sees the bytes it covers. *)
Lemma load_bytes n m a v :
  0 <= v < 256 ^ Z.of_nat n ->
  (forall k, 0 <= k < Z.of_nat n -> mget m (a + k) = byte_of v k) -> load n m a = v.
Proof.
  revert a v. induction n as [|n IH]; intros a v Hv Hb; cbn [load].
  - simpl in Hv. change (256 ^ Z.of_nat 0) with 1 in Hv. lia.
  - rewrite (IH (a + 1) (v / 256)).
    + specialize (Hb 0 ltac:(lia)). rewrite Z.add_0_r, byte_of_0 in Hb. rewrite Hb.
      pose proof (Z.div_mod v 256). lia.
    + rewrite Nat2Z.inj_succ, Z.pow_succ_r in Hv by lia.
      split; [apply Z.div_pos; lia|]. apply Z.div_lt_upper_bound; lia.
    + intros k Hk. rewrite <- byte_of_succ by lia. rewrite <- Hb by lia. f_equal. lia.
Qed.

Lemma load_ext n m m' a :
  (forall k, 0 <= k < Z.of_nat n -> mget m (a + k) = mget m' (a + k)) -> load n m a = load n m' a.
Proof.
  revert a. induction n as [|n IH]; intros a Hb; cbn [load]; [done|].
  rewrite (IH (a + 1)).
  - specialize (Hb 0 ltac:(lia)). rewrite Z.add_0_r in Hb. by rewrite Hb.
  - intros k Hk. rewrite <- Z.add_assoc. apply Hb. lia.
Qed.

Lemma load_store_same n m a v :
  0 <= v < 256 ^ Z.of_nat n -> load n (store n m a v) a = v.
Proof.
  intros Hv. apply load_bytes; [done|]. intros k Hk. rewrite mget_store.
  replace ((a <=? a + k) && _) with true by (split_cmp; done). f_equal. lia.
Qed.

Lemma load_store_other n m a n' a' v :
  a + Z.of_nat n <= a' \/ a' + Z.of_nat n' <= a -> load n (store n' m a' v) a = load n m a.
Proof.
  intros Hd. apply load_ext. intros k Hk. rewrite mget_store.
  by replace ((a' <=? a + k) && _) with false by (split_cmp; done).
Qed.

(* ------------------------------------------------------------------ *)
(** ** Arrays *)

(** [array n m a l]: the [n]-byte values of [l] are laid out from address [a]. *)
Definition array (n : nat) (m : mem) (a : Z) (l : list Z) : Prop :=
  forall i v k, l !! i = Some v -> 0 <= k < Z.of_nat n ->
    mget m (a + Z.of_nat n * Z.of_nat i + k) = byte_of v k.

Definition elems_ok (n : nat) (l : list Z) : Prop := Forall (fun v => 0 <= v < 256 ^ Z.of_nat n) l.

Section array.
Context (n : nat).

Lemma array_load m a l i v :
  array n m a l -> elems_ok n l -> l !! i = Some v ->
  load n m (a + Z.of_nat n * Z.of_nat i) = v.
Proof.
  intros Ha Hl Hi. apply load_bytes.
  - unfold elems_ok in Hl. rewrite Forall_lookup in Hl. by eapply Hl.
  - intros k Hk. by apply (Ha i).
Qed.

Lemma array_store m a l i v :
  array n m a l -> (i < length l)%nat ->
  array n (store n m (a + Z.of_nat n * Z.of_nat i) v) a (<[i := v]> l).
Proof.
  intros Ha Hi j w k Hj Hk. rewrite mget_store. destruct (decide (j = i)) as [->|Hne].
  - rewrite list_lookup_insert_eq in Hj by done. injection Hj as <-.
    replace (_ && _) with true by (split_cmp; done). f_equal. lia.
  - rewrite list_lookup_insert_ne in Hj by done.
    replace (_ && _) with false; [by apply (Ha j)|].
    symmetry. apply not_true_iff_false. rewrite andb_true_iff, Z.leb_le, Z.ltb_lt.
    intros [H1 H2]. assert (Z.of_nat j <> Z.of_nat i) by lia. nia.
Qed.

(** A store elsewhere leaves the array alone. *)
Lemma array_store_other m a l n' a' v :
  array n m a l -> a + Z.of_nat n * Z.of_nat (length l) <= a' \/ a' + Z.of_nat n' <= a ->
  array n (store n' m a' v) a l.
Proof.
  intros Ha Hd i w k Hi Hk. rewrite mget_store. pose proof (lookup_lt_Some _ _ _ Hi).
  replace (_ && _) with false; [by apply (Ha i)|].
  symmetry. apply not_true_iff_false. rewrite andb_true_iff, Z.leb_le, Z.ltb_lt.
  intros [H1 H2]. destruct Hd; nia.
Qed.

Lemma array_ext m m' a l :
  (forall b, a <= b < a + Z.of_nat n * Z.of_nat (length l) -> mget m b = mget m' b) ->
  array n m a l -> array n m' a l.
Proof.
  intros He Ha i v k Hi Hk. pose proof (lookup_lt_Some _ _ _ Hi).
  rewrite <- He; [by apply (Ha i)|]. nia.
Qed.
End array.

(** [memset]. *)
Definition memset (m : mem) (a c len : Z) : mem :=
  foldl (fun m i => <[a + i := c mod 256]> m) m (seqZ 0 len).

Lemma mget_memset m a c len b :
  mget (memset m a c len) b = if (a <=? b) && (b <? a + len) then c mod 256 else mget m b.
Proof.
  unfold memset. destruct (Z.le_gt_cases len 0) as [Hl|Hl].
  { rewrite seqZ_nil by done. simpl. split_cmp; done. }
  replace len with (Z.of_nat (Z.to_nat len)) by lia.
  induction (Z.to_nat len) as [|n IH].
  - rewrite seqZ_nil by done. simpl. split_cmp; done.
  - rewrite seqZ_S, foldl_app. cbn [foldl].
    rewrite mget_insert, IH, Z.add_0_l. split_cmp; done.
Qed.

(* ------------------------------------------------------------------ *)
(** ** Strings of bytes *)

(** Bytes laid out in memory. *)
Fixpoint write_bytes (m : mem) (a : Z) (l : list Z) : mem :=
  match l with [] => m | c :: l => <[a := c]> (write_bytes m (a + 1) l) end.

Lemma lookup_write_bytes m a l b :
  write_bytes m a l !! b =
    if (a <=? b) && (b <? a + Z.of_nat (length l)) then l !! Z.to_nat (b - a) else m !! b.
Proof.
  revert a. induction l as [|c l IH]; intros a; cbn [write_bytes length].
  - split_cmp; done.
  - destruct (decide (a = b)) as [->|Hne].
    + rewrite lookup_insert_eq, Z.sub_diag. split_cmp; done.
    + rewrite lookup_insert_ne, IH by done. split_cmp; cbn [andb]; try done.
      replace (Z.to_nat (b - a)) with (Datatypes.S (Z.to_nat (b - (a + 1)))) by lia. done.
Qed.

Lemma write_bytes_snoc m a l c :
  <[a + Z.of_nat (length l) := c]> (write_bytes m a l) = write_bytes m a (l ++ [c]).
Proof.
  apply map_eq. intros b. rewrite lookup_write_bytes, length_app. cbn [length].
  destruct (decide (a + Z.of_nat (length l) = b)) as [<-|Hne].
  - rewrite lookup_insert_eq. replace (_ && _) with true by (split_cmp; done).
    symmetry. apply list_lookup_middle. lia.
  - rewrite lookup_insert_ne, lookup_write_bytes by done. split_cmp; cbn [andb]; try done.
    symmetry. apply lookup_app_l. lia.
Qed.

Lemma mget_write_bytes_out m a l b :
  b < a \/ a + Z.of_nat (length l) <= b -> mget (write_bytes m a l) b = mget m b.
Proof. intros Hb. unfold mget. rewrite lookup_write_bytes. by split_cmp. Qed.

Lemma mget_write_bytes_in m a l i c :
  l !! i = Some c -> mget (write_bytes m a l) (a + Z.of_nat i) = c.
Proof.
  intros Hi. pose proof (lookup_lt_Some _ _ _ Hi). unfold mget. rewrite lookup_write_bytes.
  replace (_ && _) with true by (split_cmp; done).
  replace (Z.to_nat (a + Z.of_nat i - a)) with i by lia. by rewrite Hi.
Qed.

Lemma write_bytes_app m a l k :
  write_bytes (write_bytes m a l) (a + Z.of_nat (length l)) k = write_bytes m a (l ++ k).
Proof.
  apply map_eq. intros b. rewrite !lookup_write_bytes, length_app.
  destruct (decide (b < a + Z.of_nat (length l))) as [Hb|Hb].
  - split_cmp; cbn [andb]; try done. symmetry. apply lookup_app_l. lia.
  - split_cmp; cbn [andb]; try done. rewrite lookup_app_r by lia. f_equal. lia.
Qed.

Lemma write_bytes_insert m a l i c : (i < length l)%nat ->
  <[a + Z.of_nat i := c]> (write_bytes m a l) = write_bytes m a (<[i := c]> l).
Proof.
  intros Hi. apply map_eq. intros b. rewrite lookup_write_bytes, length_insert.
  destruct (decide (a + Z.of_nat i = b)) as [<-|Hne].
  - rewrite lookup_insert_eq. replace (_ && _) with true by (split_cmp; done).
    replace (Z.to_nat (a + Z.of_nat i - a)) with i by lia. by rewrite list_lookup_insert_eq.
  - rewrite lookup_insert_ne, lookup_write_bytes by done. split_cmp; cbn [andb]; try done.
    rewrite list_lookup_insert_ne; [done|lia].
Qed.
