(* ===== verification/HvxVec.v ===== *)
(** HVX vectors: 128 bytes, seen as little-endian elements of 1, 2, 4 or 8
    bytes; buffers of such vectors as strings of bytes, and the 32- and 16-bit
    floating point comparisons of C on bit patterns. *)

From S2P Require Import Prelude ByteMem.

Open Scope list_scope.
Open Scope Z_scope.

(** The width of a vector in bytes. *)
Definition VLEN : Z := 128.

Abbreviation vec := (list Z).

(** The value of a string of bytes. *)
Fixpoint le (l : list Z) : Z := match l with [] => 0 | c :: l => c + 256 * le l end.

(** The low [w] bytes of a value. *)
Definition le_bytes (w v : Z) : list Z := (fun k => byte_of v k) <$> seqZ 0 w.

(** [n] bytes from position [a], byte [k], and the bytes of [x] put at [a]. *)
Definition sub (l : list Z) (a n : Z) : list Z := take (Z.to_nat n) (drop (Z.to_nat a) l).
Definition byte (l : list Z) (k : Z) : Z := nth (Z.to_nat k) l 0.
Definition splice (l : list Z) (a : Z) (x : list Z) : list Z :=
  take (Z.to_nat a) l ++ x ++ drop (Z.to_nat a + length x) l.

(** Element [j] of [w] bytes. *)
Definition elem (w : Z) (l : list Z) (j : Z) : Z := le (sub l (w * j) w).

(** The vector of the elements [f 0], [f 1], ... *)
Definition gen (w : Z) (f : Z -> Z) : vec := (fun k => byte_of (f (k / w)) (k mod w)) <$> seqZ 0 VLEN.

(** Lane-wise operations. *)
Definition lanes1 (w : Z) (f : Z -> Z) (a : vec) : vec := gen w (fun j => f (elem w a j)).
Definition lanes2 (w : Z) (f : Z -> Z -> Z) (a b : vec) : vec := gen w (fun j => f (elem w a j) (elem w b j)).

(** Predicates hold one bit per byte: a comparison of elements sets all bits of
    the element. *)
Definition cmp_lanes (w : Z) (f : Z -> Z -> bool) (a b : vec) : list bool :=
  (fun k => f (elem w a (k / w)) (elem w b (k / w))) <$> seqZ 0 VLEN.

Definition qbit (q : list bool) (k : Z) : bool := nth (Z.to_nat k) q false.

(** The bytes of [x] where the predicate is [sense], those of [old] elsewhere. *)
Definition merge (sense : bool) (q : list bool) (x old : vec) : vec :=
  (fun k => if Bool.eqb (qbit q k) sense then byte x k else byte old k) <$> seqZ 0 VLEN.

(** *** Floating point comparisons on bit patterns *)

(** A pattern of [e] exponent and [m] mantissa bits: not a number, zero, and
    greater in the sense of C's [>]. *)
Definition fmag (e m x : Z) : Z := extract x 0 (e + m).
Definition fneg (e m x : Z) : bool := Z.testbit x (e + m).
Definition fnan (e m x : Z) : bool := Z.shiftl (Z.ones e) m <? fmag e m x.
Definition fzero (e m x : Z) : bool := fmag e m x =? 0.
Definition fkey (e m x : Z) : Z := if fneg e m x then - fmag e m x else fmag e m x.
Definition fgt (e m x y : Z) : bool := negb (fnan e m x) && negb (fnan e m y) && (fkey e m y <? fkey e m x).

Definition sf_gt : Z -> Z -> bool := fgt 8 23.
Definition hf_gt : Z -> Z -> bool := fgt 5 10.
Definition sf_nan : Z -> bool := fnan 8 23.
Definition hf_nan : Z -> bool := fnan 5 10.
Definition sf_zero : Z -> bool := fzero 8 23.
Definition hf_zero : Z -> bool := fzero 5 10.

(* ------------------------------------------------------------------ *)
(** ** Lemmas *)

Definition bytes_ok (l : list Z) : Prop := Forall (fun c => 0 <= c < 256) l.

Lemma byte_range l k : bytes_ok l -> 0 <= byte l k < 256.
Proof.
  intros Hl. unfold byte. destruct (nth_in_or_default (Z.to_nat k) l 0) as [Hi| ->]; [|lia].
  unfold bytes_ok in Hl. rewrite Forall_forall in Hl. apply Hl. by apply list_elem_of_In.
Qed.

Lemma byte_lookup l k x : l !! Z.to_nat k = Some x -> byte l k = x.
Proof. intros Hx. unfold byte. by rewrite nth_lookup, Hx. Qed.

Lemma lookup_byte l k : 0 <= k < Z.of_nat (length l) -> l !! Z.to_nat k = Some (byte l k).
Proof.
  intros Hk. destruct (lookup_lt_is_Some_2 l (Z.to_nat k) ltac:(lia)) as [x Hx].
  by rewrite (byte_lookup _ _ _ Hx).
Qed.

Lemma byte_ext l l' : length l = length l' ->
  (forall k, 0 <= k < Z.of_nat (length l) -> byte l k = byte l' k) -> l = l'.
Proof.
  intros Hl Hb. apply list_eq. intros i. destruct (decide (i < length l)%nat) as [Hi|Hi].
  - rewrite <- (Nat2Z.id i), !lookup_byte by lia. f_equal. apply Hb. lia.
  - by rewrite !lookup_ge_None_2 by lia.
Qed.

(** A list given position by position. *)
Lemma byte_map (f : Z -> Z) n k : 0 <= k < n -> byte (f <$> seqZ 0 n) k = f k.
Proof.
  intros Hk. apply byte_lookup. rewrite list_lookup_fmap, lookup_seqZ_lt by lia. cbn. f_equal. f_equal. lia.
Qed.

Lemma qbit_map (f : Z -> bool) n k : 0 <= k < n -> qbit (f <$> seqZ 0 n) k = f k.
Proof.
  intros Hk. unfold qbit. rewrite nth_lookup, list_lookup_fmap, lookup_seqZ_lt by lia. cbn. f_equal. lia.
Qed.

Lemma length_map_seqZ {A} (f : Z -> A) n : length (f <$> seqZ 0 n) = Z.to_nat n.
Proof. by rewrite length_fmap, length_seqZ. Qed.

Lemma byte_gen w f k : 0 <= k < VLEN -> byte (gen w f) k = byte_of (f (k / w)) (k mod w).
Proof. apply (byte_map (fun k => byte_of (f (k / w)) (k mod w))). Qed.

Lemma length_gen w f : length (gen w f) = 128%nat.
Proof. apply length_map_seqZ. Qed.

Lemma bytes_ok_map f n : (forall k, 0 <= k < n -> 0 <= f k < 256) -> bytes_ok (f <$> seqZ 0 n).
Proof.
  intros Hf. apply Forall_fmap, Forall_forall. intros k Hk. apply elem_of_seqZ in Hk. apply Hf. lia.
Qed.

Lemma bytes_ok_gen w f : bytes_ok (gen w f).
Proof. apply bytes_ok_map. intros. apply byte_of_range. Qed.

Lemma byte_merge sense q x old k : 0 <= k < VLEN ->
  byte (merge sense q x old) k = if Bool.eqb (qbit q k) sense then byte x k else byte old k.
Proof. intros Hk. by apply (byte_map (fun k => if Bool.eqb (qbit q k) sense then byte x k else byte old k)). Qed.

Lemma length_merge sense q x old : length (merge sense q x old) = 128%nat.
Proof. apply length_map_seqZ. Qed.

Lemma bytes_ok_merge sense q x old : bytes_ok x -> bytes_ok old -> bytes_ok (merge sense q x old).
Proof. intros Hx Ho. apply bytes_ok_map. intros k _. destruct (Bool.eqb _ _); by apply byte_range. Qed.

Lemma length_sub l a n : 0 <= a -> 0 <= n -> a + n <= Z.of_nat (length l) -> length (sub l a n) = Z.to_nat n.
Proof. intros. unfold sub. rewrite length_take, length_drop. lia. Qed.

Lemma byte_sub l a n k : 0 <= a -> 0 <= k < n -> byte (sub l a n) k = byte l (a + k).
Proof.
  intros Ha Hk. unfold byte, sub. rewrite !nth_lookup, lookup_take_lt by lia.
  rewrite lookup_drop. f_equal. f_equal. lia.
Qed.

Lemma bytes_ok_sub l a n : bytes_ok l -> bytes_ok (sub l a n).
Proof. intros Hl. by apply Forall_take, Forall_drop. Qed.

Lemma sub_sub l a n b m : 0 <= a -> 0 <= b -> 0 <= m -> b + m <= n -> sub (sub l a n) b m = sub l (a + b) m.
Proof.
  intros. unfold sub. rewrite skipn_firstn_comm, drop_drop, take_take. f_equal; [lia|]. f_equal. lia.
Qed.

Lemma sub_all l n : Z.of_nat (length l) = n -> sub l 0 n = l.
Proof. intros <-. unfold sub. cbn. rewrite drop_0, Nat2Z.id. by apply take_ge. Qed.

Lemma length_splice l a x : 0 <= a -> a + Z.of_nat (length x) <= Z.of_nat (length l) ->
  length (splice l a x) = length l.
Proof. intros. unfold splice. rewrite !length_app, length_take, length_drop. lia. Qed.

Lemma byte_splice l a x k : 0 <= a -> a + Z.of_nat (length x) <= Z.of_nat (length l) -> 0 <= k ->
  byte (splice l a x) k = if (a <=? k) && (k <? a + Z.of_nat (length x)) then byte x (k - a) else byte l k.
Proof.
  intros Ha Hx Hk. unfold byte, splice. rewrite !nth_lookup.
  destruct (Z.leb_spec a k); cbn [andb].
  - rewrite lookup_app_r by (rewrite length_take; lia). rewrite length_take.
    destruct (Z.ltb_spec k (a + Z.of_nat (length x))).
    + rewrite lookup_app_l by lia. do 2 f_equal. lia.
    + rewrite lookup_app_r by lia. rewrite lookup_drop. do 2 f_equal. lia.
  - rewrite lookup_app_l by (rewrite length_take; lia). by rewrite lookup_take_lt by lia.
Qed.

Lemma bytes_ok_splice l a x : bytes_ok l -> bytes_ok x -> bytes_ok (splice l a x).
Proof.
  intros Hl Hx. apply Forall_app. split; [by apply Forall_take|]. apply Forall_app. split; [done|by apply Forall_drop].
Qed.

(** Reading a value byte by byte. *)
Lemma byte_of_le l k : bytes_ok l -> 0 <= k < Z.of_nat (length l) -> byte_of (le l) k = byte l k.
Proof.
  revert k. induction l as [|c l IH]; intros k Hl Hk; cbn [length] in Hk; [lia|].
  apply Forall_cons in Hl as [Hc Hl]. cbn [le]. destruct (decide (k = 0)) as [->|Hne].
  - rewrite byte_of_0. unfold byte. cbn. rewrite Z.mul_comm, Z.mod_add by lia. by apply Z.mod_small.
  - replace k with (k - 1 + 1) by lia. rewrite byte_of_succ by lia.
    rewrite Z.mul_comm, Z.div_add, Z.div_small, Z.add_0_l by lia. rewrite IH by (done || lia).
    unfold byte. replace (Z.to_nat (k - 1 + 1)) with (Datatypes.S (Z.to_nat (k - 1))) by lia. done.
Qed.

Lemma le_range l : bytes_ok l -> 0 <= le l < 256 ^ Z.of_nat (length l).
Proof.
  induction 1 as [|c l Hc Hl IH]; cbn [le length]; [lia|]. rewrite Nat2Z.inj_succ, Z.pow_succ_r by lia. lia.
Qed.

(** Values are determined by their bytes. *)
Lemma byte_of_inj w x y : 0 <= w -> 0 <= x < 256 ^ w -> 0 <= y < 256 ^ w ->
  (forall k, 0 <= k < w -> byte_of x k = byte_of y k) -> x = y.
Proof.
  intros Hw. revert x y. pattern w. apply natlike_ind; [| |done]; clear w Hw.
  - intros x y. cbn. lia.
  - intros w Hw IH x y Hx Hy Hb. rewrite Z.pow_succ_r in Hx, Hy by lia.
    rewrite (Z.div_mod x 256), (Z.div_mod y 256) by lia.
    rewrite <- (byte_of_0 x), <- (byte_of_0 y), (Hb 0) by lia. do 2 f_equal. apply IH.
    + split; [apply Z.div_pos; lia|]. apply Z.div_lt_upper_bound; lia.
    + split; [apply Z.div_pos; lia|]. apply Z.div_lt_upper_bound; lia.
    + intros k Hk. rewrite <- !byte_of_succ by lia. apply Hb. lia.
Qed.

Lemma byte_of_uwrap w v k : 0 <= k < w -> byte_of (uwrap (8 * w) v) k = byte_of v k.
Proof.
  intros Hk. unfold byte_of, uwrap. change 256 with (2 ^ 8). rewrite <- Z.pow_mul_r by lia.
  apply Z.bits_inj'. intros i Hi. rewrite <- !Z.land_ones, <- !Z.shiftr_div_pow2 by lia.
  autorewrite with bits. split_cmp; by simpl_bool.
Qed.

(** Bitwise operations act byte by byte. *)
Lemma byte_of_bitwise op x y k : 0 <= k -> op = Z.lor \/ op = Z.land \/ op = Z.lxor ->
  byte_of (op x y) k = op (byte_of x k) (byte_of y k).
Proof.
  intros Hk Hop. unfold byte_of. change 256 with (2 ^ 8). rewrite <- Z.pow_mul_r by lia.
  apply Z.bits_inj'. intros i Hi. rewrite <- !Z.land_ones, <- !Z.shiftr_div_pow2 by lia.
  destruct Hop as [-> |[-> | ->]]; autorewrite with bits; split_cmp; by simpl_bool.
Qed.

Lemma byte_of_lnot x k : 0 <= k -> byte_of (Z.lnot x) k = Z.lxor (byte_of x k) 255.
Proof.
  intros Hk. unfold byte_of. change 256 with (2 ^ 8). rewrite <- Z.pow_mul_r by lia. change 255 with (Z.ones 8).
  apply Z.bits_inj'. intros i Hi. rewrite <- !Z.land_ones, <- !Z.shiftr_div_pow2 by lia.
  autorewrite with bits. split_cmp; simpl_bool; try done.
Qed.

(** An element width. *)
Definition width (w : Z) : Prop := w = 1 \/ w = 2 \/ w = 4 \/ w = 8.

Section elem.
Context (w : Z) (Hw : width w).
Implicit Types (l : list Z) (f g : Z -> Z).

Lemma width_pos : 0 < w.
Proof. unfold width in Hw. lia. Qed.

Lemma lanes_exact : VLEN = w * (VLEN / w) /\ 0 < VLEN / w.
Proof. unfold VLEN. destruct Hw as [-> |[-> |[-> | ->]]]; split; done. Qed.

Lemma lane_bound j : 0 <= j < VLEN / w -> 0 <= w * j /\ w * j + w <= VLEN.
Proof. pose proof lanes_exact. pose proof width_pos. nia. Qed.

Lemma lane_of k : 0 <= k < VLEN -> 0 <= k / w < VLEN / w /\ 0 <= k mod w < w /\ w * (k / w) + k mod w = k.
Proof.
  intros Hk. pose proof width_pos. pose proof lanes_exact as [He _]. pose proof (Z.div_mod k w).
  pose proof (Z.mod_pos_bound k w). split; [|lia]. split; [apply Z.div_pos; lia|].
  apply Z.div_lt_upper_bound; lia.
Qed.

Lemma byte_of_elem l j k : bytes_ok l -> 0 <= j -> w * j + w <= Z.of_nat (length l) -> 0 <= k < w ->
  byte_of (elem w l j) k = byte l (w * j + k).
Proof.
  intros Hl Hj Hb Hk. pose proof width_pos. unfold elem.
  rewrite byte_of_le; [apply byte_sub; nia|by apply bytes_ok_sub|rewrite length_sub; nia].
Qed.

Lemma elem_range l j : bytes_ok l -> 0 <= j -> w * j + w <= Z.of_nat (length l) -> in_u (8 * w) (elem w l j).
Proof.
  intros Hl Hj Hb. pose proof width_pos. unfold in_u, elem. rewrite Z.pow_mul_r by lia. change (2 ^ 8) with 256.
  pose proof (le_range _ (bytes_ok_sub l (w * j) w Hl)) as Hr. rewrite length_sub, Z2Nat.id in Hr by nia. lia.
Qed.

(** Element [j] of a vector inside a buffer. *)
Lemma elem_sub l a j : 0 <= a -> 0 <= j < VLEN / w -> elem w (sub l a VLEN) j = le (sub l (a + w * j) w).
Proof. intros Ha Hj. pose proof (lane_bound j Hj). pose proof width_pos. unfold elem. rewrite sub_sub by lia. done. Qed.

Lemma gen_ext f g : (forall j, 0 <= j < VLEN / w -> uwrap (8 * w) (f j) = uwrap (8 * w) (g j)) -> gen w f = gen w g.
Proof.
  intros Hfg. apply byte_ext; rewrite !length_gen; [done|]. intros k Hk.
  destruct (lane_of k Hk) as (Hd & Hm & _). rewrite !byte_gen by done.
  rewrite <- (byte_of_uwrap w (f _)), <- (byte_of_uwrap w (g _)) by done. by rewrite Hfg.
Qed.

Lemma elem_gen f j : 0 <= j < VLEN / w -> elem w (gen w f) j = uwrap (8 * w) (f j).
Proof.
  intros Hj. pose proof width_pos. pose proof (lane_bound j Hj). pose proof (length_gen w f) as Hlen. unfold VLEN in *.
  apply (byte_of_inj w); [lia| | |].
  - pose proof (elem_range (gen w f) j (bytes_ok_gen w f) ltac:(lia) ltac:(lia)) as Hr.
    unfold in_u in Hr. by rewrite Z.pow_mul_r in Hr by lia.
  - unfold uwrap. rewrite Z.pow_mul_r by lia. apply Z.mod_pos_bound. lia.
  - intros k Hk. rewrite byte_of_elem by (apply bytes_ok_gen || lia). rewrite byte_gen by (unfold VLEN; lia).
    rewrite byte_of_uwrap by done. rewrite Z.mul_comm, Z.div_add_l, Z.div_small, Z.add_0_r by lia.
    rewrite Z.add_comm, Z.mod_add, Z.mod_small by lia. done.
Qed.

(** A bitwise operation on elements, whatever their width. *)
Lemma lanes2_bitwise op a b : op = Z.lor \/ op = Z.land \/ op = Z.lxor ->
  bytes_ok a -> bytes_ok b -> length a = 128%nat -> length b = 128%nat ->
  lanes2 w op a b = (fun k => op (byte a k) (byte b k)) <$> seqZ 0 VLEN.
Proof.
  intros Hop Ha Hb Hla Hlb. unfold lanes2. apply byte_ext; [by rewrite length_gen, length_map_seqZ|].
  rewrite length_gen. intros k Hk. rewrite byte_gen by done.
  rewrite (byte_map (fun k => op (byte a k) (byte b k))) by done.
  destruct (lane_of k Hk) as (Hd & Hm & He). pose proof (lane_bound _ Hd). unfold VLEN in *.
  rewrite byte_of_bitwise, !byte_of_elem by (done || lia). by rewrite He.
Qed.

Lemma lanes1_lnot a : bytes_ok a -> length a = 128%nat ->
  lanes1 w Z.lnot a = (fun k => Z.lxor (byte a k) 255) <$> seqZ 0 VLEN.
Proof.
  intros Ha Hla. unfold lanes1. apply byte_ext; [by rewrite length_gen, length_map_seqZ|].
  rewrite length_gen. intros k Hk. rewrite byte_gen by done.
  rewrite (byte_map (fun k => Z.lxor (byte a k) 255)) by done.
  destruct (lane_of k Hk) as (Hd & Hm & He). pose proof (lane_bound _ Hd). unfold VLEN in *.
  rewrite byte_of_lnot, !byte_of_elem by (done || lia). by rewrite He.
Qed.
End elem.
