(* ===== verification/HvxRef.v ===== *)
(** include/v6mpy_ref.h: the results of the matrix multiplication test of
    src/hvx_misc.c, row by row. *)

From S2P Require Import Prelude.

Open Scope list_scope.
Open Scope Z_scope.

Definition v6mpy_ref_table : list (list Z) := [
    [0xffffee11; 0xfffffcca; 0xffffc1b3; 0xffffd0cc; 0xffffe215; 0xfffff58e; 0xffffaf37;
     0xffffc310; 0xffffd919; 0xfffff152; 0xffff9fbb; 0xffffb854; 0xffffd31d; 0xfffff016;
     0xffff933f; 0xffffb098; 0xffffd021; 0xfffff1da; 0xffff89c3; 0xffffabdc; 0xffffd025;
     0xfffff69e; 0xffff8347; 0xffffaa20; 0xffffd329; 0xfffffe62; 0xffff7fcb; 0xffffab64;
     0xffffd92d; 0x926; 0xffff7f4f; 0xffffafa8];
    [0xffffe231; 0x16ea; 0xffff81d3; 0xffffb6ec; 0xffffee35; 0x27ae; 0xffff8757; 0xffffc130;
     0xfffffd39; 0x3b72; 0xffff8fdb; 0xffffce74; 0xf3d; 0x5236; 0xffff9b5f; 0xffffdeb8; 0x2441;
     0x6bfa; 0xffffa9e3; 0xfffff1fc; 0x3c45; 0x88be; 0xffffbb67; 0x840; 0x5749; 0xa882; 0xffffcfeb;
     0xffffe684; 0x494d; 0x9a46; 0xffffb16f; 0x2c8];
    [0xfffff351; 0x440a; 0xffff4af3; 0xffff9c0c; 0xffffef55; 0x44ce; 0xffff4077; 0xffff9650;
     0xffffee59; 0x4892; 0xffff38fb; 0xffff9394; 0xfffff05d; 0x4f56; 0xffff347f; 0xffff93d8;
     0xfffff561; 0x591a; 0xffff3303; 0xffff971c; 0xfffffd65; 0x65de; 0xffff3487; 0xffff9d60; 0x869;
     0x75a2; 0xffff390b; 0xffffa6a4; 0x166d; 0x8866; 0xffff408f; 0xffffb2e8];
    [0x2771; 0x9e2a; 0xffff4b13; 0xffffc22c; 0x3b75; 0xb6ee; 0xffff5897; 0xffffd470; 0x5279;
     0xd2b2; 0xffff691b; 0xffffe9b4; 0x6c7d; 0xf176; 0xffff7c9f; 0x1f8; 0x8981; 0x1133a;
     0xffff9323; 0x1d3c; 0xa985; 0x137fe; 0xffffaca7; 0x3b80; 0xcc89; 0x15fc2; 0xffffc92b;
     0xffffe1c4; 0x868d; 0x11986; 0xffff72af; 0x608];
    [0xfffff891; 0x8b4a; 0xfffed433; 0xffff674c; 0xfffffc95; 0x940e; 0xfffed1b7; 0xffff6990; 0x399;
     0x9fd2; 0xfffed23b; 0xffff6ed4; 0xd9d; 0xae96; 0xfffed5bf; 0xffff7718; 0x1aa1; 0xc05a;
     0xfffedc43; 0xffff825c; 0x2aa5; 0xd51e; 0xfffee5c7; 0xffff90a0; 0x3da9; 0xece2; 0xfffef24b;
     0xffffa1e4; 0x53ad; 0x107a6; 0xffff01cf; 0xffffb628];
    [0x6cb1; 0x1256a; 0xffff1453; 0xffffcd6c; 0x88b5; 0x1462e; 0xffff29d7; 0xffffe7b0; 0xa7b9;
     0x169f2; 0xffff425b; 0x4f4; 0xc9bd; 0x190b6; 0xffff5ddf; 0x2538; 0xeec1; 0x1ba7a; 0xffff7c63;
     0x487c; 0x116c5; 0x1e73e; 0xffff9de7; 0x6ec0; 0x141c9; 0x21702; 0xffffc26b; 0xffffdd04;
     0xc3cd; 0x198c6; 0xffff33ef; 0x948];
    [0xfffffdd1; 0xd28a; 0xfffe5d73; 0xffff328c; 0x9d5; 0xe34e; 0xfffe62f7; 0xffff3cd0; 0x18d9;
     0xf712; 0xfffe6b7b; 0xffff4a14; 0x2add; 0x10dd6; 0xfffe76ff; 0xffff5a58; 0x3fe1; 0x1279a;
     0xfffe8583; 0xffff6d9c; 0x57e5; 0x1445e; 0xfffe9707; 0xffff83e0; 0x72e9; 0x16422; 0xfffeab8b;
     0xffff9d24; 0x90ed; 0x186e6; 0xfffec30f; 0xffffb968];
    [0xb1f1; 0x1acaa; 0xfffedd93; 0xffffd8ac; 0xd5f5; 0x1d56e; 0xfffefb17; 0xfffffaf0; 0xfcf9;
     0x20132; 0xffff1b9b; 0x2034; 0x126fd; 0x22ff6; 0xffff3f1f; 0x8b36; 0x93c3; 0x9d80; 0x9d6d;
     0xa78a; 0xb4d7; 0xc354; 0xb801; 0xc6de; 0xd4eb; 0xe828; 0xd195; 0xffffea32; 0xfff; 0x22fc;
     0xfffffc29; 0xf86];
    [0xffffee13; 0xfffffcd0; 0xffffc1bd; 0xffffd0da; 0xffffe327; 0xfffff6a4; 0xffffb051;
     0xffffc42e; 0xffffd73b; 0xffffef78; 0xffff9de5; 0xffffb682; 0xffffd24f; 0xffffef4c;
     0xffff9279; 0xffffafd6; 0xffffd063; 0xfffff220; 0xffff8a0d; 0xffffac2a; 0xffffd177;
     0xfffff7f4; 0xffff84a1; 0xffffab7e; 0xffffd18b; 0xfffffcc8; 0xffff7e35; 0xffffa9d2;
     0xffffd89f; 0x89c; 0xffff7ec9; 0xffffaf26];
    [0xffffe2b3; 0x1770; 0xffff825d; 0xffffb77a; 0xffffefc7; 0x2944; 0xffff88f1; 0xffffc2ce;
     0xfffffbdb; 0x3a18; 0xffff8e85; 0xffffcd22; 0xeef; 0x51ec; 0xffff9b19; 0xffffde76; 0x2503;
     0x6cc0; 0xffffaaad; 0xfffff2ca; 0x3e17; 0x8a94; 0xffffbd41; 0xa1e; 0x562b; 0xa768; 0xffffced5;
     0xffffe572; 0x493f; 0x9a3c; 0xffffb169; 0x2c6];
    [0xfffff353; 0x4410; 0xffff4afd; 0xffff9c1a; 0xfffff067; 0x45e4; 0xffff4191; 0xffff976e;
     0xffffec7b; 0x46b8; 0xffff3725; 0xffff91c2; 0xffffef8f; 0x4e8c; 0xffff33b9; 0xffff9316;
     0xfffff5a3; 0x5960; 0xffff334d; 0xffff976a; 0xfffffeb7; 0x6734; 0xffff35e1; 0xffff9ebe; 0x6cb;
     0x7408; 0xffff3775; 0xffffa512; 0x15df; 0x87dc; 0xffff4009; 0xffffb266];
    [0x27f3; 0x9eb0; 0xffff4b9d; 0xffffc2ba; 0x3d07; 0xb884; 0xffff5a31; 0xffffd60e; 0x511b;
     0xd158; 0xffff67c5; 0xffffe862; 0x6c2f; 0xf12c; 0xffff7c59; 0x1b6; 0x8a43; 0x11400;
     0xffff93ed; 0x1e0a; 0xab57; 0x139d4; 0xffffae81; 0x3d5e; 0xcb6b; 0x15ea8; 0xffffc815;
     0xffffe0b2; 0x867f; 0x1197c; 0xffff72a9; 0x606];
    [0xfffff893; 0x8b50; 0xfffed43d; 0xffff675a; 0xfffffda7; 0x9524; 0xfffed2d1; 0xffff6aae; 0x1bb;
     0x9df8; 0xfffed065; 0xffff6d02; 0xccf; 0xadcc; 0xfffed4f9; 0xffff7656; 0x1ae3; 0xc0a0;
     0xfffedc8d; 0xffff82aa; 0x2bf7; 0xd674; 0xfffee721; 0xffff91fe; 0x3c0b; 0xeb48; 0xfffef0b5;
     0xffffa052; 0x531f; 0x1071c; 0xffff0149; 0xffffb5a6];
    [0x6d33; 0x125f0; 0xffff14dd; 0xffffcdfa; 0x8a47; 0x147c4; 0xffff2b71; 0xffffe94e; 0xa65b;
     0x16898; 0xffff4105; 0x3a2; 0xc96f; 0x1906c; 0xffff5d99; 0x24f6; 0xef83; 0x1bb40; 0xffff7d2d;
     0x494a; 0x11897; 0x1e914; 0xffff9fc1; 0x709e; 0x140ab; 0x215e8; 0xffffc155; 0xffffdbf2;
     0xc3bf; 0x198bc; 0xffff33e9; 0x946];
    [0xfffffdd3; 0xd290; 0xfffe5d7d; 0xffff329a; 0xae7; 0xe464; 0xfffe6411; 0xffff3dee; 0x16fb;
     0xf538; 0xfffe69a5; 0xffff4842; 0x2a0f; 0x10d0c; 0xfffe7639; 0xffff5996; 0x4023; 0x127e0;
     0xfffe85cd; 0xffff6dea; 0x5937; 0x145b4; 0xfffe9861; 0xffff853e; 0x714b; 0x16288; 0xfffea9f5;
     0xffff9b92; 0x905f; 0x1865c; 0xfffec289; 0xffffb8e6];
    [0xb273; 0x1ad30; 0xfffede1d; 0xffffd93a; 0xd787; 0x1d704; 0xfffefcb1; 0xfffffc8e; 0xfb9b;
     0x1ffd8; 0xffff1a45; 0x1ee2; 0x126af; 0x22fac; 0xffff3ed9; 0x8af4; 0x9485; 0x9e46; 0x9e37;
     0xa858; 0xb6a9; 0xc52a; 0xb9db; 0xc8bc; 0xd3cd; 0xe70e; 0xd07f; 0xffffe920; 0xff1; 0x22f2;
     0xfffffc23; 0xf84]].

(** [v6mpy_ref[i][j]] *)
Definition v6mpy_ref (i j : Z) : Z := nth (Z.to_nat j) (nth (Z.to_nat i) v6mpy_ref_table []) 0.
