(* ===== verification/HvxMisc.v ===== *)
(** src/hvx_misc.c and include/hvx_misc.h: the HVX instruction tests.  Each test
    runs a few packets of vector instructions on buffers of vectors, computes
    what they should have stored in scalar C, and compares the two. *)

From S2P Require Import Prelude ByteMem HvxVec HvxRef.

Open Scope string_scope.
Open Scope list_scope.
Open Scope Z_scope.

Definition MAX_VEC_SIZE_BYTES : Z := 128.
Definition BUFSIZE : Z := 16.
Definition MASKMOD : Z := 3.
Definition THRESHOLD : Z := 31.

(** The global arrays of [BUFSIZE] vectors, aligned to the size of a vector. *)
Inductive buf :=
  | buffer0 | buffer1 | sf_buffer0 | sf_buffer1 | hf_buffer0 | hf_buffer1 | mask | output | expect.

(** The bytes of the arrays. *)
Record memory := Memory {
  m_buffer0 : list Z; m_buffer1 : list Z; m_sf_buffer0 : list Z; m_sf_buffer1 : list Z;
  m_hf_buffer0 : list Z; m_hf_buffer1 : list Z; m_mask : list Z; m_output : list Z; m_expect : list Z
}.

Definition get (m : memory) (b : buf) : list Z :=
  match b with
  | buffer0 => m_buffer0 m | buffer1 => m_buffer1 m | sf_buffer0 => m_sf_buffer0 m
  | sf_buffer1 => m_sf_buffer1 m | hf_buffer0 => m_hf_buffer0 m | hf_buffer1 => m_hf_buffer1 m
  | mask => m_mask m | output => m_output m | expect => m_expect m
  end.

Definition set (m : memory) (b : buf) (l : list Z) : memory :=
  let '(Memory b0 b1 s0 s1 h0 h1 k o e) := m in
  match b with
  | buffer0 => Memory l b1 s0 s1 h0 h1 k o e
  | buffer1 => Memory b0 l s0 s1 h0 h1 k o e
  | sf_buffer0 => Memory b0 b1 l s1 h0 h1 k o e
  | sf_buffer1 => Memory b0 b1 s0 l h0 h1 k o e
  | hf_buffer0 => Memory b0 b1 s0 s1 l h1 k o e
  | hf_buffer1 => Memory b0 b1 s0 s1 h0 l k o e
  | mask => Memory b0 b1 s0 s1 h0 h1 l o e
  | output => Memory b0 b1 s0 s1 h0 h1 k l e
  | expect => Memory b0 b1 s0 s1 h0 h1 k o l
  end.

Definition BUFBYTES : Z := BUFSIZE * VLEN.

Definition put (m : memory) (b : buf) (a : Z) (x : list Z) : memory := set m b (splice (get m b) a x).

(** A pointer into an array, in bytes. *)
Abbreviation ptr := (buf * Z)%type.
Definition padd (p : ptr) (n : Z) : ptr := (p.1, p.2 + n).

(** The registers of the assembly: scalars, scalar predicates, vectors and
    vector predicates. *)
Record regs := Regs { R : Z -> Z; P : Z -> bool; V : Z -> vec; Q : Z -> list bool }.

Record mstate := MState { mem : memory; rf : regs; merr : Z; mout : list (string * list Z) }.

(* ------------------------------------------------------------------ *)
(** ** Packets *)

Definition upd {A} (f : Z -> A) (i : Z) (x : A) (j : Z) : A := if j =? i then x else f j.

Definition set_R r v x : regs := Regs (upd (R x) r v) (P x) (V x) (Q x).
Definition set_P p v x : regs := Regs (R x) (upd (P x) p v) (V x) (Q x).
Definition set_V d v x : regs := Regs (R x) (P x) (upd (V x) d v) (Q x).
Definition set_Q q v x : regs := Regs (R x) (P x) (V x) (upd (Q x) q v).

(** Aligned accesses ignore the low bits of the address.  An access outside the
    array has no value. *)
Definition in_bounds (a n : Z) : bool := (0 <=? a) && (a + n <=? BUFBYTES).
Definition align (a : Z) : Z := VLEN * (a / VLEN).

Definition vload (m : memory) (p : ptr) : option vec :=
  if in_bounds p.2 VLEN then Some (sub (get m p.1) p.2 VLEN) else None.
Definition vstore (m : memory) (p : ptr) (x : vec) : option memory :=
  if in_bounds p.2 VLEN then Some (put m p.1 p.2 x) else None.
Definition aligned (p : ptr) : ptr := (p.1, align p.2).

(** How the result of a load is seen: written to the register at the end of the
    packet; seen by the other instructions of the packet as well; or seen by
    them only. *)
Inductive mode := Normal | Cur | Tmp.

Inductive insn :=
  | SetR (r v : Z)
  | SetP (p : Z) (b : bool)
  | Vmem (m : mode) (c : option Z) (d : Z) (p : ptr)
  | Vmemu (d : Z) (p : ptr)
  | Valu (m : mode) (f : regs -> list (Z * vec))
  | Qalu (q : Z) (f : regs -> list bool)
  | StV (p : ptr) (d : Z)
  | StVnew (p : ptr) (d : Z)
  | StVu (p : ptr) (d : Z)
  | StVq (sense : bool) (q : Z) (p : ptr) (d : Z).

Definition set_vecs (l : list (Z * vec)) (r : regs) : regs := foldl (fun r x => set_V x.1 x.2 r) r l.

(** What an instruction loads, if its predicate holds. *)
Definition loaded (m : memory) (r : regs) (c : option Z) (d : Z) (p : ptr) : option (list (Z * vec)) :=
  if match c with Some c => P r c | None => true end
  then v ← vload m (aligned p); Some [(d, v)] else Some [].

(** What an instruction lets the others of its packet see. *)
Definition forwarded (m : memory) (r : regs) (i : insn) : option (list (Z * vec)) :=
  match i with
  | Vmem (Cur | Tmp) c d p => loaded m r c d p
  | Valu (Cur | Tmp) f => Some (f r)
  | _ => Some []
  end.

(** What it writes at the end of the packet, given what it sees. *)
Definition written (m : memory) (r view : regs) (i : insn) : option (list (Z * vec)) :=
  match i with
  | Vmem (Normal | Cur) c d p => loaded m r c d p
  | Vmemu d p => v ← vload m p; Some [(d, v)]
  | Valu Normal f => Some (f view)
  | _ => Some []
  end.

Definition scalars (view : regs) (r : regs) (i : insn) : regs :=
  match i with
  | SetR d v => set_R d v r
  | SetP d b => set_P d b r
  | Qalu q f => set_Q q (f view) r
  | _ => r
  end.

Definition stored (view new : regs) (m : memory) (i : insn) : option memory :=
  match i with
  | StV p d => vstore m (aligned p) (V view d)
  | StVnew p d => vstore m (aligned p) (V new d)
  | StVu p d => vstore m p (V view d)
  | StVq sense q p d =>
      old ← vload m (aligned p); vstore m (aligned p) (merge sense (Q view q) (V view d) old)
  | _ => Some m
  end.

Fixpoint stores (view new : regs) (m : memory) (l : list insn) : option memory :=
  match l with [] => Some m | i :: l => m ← stored view new m i; stores view new m l end.

Fixpoint collect (f : insn -> option (list (Z * vec))) (l : list insn) : option (list (Z * vec)) :=
  match l with [] => Some [] | i :: l => x ← f i; y ← collect f l; Some (x ++ y) end.

(** The instructions of a packet execute in parallel. *)
Definition packet (l : list insn) (m : memory) (r : regs) : option (memory * regs) :=
  fw ← collect (forwarded m r) l;
  let view := set_vecs fw r in
  ws ← collect (written m r view) l;
  let new := set_vecs ws (foldl (scalars view) r l) in
  m ← stores view new m l;
  Some (m, new).

Fixpoint packets (l : list (list insn)) (m : memory) (r : regs) : option (memory * regs) :=
  match l with [] => Some (m, r) | p :: l => '(m, r) ← packet p m r; packets l m r end.

Definition asm (l : list (list insn)) : prog mstate () := fun s =>
  match packets l (mem s) (rf s) with
  | Some (m, r) => Done tt (MState m r (merr s) (mout s))
  | None => Undef
  end.

(* ------------------------------------------------------------------ *)
(** ** Instructions *)

(** [vd = vmem(p)], and the scalar operand [%n] of the compiler's choice as a
    value. *)
Definition vmem (d : Z) (p : ptr) : insn := Vmem Normal None d p.

Inductive operand := Reg (r : Z) | Imm (v : Z).
Definition value (o : operand) (r : regs) : Z := match o with Reg i => R r i | Imm v => v end.

Definition splat (w v : Z) : vec := gen w (fun _ => v).
Definition vsplat (d : Z) (o : operand) : insn := Valu Normal (fun r => [(d, splat 4 (value o r))]).
Definition vsplat_b (d : Z) (o : operand) : insn := Valu Normal (fun r => [(d, splat 1 (value o r))]).

Definition valu1 (f : vec -> vec) (d a : Z) : insn := Valu Normal (fun r => [(d, f (V r a))]).
Definition valu2 (f : vec -> vec -> vec) (d a b : Z) : insn := Valu Normal (fun r => [(d, f (V r a) (V r b))]).
(** On register pairs, given by their low registers. *)
Definition valu2_dv (f : vec -> vec -> vec) (d a b : Z) : insn :=
  Valu Normal (fun r => [(d, f (V r a) (V r b)); (d + 1, f (V r (a + 1)) (V r (b + 1)))]).

Definition vadd (w : Z) : vec -> vec -> vec := lanes2 w Z.add.
Definition vsub (w : Z) : vec -> vec -> vec := lanes2 w Z.sub.
Definition vxor : vec -> vec -> vec := lanes2 2 Z.lxor.
Definition vand : vec -> vec -> vec := lanes2 2 Z.land.
Definition vor : vec -> vec -> vec := lanes2 2 Z.lor.
Definition vnot : vec -> vec := lanes1 2 Z.lnot.
Definition vadd_uw_sat : vec -> vec -> vec := lanes2 4 (fun x y => Z.min (x + y) (2 ^ 32 - 1)).
Definition vsub_uw_sat : vec -> vec -> vec := lanes2 4 (fun x y => Z.max (x - y) 0).

(** [vshuffe]: the even bytes of the two, interleaved, those of the second
    below. *)
Definition vshuffe_b : vec -> vec -> vec := lanes2 2 (fun x y => Z.lor (Z.land y 0xff) (Z.shiftl (Z.land x 0xff) 8)).

(** [vddd = vcombine(u, v)]: [v] is the low half; the pair is written [hi:lo]. *)
Definition vcombine (m : mode) (hi lo u v : Z) : insn := Valu m (fun r => [(lo, V r v); (hi, V r u)]).

(** [vxx += vmpyo(u.w, v.h)], with [vxx] the pair at [x]: the 48-bit product by
    the odd halfword, added to the accumulator's high word, in two halves. *)
Definition vmpyo (lo hi u v : vec) : vec * vec :=
  let prod j := swrap 32 (elem 4 u j) * swrap 16 (elem 2 v (2 * j + 1)) + swrap 32 (elem 4 hi j) in
  (gen 4 (fun j => Z.lor (Z.shiftr (elem 4 lo j) 16) (Z.shiftl (u16 (prod j)) 16)),
   gen 4 (fun j => Z.shiftr (prod j) 16)).
Definition vmpyo_acc (x u v : Z) : insn := Valu Normal (fun r =>
  let p := vmpyo (V r x) (V r (x + 1)) (V r u) (V r v) in [(x, p.1); (x + 1, p.2)]).

(** [vdelta] and [vrdelta]: stages of a butterfly network, stage [n] swapping
    with the byte [n] away where bit [n] of the control is set. *)
Definition stage (c : vec) (v : vec) (n : Z) : vec :=
  (fun k => if Z.land (byte c k) n =? 0 then byte v k else byte v (Z.lxor k n)) <$> seqZ 0 VLEN.
Definition vdelta (v c : vec) : vec := foldl (stage c) v [64; 32; 16; 8; 4; 2; 1].
Definition vrdelta (v c : vec) : vec := foldl (stage c) v [1; 2; 4; 8; 16; 32; 64].

(** [vdeal(vy, vx, rt)]: stage [n] exchanges the bytes of the two where bit [n]
    of [rt] is set. *)
Definition deal_stage (rt : Z) (yx : vec * vec) (n : Z) : vec * vec :=
  let '(y, x) := yx in
  if Z.land rt n =? 0 then (y, x)
  else ((fun k => if Z.land k n =? 0 then byte x (k + n) else byte y k) <$> seqZ 0 VLEN,
        (fun k => if Z.land k n =? 0 then byte x k else byte y (k - n)) <$> seqZ 0 VLEN).
Definition vdeal (y x : Z) (rt : Z) : insn := Valu Normal (fun r =>
  let '(vy, vx) := foldl (deal_stage (R r rt)) (V r y, V r x) [64; 32; 16; 8; 4; 2; 1] in
  [(y, vy); (x, vx)]).

Definition vcmp_eq_w (q a b : Z) : insn := Qalu q (fun r => cmp_lanes 4 Z.eqb (V r a) (V r b)).
Definition vcmp_gt_b (q a b : Z) : insn :=
  Qalu q (fun r => cmp_lanes 1 (fun x y => swrap 8 y <? swrap 8 x) (V r a) (V r b)).

(** Logic on vector predicates; [inv] inverts the second. *)
Definition qlogic (f : bool -> bool -> bool) (inv : bool) (q a b : Z) : insn :=
  Qalu q (fun r => (fun k => f (qbit (Q r a) k) (xorb inv (qbit (Q r b) k))) <$> seqZ 0 VLEN).

(** The instructions on floating point numbers, element by element, and the
    matrix multiplication [v5:4.w = v6mpy(u5:4.ub, v3:2.b, #1):v] on pairs
    [(high, low)], of which the test uses the low half: the repository has
    results of theirs but no definition.  Comparisons and extrema are those of
    C's [>] on numbers; a comparison with the 16-bit pattern of all ones holds
    up to version 80. *)
Class HvxData := {
  gt_sf : Z -> Z -> bool;
  gt_hf : Z -> Z -> bool;
  max_sf : Z -> Z -> Z;
  min_sf : Z -> Z -> Z;
  max_hf : Z -> Z -> Z;
  min_hf : Z -> Z -> Z;
  v6mpy_v1 : vec * vec -> vec * vec -> vec * vec
}.

Class HvxDataLaws `{HvxData} (hex_rev : Z) : Prop := {
  gt_sf_numbers x y : sf_nan x = false -> sf_nan y = false -> gt_sf x y = sf_gt x y;
  gt_hf_numbers x y : hf_nan x = false -> hf_nan y = false -> gt_hf x y = hf_gt x y;
  gt_hf_all_ones : gt_hf 0 0xffff = (hex_rev <? 81);
  max_sf_numbers x y : sf_nan x = false -> sf_nan y = false -> sf_zero x && sf_zero y = false ->
    max_sf x y = if sf_gt x y then x else y;
  min_sf_numbers x y : sf_nan x = false -> sf_nan y = false -> sf_zero x && sf_zero y = false ->
    min_sf x y = if sf_gt x y then y else x;
  max_hf_numbers x y : hf_nan x = false -> hf_nan y = false -> hf_zero x && hf_zero y = false ->
    max_hf x y = if hf_gt x y then x else y;
  min_hf_numbers x y : hf_nan x = false -> hf_nan y = false -> hf_zero x && hf_zero y = false ->
    min_hf x y = if hf_gt x y then y else x
}.

(* ------------------------------------------------------------------ *)
(** ** The C side *)

(** The members of the union [MMVector]: element width in bytes and
    signedness. *)
Inductive field := Fud | Fd | Fuw | Fw | Fuh | Fh | Fub | Fb | Fsf | Fhf.

Definition fsize (f : field) : Z :=
  match f with Fud | Fd => 8 | Fuw | Fw | Fsf => 4 | Fuh | Fh | Fhf => 2 | Fub | Fb => 1 end.
Definition fsigned (f : field) : bool :=
  match f with Fd | Fw | Fh | Fb | Fsf | Fhf => true | _ => false end.
Definition fvalue (f : field) (x : Z) : Z := if fsigned f then swrap (8 * fsize f) x else x.

(** [b[i].f[j]]: the value of the element, and storing one. *)
Definition in_array (f : field) (i j : Z) : bool :=
  (0 <=? i) && (i <? BUFSIZE) && (0 <=? j) && (j <? VLEN / fsize f).

Definition rd (b : buf) (i : Z) (f : field) (j : Z) : prog mstate Z := fun s =>
  if in_array f i j then Done (fvalue f (elem (fsize f) (sub (get (mem s) b) (VLEN * i) VLEN) j)) s else Undef.

Definition write (b : buf) (a : Z) (x : list Z) (s : mstate) : mstate :=
  MState (put (mem s) b a x) (rf s) (merr s) (mout s).

Definition wr (b : buf) (i : Z) (f : field) (j v : Z) : prog mstate () := fun s =>
  if in_array f i j then Done tt (write b (VLEN * i + fsize f * j) (le_bytes (fsize f) v) s) else Undef.

(** Copies of bytes between arrays, and filling one. *)
Definition copy (d : ptr) (p : ptr) (n : Z) : prog mstate () := fun s =>
  if in_bounds d.2 n && in_bounds p.2 n then Done tt (write d.1 d.2 (sub (get (mem s) p.1) p.2 n) s) else Undef.
Definition memset (b : buf) (c n : Z) : prog mstate () := fun s =>
  if in_bounds 0 n then Done tt (write b 0 (replicate (Z.to_nat n) (c mod 256)) s) else Undef.

(** [&b[i]], and [d[i] = p[j]] of whole vectors. *)
Definition at_ (b : buf) (i : Z) : ptr := (b, VLEN * i).
Definition assign (d : buf) (i : Z) (b : buf) (j : Z) : prog mstate () := copy (at_ d i) (at_ b j) VLEN.

Definition check_format : string := "ERROR at line %d: [%d][%d] 0x%016llx != 0x%016llx".

Definition check (line i j result expect : Z) : prog mstate () :=
  if negb (u64 result =? u64 expect) then
    modify (fun s => MState (mem s) (rf s) (s32 (merr s + 1))
      (mout s ++ [(check_format, [line; i; j; u64 result; u64 expect])]))
  else mret tt.

(** CHECK_OUTPUT_FUNC *)
Definition check_output (f : field) (line num_vectors : Z) : prog mstate () :=
  for_ 0 num_vectors (fun i => for_ 0 (MAX_VEC_SIZE_BYTES / fsize f) (fun j =>
    r ← rd output i f j; e ← rd expect i f j; check line i j r e)).

Definition check_output_d := check_output Fd.
Definition check_output_w := check_output Fw.
Definition check_output_h := check_output Fh.
Definition check_output_b := check_output Fb.

(** [for (j = 0; j < MAX_VEC_SIZE_BYTES / sizeof(f); j++)] *)
Definition for_elems (f : field) (body : Z -> prog mstate ()) : prog mstate () :=
  for_ 0 (MAX_VEC_SIZE_BYTES / fsize f) body.

(** The counters of [init_buffers]; [++] stores and steps them. *)
Definition init_buffers : prog mstate () :=
  for_acc 0 BUFSIZE (fun i '(c0, c1, sf0, sf1, hf0, hf1) =>
    '(c0, c1) ← for_acc 0 MAX_VEC_SIZE_BYTES (fun j '(c0, c1) =>
      wr buffer0 i Fb j c0;; wr buffer1 i Fb j c1;; mret (c0 + 1, c1 + 1)) (c0, c1);
    '(sf0, sf1) ← for_acc 0 (MAX_VEC_SIZE_BYTES / 4) (fun j '(sf0, sf1) =>
      wr sf_buffer0 i Fsf j sf0;; wr sf_buffer1 i Fsf j sf1;; mret (sf0 + 1, sf1 + 1)) (sf0, sf1);
    '(hf0, hf1) ← for_acc 0 (MAX_VEC_SIZE_BYTES / 2) (fun j '(hf0, hf1) =>
      wr hf_buffer0 i Fhf j hf0;; wr hf_buffer1 i Fhf j hf1;; mret (hf0 + 1, hf1 + 1)) (hf0, hf1);
    for_ 0 (MAX_VEC_SIZE_BYTES / 4) (fun j =>
      wr mask i Fw j (if i + Z.rem j MASKMOD =? 0 then 0 else 1));;
    mret (c0, c1, sf0, sf1, hf0, hf1)) (0, 17, 0, 17, 0, 17);;
  mret tt.

(** Loops whose pointers step by one vector each round. *)
Definition next (p : ptr) : ptr := padd p VLEN.

(** TEST_VEC_OP1 and TEST_VEC_OP2 *)
Definition test_vec_op1 (f : vec -> vec) (fld : field) (c_op : Z -> Z) (line : Z) : prog mstate () :=
  for_acc 0 BUFSIZE (fun _ '(pin, pout) =>
    asm [[vmem 2 pin]; [valu1 f 2 2]; [StV pout 2]];;
    mret (next pin, next pout)) (at_ buffer0 0, at_ output 0);;
  for_ 0 BUFSIZE (fun i => for_elems fld (fun j =>
    x ← rd buffer0 i fld j; wr expect i fld j (c_op x)));;
  check_output fld line BUFSIZE.

Definition test_vec_op2 (f : vec -> vec -> vec) (fld : field) (c_op : Z -> Z -> Z) (line : Z) : prog mstate () :=
  for_acc 0 BUFSIZE (fun _ '(p0, p1, pout) =>
    asm [[vmem 2 p0]; [vmem 3 p1]; [valu2 f 2 2 3]; [StV pout 2]];;
    mret (next p0, next p1, next pout)) (at_ buffer0 0, at_ buffer1 0, at_ output 0);;
  for_ 0 BUFSIZE (fun i => for_elems fld (fun j =>
    x ← rd buffer0 i fld j; y ← rd buffer1 i fld j; wr expect i fld j (c_op x y)));;
  check_output fld line BUFSIZE.

(** TEST_PRED_OP2: [inv] is the "!" of the assembly, [invert] the argument. *)
Definition test_pred_op2 (op : bool -> bool -> bool) (inv : bool) (line : Z) (invert : bool) : prog mstate () :=
  memset output 0 BUFBYTES;;
  for_acc 0 BUFSIZE (fun _ '(p0, p1, pout) =>
    asm [[SetR 4 THRESHOLD]; [vsplat_b 1 (Reg 4)];
         [vmem 2 p0]; [vcmp_gt_b 0 2 1]; [vmem 3 p1]; [vcmp_gt_b 1 3 1];
         [qlogic op inv 2 0 1]; [SetR 4 0xff]; [vsplat_b 1 (Reg 4)]; [StVq true 2 pout 1]];;
    mret (next p0, next p1, next pout)) (at_ buffer0 0, at_ buffer1 0, at_ output 0);;
  for_ 0 BUFSIZE (fun i => for_elems Fb (fun j =>
    x ← rd buffer0 i Fb j; y ← rd buffer1 i Fb j;
    let p0 := THRESHOLD <? x in
    let p1 := THRESHOLD <? y in
    if invert then wr expect i Fb j (if op p0 (negb p1) then 0xff else 0)
    else wr expect i Fb j (if op p0 p1 then 0xff else 0)));;
  check_output_b line BUFSIZE.

(* ------------------------------------------------------------------ *)
(** ** The tests *)

Section tests.
Context `{HvxData}.
(** [__HEXAGON_ARCH__], below 81 here: valign4 and its test are left out of such
    a build; and the runtime's conversion of 16-bit to 32-bit numbers. *)
Variables (hexagon_arch : Z) (extendhfsf2 : Z -> Z).

Definition test_load_tmp : prog mstate () :=
  for_acc 0 BUFSIZE (fun i '(p0, p1, pout) =>
    asm [[vmem 3 p0]; [SetR 1 1]; [vsplat 12 (Reg 1)];
         [Vmem Tmp None 12 p1; valu2 (vadd 4) 4 12 3];
         [valu2 (vadd 4) 4 4 12]; [StV pout 4]];;
    for_elems Fw (fun j =>
      x ← rd buffer0 i Fw j; y ← rd buffer1 i Fw j; wr expect i Fw j (x + y + 1));;
    mret (next p0, next p1, next pout)) (at_ buffer0 0, at_ buffer1 0, at_ output 0);;
  check_output_w 49 BUFSIZE.

Definition test_load_tmp2 : prog mstate () :=
  let pout0 := at_ output 0 in
  let pout1 := at_ output 1 in
  asm [[SetR 0 0]; [vsplat 14 (Reg 0)]; [vsplat 15 (Reg 0)]; [vsplat 24 (Reg 0)]; [vsplat 25 (Reg 0)];
       [SetR 0 0x03030303]; [vsplat 16 (Reg 0)]; [SetR 0 0x04040404]; [vsplat 18 (Reg 0)];
       [SetR 0 0x05050505]; [vsplat 21 (Reg 0)];
       [vmpyo_acc 24 18 14; vcombine Tmp 15 14 21 16];
       [StV pout0 24]; [StV pout1 25]];;
  for_elems Fw (fun i => wr expect 0 Fw i 0x180c0000;; wr expect 1 Fw i 0x000c1818);;
  check_output_w 84 2.

Definition test_load_cur : prog mstate () :=
  for_acc 0 BUFSIZE (fun i '(p0, pout) =>
    asm [[Vmem Cur None 2 p0; StV pout 2]];;
    for_elems Fuw (fun j => x ← rd buffer0 i Fuw j; wr expect i Fuw j x);;
    mret (next p0, next pout)) (at_ buffer0 0, at_ output 0);;
  check_output_w 106 BUFSIZE.

Definition test_load_aligned : prog mstate () :=
  let p0 := padd (at_ buffer0 0) 13 in
  asm [[vmem 2 p0]; [StV (at_ output 0) 2]];;
  assign expect 0 buffer0 0;;
  check_output_w 123 1.

Definition test_load_unaligned : prog mstate () :=
  let offset := 12 in
  let p0 := padd (at_ buffer0 0) offset in
  asm [[Vmemu 2 p0]; [StV (at_ output 0) 2]];;
  copy (at_ expect 0) (padd (at_ buffer0 0) offset) VLEN;;
  check_output_w 139 1.

Definition test_store_aligned : prog mstate () :=
  let pout := padd (at_ output 0) 13 in
  asm [[vmem 2 (at_ buffer0 0)]; [StV pout 2]];;
  assign expect 0 buffer0 0;;
  check_output_w 156 1.

Definition test_store_unaligned : prog mstate () :=
  let offset := 12 in
  let pout := padd (at_ output 0) offset in
  asm [[vmem 2 (at_ buffer0 0)]; [StVu pout 2]];;
  copy (at_ expect 0) (at_ buffer0 0) (2 * VLEN);;
  copy (padd (at_ expect 0) offset) (at_ buffer0 0) VLEN;;
  check_output_w 173 2.

Definition test_masked_store (invert : bool) : prog mstate () :=
  memset expect 0xff BUFBYTES;;
  memset output 0xff BUFBYTES;;
  for_acc 0 BUFSIZE (fun i '(p0, pmask, pout) =>
    asm [[SetR 4 0]; [vsplat 4 (Reg 4)]; [vmem 5 pmask]; [vcmp_eq_w 0 4 5]; [vmem 5 p0];
         [StVq (negb invert) 0 pout 5]];;
    for_elems Fw (fun j =>
      if invert then
        if negb (i + Z.rem j MASKMOD =? 0) then x ← rd buffer0 i Fw j; wr expect i Fw j x else mret tt
      else
        if i + Z.rem j MASKMOD =? 0 then x ← rd buffer0 i Fw j; wr expect i Fw j x else mret tt);;
    mret (next p0, next pmask, next pout)) (at_ buffer0 0, at_ mask 0, at_ output 0);;
  check_output_w 222 BUFSIZE.

Definition test_new_value_store : prog mstate () :=
  let p0 := at_ buffer0 0 in
  let p1 := at_ buffer1 0 in
  let pout := at_ output 0 in
  asm [[vmem 2 p0; StVnew pout 2]];;
  assign expect 0 buffer0 0;;
  check_output_w 239 1;;
  asm [[vmem 7 p0]; [vmem 12 p1]; [vcombine Normal 5 4 12 7; StVnew pout 5]];;
  assign expect 0 buffer1 0;;
  check_output_w 252 1.

Definition test_max_temps : prog mstate () :=
  let p0 := at_ buffer0 0 in
  let pout := at_ output 0 in
  let vec_at p n := padd p (n * VLEN) in
  asm [[vmem 0 (vec_at p0 0)]; [vmem 1 (vec_at p0 1)]; [vmem 2 (vec_at p0 2)]; [vmem 3 (vec_at p0 3)];
       [vmem 4 (vec_at p0 4)];
       [valu2_dv (vadd 4) 0 2 0; valu2 vshuffe_b 2 3 2; valu2 (vadd 4) 3 1 4; Vmem Tmp None 4 (vec_at p0 5)];
       [StV (vec_at pout 0) 0]; [StV (vec_at pout 1) 1]; [StV (vec_at pout 2) 2]; [StV (vec_at pout 3) 3];
       [StV (vec_at pout 4) 4]];;
  for_elems Fw (fun i =>
    x ← rd buffer0 0 Fw i; y ← rd buffer0 2 Fw i; wr expect 0 Fw i (x + y);;
    x ← rd buffer0 1 Fw i; y ← rd buffer0 3 Fw i; wr expect 1 Fw i (x + y));;
  for_elems Fuh (fun i =>
    x ← rd buffer0 2 Fuh i; y ← rd buffer0 3 Fuh i;
    wr expect 2 Fuh i (Z.lor (Z.land x 0xff) (Z.shiftl (Z.land y 0xff) 8)));;
  for_elems Fw (fun i =>
    x ← rd buffer0 1 Fw i; y ← rd buffer0 5 Fw i; wr expect 3 Fw i (x + y));;
  assign expect 4 buffer0 4;;
  check_output_b 298 5.

Definition test_vadd_w := test_vec_op2 (vadd 4) Fw Z.add 301.
Definition test_vadd_h := test_vec_op2 (vadd 2) Fh Z.add 302.
Definition test_vadd_b := test_vec_op2 (vadd 1) Fb Z.add 303.
Definition test_vsub_w := test_vec_op2 (vsub 4) Fw Z.sub 304.
Definition test_vsub_h := test_vec_op2 (vsub 2) Fh Z.sub 305.
Definition test_vsub_b := test_vec_op2 (vsub 1) Fb Z.sub 306.
Definition test_vxor := test_vec_op2 vxor Fd Z.lxor 307.
Definition test_vand := test_vec_op2 vand Fd Z.land 308.
Definition test_vor := test_vec_op2 vor Fd Z.lor 309.
Definition test_vnot := test_vec_op1 vnot Fd Z.lnot 310.

Definition test_pred_or := test_pred_op2 orb false 312.
Definition test_pred_or_n := test_pred_op2 orb true 313.
Definition test_pred_and := test_pred_op2 andb false 314.
Definition test_pred_and_n := test_pred_op2 andb true 315.
Definition test_pred_xor := test_pred_op2 xorb false 316.

(** The comparisons of the floating point tests, in C. *)
Definition c_gt_sf (x y : Z) : bool := sf_gt (u32 x) (u32 y).
Definition c_gt_hf (x y : Z) : bool := sf_gt (extendhfsf2 x) (extendhfsf2 y).

Definition test_vgtsf : prog mstate () :=
  memset expect 0xff BUFBYTES;;
  memset output 0xff BUFBYTES;;
  for_acc 0 BUFSIZE (fun i '(p0, p1, pout) =>
    asm [[vmem 4 p0]; [vmem 5 p1]; [Qalu 0 (fun r => cmp_lanes 4 gt_sf (V r 4) (V r 5))];
         [SetR 4 0]; [vsplat 5 (Reg 4)]; [StVq true 0 pout 5]];;
    for_elems Fsf (fun j =>
      x ← rd sf_buffer0 i Fsf j; y ← rd sf_buffer1 i Fsf j;
      if c_gt_sf x y then wr expect i Fw j 0 else mret tt);;
    mret (next p0, next p1, next pout)) (at_ sf_buffer0 0, at_ sf_buffer1 0, at_ output 0);;
  check_output_w 359 BUFSIZE.

Definition test_vgthf : prog mstate () :=
  memset expect 0xff BUFBYTES;;
  memset output 0xff BUFBYTES;;
  for_acc 0 BUFSIZE (fun i '(p0, p1, pout) =>
    asm [[vmem 4 p0]; [vmem 5 p1]; [Qalu 0 (fun r => cmp_lanes 2 gt_hf (V r 4) (V r 5))];
         [SetR 4 0]; [vsplat 5 (Reg 4)]; [StVq true 0 pout 5]];;
    for_elems Fhf (fun j =>
      x ← rd hf_buffer0 i Fhf j; y ← rd hf_buffer1 i Fhf j;
      if c_gt_hf x y then wr expect i Fh j 0 else mret tt);;
    mret (next p0, next p1, next pout)) (at_ hf_buffer0 0, at_ hf_buffer1 0, at_ output 0);;
  check_output_w 396 BUFSIZE.

Definition test_vgthf_nan (hex_rev : Z) : prog mstate () :=
  let NaN := 0xffffffff in
  memset output 0xff BUFBYTES;;
  memset expect (if hex_rev <? 81 then 0 else 0xff) BUFBYTES;;
  asm [[SetR 0 0]; [vsplat 4 (Reg 0)]; [vsplat 5 (Imm NaN)];
       [Qalu 0 (fun r => cmp_lanes 2 gt_hf (V r 4) (V r 5))]; [StVq true 0 (at_ output 0) 4]];;
  check_output_w 421 1.

(** The four tests of the extrema, which differ in the instruction, the
    buffers, the members and the sense of the comparison. *)
Definition test_extremum (w : Z) (f : Z -> Z -> Z) (b0 b1 : buf) (fld : field) (gt : Z -> Z -> bool)
    (is_max : bool) (chk : prog mstate ()) : prog mstate () :=
  memset expect 0xff BUFBYTES;;
  memset output 0xff BUFBYTES;;
  for_acc 0 BUFSIZE (fun i '(p0, p1, pout) =>
    asm [[vmem 4 p0]; [vmem 5 p1]; [valu2 (lanes2 w f) 5 4 5]; [StV pout 5]];;
    for_elems fld (fun j =>
      x ← rd b0 i fld j; y ← rd b1 i fld j;
      if gt x y then wr expect i fld j (if is_max then x else y)
      else wr expect i fld j (if is_max then y else x));;
    mret (next p0, next p1, next pout)) (at_ b0 0, at_ b1 0, at_ output 0);;
  chk.

Definition test_vmax_sf := test_extremum 4 max_sf sf_buffer0 sf_buffer1 Fsf c_gt_sf true (check_output_w 458 BUFSIZE).
Definition test_vmin_sf := test_extremum 4 min_sf sf_buffer0 sf_buffer1 Fsf c_gt_sf false (check_output_w 495 BUFSIZE).
Definition test_vmax_hf := test_extremum 2 max_hf hf_buffer0 hf_buffer1 Fhf c_gt_hf true (check_output_h 532 BUFSIZE).
Definition test_vmin_hf := test_extremum 2 min_hf hf_buffer0 hf_buffer1 Fhf c_gt_hf false (check_output_h 569 BUFSIZE).

Definition test_v6mpy : prog mstate () :=
  memset expect 0xff BUFBYTES;;
  memset output 0xff BUFBYTES;;
  for_acc 0 BUFSIZE (fun i '(p00, p01, p10, p11, pout) =>
    asm [[vmem 2 p00]; [vmem 3 p01]; [vmem 4 p10]; [vmem 5 p11];
         [Valu Normal (fun r =>
            let '(hi, lo) := v6mpy_v1 (V r 5, V r 4) (V r 3, V r 2) in [(4, lo); (5, hi)])];
         [StV pout 4]];;
    for_elems Fw (fun j => wr expect i Fw j (v6mpy_ref i j));;
    mret (next p00, next p01, next p10, next p11, next pout))
    (at_ buffer0 0, at_ sf_buffer0 0, at_ buffer1 0, at_ sf_buffer1 0, at_ output 0);;
  check_output_w 603 BUFSIZE.

Definition UINT_MAX : Z := 2 ^ 32 - 1.

Definition test_vadduwsat : prog mstate () :=
  let x := 0xffff0000 in
  let y := 0x000fffff in
  memset expect 0x12 VLEN;;
  memset output 0x34 VLEN;;
  asm [[vsplat 10 (Imm x)]; [vsplat 11 (Imm y)]; [valu2 vadd_uw_sat 21 11 10]; [StV (at_ output 0) 21]];;
  for_elems Fuw (fun j => wr expect 0 Fuw j UINT_MAX);;
  check_output_w 630 1.

Definition test_vsubuwsat_dv : prog mstate () :=
  let w := 0x000000b7 in
  let x := 0xffffff4e in
  let y := 0x31fe88e7 in
  let z := 0x7fffff79 in
  memset expect 0x12 (VLEN * 2);;
  memset output 0x34 (VLEN * 2);;
  asm [[vsplat 16 (Imm w)]; [vsplat 17 (Imm y)]; [vsplat 26 (Imm x)]; [vsplat 27 (Imm z)];
       [valu2_dv vsub_uw_sat 24 16 26];
       [StV (at_ output 0) 24]; [StV (padd (at_ output 0) VLEN) 25]];;
  for_elems Fuw (fun j => wr expect 0 Fuw j 0;; wr expect 1 Fuw j 0);;
  check_output_w 668 2.

(** TEST_V6_VCOMBINE_TMP *)
Definition test_v6_vcombine_tmp (line reg1 reg2 : Z) : prog mstate () :=
  cassert ((3 <? reg1) && (3 <? reg2));;
  memset output 0 (VLEN * 2);;
  assign expect 0 buffer0 0;;
  assign expect 1 buffer0 1;;
  asm [[vmem 0 (at_ buffer0 0)]; [vmem 1 (at_ buffer0 1)];
       [vcombine Tmp reg1 reg2 0 1; vcombine Normal 3 2 reg1 reg2];
       [StVu (at_ output 0) 3]; [StVu (at_ output 1) 2]];;
  check_output_b line 2.

Definition test_v6_vcombine_tmp_alig := test_v6_vcombine_tmp 693 9 8.
Definition test_v6_vcombine_tmp_unalig := test_v6_vcombine_tmp 698 8 9.

Definition test_load_tmp_predicated : prog mstate () :=
  for_acc 0 BUFSIZE (fun i '(p0, p1, pout, pred) =>
    asm [[vmem 3 p0]; [SetR 1 1]; [vsplat 12 (Reg 1)]; [SetP 1 pred];
         [Vmem Tmp (Some 1) 12 p1; valu2 (vadd 4) 4 12 3];
         [valu2 (vadd 4) 4 4 12]; [StV pout 4]];;
    for_elems Fw (fun j =>
      x ← rd buffer0 i Fw j;
      if pred : bool then y ← rd buffer1 i Fw j; wr expect i Fw j (x + y + 1)
      else wr expect i Fw j (x + 2));;
    mret (next p0, next p1, next pout, negb pred)) (at_ buffer0 0, at_ buffer1 0, at_ output 0, true);;
  check_output_w 740 BUFSIZE.

Definition test_load_cur_predicated : prog mstate () :=
  for_acc 0 BUFSIZE (fun i pred =>
    asm [[SetP 0 pred]; [vmem 3 (at_ buffer0 i)]; [SetR 0 0x01237654]; [vsplat 4 (Reg 0)];
         [Vmem Cur (Some 0) 3 (at_ buffer1 i); valu1 (fun v => v) 4 3];
         [StV (at_ output i) 4]];;
    (if pred : bool then assign expect i buffer1 i else assign expect i buffer0 i);;
    mret (negb pred)) true;;
  check_output_w 767 BUFSIZE.

Definition test_vcombine : prog mstate () :=
  for_ 0 (BUFSIZE / 2) (fun i =>
    asm [[vsplat 2 (Imm (2 * i))]; [vsplat 3 (Imm (2 * i + 1))]; [vcombine Normal 3 2 2 3];
         [StV (at_ output (2 * i)) 2]; [StV (padd (at_ output (2 * i)) VLEN) 3]];;
    for_elems Fw (fun j =>
      wr expect (2 * i) Fw j (2 * i + 1);; wr expect (2 * i + 1) Fw j (2 * i)));;
  check_output_w 786 BUFSIZE.

(** TEST_VDELTA *)
Definition test_vdelta_insn (line : Z) (f : vec -> vec -> vec) (exp : Z) : prog mstate () :=
  let Vu_val := 0xdeadbeef in
  let Vv_val := 0xff11ff11 in
  asm [[vsplat 1 (Imm Vu_val)]; [vsplat 2 (Imm Vv_val)]; [valu2 f 3 1 2];
       [StV (at_ output 0) 3]; [StV (at_ output 1) 1]];;
  for_elems Fuw (fun i => wr expect 0 Fuw i exp;; wr expect 1 Fuw i 0xdeadbeef);;
  check_output_w line 2.

Definition test_vdelta : prog mstate () :=
  test_vdelta_insn 812 vrdelta 0xefdeadbe;;
  test_vdelta_insn 813 vdelta 0xadbeefde.

Definition test_store_new : prog mstate () :=
  asm [[SetR 0 0x12345678]; [vsplat 0 (Reg 0)]; [SetR 0 0xff00ff00]; [vsplat 1 (Reg 0)];
       [vdeal 1 0 0; StVnew (at_ output 0) 0]];;
  for_elems Fw (fun i => wr expect 0 Fw i 0x12345678);;
  check_output_w 858 1.

Definition puts (s : string) : prog mstate () :=
  modify (fun st => MState (mem st) (rf st) (merr st) (mout st ++ [(s, [])])).

Definition hvx_misc_main : prog mstate Z :=
  init_buffers;;
  test_load_tmp;; test_load_tmp2;; test_load_cur;; test_load_aligned;; test_load_unaligned;;
  test_store_aligned;; test_store_unaligned;; test_masked_store false;; test_masked_store true;;
  test_new_value_store;; test_max_temps;;
  test_vadd_w;; test_vadd_h;; test_vadd_b;; test_vsub_w;; test_vsub_h;; test_vsub_b;;
  test_vxor;; test_vand;; test_vor;; test_vnot;;
  test_pred_or false;; test_pred_or_n true;; test_pred_and false;; test_pred_and_n true;; test_pred_xor false;;
  test_vgtsf;; test_vgthf;; test_vgthf_nan hexagon_arch;;
  test_vmax_sf;; test_vmin_sf;; test_vmax_hf;; test_vmin_hf;;
  test_v6mpy;;
  test_vadduwsat;; test_vsubuwsat_dv;;
  test_v6_vcombine_tmp_alig;; test_v6_vcombine_tmp_unalig;;
  test_load_tmp_predicated;; test_load_cur_predicated;;
  test_vcombine;; test_store_new;; test_vdelta;;
  err ← gets merr;
  puts (if truth err then "FAIL" else "PASS");;
  mret (if truth err then 1 else 0).
End tests.
