(* ===== verification/HvxMiscRules.v ===== *)
(** Rules for the tests of src/hvx_misc.c: what blocks of packets and loops of
    scalar C leave in the rows of the output and of what is expected. *)

From S2P Require Import Prelude ByteMem HvxVec HvxRef HvxMisc.

Open Scope list_scope.
Open Scope Z_scope.

#[export] Instance buf_eq_dec : EqDecision buf.
Proof. solve_decision. Defined.

(** Vector [r] of an array. *)
Definition row (m : memory) (b : buf) (r : Z) : vec := sub (get m b) (VLEN * r) VLEN.

Definition is_row (r : Z) : Prop := 0 <= r < BUFSIZE.

(** A state of the tests: arrays of their size, the inputs and the error report
    as in the state [s0]. *)
Record ok (s0 s : mstate) : Prop := {
  ok_length b : length (get (mem s) b) = 2048%nat;
  ok_bytes b : bytes_ok (get (mem s) b);
  ok_input b : b <> output -> b <> expect -> get (mem s) b = get (mem s0) b;
  ok_err : merr s = merr s0;
  ok_out : mout s = mout s0
}.

Lemma get_put m b a x b' : get (put m b a x) b' = if decide (b = b') then splice (get m b) a x else get m b'.
Proof. destruct m, b, b'; reflexivity. Qed.

Lemma get_put_ne m b a x b' : b <> b' -> get (put m b a x) b' = get m b'.
Proof. intros Hb. by rewrite get_put, decide_False. Qed.

Lemma row_put_ne m b a x b' r : b <> b' -> row (put m b a x) b' r = row m b' r.
Proof. intros Hb. unfold row. by rewrite get_put_ne. Qed.

(** The bounds of rows and elements, for [lia]. *)
Ltac vlia := unfold is_row, BUFBYTES, BUFSIZE, VLEN in *; lia.

Lemma length_row m b r : length (get m b) = 2048%nat -> is_row r -> length (row m b r) = 128%nat.
Proof. intros Hl Hr. unfold row. rewrite length_sub by vlia. done. Qed.

Lemma bytes_ok_row m b r : bytes_ok (get m b) -> bytes_ok (row m b r).
Proof. apply bytes_ok_sub. Qed.

Lemma byte_row m b r k : is_row r -> 0 <= k < VLEN -> byte (row m b r) k = byte (get m b) (VLEN * r + k).
Proof. intros Hr Hk. apply byte_sub; vlia. Qed.

(** Changing part of a row. *)
Lemma row_put m b j a x r : length (get m b) = 2048%nat -> is_row j -> is_row r ->
  0 <= a -> a + Z.of_nat (length x) <= VLEN ->
  row (put m b (VLEN * j + a) x) b r = if r =? j then splice (row m b j) a x else row m b r.
Proof.
  intros Hl Hj Hr Ha Hx. assert (Z.of_nat (length (get m b)) = 2048) as Hl' by lia.
  assert (length (splice (row m b j) a x) = 128%nat) as Hs.
  { rewrite length_splice; rewrite ?length_row by done; vlia. }
  apply byte_ext.
  - rewrite length_row; [by destruct (r =? j); rewrite ?length_row|..|done].
    rewrite get_put, decide_True by done. rewrite length_splice; vlia.
  - rewrite length_row; [|rewrite get_put, decide_True by done; rewrite length_splice; vlia|done].
    intros k Hk. rewrite byte_row by vlia. rewrite get_put, decide_True by done. rewrite byte_splice by vlia.
    destruct (Z.eqb_spec r j) as [->|Hne].
    + rewrite byte_splice by (rewrite ?length_row by done; vlia). rewrite byte_row by vlia.
      unfold VLEN in *. split_cmp; try done. cbn [andb]. f_equal. lia.
    + rewrite byte_row by vlia. unfold is_row, BUFSIZE, VLEN in *. split_cmp; done.
Qed.

Lemma splice_all l x : length x = length l -> splice l 0 x = x.
Proof. intros Hl. unfold splice. change (Z.to_nat 0) with O. by rewrite Nat.add_0_l, Hl, drop_all, app_nil_r. Qed.

Lemma row_put_row m b j x r : length (get m b) = 2048%nat -> is_row j -> is_row r -> length x = 128%nat ->
  row (put m b (VLEN * j) x) b r = if r =? j then x else row m b r.
Proof.
  intros Hl Hj Hr Hx. rewrite <- (Z.add_0_r (VLEN * j)), row_put by (done || rewrite Hx; vlia || vlia).
  destruct (r =? j); [|done]. apply splice_all. by rewrite Hx, length_row.
Qed.

(** *** Elements of a row *)

Definition set_elem (w j v : Z) (old : vec) : vec := gen w (fun i => if i =? j then v else elem w old i).

Definition set_opt (w j : Z) (v : option Z) (old : vec) : vec :=
  match v with Some v => set_elem w j v old | None => old end.

(** The elements of [old] with those replaced that [e] gives. *)
Definition filled (w : Z) (e : Z -> option Z) (old : vec) : vec := gen w (fun j => default (elem w old j) (e j)).

Lemma length_le_bytes w v : length (le_bytes w v) = Z.to_nat w.
Proof. apply length_map_seqZ. Qed.

Lemma bytes_ok_le_bytes w v : bytes_ok (le_bytes w v).
Proof. apply bytes_ok_map. intros. apply byte_of_range. Qed.

Section elems.
Context (w : Z) (Hw : width w).

Lemma splice_elem l j v : bytes_ok l -> length l = 128%nat -> 0 <= j < VLEN / w ->
  splice l (w * j) (le_bytes w v) = set_elem w j v l.
Proof.
  intros Hl Hlen Hj. pose proof (lane_bound w Hw j Hj). pose proof (width_pos w Hw).
  assert (Z.of_nat (length (le_bytes w v)) = w) as Hb by (rewrite length_le_bytes; lia).
  unfold set_elem. apply byte_ext.
  - rewrite length_gen, length_splice; rewrite ?Hb; vlia.
  - rewrite length_splice by (rewrite ?Hb; vlia). intros k Hk. rewrite byte_splice by (rewrite ?Hb; vlia). rewrite Hb.
    rewrite byte_gen by vlia. destruct (lane_of w Hw k ltac:(vlia)) as (Hd & Hm & He).
    assert ((w * j <=? k) && (k <? w * j + w) = (k / w =? j)) as ->.
    { destruct (Z.eqb_spec (k / w) j) as [Hkj|Hne]; [rewrite Hkj in He; split_cmp; cbn; try done; lia|].
      apply not_true_iff_false. rewrite andb_true_iff, Z.leb_le, Z.ltb_lt. intros [H1 H2]. apply Hne.
      symmetry. apply (Z.div_unique _ _ _ (k - w * j)); lia. }
    destruct (Z.eqb_spec (k / w) j) as [<-|Hne].
    + unfold le_bytes. replace (k - w * (k / w)) with (k mod w) by lia. apply (byte_map (byte_of v)). lia.
    + pose proof (lane_bound w Hw _ Hd). unfold VLEN in *. rewrite byte_of_elem by (done || lia). by rewrite He.
Qed.

Lemma gen_elem l : bytes_ok l -> length l = 128%nat -> gen w (elem w l) = l.
Proof.
  intros Hl Hlen. apply byte_ext; [by rewrite length_gen|]. rewrite length_gen. intros k Hk.
  rewrite byte_gen by vlia. destruct (lane_of w Hw k ltac:(vlia)) as (Hd & Hm & He).
  pose proof (lane_bound w Hw _ Hd). unfold VLEN in *. rewrite byte_of_elem by (done || lia). by rewrite He.
Qed.

(** Filling one more element. *)
Lemma filled_one_more e j old : 0 <= j < VLEN / w ->
  set_opt w j (e j) (filled w (fun i => if i <? j then e i else None) old) =
  filled w (fun i => if i <? j + 1 then e i else None) old.
Proof.
  intros Hj. unfold filled. destruct (e j) as [v|] eqn:E; cbn [set_opt].
  - apply gen_ext; [done|]. intros i Hi. destruct (Z.eqb_spec i j) as [->|Hne].
    + rewrite (proj2 (Z.ltb_lt j (j + 1))) by lia. by rewrite E.
    + rewrite elem_gen by done. rewrite uwrap_uwrap by (pose proof (width_pos w Hw); lia).
      split_cmp; try done; lia.
  - apply gen_ext; [done|]. intros i Hi. destruct (decide (i = j)) as [->|Hne].
    + rewrite (proj2 (Z.ltb_lt j (j + 1))), (proj2 (Z.ltb_ge j j)) by lia. by rewrite E.
    + split_cmp; try done; lia.
Qed.

Lemma filled_none old : bytes_ok old -> length old = 128%nat -> filled w (fun _ => None) old = old.
Proof. apply gen_elem. Qed.
End elems.

(* ------------------------------------------------------------------ *)
(** ** Rules *)

Lemma width_fsize f : width (fsize f).
Proof. unfold width. destruct f; cbn; lia. Qed.

Definition input (b : buf) : Prop := b <> output /\ b <> expect.

Section rules.
Context (s0 : mstate).
Abbreviation ok := (ok s0).
Implicit Types s : mstate.

(** The fields of an input in the initial state. *)
Definition in_field (b : buf) (i : Z) (f : field) (j : Z) : Z := fvalue f (elem (fsize f) (row (mem s0) b i) j).

Lemma ok_row s b r : ok s -> input b -> row (mem s) b r = row (mem s0) b r.
Proof. intros Ho [H1 H2]. unfold row. by rewrite (ok_input _ _ Ho). Qed.

Lemma ok_put s b a x r : ok s -> ~ input b -> bytes_ok x -> 0 <= a -> a + Z.of_nat (length x) <= BUFBYTES ->
  ok (MState (put (mem s) b a x) r (merr s) (mout s)).
Proof.
  intros [Hl Hb Hi He Ho] Hn Hx Ha Hax. split; cbn [mem merr mout]; [..|done|done]; intros b'; rewrite get_put; case_decide; subst; try done.
  - rewrite length_splice; [done|done|]. rewrite Hl. vlia.
  - by apply bytes_ok_splice.
  - intros H1 H2. by destruct Hn.
  - apply Hi.
Qed.

Lemma ok_regs s r : ok s -> ok (MState (mem s) r (merr s) (mout s)).
Proof. intros [? ? ? ? ?]. by split. Qed.

Lemma in_array_true f i j : is_row i -> 0 <= j < VLEN / fsize f -> in_array f i j = true.
Proof. intros Hi Hj. unfold in_array, is_row in *. split_cmp; try done; cbn; lia. Qed.

Lemma spec_rd {A} b i f j (k : Z -> prog mstate A) s Q : ok s -> input b -> is_row i -> 0 <= j < VLEN / fsize f ->
  spec (k (in_field b i f j)) s Q -> spec (x ← rd b i f j; k x) s Q.
Proof.
  intros Ho Hb Hi Hj Hk. unfold wp, mbind, prog_bind, rd. rewrite in_array_true by done.
  fold (row (mem s) b i). by rewrite ok_row.
Qed.

(** Storing an element of what is expected. *)
Lemma spec_wr i f j v s Q : ok s -> is_row i -> 0 <= j < VLEN / fsize f ->
  (forall s', ok s' -> (forall r, is_row r -> row (mem s') output r = row (mem s) output r) ->
    (forall r, is_row r -> row (mem s') expect r =
      set_opt (fsize f) j (if r =? i then Some v else None) (row (mem s) expect r)) -> Q tt s') ->
  spec (wr expect i f j v) s Q.
Proof.
  intros Ho Hi Hj HQ. unfold wp, wr. rewrite in_array_true by done.
  pose proof (lane_bound _ (width_fsize f) j Hj). pose proof (width_pos _ (width_fsize f)).
  assert (Z.of_nat (length (le_bytes (fsize f) v)) = fsize f) as Hlen by (rewrite length_le_bytes; lia).
  apply HQ.
  - apply ok_put; [done|by intros [? ?]|apply bytes_ok_le_bytes|vlia|rewrite Hlen; vlia].
  - intros r Hr. by apply row_put_ne.
  - intros r Hr. cbn [mem write]. rewrite row_put by (apply Ho || done || rewrite ?Hlen; vlia).
    destruct (Z.eqb_spec r i) as [->|Hne]; [|done]. cbn [set_opt]. apply splice_elem;
      [apply width_fsize|by apply bytes_ok_row, Ho|by apply length_row; [apply Ho|]|done].
Qed.

(** A loop over the elements of a vector; [e r j] is what it stores at element
    [j] of row [r]. *)
Lemma spec_fill f (e : Z -> Z -> option Z) body s Q : ok s ->
  (forall j s, ok s -> 0 <= j < VLEN / fsize f -> spec (body j) s (fun _ s' => ok s' /\
    (forall r, is_row r -> row (mem s') output r = row (mem s) output r) /\
    (forall r, is_row r -> row (mem s') expect r = set_opt (fsize f) j (e r j) (row (mem s) expect r)))) ->
  (forall s', ok s' -> (forall r, is_row r -> row (mem s') output r = row (mem s) output r) ->
    (forall r, is_row r -> row (mem s') expect r = filled (fsize f) (e r) (row (mem s) expect r)) -> Q tt s') ->
  spec (for_elems f body) s Q.
Proof.
  intros Ho Hb HQ. pose proof (width_fsize f) as Hw. unfold for_elems, MAX_VEC_SIZE_BYTES. fold VLEN.
  apply wp_for with (I := fun j s' => ok s' /\
    (forall r, is_row r -> row (mem s') output r = row (mem s) output r) /\
    (forall r, is_row r -> row (mem s') expect r =
      filled (fsize f) (fun i => if i <? j then e r i else None) (row (mem s) expect r))).
  - pose proof (lanes_exact _ Hw). lia.
  - split_and!; [done..|]. intros r Hr. symmetry. etrans; [|apply filled_none; [exact Hw|by apply bytes_ok_row, Ho|by apply length_row; [apply Ho|]]].
    apply gen_ext; [done|]. intros j Hj. by rewrite (proj2 (Z.ltb_ge j 0)) by lia.
  - intros j s1 Hj (Ho1 & Hout & Hexp). eapply wp_mono; [by apply Hb|]. cbv beta.
    intros _ s2 (Ho2 & Hout2 & Hexp2). split_and!; [done|intros r Hr; by rewrite Hout2, Hout|].
    intros r Hr. by rewrite Hexp2, Hexp, filled_one_more by done.
  - intros s1 (Ho1 & Hout & Hexp). apply HQ; [done|done|]. intros r Hr. rewrite Hexp by done.
    apply gen_ext; [done|]. intros j Hj. by rewrite (proj2 (Z.ltb_lt j _)) by lia.
Qed.

(** The comparison finds no difference. *)
Lemma spec_check f line n s Q : ok s -> 0 <= n <= BUFSIZE ->
  (forall i, 0 <= i < n -> row (mem s) output i = row (mem s) expect i) -> Q tt s ->
  spec (check_output f line n) s Q.
Proof.
  intros Ho Hn Heq HQ. pose proof (lanes_exact _ (width_fsize f)). unfold check_output, MAX_VEC_SIZE_BYTES. fold VLEN.
  apply wp_for with (I := fun _ s' => s' = s); [lia|done| |by intros ? ->].
  intros i ? Hi ->. apply wp_for with (I := fun _ s' => s' = s); [lia|done| |by intros ? ->].
  intros j ? Hj ->. apply wp_bind. unfold rd at 1, wp. rewrite in_array_true by (vlia || lia).
  unfold mbind, prog_bind, rd. rewrite in_array_true by (vlia || lia).
  change (sub (get (mem s) output) (VLEN * i) VLEN) with (row (mem s) output i). rewrite (Heq i Hi).
  unfold check. change (sub (get (mem s) expect) (VLEN * i) VLEN) with (row (mem s) expect i).
  by rewrite Z.eqb_refl.
Qed.

(** Blocks of packets. *)
Lemma spec_asm l s m' r' Q : packets l (mem s) (rf s) = Some (m', r') -> Q tt (MState m' r' (merr s) (mout s)) ->
  spec (asm l) s Q.
Proof. intros Hp HQ. unfold wp, asm. by rewrite Hp. Qed.

Lemma align_row j a : 0 <= a < VLEN -> align (VLEN * j + a) = VLEN * j.
Proof.
  intros Ha. unfold align. f_equal. symmetry. apply (Z.div_unique _ _ _ a); vlia.
Qed.

Lemma in_bounds_row j : is_row j -> in_bounds (VLEN * j) VLEN = true.
Proof. intros Hj. unfold in_bounds. apply andb_true_iff. rewrite !Z.leb_le. vlia. Qed.

Lemma vload_at m b j a : is_row j -> 0 <= a < VLEN -> vload m (aligned (b, VLEN * j + a)) = Some (row m b j).
Proof. intros Hj Ha. unfold vload, aligned. cbn [fst snd]. by rewrite align_row, in_bounds_row. Qed.

Lemma vstore_at m b j a x : is_row j -> 0 <= a < VLEN ->
  vstore m (aligned (b, VLEN * j + a)) x = Some (put m b (VLEN * j) x).
Proof. intros Hj Ha. unfold vstore, aligned. cbn [fst snd]. by rewrite align_row, in_bounds_row. Qed.

Lemma vload_row m b j : is_row j -> vload m (aligned (at_ b j)) = Some (row m b j).
Proof. intros Hj. unfold at_. rewrite <- (Z.add_0_r (VLEN * j)). apply vload_at; [done|vlia]. Qed.

Lemma vstore_row m b j x : is_row j -> vstore m (aligned (at_ b j)) x = Some (put m b (VLEN * j) x).
Proof. intros Hj. unfold at_. rewrite <- (Z.add_0_r (VLEN * j)) at 1. apply vstore_at; [done|vlia]. Qed.

Lemma next_at b j : next (at_ b j) = at_ b (j + 1).
Proof. unfold next, padd, at_. cbn. f_equal. lia. Qed.

(** The effect of one row of a test: the row [j] of the output and of what is
    expected become [F] and [E] of what they were. *)
Definition row_step (j : Z) (F E : vec -> vec) s s' : Prop := ok s' /\
  (forall r, is_row r -> row (mem s') output r = if r =? j then F (row (mem s) output r) else row (mem s) output r) /\
  (forall r, is_row r -> row (mem s') expect r = if r =? j then E (row (mem s) expect r) else row (mem s) expect r).

(** A loop over the rows. *)
Lemma spec_rows {A} (F E : Z -> vec -> vec) (acc : Z -> A) body s (Q : A -> mstate -> Prop) : ok s ->
  (forall j s, ok s -> is_row j -> spec (body j (acc j)) s (fun a s' => a = acc (j + 1) /\ row_step j (F j) (E j) s s')) ->
  (forall s', ok s' -> (forall r, is_row r -> row (mem s') output r = F r (row (mem s) output r)) ->
    (forall r, is_row r -> row (mem s') expect r = E r (row (mem s) expect r)) -> Q (acc BUFSIZE) s') ->
  spec (for_acc 0 BUFSIZE body (acc 0)) s Q.
Proof.
  intros Ho Hb HQ.
  apply wp_for_acc with (I := fun j a s' => a = acc j /\ ok s' /\
    (forall r, is_row r -> row (mem s') output r = if r <? j then F r (row (mem s) output r) else row (mem s) output r) /\
    (forall r, is_row r -> row (mem s') expect r = if r <? j then E r (row (mem s) expect r) else row (mem s) expect r)).
  - vlia.
  - split_and!; [done..| |]; intros r Hr; by rewrite (proj2 (Z.ltb_ge r 0)) by vlia.
  - intros j a s1 Hj (-> & Ho1 & Hout & Hexp). eapply wp_mono; [by apply Hb|]. cbv beta.
    intros a s2 (-> & Ho2 & Hout2 & Hexp2). split_and!; [done..| |]; intros r Hr.
    + rewrite Hout2, Hout by done. split_cmp; subst; done || lia.
    + rewrite Hexp2, Hexp by done. split_cmp; subst; done || lia.
  - intros a s1 (-> & Ho1 & Hout & Hexp). apply HQ; [done|..]; intros r Hr.
    + rewrite Hout by done. by rewrite (proj2 (Z.ltb_lt r BUFSIZE)) by vlia.
    + rewrite Hexp by done. by rewrite (proj2 (Z.ltb_lt r BUFSIZE)) by vlia.
Qed.
End rules.
