(* ===== verification/HvxMiscTests.v ===== *)
(** The tests of src/hvx_misc.c, one by one: from any contents of the input
    buffers, on numbers where they are compared as such, no test finds a
    difference. *)

From S2P Require Import Prelude ByteMem HvxVec HvxRef HvxMisc HvxMiscRules.

Open Scope list_scope.
Open Scope Z_scope.

Definition vec_ok (v : vec) : Prop := bytes_ok v /\ length v = 128%nat.

Lemma vec_ok_gen w f : vec_ok (gen w f).
Proof. split; [apply bytes_ok_gen|apply length_gen]. Qed.

Lemma vec_ok_merge sense q x old : vec_ok x -> vec_ok old -> vec_ok (merge sense q x old).
Proof. intros [Hx _] [Ho _]. split; [by apply bytes_ok_merge|apply length_merge]. Qed.

Create HintDb hvx.
Lemma vec_ok_row s0 s b r : ok s0 s -> is_row r -> vec_ok (row (mem s) b r).
Proof. intros Ho Hr. split; [apply bytes_ok_row, Ho|apply length_row; [apply Ho|done]]. Qed.

#[export] Hint Resolve vec_ok_gen vec_ok_merge vec_ok_row : hvx.

(** Runs a block of packets: every load and store is of a row. *)
Ltac asm_run :=
  unfold vmem, valu1, valu2, valu2_dv, vsplat, vsplat_b, vcombine;
  repeat (cbn -[vload vstore aligned at_ lanes1 lanes2 gen merge splat cmp_lanes qbit Z.mul VLEN];
          first [rewrite vload_row by done | rewrite vstore_row by done]);
  cbn -[vload vstore aligned at_ lanes1 lanes2 gen merge splat cmp_lanes qbit Z.mul VLEN]; reflexivity.

(** Reads of inputs and then one store. *)
Ltac elem_body HQ :=
  repeat (eapply spec_rd; [eassumption|by split|done|done|]);
  first [eapply spec_wr; [eassumption|done|done|exact HQ] | by apply HQ].

Ltac row_vec := eauto with hvx.

(** *** Arithmetic on elements *)

(** The value of a field and its bits. *)
Lemma uwrap_fvalue f x : uwrap (8 * fsize f) (fvalue f x) = uwrap (8 * fsize f) x.
Proof.
  unfold fvalue. destruct (fsigned f); [|done]. unfold uwrap, swrap.
  rewrite Zminus_mod, Z.mod_mod by (destruct f; cbn; lia). rewrite <- Zminus_mod. f_equal. lia.
Qed.

Lemma uwrap_op f (op : Z -> Z -> Z) x y x' y' : op = Z.add \/ op = Z.sub \/ op = Z.lor \/ op = Z.land \/ op = Z.lxor ->
  uwrap (8 * fsize f) x = uwrap (8 * fsize f) x' -> uwrap (8 * fsize f) y = uwrap (8 * fsize f) y' ->
  uwrap (8 * fsize f) (op x y) = uwrap (8 * fsize f) (op x' y').
Proof.
  intros Hop Hx Hy. assert (0 <= 8 * fsize f) as Hf by (destruct f; cbn; lia).
  destruct Hop as [-> |[-> |Hop]].
  - by rewrite <- uwrap_add_l, <- uwrap_add_r, Hx, Hy, uwrap_add_r, uwrap_add_l by done.
  - unfold uwrap in *. by rewrite Zminus_mod, Hx, Hy, <- Zminus_mod.
  - assert (forall x y, uwrap (8 * fsize f) (op x y) = op (uwrap (8 * fsize f) x) (uwrap (8 * fsize f) y)) as H.
    { intros a b. unfold uwrap. rewrite <- !Z.land_ones by done. apply Z.bits_inj'. intros i Hi.
      destruct Hop as [-> |[-> | ->]]; rewrite ?Z.land_spec, ?Z.lor_spec, ?Z.lxor_spec, ?Z.land_spec;
        destruct (Z.testbit a i), (Z.testbit b i), (Z.testbit (Z.ones _) i); done. }
    by rewrite !H, Hx, Hy.
Qed.

(** Two lane-wise results agree element by element. *)
Ltac lanes f :=
  unfold vadd, vsub, lanes1, lanes2, splat, in_field; apply gen_ext; [apply (width_fsize f)|];
  let i := fresh "i" in let Hi := fresh "Hi" in intros i Hi;
  rewrite ?elem_gen by (apply (width_fsize f) || exact Hi).

(** Peels additions modulo the width of [f]. *)
Ltac mod_ops f :=
  repeat first [rewrite (uwrap_uwrap (8 * fsize f)) by done | rewrite (uwrap_fvalue f) | reflexivity
               | apply (uwrap_op f); [by auto| |]].

Section tests.
Context (s0 : mstate).
Abbreviation ok := (ok s0).
Implicit Types s : mstate.

(** A block that stores the vector [x] in row [j] of the output. *)
Lemma spec_store l j x r' s Q : ok s -> is_row j ->
  packets l (mem s) (rf s) = Some (put (mem s) output (VLEN * j) x, r') -> vec_ok x ->
  (forall s', ok s' -> (forall r, is_row r -> row (mem s') output r = if r =? j then x else row (mem s) output r) ->
    (forall r, is_row r -> row (mem s') expect r = row (mem s) expect r) -> Q tt s') ->
  spec (asm l) s Q.
Proof.
  intros Ho Hj Hp [Hx Hl] HQ. eapply spec_asm; [exact Hp|]. apply HQ.
  - apply ok_put; [done|by intros [? _]|done|vlia|rewrite Hl; vlia].
  - intros r Hr. apply row_put_row; [apply Ho|done..].
  - intros r Hr. by apply row_put_ne.
Qed.

(** A loop that stores element [i] of row [j] of what is expected, if [g i]
    says so. *)
Lemma spec_fill_row f j (g : Z -> option Z) body s Q : ok s -> is_row j ->
  (forall i s, ok s -> 0 <= i < VLEN / fsize f -> forall Q : () -> mstate -> Prop,
    (forall s', ok s' -> (forall r, is_row r -> row (mem s') output r = row (mem s) output r) ->
      (forall r, is_row r -> row (mem s') expect r =
        set_opt (fsize f) i (if r =? j then g i else None) (row (mem s) expect r)) -> Q tt s') ->
    spec (body i) s Q) ->
  (forall s', ok s' -> (forall r, is_row r -> row (mem s') output r = row (mem s) output r) ->
    (forall r, is_row r -> row (mem s') expect r =
      if r =? j then filled (fsize f) g (row (mem s) expect r) else row (mem s) expect r) -> Q tt s') ->
  spec (for_elems f body) s Q.
Proof.
  intros Ho Hj Hb HQ. apply (spec_fill s0 f (fun r i => if r =? j then g i else None)); [done| |].
  - intros i s1 Ho1 Hi. apply Hb; [done..|]. intros s2 Ho2 H1 H2. by split_and!.
  - intros s1 Ho1 H1 H2. apply HQ; [done|done|]. intros r Hr. rewrite H2 by done.
    destruct (r =? j); [done|]. apply filled_none; [apply width_fsize|apply (vec_ok_row s0); [done|done]..].
Qed.

(** The same for a loop that stores every element. *)
Lemma spec_fill_all f j (g : Z -> Z) body s Q : ok s -> is_row j ->
  (forall i s, ok s -> 0 <= i < VLEN / fsize f -> forall Q : () -> mstate -> Prop,
    (forall s', ok s' -> (forall r, is_row r -> row (mem s') output r = row (mem s) output r) ->
      (forall r, is_row r -> row (mem s') expect r =
        set_opt (fsize f) i (if r =? j then Some (g i) else None) (row (mem s) expect r)) -> Q tt s') ->
    spec (body i) s Q) ->
  (forall s', ok s' -> (forall r, is_row r -> row (mem s') output r = row (mem s) output r) ->
    (forall r, is_row r -> row (mem s') expect r = if r =? j then gen (fsize f) g else row (mem s) expect r) ->
    Q tt s') ->
  spec (for_elems f body) s Q.
Proof. intros Ho Hj. by apply (spec_fill_row f j (fun i => Some (g i))). Qed.

Lemma for_as_acc {S} lo hi (body : Z -> prog S ()) (σ : S) : for_ lo hi body σ = for_acc lo hi (fun i _ => body i) tt σ.
Proof.
  unfold for_, for_acc. generalize (Z.to_nat (hi - lo)) as n. intros n. revert lo σ.
  induction n as [|n IH]; intros lo σ; cbn [for_up for_acc_up]; [done|]. unfold mbind, prog_bind.
  destruct (body lo σ) as [[] σ'| | |]; [apply IH|done..].
Qed.

Lemma spec_rows_for (F E : Z -> vec -> vec) body s (Q : () -> mstate -> Prop) : ok s ->
  (forall j s, ok s -> is_row j -> spec (body j) s (fun _ => row_step s0 j (F j) (E j) s)) ->
  (forall s', ok s' -> (forall r, is_row r -> row (mem s') output r = F r (row (mem s) output r)) ->
    (forall r, is_row r -> row (mem s') expect r = E r (row (mem s) expect r)) -> Q tt s') ->
  spec (for_ 0 BUFSIZE body) s Q.
Proof.
  intros Ho Hb HQ. unfold wp. rewrite for_as_acc. change (spec (for_acc 0 BUFSIZE (fun i _ => body i) tt) s Q).
  apply (spec_rows s0 F E (fun _ => tt)); [done| |done]. intros j s1 Ho1 Hj.
  eapply wp_mono; [by apply Hb|]. by intros [] s2 H2.
Qed.

(** A loop that gives the same rows to the output and to what is expected, and
    the comparison. *)
Lemma spec_rows_check {A} (F : Z -> vec -> vec) (acc : Z -> A) body f line n s : ok s -> 0 <= n <= BUFSIZE ->
  (forall j s, ok s -> is_row j -> spec (body j (acc j)) s (fun a s' => a = acc (j + 1) /\ row_step s0 j (F j) (F j) s s')) ->
  (forall r, 0 <= r < n -> F r (row (mem s) output r) = F r (row (mem s) expect r)) ->
  spec (for_acc 0 BUFSIZE body (acc 0);; check_output f line n) s (fun _ => ok).
Proof.
  intros Ho Hn Hb He. apply wp_bind. apply (spec_rows s0 F F); [done|done|]. intros s1 Ho1 H1 H2.
  apply (spec_check s0); [done|done| |done]. intros r Hr. rewrite H1, H2 by vlia. by apply He.
Qed.

(** One round: a block of packets stores a row of the output, and a loop fills
    the same row of what is expected. *)
Lemma row_step_intro j x (E : vec -> vec) s s1 s2 : ok s2 ->
  (forall r, is_row r -> row (mem s1) output r = if r =? j then x else row (mem s) output r) ->
  (forall r, is_row r -> row (mem s1) expect r = row (mem s) expect r) ->
  (forall r, is_row r -> row (mem s2) output r = row (mem s1) output r) ->
  (forall r, is_row r -> row (mem s2) expect r = if r =? j then E (row (mem s1) expect r) else row (mem s1) expect r) ->
  forall F : vec -> vec, x = F (row (mem s) output j) -> row_step s0 j F E s s2.
Proof.
  intros Ho H1 H2 H3 H4 F HF. split_and!; [done|..]; intros r Hr.
  - rewrite H3, H1 by done. destruct (Z.eqb_spec r j) as [->|]; done.
  - by rewrite H4, H2 by done.
Qed.

(** *** Loads, stores and packets *)

Lemma test_load_tmp_ok s : ok s -> spec test_load_tmp s (fun _ => ok).
Proof.
  intros Ho. unfold test_load_tmp.
  apply (spec_rows_check (fun j _ => gen 4 (fun i => in_field s0 buffer0 j Fw i + in_field s0 buffer1 j Fw i + 1))
    (fun j => (at_ buffer0 j, at_ buffer1 j, at_ output j))); [done|vlia| |done].
  intros j s1 Ho1 Hj. cbv beta iota. apply wp_bind. eapply (spec_store _ j); [done|done|asm_run|row_vec|].
  intros s2 Ho2 H1 H2. apply wp_bind. eapply (spec_fill_all Fw j); [done|done| |].
  { intros i s3 Ho3 Hi Q HQ. elem_body HQ. }
  intros s3 Ho3 H3 H4. apply wp_ret. rewrite !next_at. split; [done|].
  eapply row_step_intro; [done|exact H1|done|done|exact H4|]. rewrite !(ok_row s0 s1) by (done || by split).
  lanes Fw. rewrite (Z.add_comm (elem 4 _ i)). change 32 with (8 * fsize Fw). mod_ops Fw.
Qed.

Lemma test_load_cur_ok s : ok s -> spec test_load_cur s (fun _ s' => ok s' /\
  forall r, is_row r -> row (mem s') output r = row (mem s0) buffer0 r).
Proof.
  intros Ho. unfold test_load_cur. apply wp_bind.
  apply (spec_rows s0 (fun j _ => row (mem s0) buffer0 j) (fun j _ => gen 4 (in_field s0 buffer0 j Fuw))
    (fun j => (at_ buffer0 j, at_ output j))); [done| |].
  - intros j s1 Ho1 Hj. cbv beta iota. apply wp_bind. eapply (spec_store _ j); [done|done|asm_run|row_vec|].
    intros s2 Ho2 H1 H2. apply wp_bind. eapply (spec_fill_all Fuw j); [done|done| |].
    { intros i s3 Ho3 Hi Q HQ. elem_body HQ. }
    intros s3 Ho3 H3 H4. apply wp_ret. rewrite !next_at. split; [done|].
    eapply row_step_intro; [done|exact H1|done|done|exact H4|]. by rewrite (ok_row s0 s1) by (done || by split).
  - intros s1 Ho1 H1 H2. apply (spec_check s0); [done|vlia| |by split]. intros r Hr. rewrite H1, H2 by done.
    pose proof (vec_ok_row s0 s buffer0 r Ho Hr) as [Hb Hl]. rewrite (ok_row s0 s) in Hb, Hl by (done || by split).
    symmetry. by apply (gen_elem 4 (width_fsize Fuw)).
Qed.

(** *** Lane-wise arithmetic *)

Lemma test_vec_op2_ok f fld c_op op line s : ok s ->
  (forall a b, vec_ok a -> vec_ok b -> f a b = lanes2 (fsize fld) op a b) ->
  (forall x y, uwrap (8 * fsize fld) (c_op (fvalue fld x) (fvalue fld y)) = uwrap (8 * fsize fld) (op x y)) ->
  spec (test_vec_op2 f fld c_op line) s (fun _ => ok).
Proof.
  intros Ho Hf Hop. unfold test_vec_op2. apply wp_bind.
  apply (spec_rows s0 (fun j _ => f (row (mem s0) buffer0 j) (row (mem s0) buffer1 j)) (fun _ v => v)
    (fun j => (at_ buffer0 j, at_ buffer1 j, at_ output j))); [done| |].
  { intros j s1 Ho1 Hj. cbv beta iota. apply wp_bind. eapply (spec_store _ j); [done|done|asm_run| |].
    { rewrite Hf by row_vec. apply vec_ok_gen. }
    intros s2 Ho2 H1 H2. apply wp_ret. rewrite !next_at. split; [done|].
    eapply row_step_intro; [done|exact H1|done|done| |].
    - intros r Hr. by destruct (r =? j).
    - by rewrite !(ok_row s0 s1) by (done || by split). }
  intros s1 Ho1 H1 _. apply wp_bind.
  apply (spec_rows_for (fun _ v => v) (fun j _ => gen (fsize fld) (fun i => c_op (in_field s0 buffer0 j fld i) (in_field s0 buffer1 j fld i)))); [done| |].
  { intros j s2 Ho2 Hj. eapply (spec_fill_all fld j); [done|done| |].
    { intros i s3 Ho3 Hi Q HQ. elem_body HQ. }
    intros s3 Ho3 H3 H4. split_and!; [done| |done]. intros r Hr. rewrite H3 by done. by destruct (r =? j). }
  intros s2 Ho2 H2 H3. apply (spec_check s0); [done|vlia| |done]. intros r Hr. rewrite H2, H1, H3 by done.
  rewrite <- !(ok_row s0 s) by (done || by split). rewrite Hf by row_vec. unfold lanes2.
  apply gen_ext; [apply width_fsize|]. intros i Hi. unfold in_field.
  rewrite <- !(ok_row s0 s) by (done || by split). by rewrite Hop.
Qed.

Lemma arith_op f op x y : op = Z.add \/ op = Z.sub \/ op = Z.lor \/ op = Z.land \/ op = Z.lxor ->
  uwrap (8 * fsize f) (op (fvalue f x) (fvalue f y)) = uwrap (8 * fsize f) (op x y).
Proof. intros Hop. apply uwrap_op; [done|apply uwrap_fvalue..]. Qed.

(** The bitwise instructions, whatever width one looks at. *)
Lemma bitwise_d op a b : op = Z.lor \/ op = Z.land \/ op = Z.lxor -> vec_ok a -> vec_ok b ->
  lanes2 2 op a b = lanes2 8 op a b.
Proof.
  intros Hop [Ha Hla] [Hb Hlb]. by rewrite (lanes2_bitwise 2 (width_fsize Fh)), (lanes2_bitwise 8 (width_fsize Fd)).
Qed.

Lemma test_vnot_ok s : ok s -> spec test_vnot s (fun _ => ok).
Proof.
  intros Ho. unfold test_vnot, test_vec_op1. apply wp_bind.
  apply (spec_rows s0 (fun j _ => vnot (row (mem s0) buffer0 j)) (fun _ v => v)
    (fun j => (at_ buffer0 j, at_ output j))); [done| |].
  { intros j s1 Ho1 Hj. cbv beta iota. apply wp_bind. eapply (spec_store _ j); [done|done|asm_run|row_vec|].
    intros s2 Ho2 H1 H2. apply wp_ret. rewrite !next_at. split; [done|].
    eapply row_step_intro; [done|exact H1|done|done| |].
    - intros r Hr. by destruct (r =? j).
    - by rewrite !(ok_row s0 s1) by (done || by split). }
  intros s1 Ho1 H1 _. apply wp_bind.
  apply (spec_rows_for (fun _ v => v) (fun j _ => gen 8 (fun i => Z.lnot (in_field s0 buffer0 j Fd i)))); [done| |].
  { intros j s2 Ho2 Hj. eapply (spec_fill_all Fd j); [done|done| |].
    { intros i s3 Ho3 Hi Q HQ. elem_body HQ. }
    intros s3 Ho3 H3 H4. split_and!; [done| |done]. intros r Hr. rewrite H3 by done. by destruct (r =? j). }
  intros s2 Ho2 H2 H3. apply (spec_check s0); [done|vlia| |done]. intros r Hr. rewrite H2, H1, H3 by done.
  rewrite <- !(ok_row s0 s) by (done || by split). destruct (vec_ok_row s0 s buffer0 r Ho Hr) as [Hb Hl].
  unfold vnot. rewrite (lanes1_lnot 2 (width_fsize Fh)), <- (lanes1_lnot 8 (width_fsize Fd)) by done.
  apply gen_ext; [apply (width_fsize Fd)|]. intros i Hi. unfold in_field.
  rewrite <- !(ok_row s0 s) by (done || by split).
  assert (forall x, Z.lnot x = -1 - x) as Hn by (intros; unfold Z.lnot; lia). rewrite !Hn.
  apply (uwrap_op Fd Z.sub); [by auto|done|]. symmetry. apply (uwrap_fvalue Fd).
Qed.
End tests.
