(* ===== verification/HvxMiscCond.v ===== *)
(** The conditional tests of src/hvx_misc.c: stores and instructions under
    vector predicates, comparisons and extrema of floating point numbers. *)

From S2P Require Import Prelude ByteMem HvxVec HvxRef HvxMisc HvxMiscRules HvxMiscTests.

Open Scope list_scope.
Open Scope Z_scope.

(** A predicate that is constant on elements selects elements. *)
Lemma merge_filled w sense q c x old : width w -> vec_ok x -> vec_ok old ->
  (forall k, 0 <= k < VLEN -> qbit q k = c (k / w)) ->
  merge sense q x old = filled w (fun i => if Bool.eqb (c i) sense then Some (elem w x i) else None) old.
Proof.
  intros Hw [Hx Hlx] [Ho Hlo] Hq. apply byte_ext; [by rewrite length_merge; unfold filled; rewrite length_gen|].
  rewrite length_merge. intros k Hk. rewrite byte_merge by done. unfold filled. rewrite byte_gen by done.
  rewrite Hq by done. destruct (lane_of w Hw k Hk) as (Hd & Hm & He). pose proof (lane_bound w Hw _ Hd).
  unfold VLEN in *. destruct (Bool.eqb _ _); cbn [from_option id]; unfold id; rewrite byte_of_elem by (done || lia); by rewrite He.
Qed.

(** Fillings agree when the values do, at their width. *)
Lemma filled_ext w e e' old : width w ->
  (forall i, 0 <= i < VLEN / w -> uwrap (8 * w) <$> e i = uwrap (8 * w) <$> e' i) -> filled w e old = filled w e' old.
Proof.
  intros Hw He. apply gen_ext; [done|]. intros i Hi. specialize (He i Hi).
  destruct (e i), (e' i); cbn in *; congruence.
Qed.

Lemma qbit_cmp w f a b k : 0 <= k < VLEN -> qbit (cmp_lanes w f a b) k = f (elem w a (k / w)) (elem w b (k / w)).
Proof. intros Hk. by apply (qbit_map (fun k => f (elem w a (k / w)) (elem w b (k / w)))). Qed.

Lemma elem_splat w v i : width w -> 0 <= i < VLEN / w -> elem w (splat w v) i = uwrap (8 * w) v.
Proof. intros Hw Hi. by apply elem_gen. Qed.

(** The rows of a buffer filled with one byte. *)
Lemma row_const m b c r : get m b = replicate 2048 c -> is_row r -> row m b r = replicate 128 c.
Proof.
  intros Hm Hr. unfold row, sub. rewrite Hm, drop_replicate, take_replicate. f_equal. vlia.
Qed.

Lemma vec_ok_const c : 0 <= c < 256 -> vec_ok (replicate 128 c).
Proof. intros Hc. split; [by apply Forall_replicate|apply length_replicate]. Qed.

Section cond.
Context (s0 : mstate).
Abbreviation ok := (ok s0).
Implicit Types s : mstate.

(** [memset] of a result buffer. *)
Lemma spec_memset b c n s Q : ok s -> ~ input b -> 0 <= n <= BUFBYTES ->
  (forall s', ok s' -> (forall b', b' <> b -> get (mem s') b' = get (mem s) b') ->
    (n = BUFBYTES -> forall r, is_row r -> row (mem s') b r = replicate 128 (c mod 256)) -> Q tt s') ->
  spec (memset b c n) s Q.
Proof.
  intros Ho Hb Hn HQ. unfold wp, memset. replace (in_bounds 0 n) with true by (symmetry; unfold in_bounds; apply andb_true_iff; rewrite !Z.leb_le; vlia).
  pose proof (Z.mod_pos_bound c 256 ltac:(lia)) as Hc. apply HQ.
  - apply ok_put; [done|done|by apply Forall_replicate|lia|]. rewrite length_replicate. lia.
  - intros b' Hb'. by apply get_put_ne.
  - intros -> r Hr. apply row_const; [|done]. cbn [mem write]. rewrite get_put, decide_True by done.
    change (Z.to_nat BUFBYTES) with 2048%nat. apply splice_all. rewrite length_replicate. symmetry. apply Ho.
Qed.

(** Both result buffers are filled with the same byte. *)
Lemma spec_memset_both c1 c2 m s Q : ok s -> c1 = c2 ->
  (forall s', ok s' -> (forall r, is_row r -> row (mem s') output r = replicate 128 (c1 mod 256)) ->
    (forall r, is_row r -> row (mem s') expect r = replicate 128 (c1 mod 256)) -> spec m s' Q) ->
  spec (memset expect c1 BUFBYTES;; memset output c2 BUFBYTES;; m) s (Q : () -> mstate -> Prop).
Proof.
  intros Ho <- HQ. apply wp_bind. apply spec_memset; [done|by intros [_ ?]|vlia|]. intros s1 Ho1 _ H1.
  apply wp_bind. apply spec_memset; [done|by intros [? _]|vlia|]. intros s2 Ho2 H2 H3.
  apply HQ; [done|by apply H3|]. intros r Hr. rewrite <- (H1 eq_refl r Hr). unfold row. by rewrite H2.
Qed.

(** The mask has a zero word where its test says. *)
Definition mask_ok : Prop := forall j i, is_row j -> 0 <= i < 32 ->
  (elem 4 (row (mem s0) mask j) i =? 0) = (j + Z.rem i MASKMOD =? 0).

(** A round that stores nothing. *)
Lemma spec_skip w i j s (Q : () -> mstate -> Prop) : ok s ->
  (forall s', ok s' -> (forall r, is_row r -> row (mem s') output r = row (mem s) output r) ->
    (forall r, is_row r -> row (mem s') expect r = set_opt w i (if r =? j then None else None) (row (mem s) expect r)) ->
    Q tt s') -> spec (mret tt) s Q.
Proof. intros Ho HQ. apply HQ; [done|done|]. intros r _. by destruct (r =? j). Qed.

Lemma test_masked_store_ok invert s : ok s -> mask_ok -> spec (test_masked_store invert) s (fun _ => ok).
Proof.
  intros Ho Hmask. unfold test_masked_store. apply spec_memset_both; [done|done|]. clear s Ho. intros s Ho Hr1 Hr2.
  set (g j i := if Bool.eqb (j + Z.rem i MASKMOD =? 0) (negb invert) then Some (in_field s0 buffer0 j Fw i) else None).
  apply (spec_rows_check s0 (fun j => filled 4 (g j)) (fun j => (at_ buffer0 j, at_ mask j, at_ output j)));
    [done|vlia| |intros r Hr; by rewrite Hr1, Hr2 by vlia].
  intros j s1 Ho1 Hj. cbv beta iota. apply wp_bind. eapply (spec_store s0 _ j); [done|done|asm_run|row_vec|].
  intros s2 Ho2 H1 H2. apply wp_bind. eapply (spec_fill_row s0 Fw j (g j)); [done|done| |].
  { intros i s3 Ho3 Hi Q HQ. unfold g in HQ.
    destruct invert, (j + Z.rem i MASKMOD =? 0); cbn [negb Bool.eqb] in HQ |- *;
      first [elem_body HQ | by eapply spec_skip]. }
  intros s3 Ho3 H3 H4. apply wp_ret. rewrite !next_at. split; [done|].
  eapply row_step_intro; [done|exact H1|done|done|exact H4|]. rewrite !(ok_row s0 s1 buffer0) by (done || by split).
  rewrite (merge_filled 4 _ _ (fun i => j + Z.rem i MASKMOD =? 0)); [..|apply (width_fsize Fw)|rewrite <- (ok_row s0 s1) by (done || by split); row_vec|row_vec|].
  - apply filled_ext; [apply (width_fsize Fw)|]. intros i Hi. unfold g. destruct (Bool.eqb _ _); [|done].
    cbn [fmap option_fmap option_map]. f_equal. symmetry. apply (uwrap_fvalue Fw).
  - intros k Hk. rewrite qbit_cmp by done. destruct (lane_of 4 (width_fsize Fw) k Hk) as (Hd & _).
    rewrite elem_splat by (apply (width_fsize Fw) || done). rewrite (ok_row s0 s1) by (done || by split).
    rewrite <- (Hmask j (k / 4)) by (done || apply Hd). rewrite Z.eqb_sym. done.
Qed.

(** *** Predicate logic *)

Lemma test_pred_op2_ok op inv line s : ok s -> spec (test_pred_op2 op inv line inv) s (fun _ => ok).
Proof.
  intros Ho. unfold test_pred_op2. apply wp_bind. apply spec_memset; [done|by intros [? _]|vlia|].
  intros s1 Ho1 _ H0. specialize (H0 eq_refl). apply wp_bind.
  set (c j i := op (THRESHOLD <? in_field s0 buffer0 j Fb i) (xorb inv (THRESHOLD <? in_field s0 buffer1 j Fb i))).
  apply (spec_rows s0 (fun j => filled 1 (fun i => if c j i then Some 255 else None)) (fun _ v => v)
    (fun j => (at_ buffer0 j, at_ buffer1 j, at_ output j))); [done| |].
  { intros j s2 Ho2 Hj. cbv beta iota. apply wp_bind. eapply (spec_store s0 _ j); [done|done|asm_run|row_vec|].
    intros s3 Ho3 H1 H2. apply wp_ret. rewrite !next_at. split; [done|].
    eapply (row_step_intro s0 j _ (fun v => v)); [done|exact H1|done|done|intros r Hr; by destruct (r =? j)|].
    rewrite (merge_filled 1 _ _ (c j)); [..|apply (width_fsize Fb)|row_vec|row_vec|].
    - apply filled_ext; [apply (width_fsize Fb)|]. intros i Hi. rewrite elem_splat by (apply (width_fsize Fb) || done).
      by destruct (c j i).
    - intros k Hk. rewrite qbit_map by done. rewrite !qbit_cmp by done. rewrite Z.div_1_r.
      rewrite !elem_splat by (apply (width_fsize Fb) || done). by rewrite !(ok_row s0 s2) by (done || by split). }
  intros s2 Ho2 H1 _. apply wp_bind.
  apply (spec_rows_for s0 (fun _ v => v) (fun j _ => gen 1 (fun i => if c j i then 255 else 0))); [done| |].
  { intros j s3 Ho3 Hj. apply (spec_fill_all s0 Fb j (fun i => if c j i then 255 else 0)); [done|done| |].
    { intros i s4 Ho4 Hi Q HQ. unfold c in HQ. destruct inv; elem_body HQ. }
    intros s4 Ho4 H3 H4. split_and!; [done| |done]. intros r Hr. rewrite H3 by done. by destruct (r =? j). }
  intros s3 Ho3 H3 H4. apply (spec_check s0); [done|vlia| |done]. intros r Hr. rewrite H3, H1, H4 by done.
  rewrite H0 by done. apply gen_ext; [apply (width_fsize Fb)|]. intros i Hi. destruct (c r i); [done|].
  cbn [from_option id]. unfold elem, sub. rewrite drop_replicate, take_replicate. pose proof (lane_bound 1 (width_fsize Fb) i Hi) as Hi1. unfold VLEN in Hi1.
  change (Z.to_nat 1) with 1%nat. by rewrite Nat.min_l by lia.
Qed.

(** *** Floating point *)

Lemma elem_splat_0 w i : width w -> 0 <= i < VLEN / w -> elem w (splat 4 0) i = 0.
Proof.
  intros Hw Hi. transitivity (elem w (gen w (fun _ => 0)) i); [|by rewrite elem_gen].
  reflexivity.
Qed.

Context `{HvxData} (hexagon_arch : Z) `{!HvxDataLaws hexagon_arch} (extendhfsf2 : Z -> Z).

(** The runtime's conversion keeps the order of numbers. *)
Context (extend_order : forall x y, in_u 16 x -> in_u 16 y -> hf_nan x = false -> hf_nan y = false ->
  sf_gt (extendhfsf2 (swrap 16 x)) (extendhfsf2 (swrap 16 y)) = hf_gt x y).

(** The buffers hold numbers, and never two zeros at the same place. *)
Definition numbers (w : Z) (nan zero : Z -> bool) (b0 b1 : buf) : Prop :=
  forall j i, is_row j -> 0 <= i < VLEN / w ->
    let x := elem w (row (mem s0) b0 j) i in let y := elem w (row (mem s0) b1 j) i in
    nan x = false /\ nan y = false /\ zero x && zero y = false.

(** A comparison decides which elements are cleared; the scalar loop decides by
    [gt]. *)
Lemma gt_ok w f b0 b1 fld wfld (gt : Z -> Z -> bool) chk line s : ok s -> input b0 -> input b1 ->
  fsize fld = w -> fsize wfld = w ->
  (forall j i, is_row j -> 0 <= i < VLEN / w ->
    f (elem w (row (mem s0) b0 j) i) (elem w (row (mem s0) b1 j) i) =
    gt (in_field s0 b0 j fld i) (in_field s0 b1 j fld i)) ->
  spec (memset expect 0xff BUFBYTES;; memset output 0xff BUFBYTES;;
    for_acc 0 BUFSIZE (fun i '(p0, p1, pout) =>
      asm [[vmem 4 p0]; [vmem 5 p1]; [Qalu 0 (fun r => cmp_lanes w f (V r 4) (V r 5))];
           [SetR 4 0]; [vsplat 5 (Reg 4)]; [StVq true 0 pout 5]];;
      for_elems fld (fun j =>
        x ← rd b0 i fld j; y ← rd b1 i fld j;
        if gt x y then wr expect i wfld j 0 else mret tt);;
      mret (next p0, next p1, next pout)) (at_ b0 0, at_ b1 0, at_ output 0);;
    check_output chk line BUFSIZE) s (fun _ => ok).
Proof.
  intros Ho Hb0 Hb1 Hfld Hwfld Hgt. assert (width w) as Hw by (rewrite <- Hfld; apply width_fsize).
  apply spec_memset_both; [done|done|]. clear s Ho. intros s Ho Hr1 Hr2.
  set (g j i := if gt (in_field s0 b0 j fld i) (in_field s0 b1 j fld i) then Some 0 else None).
  apply (spec_rows_check s0 (fun j => filled w (g j)) (fun j => (at_ b0 j, at_ b1 j, at_ output j)));
    [done|vlia| |intros r Hr; by rewrite Hr1, Hr2 by vlia].
  intros j s1 Ho1 Hj. cbv beta iota. apply wp_bind.
  eapply (spec_store s0 _ j _ _ s1); [done|done|asm_run|row_vec|].
  intros s2 Ho2 H1 H2. apply wp_bind. eapply (spec_fill_row s0 fld j (g j)); [done|done| |].
  { intros i s3 Ho3 Hi Q HQ. rewrite Hfld in Hi, HQ. do 2 (eapply spec_rd; [eassumption|done|done|by rewrite Hfld|]).
    unfold g in HQ. destruct (gt _ _); [|by eapply spec_skip]. rewrite <- Hwfld in Hi, HQ.
    eapply spec_wr; [eassumption|done|done|exact HQ]. }
  intros s3 Ho3 H3 H4. rewrite Hfld in H4. apply wp_ret. rewrite !next_at. split; [done|].
  eapply row_step_intro; [done|exact H1|done|done|exact H4|]. rewrite !(ok_row s0 s1 b0), !(ok_row s0 s1 b1) by done.
  rewrite (merge_filled w _ _ (fun i => f (elem w (row (mem s0) b0 j) i) (elem w (row (mem s0) b1 j) i)));
    [..|done|row_vec|row_vec|intros k Hk; by rewrite qbit_cmp].
  apply filled_ext; [done|]. intros i Hi. unfold g. rewrite Hgt by done. destruct (gt _ _); [|done].
  cbn [Bool.eqb]. by rewrite elem_splat_0.
Qed.

Lemma in_u_elem w s b j i : width w -> ok s -> is_row j -> 0 <= i < VLEN / w -> in_u (8 * w) (elem w (row (mem s) b j) i).
Proof.
  intros Hw Ho Hj Hi. destruct (vec_ok_row s0 s b j Ho Hj) as [Hb Hl]. pose proof (lane_bound w Hw i Hi).
  unfold VLEN in *. apply elem_range; done || lia.
Qed.

Lemma u32_swrap x : in_u 32 x -> u32 (swrap 32 x) = x.
Proof. intros Hx. transitivity (u32 x); [apply (uwrap_fvalue Fw)|by apply uwrap_id]. Qed.

(** The comparisons in C are those on the bit patterns. *)
Lemma c_gt_sf_elem s b0 b1 j i : ok s -> input b0 -> input b1 -> is_row j -> 0 <= i < VLEN / 4 ->
  c_gt_sf (in_field s0 b0 j Fsf i) (in_field s0 b1 j Fsf i) =
  sf_gt (elem 4 (row (mem s0) b0 j) i) (elem 4 (row (mem s0) b1 j) i).
Proof.
  intros Ho H0 H1 Hj Hi. unfold c_gt_sf, in_field, fvalue. cbn [fsigned fsize]. change (8 * 4) with 32.
  rewrite !u32_swrap; [done|..]; rewrite <- (ok_row s0 s) by done; by apply (in_u_elem 4 s _ _ _ (width_fsize Fw)).
Qed.

Lemma c_gt_hf_elem s b0 b1 j i : ok s -> input b0 -> input b1 -> is_row j -> 0 <= i < VLEN / 2 ->
  hf_nan (elem 2 (row (mem s0) b0 j) i) = false -> hf_nan (elem 2 (row (mem s0) b1 j) i) = false ->
  c_gt_hf extendhfsf2 (in_field s0 b0 j Fhf i) (in_field s0 b1 j Fhf i) =
  hf_gt (elem 2 (row (mem s0) b0 j) i) (elem 2 (row (mem s0) b1 j) i).
Proof.
  intros Ho H0 H1 Hj Hi Hn0 Hn1. unfold c_gt_hf, in_field, fvalue. cbn [fsigned fsize]. change (8 * 2) with 16.
  apply extend_order; [..|done|done]; rewrite <- (ok_row s0 s) by done; by apply (in_u_elem 2 s _ _ _ (width_fsize Fh)).
Qed.

Lemma test_vgtsf_ok s : ok s -> numbers 4 sf_nan sf_zero sf_buffer0 sf_buffer1 -> spec test_vgtsf s (fun _ => ok).
Proof.
  intros Ho Hn. apply (gt_ok 4 gt_sf sf_buffer0 sf_buffer1 Fsf Fw c_gt_sf Fw 359); [done|by split|by split|done|done|].
  intros j i Hj Hi. destruct (Hn j i Hj Hi) as (Hx & Hy & _).
  rewrite gt_sf_numbers by done. symmetry. by apply (c_gt_sf_elem s).
Qed.

Lemma test_vgthf_ok s : ok s -> numbers 2 hf_nan hf_zero hf_buffer0 hf_buffer1 ->
  spec (test_vgthf extendhfsf2) s (fun _ => ok).
Proof.
  intros Ho Hn.
  apply (gt_ok 2 gt_hf hf_buffer0 hf_buffer1 Fhf Fh (c_gt_hf extendhfsf2) Fw 396); [done|by split|by split|done|done|].
  intros j i Hj Hi. destruct (Hn j i Hj Hi) as (Hx & Hy & _).
  rewrite gt_hf_numbers by done. symmetry. by apply (c_gt_hf_elem s).
Qed.

(** Extrema, by [gt]. *)
Lemma extremum_ok w (f : Z -> Z -> Z) b0 b1 fld (gt : Z -> Z -> bool) (is_max : bool) chk line s : ok s -> input b0 -> input b1 -> fsize fld = w ->
  (forall j i, is_row j -> 0 <= i < VLEN / w ->
    let x := elem w (row (mem s0) b0 j) i in let y := elem w (row (mem s0) b1 j) i in
    f x y = if gt (in_field s0 b0 j fld i) (in_field s0 b1 j fld i) then (if is_max then x else y)
            else (if is_max then y else x)) ->
  spec (test_extremum w f b0 b1 fld gt is_max (check_output chk line BUFSIZE)) s (fun _ => ok).
Proof.
  intros Ho Hb0 Hb1 Hfld Hf. unfold test_extremum. apply spec_memset_both; [done|done|]. clear s Ho. intros s Ho _ _.
  set (g j i := let x := in_field s0 b0 j fld i in let y := in_field s0 b1 j fld i in
    if gt x y then (if is_max then x else y) else (if is_max then y else x)).
  apply (spec_rows_check s0 (fun j _ => gen w (g j)) (fun j => (at_ b0 j, at_ b1 j, at_ output j))); [done|vlia| |done].
  intros j s1 Ho1 Hj. cbv beta iota. apply wp_bind.
  eapply (spec_store s0 _ j _ _ s1); [done|done|asm_run|row_vec|].
  intros s2 Ho2 H1 H2. apply wp_bind. apply (spec_fill_all s0 fld j (g j)); [done|done| |].
  { intros i s3 Ho3 Hi Q HQ. do 2 (eapply spec_rd; [eassumption|done|done|done|]). unfold g in HQ. cbv zeta in HQ.
    destruct (gt _ _); (eapply spec_wr; [eassumption|done|done|exact HQ]). }
  intros s3 Ho3 H3 H4. rewrite Hfld in H4. apply wp_ret. rewrite !next_at. split; [done|].
  eapply row_step_intro; [done|exact H1|done|done|exact H4|]. rewrite !(ok_row s0 s1 b0), !(ok_row s0 s1 b1) by done.
  unfold lanes2. subst w. apply gen_ext; [apply width_fsize|]. intros i Hi. rewrite Hf by done. unfold g. cbv zeta.
  by destruct (gt _ _), is_max; unfold in_field; rewrite uwrap_fvalue.
Qed.

Lemma test_extrema_sf_ok s : ok s -> numbers 4 sf_nan sf_zero sf_buffer0 sf_buffer1 ->
  spec test_vmax_sf s (fun _ => ok) /\ spec test_vmin_sf s (fun _ => ok).
Proof.
  intros Ho Hn. unfold test_vmax_sf, test_vmin_sf, check_output_w. split.
  - apply (extremum_ok 4 max_sf sf_buffer0 sf_buffer1 Fsf c_gt_sf true); [done|by split|by split|done|].
    intros j i Hj Hi. destruct (Hn j i Hj Hi) as (Hx & Hy & Hz). cbv zeta.
    rewrite (c_gt_sf_elem s) by (done || by split). by apply max_sf_numbers.
  - apply (extremum_ok 4 min_sf sf_buffer0 sf_buffer1 Fsf c_gt_sf false); [done|by split|by split|done|].
    intros j i Hj Hi. destruct (Hn j i Hj Hi) as (Hx & Hy & Hz). cbv zeta.
    rewrite (c_gt_sf_elem s) by (done || by split). by apply min_sf_numbers.
Qed.

Lemma test_extrema_hf_ok s : ok s -> numbers 2 hf_nan hf_zero hf_buffer0 hf_buffer1 ->
  spec (test_vmax_hf extendhfsf2) s (fun _ => ok) /\ spec (test_vmin_hf extendhfsf2) s (fun _ => ok).
Proof.
  intros Ho Hn. unfold test_vmax_hf, test_vmin_hf, check_output_h. split.
  - apply (extremum_ok 2 max_hf hf_buffer0 hf_buffer1 Fhf (c_gt_hf extendhfsf2) true); [done|by split|by split|done|].
    intros j i Hj Hi. destruct (Hn j i Hj Hi) as (Hx & Hy & Hz). cbv zeta.
    rewrite (c_gt_hf_elem s) by (done || by split). by apply max_hf_numbers.
  - apply (extremum_ok 2 min_hf hf_buffer0 hf_buffer1 Fhf (c_gt_hf extendhfsf2) false); [done|by split|by split|done|].
    intros j i Hj Hi. destruct (Hn j i Hj Hi) as (Hx & Hy & Hz). cbv zeta.
    rewrite (c_gt_hf_elem s) by (done || by split). by apply min_hf_numbers.
Qed.

(** A block of packets on row 0, and the comparison of that row. *)
Lemma test_vgthf_nan_ok s : ok s -> spec (test_vgthf_nan hexagon_arch) s (fun _ => ok).
Proof.
  intros Ho. unfold test_vgthf_nan. apply wp_bind. apply spec_memset; [done|by intros [? _]|vlia|].
  intros s1 Ho1 _ H1. specialize (H1 eq_refl). apply wp_bind. apply spec_memset; [done|by intros [_ ?]|vlia|].
  intros s2 Ho2 Hs2 H2. specialize (H2 eq_refl). apply wp_bind.
  eapply (spec_store s0 _ 0 _ _ s2); [done|vlia|asm_run|row_vec; eauto|].
  { apply vec_ok_merge; [apply vec_ok_gen|apply (vec_ok_row s0); [done|vlia]]. }
  intros s3 Ho3 H3 H4. apply (spec_check s0); [done|vlia| |done]. intros r Hr. replace r with 0 by lia.
  rewrite H3, H4, H2 by vlia. rewrite Z.eqb_refl.
  assert (row (mem s2) output 0 = replicate 128 255) as ->.
  { unfold row. rewrite Hs2 by done. apply (H1 0). vlia. }
  rewrite (merge_filled 2 _ _ (fun _ => gt_hf 0 0xffff)); [..|apply (width_fsize Fh)|apply vec_ok_gen|by apply vec_ok_const|].
  - rewrite gt_hf_all_ones. by destruct (hexagon_arch <? 81); vm_compute.
  - intros k Hk. rewrite qbit_cmp by done. destruct (lane_of 2 (width_fsize Fh) k Hk) as (Hd & _).
    rewrite (elem_splat_0 2) by (apply (width_fsize Fh) || done). f_equal.
    transitivity (elem 2 (gen 2 (fun _ => 0xffff)) (k / 2)); [|by rewrite elem_gen by (apply (width_fsize Fh) || done)].
    reflexivity.
Qed.

(** The reference table is that of the processor on the contents of the
    buffers. *)
Definition v6mpy_reference : Prop := forall j, is_row j ->
  (v6mpy_v1 (row (mem s0) sf_buffer1 j, row (mem s0) buffer1 j) (row (mem s0) sf_buffer0 j, row (mem s0) buffer0 j)).2 =
  gen 4 (v6mpy_ref j).

Lemma test_v6mpy_ok s : ok s -> v6mpy_reference -> spec test_v6mpy s (fun _ => ok).
Proof.
  intros Ho Href. unfold test_v6mpy. apply spec_memset_both; [done|done|]. clear s Ho. intros s Ho _ _.
  apply (spec_rows_check s0 (fun j _ => gen 4 (v6mpy_ref j))
    (fun j => (at_ buffer0 j, at_ sf_buffer0 j, at_ buffer1 j, at_ sf_buffer1 j, at_ output j))); [done|vlia| |done].
  intros j s1 Ho1 Hj. cbv beta iota. apply wp_bind.
  specialize (Href j Hj). destruct (v6mpy_v1 _ _) as [hi lo] eqn:E in Href. cbn [snd] in Href. subst lo.
  rewrite <- !(ok_row s0 s1) in E by (done || by split).
  eapply (spec_store s0 _ j (gen 4 (v6mpy_ref j)) _ s1); [done|done| |apply vec_ok_gen|].
  { unfold vmem. repeat (cbn -[vload vstore aligned at_ gen Z.mul VLEN v6mpy_ref];
      first [rewrite vload_row by done | rewrite vstore_row by done | rewrite E]).
    cbn -[vload vstore aligned at_ gen Z.mul VLEN v6mpy_ref]. reflexivity. }
  intros s2 Ho2 H1 H2. apply wp_bind. apply (spec_fill_all s0 Fw j (v6mpy_ref j)); [done|done| |].
  { intros i s3 Ho3 Hi Q HQ. elem_body HQ. }
  intros s3 Ho3 H3 H4. apply wp_ret. rewrite !next_at. split; [done|].
  eapply row_step_intro; [done|exact H1|done|done|exact H4|done].
Qed.
End cond.
