(* ===== verification/HvxMiscMoves.v ===== *)
(** The tests of src/hvx_misc.c of loads and stores, of values passed on within
    a packet, and of instructions on constants. *)

From S2P Require Import Prelude ByteMem HvxVec HvxRef HvxMisc HvxMiscRules HvxMiscTests HvxMiscCond.

Open Scope list_scope.
Open Scope Z_scope.

(** Vectors stored one after the other in rows of the output. *)
Definition put_rows (m : memory) (l : list (Z * vec)) : memory :=
  foldl (fun m x => put m output (VLEN * x.1) x.2) m l.

(** The row [r] they leave. *)
Definition row_after (r : Z) (old : vec) (l : list (Z * vec)) : vec :=
  foldl (fun v x => if r =? x.1 then x.2 else v) old l.

Section moves.
Context (s0 : mstate).
Abbreviation ok := (ok s0).
Implicit Types s : mstate.

Lemma put_rows_ok l s r' : ok s -> Forall (fun x => is_row x.1 /\ vec_ok x.2) l ->
  let s' := MState (put_rows (mem s) l) r' (merr s) (mout s) in
  ok s' /\ (forall r, is_row r -> row (mem s') output r = row_after r (row (mem s) output r) l) /\
  (forall r, is_row r -> row (mem s') expect r = row (mem s) expect r).
Proof.
  intros Ho Hl. revert s Ho. induction Hl as [|[j x] l [Hj [Hx Hlx]] Hl IH]; intros s Ho; cbn [fst snd] in *.
  - cbv zeta. split_and!; [by apply ok_regs|done|done].
  - assert (ok (MState (put (mem s) output (VLEN * j) x) r' (merr s) (mout s))) as Ho1.
    { apply ok_put; [done|by intros [? _]|done|vlia|rewrite Hlx; vlia]. }
    destruct (IH _ Ho1) as (Ho2 & H2 & H3). cbv zeta. split_and!; [exact Ho2| |]; intros r Hr.
    + etrans; [by apply H2|]. cbn [mem]. rewrite row_put_row by (apply Ho || done). done.
    + etrans; [by apply H3|]. by apply row_put_ne.
Qed.

Lemma spec_store_rows p l r' s Q : ok s -> Forall (fun x => is_row x.1 /\ vec_ok x.2) l ->
  packets p (mem s) (rf s) = Some (put_rows (mem s) l, r') ->
  (forall s', ok s' -> (forall r, is_row r -> row (mem s') output r = row_after r (row (mem s) output r) l) ->
    (forall r, is_row r -> row (mem s') expect r = row (mem s) expect r) -> Q tt s') ->
  spec (asm p) s Q.
Proof.
  intros Ho Hl Hp HQ. eapply spec_asm; [exact Hp|]. destruct (put_rows_ok l s r' Ho Hl) as (H1 & H2 & H3).
  by apply HQ.
Qed.

(** Copying a row to what is expected. *)
Lemma spec_assign i b j s Q : ok s -> is_row i -> is_row j -> input b ->
  (forall s', ok s' -> (forall r, is_row r -> row (mem s') output r = row (mem s) output r) ->
    (forall r, is_row r -> row (mem s') expect r = if r =? i then row (mem s0) b j else row (mem s) expect r) ->
    Q tt s') ->
  spec (assign expect i b j) s Q.
Proof.
  intros Ho Hi Hj Hb HQ. destruct (vec_ok_row s0 s b j Ho Hj) as [Hbb Hbl].
  unfold assign, copy, wp, at_. cbn [fst snd]. rewrite !in_bounds_row by done. cbn [andb].
  fold (row (mem s) b j). apply HQ.
  - apply (ok_put s0 s expect _ _ (rf s)); [done|by intros [_ ?]|done|vlia|rewrite Hbl; vlia].
  - intros r Hr. by apply row_put_ne.
  - intros r Hr. cbn [mem write]. rewrite row_put_row by (apply Ho || done). by rewrite (ok_row s0 s).
Qed.

(** The same, the rest of the program following. *)
Lemma spec_assign_then {A} i b j (m : prog mstate A) s Q : ok s -> is_row i -> is_row j -> input b ->
  (forall s', ok s' -> (forall r, is_row r -> row (mem s') output r = row (mem s) output r) ->
    (forall r, is_row r -> row (mem s') expect r = if r =? i then row (mem s0) b j else row (mem s) expect r) ->
    spec m s' Q) ->
  spec (assign expect i b j;; m) s Q.
Proof. intros Ho Hi Hj Hb Hm. apply wp_bind. by apply spec_assign. Qed.

Lemma aligned_padd b j a : 0 <= a < VLEN -> aligned (padd (at_ b j) a) = aligned (at_ b j).
Proof.
  intros Ha. unfold aligned, padd, at_. cbn [fst snd]. rewrite align_row by done.
  rewrite <- (Z.add_0_r (VLEN * j)) at 2. by rewrite align_row by vlia.
Qed.

(** What is known of the output when the aligned and unaligned tests run: the
    test before them has copied the first input to it. *)
Definition output_copied s : Prop := forall r, is_row r -> 0 < r -> row (mem s) output r = row (mem s0) buffer0 r.

(** Pointers to the following rows. *)
Lemma padd_rows b j n : padd (at_ b j) (n * VLEN) = at_ b (j + n).
Proof. unfold padd, at_. cbn [fst snd]. f_equal. lia. Qed.

Lemma padd_next b j : padd (at_ b j) VLEN = at_ b (j + 1).
Proof. exact (next_at b j). Qed.

Lemma vloadu_row m b j : is_row j -> vload m (at_ b j) = Some (row m b j).
Proof. intros Hj. unfold vload, at_. cbn [fst snd]. by rewrite in_bounds_row. Qed.

Lemma vstoreu_row m b j x : is_row j -> vstore m (at_ b j) x = Some (put m b (VLEN * j) x).
Proof. intros Hj. unfold vstore, at_. cbn [fst snd]. by rewrite in_bounds_row. Qed.

Ltac packets_run :=
  unfold vmem, valu1, valu2, valu2_dv, vsplat, vsplat_b, vcombine;
  repeat (cbn -[vload vstore aligned at_ padd lanes1 lanes2 gen merge splat cmp_lanes qbit Z.mul VLEN];
          first [rewrite aligned_padd by vlia | rewrite padd_rows | rewrite padd_next
                | rewrite vload_row by vlia | rewrite vstore_row by vlia
                | rewrite vloadu_row by vlia | rewrite vstoreu_row by vlia]);
  cbn -[vload vstore aligned at_ padd lanes1 lanes2 gen merge splat cmp_lanes qbit Z.mul VLEN]; reflexivity.

Lemma test_load_aligned_ok s : ok s -> output_copied s ->
  spec test_load_aligned s (fun _ s' => ok s' /\ output_copied s').
Proof.
  intros Ho Hc. unfold test_load_aligned. apply wp_bind.
  eapply (spec_store s0 _ 0 (row (mem s) buffer0 0)); [done|vlia|packets_run|apply (vec_ok_row s0); [done|vlia]|].
  intros s1 Ho1 H1 H2. apply spec_assign_then; [done|vlia|vlia|by split|].
  intros s2 Ho2 H3 H4. apply (spec_check s0); [done|vlia| |].
  - intros r Hr. replace r with 0 by lia. rewrite H3, H1, H4 by vlia. cbn. by apply (ok_row s0); [|split].
  - split; [done|]. intros r Hr Hr0. rewrite H3, H1 by done. rewrite (proj2 (Z.eqb_neq r 0)) by lia. by apply Hc.
Qed.

Lemma in_bounds_true a n : 0 <= a -> a + n <= BUFBYTES -> in_bounds a n = true.
Proof. intros. unfold in_bounds. apply andb_true_iff. by rewrite !Z.leb_le. Qed.

(** A copy of bytes of an input to what is expected. *)
Lemma spec_copy b a d n s Q : ok s -> input b -> 0 <= a -> 0 <= d -> 0 <= n -> a + n <= BUFBYTES -> d + n <= BUFBYTES ->
  (forall s', ok s' -> get (mem s') output = get (mem s) output ->
    get (mem s') expect = splice (get (mem s) expect) d (sub (get (mem s0) b) a n) -> Q tt s') ->
  spec (copy (expect, d) (b, a) n) s Q.
Proof.
  intros Ho Hb Ha Hd Hn Han Hdn HQ. unfold copy, wp. cbn [fst snd]. rewrite !in_bounds_true by done. cbn [andb].
  rewrite (ok_input _ _ Ho) by apply Hb.
  assert (length (sub (get (mem s0) b) a n) = Z.to_nat n) as Hl.
  { apply length_sub; [done|done|]. rewrite <- (ok_input _ _ Ho) by apply Hb. rewrite (ok_length _ _ Ho). vlia. }
  apply HQ.
  - apply (ok_put s0 s expect _ _ (rf s)); [done|by intros [_ ?]| |done|rewrite Hl; lia].
    apply bytes_ok_sub. rewrite <- (ok_input _ _ Ho) by apply Hb. apply Ho.
  - by apply get_put_ne.
  - cbn [mem write]. by rewrite get_put, decide_True.
Qed.

Lemma test_load_unaligned_ok s : ok s -> output_copied s ->
  spec test_load_unaligned s (fun _ s' => ok s' /\ output_copied s').
Proof.
  intros Ho Hc. unfold test_load_unaligned. apply wp_bind.
  set (x := sub (get (mem s) buffer0) 12 VLEN).
  assert (vec_ok x) as Hx.
  { split; [apply bytes_ok_sub, Ho|]. unfold x. rewrite length_sub; rewrite ?(ok_length _ _ Ho); vlia || done. }
  eapply (spec_store s0 _ 0 x); [done|vlia|packets_run|done|].
  intros s1 Ho1 H1 H2. apply wp_bind. apply (spec_copy buffer0 12 0 VLEN); [done|by split|vlia..|].
  intros s2 Ho2 H3 H4. apply (spec_check s0); [done|vlia| |].
  - intros r Hr. replace r with 0 by lia. transitivity x.
    + etrans; [|apply (H1 0); vlia]. unfold row. by rewrite H3.
    + change (x = sub (get (mem s2) expect) 0 VLEN). rewrite H4.
      assert (sub (get (mem s0) buffer0) 12 VLEN = x) as -> by (unfold x; by rewrite (ok_input _ _ Ho)).
      destruct Hx as [_ Hx]. symmetry. apply byte_ext.
      { rewrite length_sub; rewrite ?length_splice; rewrite ?(ok_length _ _ Ho1), ?Hx; vlia || done. }
      rewrite length_sub by (rewrite ?length_splice; rewrite ?(ok_length _ _ Ho1), ?Hx; vlia). intros k Hk.
      rewrite byte_sub, byte_splice by (rewrite ?(ok_length _ _ Ho1), ?Hx; vlia). rewrite Hx. rewrite Z.add_0_l, Z.sub_0_r.
      split_cmp; done || vlia.
  - split; [done|]. intros r Hr Hr0. unfold row. rewrite H3. change (row (mem s1) output r = row (mem s0) buffer0 r).
    rewrite H1 by done. rewrite (proj2 (Z.eqb_neq r 0)) by lia. by apply Hc.
Qed.

Lemma test_store_aligned_ok s : ok s -> output_copied s ->
  spec test_store_aligned s (fun _ s' => ok s' /\ forall r, is_row r -> row (mem s') output r = row (mem s0) buffer0 r).
Proof.
  intros Ho Hc. unfold test_store_aligned. apply wp_bind.
  eapply (spec_store s0 _ 0 (row (mem s) buffer0 0)); [done|vlia|packets_run|apply (vec_ok_row s0); [done|vlia]|].
  intros s1 Ho1 H1 H2. apply spec_assign_then; [done|vlia|vlia|by split|].
  intros s2 Ho2 H3 H4. assert (forall r, is_row r -> row (mem s2) output r = row (mem s0) buffer0 r) as Hout.
  { intros r Hr. rewrite H3, H1 by done. destruct (Z.eqb_spec r 0) as [->|Hne]; [by apply (ok_row s0); [|split]|].
    apply Hc; [done|vlia]. }
  apply (spec_check s0); [done|vlia| |by split]. intros r Hr. replace r with 0 by lia. by rewrite Hout, H4 by vlia.
Qed.

(** The bytes of the first two rows. *)
Lemma rows_eq_bytes m : length (get m output) = 2048%nat -> length (get m expect) = 2048%nat ->
  (forall k, 0 <= k < 2 * VLEN -> byte (get m output) k = byte (get m expect) k) ->
  forall r, 0 <= r < 2 -> row m output r = row m expect r.
Proof.
  intros Hlo Hle Hb r Hr. apply byte_ext; [by rewrite !length_row by (done || vlia)|].
  rewrite length_row by (done || vlia). intros k Hk. rewrite !byte_row by vlia. apply Hb. vlia.
Qed.

Lemma byte_of_row m b k : 0 <= k < BUFBYTES -> byte (get m b) k = byte (row m b (k / VLEN)) (k mod VLEN).
Proof.
  intros Hk. pose proof (Z.div_mod k VLEN ltac:(done)). pose proof (Z.mod_pos_bound k VLEN ltac:(done)).
  rewrite byte_row by vlia. f_equal. lia.
Qed.

(** The store leaves the bytes around it: they are those of the first input,
    put there by the tests before. *)
Lemma test_store_unaligned_ok s : ok s -> (forall r, is_row r -> row (mem s) output r = row (mem s0) buffer0 r) ->
  spec test_store_unaligned s (fun _ => ok).
Proof.
  intros Ho Hc. unfold test_store_unaligned. apply wp_bind. set (x := row (mem s) buffer0 0).
  destruct (vec_ok_row s0 s buffer0 0 Ho ltac:(vlia)) as [Hxb Hx]. fold x in Hxb, Hx.
  apply (spec_asm _ s (put (mem s) output 12 x) (set_V 2 x (rf s))); [packets_run|].
  set (s1 := MState _ _ _ _).
  assert (ok s1) as Ho1 by (apply ok_put; [done|by intros [? _]|done|vlia|rewrite Hx; vlia]).
  apply wp_bind. apply (spec_copy buffer0 0 0 (2 * VLEN)); [done|by split|vlia..|]. intros s2 Ho2 H1 H2.
  apply wp_bind. apply (spec_copy buffer0 0 12 VLEN); [done|by split|vlia..|]. intros s3 Ho3 H3 H4.
  apply (spec_check s0); [done|vlia| |done].
  apply rows_eq_bytes; [apply Ho3..|]. intros k Hk.
  assert (forall n, 0 <= n <= BUFBYTES -> length (sub (get (mem s0) buffer0) 0 n) = Z.to_nat n) as Hsub.
  { intros n Hn. rewrite <- (ok_input _ _ Ho) by done. apply length_sub; rewrite ?(ok_length _ _ Ho); vlia. }
  rewrite H4, byte_splice by (rewrite ?Hsub, ?(ok_length _ _ Ho2); vlia). rewrite Hsub by vlia.
  rewrite H2, byte_splice by (rewrite ?Hsub, ?(ok_length _ _ Ho1); vlia). rewrite Hsub by vlia.
  rewrite H3, H1. unfold s1. cbn [mem]. rewrite get_put, decide_True by done.
  rewrite byte_splice by (rewrite ?(ok_length _ _ Ho), ?Hx; vlia). rewrite Hx.
  assert (byte (get (mem s) output) k = byte (get (mem s0) buffer0) k) as ->.
  { rewrite !byte_of_row by vlia. rewrite Hc; [done|]. pose proof (Z.div_mod k VLEN ltac:(done)).
    pose proof (Z.mod_pos_bound k VLEN ltac:(done)). vlia. }
  assert (forall j, 0 <= j < VLEN -> byte x j = byte (get (mem s0) buffer0) j) as Hxj.
  { intros j Hj. unfold x. rewrite byte_row by vlia. by rewrite (ok_input _ _ Ho). }
  cbn [fst snd]. unfold VLEN in *. split_cmp; cbn [andb]; try lia; rewrite ?byte_sub by lia; rewrite ?Hxj by lia; f_equal; lia.
Qed.

Lemma test_new_value_store_ok s : ok s -> spec test_new_value_store s (fun _ => ok).
Proof.
  intros Ho. unfold test_new_value_store. apply wp_bind.
  eapply (spec_store s0 _ 0 (row (mem s) buffer0 0)); [done|vlia|packets_run|apply (vec_ok_row s0); [done|vlia]|].
  intros s1 Ho1 H1 H2. apply spec_assign_then; [done|vlia|vlia|by split|]. intros s2 Ho2 H3 H4. apply wp_bind.
  apply (spec_check s0); [done|vlia| |].
  { intros r Hr. replace r with 0 by lia. rewrite H3, H1, H4 by vlia. by apply (ok_row s0); [|split]. }
  apply wp_bind.
  eapply (spec_store s0 _ 0 (row (mem s2) buffer1 0)); [done|vlia|packets_run|apply (vec_ok_row s0); [done|vlia]|].
  intros s3 Ho3 H5 H6. apply spec_assign_then; [done|vlia|vlia|by split|]. intros s4 Ho4 H7 H8.
  apply (spec_check s0); [done|vlia| |done].
  intros r Hr. replace r with 0 by lia. rewrite H7, H5, H8 by vlia. by apply (ok_row s0); [|split].
Qed.

(** A loop that stores an element of two rows each round. *)
Lemma spec_fill_two f j0 j1 (g0 g1 : Z -> Z) body s (Q : () -> mstate -> Prop) : ok s -> is_row j0 -> is_row j1 -> j0 <> j1 ->
  (forall i s, ok s -> 0 <= i < VLEN / fsize f -> forall Q : () -> mstate -> Prop,
    (forall s1 s2, ok s2 ->
      (forall r, is_row r -> row (mem s1) output r = row (mem s) output r) ->
      (forall r, is_row r -> row (mem s1) expect r =
        set_opt (fsize f) i (if r =? j0 then Some (g0 i) else None) (row (mem s) expect r)) ->
      (forall r, is_row r -> row (mem s2) output r = row (mem s1) output r) ->
      (forall r, is_row r -> row (mem s2) expect r =
        set_opt (fsize f) i (if r =? j1 then Some (g1 i) else None) (row (mem s1) expect r)) -> Q tt s2) ->
    spec (body i) s Q) ->
  (forall s', ok s' -> (forall r, is_row r -> row (mem s') output r = row (mem s) output r) ->
    (forall r, is_row r -> row (mem s') expect r =
      if r =? j0 then gen (fsize f) g0 else if r =? j1 then gen (fsize f) g1 else row (mem s) expect r) -> Q tt s') ->
  spec (for_elems f body) s Q.
Proof.
  intros Ho H0 H1 Hne Hb HQ.
  apply (spec_fill s0 f (fun r i => if r =? j0 then Some (g0 i) else if r =? j1 then Some (g1 i) else None)); [done| |].
  - intros i s1 Ho1 Hi. apply Hb; [done..|]. intros s2 s3 Ho3 H2 H3 H4 H5. split_and!; [done|..]; intros r Hr.
    + by rewrite H4, H2.
    + rewrite H5, H3 by done. destruct (Z.eqb_spec r j0), (Z.eqb_spec r j1); subst; try done; lia.
  - intros s1 Ho1 H2 H3. apply HQ; [done|done|]. intros r Hr. rewrite H3 by done.
    destruct (r =? j0), (r =? j1); try done.
    apply filled_none; [apply width_fsize|apply (vec_ok_row s0); [done|done]..].
Qed.

Lemma spec_fill_const f j0 j1 c0 c1 s (Q : () -> mstate -> Prop) : ok s -> is_row j0 -> is_row j1 -> j0 <> j1 ->
  (forall s', ok s' -> (forall r, is_row r -> row (mem s') output r = row (mem s) output r) ->
    (forall r, is_row r -> row (mem s') expect r =
      if r =? j0 then gen (fsize f) (fun _ => c0) else if r =? j1 then gen (fsize f) (fun _ => c1)
      else row (mem s) expect r) -> Q tt s') ->
  spec (for_elems f (fun i => wr expect j0 f i c0;; wr expect j1 f i c1)) s Q.
Proof.
  intros Ho H0 H1 Hne HQ. apply (spec_fill_two f j0 j1 (fun _ => c0) (fun _ => c1)); [done..| |done].
  intros i s1 Ho1 Hi R HR. apply wp_bind. eapply spec_wr; [exact Ho1|done|done|]. intros s2 Ho2 H2 H3.
  eapply spec_wr; [exact Ho2|done|done|]. intros s3 Ho3 H4 H5. by apply (HR s2 s3).
Qed.

(** Two rows of constants stored and expected. *)
Lemma two_rows_check p x0 x1 f c0 c1 fld line r' s : ok s ->
  packets p (mem s) (rf s) = Some (put_rows (mem s) [(0, x0); (1, x1)], r') ->
  x0 = gen (fsize f) (fun _ => c0) -> x1 = gen (fsize f) (fun _ => c1) ->
  spec (asm p;; for_elems f (fun i => wr expect 0 f i c0;; wr expect 1 f i c1);; check_output fld line 2) s (fun _ => ok).
Proof.
  intros Ho Hp -> ->. apply wp_bind. eapply spec_store_rows; [done| |exact Hp|].
  { repeat (apply Forall_cons; split; [split; [cbn; vlia|apply vec_ok_gen]|]). by apply Forall_nil. }
  intros s1 Ho1 H1 H2. apply wp_bind. apply spec_fill_const; [done|vlia|vlia|done|]. intros s2 Ho2 H3 H4.
  apply (spec_check s0); [done|vlia| |done]. intros r Hr. rewrite H3, H1, H4 by vlia. unfold row_after. cbn [foldl fst snd].
  assert (r = 0 \/ r = 1) as [-> | ->] by lia; done.
Qed.

(** Packets that set one register. *)
Lemma packets_SetR d v l m r : packets ([SetR d v] :: l) m r = packets l m (set_R d v r).
Proof. done. Qed.

Lemma packets_vsplat d i l m r : packets ([vsplat d (Reg i)] :: l) m r = packets l m (set_V d (splat 4 (R r i)) r).
Proof. done. Qed.

Lemma packets_vsplat_imm d c l m r : packets ([vsplat d (Imm c)] :: l) m r = packets l m (set_V d (splat 4 c) r).
Proof. done. Qed.

(** The packet under test multiplies by the pair that its other instruction
    passes on. *)
Lemma packets_vmpyo m r : let p := vmpyo (V r 24) (V r 25) (V r 18) (V r 16) in
  exists r', packets [[vmpyo_acc 24 18 14; vcombine Tmp 15 14 21 16]; [StV (at_ output 0) 24]; [StV (at_ output 1) 25]] m r =
    Some (put_rows m [(0, p.1); (1, p.2)], r').
Proof.
  eexists. unfold vmpyo_acc, vcombine.
  repeat (cbn -[vstore aligned at_ vmpyo Z.mul VLEN]; rewrite vstore_row by vlia). cbn -[vmpyo Z.mul VLEN]. reflexivity.
Qed.

Lemma test_load_tmp2_ok s : ok s -> spec test_load_tmp2 s (fun _ => ok).
Proof.
  intros Ho. unfold test_load_tmp2. cbv zeta.
  edestruct (packets_vmpyo (mem s)) as [r' Hr'].
  eapply (two_rows_check _ _ _ Fw _ _ _ _ r'); [done|repeat first [rewrite packets_SetR|rewrite packets_vsplat]; exact Hr'|..].
  all: vm_compute; reflexivity.
Qed.

Lemma test_vdelta_insn_ok line f exp s : ok s ->
  f (splat 4 0xdeadbeef) (splat 4 0xff11ff11) = splat 4 exp -> spec (test_vdelta_insn line f exp) s (fun _ => ok).
Proof.
  intros Ho Hf. unfold test_vdelta_insn. cbv zeta. eapply (two_rows_check _ _ _ Fuw); [done|packets_run|exact Hf|done].
Qed.

Lemma test_vdelta_ok s : ok s -> spec test_vdelta s (fun _ => ok).
Proof.
  intros Ho. unfold test_vdelta. apply wp_bind. eapply wp_mono; [apply test_vdelta_insn_ok; [done|vm_compute; reflexivity]|].
  intros [] s1 Ho1. apply test_vdelta_insn_ok; [done|vm_compute; reflexivity].
Qed.

Lemma packets_vsub m r : exists r',
  packets [[valu2_dv vsub_uw_sat 24 16 26]; [StV (at_ output 0) 24]; [StV (padd (at_ output 0) VLEN) 25]] m r =
    Some (put_rows m [(0, vsub_uw_sat (V r 16) (V r 26)); (1, vsub_uw_sat (V r 17) (V r 27))], r').
Proof.
  eexists. unfold valu2_dv. change (padd (at_ output 0) VLEN) with (at_ output 1).
  repeat (cbn -[vstore aligned at_ vsub_uw_sat Z.mul VLEN]; rewrite vstore_row by vlia).
  cbn -[vsub_uw_sat Z.mul VLEN]. reflexivity.
Qed.

Lemma test_vsubuwsat_dv_ok s : ok s -> spec test_vsubuwsat_dv s (fun _ => ok).
Proof.
  intros Ho. unfold test_vsubuwsat_dv. cbv zeta. apply wp_bind. apply (spec_memset s0); [done|by intros [_ ?]|vlia|].
  intros s1 Ho1 _ _. apply wp_bind. apply (spec_memset s0); [done|by intros [? _]|vlia|]. intros s2 Ho2 _ _.
  edestruct (packets_vsub (mem s2)) as [r' Hr'].
  eapply (two_rows_check _ _ _ Fuw _ _ _ _ r'); [done|rewrite !packets_vsplat_imm; exact Hr'|vm_compute; reflexivity..].
Qed.

Lemma test_vadduwsat_ok s : ok s -> spec test_vadduwsat s (fun _ => ok).
Proof.
  intros Ho. unfold test_vadduwsat. cbv zeta. apply wp_bind. apply (spec_memset s0); [done|by intros [_ ?]|vlia|].
  intros s1 Ho1 _ _. apply wp_bind. apply (spec_memset s0); [done|by intros [? _]|vlia|]. intros s2 Ho2 _ _. apply wp_bind.
  eapply (spec_store s0 _ 0); [done|vlia|unfold vadd_uw_sat; packets_run|apply vec_ok_gen|]. intros s3 Ho3 H1 H2.
  apply wp_bind. apply (spec_fill_all s0 Fuw 0 (fun _ => UINT_MAX)); [done|vlia| |].
  { intros i s4 Ho4 Hi Q HQ. elem_body HQ. }
  intros s4 Ho4 H3 H4. apply (spec_check s0); [done|vlia| |done]. intros r Hr. replace r with 0 by lia.
  rewrite H3, H1, H4 by vlia. vm_compute; reflexivity.
Qed.

(** The words swap their outer bytes twice, which the masks of [rt] undo. *)
Lemma vdeal_words : exists y, foldl (deal_stage 0xff00ff00) (splat 4 0xff00ff00, splat 4 0x12345678) [64; 32; 16; 8; 4; 2; 1] =
  (y, splat 4 0x12345678).
Proof. eexists. vm_compute; reflexivity. Qed.

Lemma packets_vdeal m r y x :
  foldl (deal_stage (R r 0)) (V r 1, V r 0) [64; 32; 16; 8; 4; 2; 1] = (y, x) ->
  packets [[vdeal 1 0 0; StVnew (at_ output 0) 0]] m r = Some (put m output (VLEN * 0) x, set_V 0 x (set_V 1 y r)).
Proof.
  intros Hf. cbn -[deal_stage] in Hf. unfold vdeal.
  cbn -[vstore aligned at_ Z.mul VLEN deal_stage set_V V R]. rewrite Hf.
  cbn -[vstore aligned at_ Z.mul VLEN]. by rewrite vstore_row by vlia.
Qed.

Lemma test_store_new_ok s : ok s -> spec test_store_new s (fun _ => ok).
Proof.
  intros Ho. unfold test_store_new. apply wp_bind. destruct vdeal_words as [y Hy].
  eapply (spec_store s0 _ 0 (splat 4 0x12345678)); [done|vlia| |apply vec_ok_gen|].
  { repeat first [rewrite packets_SetR|rewrite packets_vsplat]. eapply (packets_vdeal _ _ y); exact Hy. }
  clear y Hy.
  intros s1 Ho1 H1 H2. apply wp_bind. apply (spec_fill_all s0 Fw 0 (fun _ => 0x12345678)); [done|vlia| |].
  { intros i s4 Ho4 Hi Q HQ. elem_body HQ. }
  intros s2 Ho2 H3 H4. apply (spec_check s0); [done|vlia| |done]. intros r Hr. replace r with 0 by lia.
  by rewrite H3, H1, H4 by vlia.
Qed.

Lemma test_v6_vcombine_tmp_ok line reg1 reg2 s : ok s -> (reg1, reg2) = (9, 8) \/ (reg1, reg2) = (8, 9) ->
  spec (test_v6_vcombine_tmp line reg1 reg2) s (fun _ => ok).
Proof.
  intros Ho Hreg. unfold test_v6_vcombine_tmp.
  assert ((3 <? reg1) && (3 <? reg2) = true) as -> by (by destruct Hreg as [[= -> ->]|[= -> ->]]).
  apply wp_bind, wp_ret, wp_bind. apply (spec_memset s0); [done|by intros [? _]|vlia|]. intros s1 Ho1 _ _.
  apply spec_assign_then; [done|vlia|vlia|by split|]. intros s2 Ho2 _ H2.
  apply spec_assign_then; [done|vlia|vlia|by split|]. intros s3 Ho3 _ H3. apply wp_bind.
  eapply (spec_store_rows _ [(0, row (mem s3) buffer0 0); (1, row (mem s3) buffer0 1)]); [done| | |].
  { repeat (apply Forall_cons; split; [split; [cbn; vlia|apply (vec_ok_row s0); [done|vlia]]|]). by apply Forall_nil. }
  { destruct Hreg as [[= -> ->]|[= -> ->]]; packets_run. }
  intros s4 Ho4 H4 H5. apply (spec_check s0); [done|vlia| |done]. intros r Hr. rewrite H4, H5, H3, H2 by vlia.
  assert (r = 0 \/ r = 1) as [-> | ->] by lia; by apply (ok_row s0).
Qed.

(** *** Loads under a predicate, which holds in every other round *)

(** [spec_store], for registers that depend on the predicate. *)
Lemma spec_store_some l j x s Q : ok s -> is_row j ->
  (exists r', packets l (mem s) (rf s) = Some (put (mem s) output (VLEN * j) x, r')) -> vec_ok x ->
  (forall s', ok s' -> (forall r, is_row r -> row (mem s') output r = if r =? j then x else row (mem s) output r) ->
    (forall r, is_row r -> row (mem s') expect r = row (mem s) expect r) -> Q tt s') ->
  spec (asm l) s Q.
Proof. intros Ho Hj [r' Hp] Hx HQ. by eapply (spec_store s0 l j x r'). Qed.

Lemma test_load_tmp_predicated_ok s : ok s -> spec test_load_tmp_predicated s (fun _ => ok).
Proof.
  intros Ho. unfold test_load_tmp_predicated.
  set (g j i := in_field s0 buffer0 j Fw i + (if Z.even j then in_field s0 buffer1 j Fw i + 1 else 2)).
  apply (spec_rows_check s0 (fun j _ => gen 4 (g j))
    (fun j => (at_ buffer0 j, at_ buffer1 j, at_ output j, Z.even j))); [done|vlia| |done].
  intros j s1 Ho1 Hj. cbv beta iota. apply wp_bind.
  apply (spec_store_some _ j (vadd 4 (vadd 4 (if Z.even j then row (mem s1) buffer1 j else splat 4 1) (row (mem s1) buffer0 j))
    (splat 4 1))); [done|done|destruct (Z.even j); eexists; packets_run|apply vec_ok_gen|].
  intros s2 Ho2 H1 H2. apply wp_bind. eapply (spec_fill_all s0 Fw j (g j)); [done|done| |].
  { intros i s3 Ho3 Hi Q HQ. unfold g in HQ. destruct (Z.even j); rewrite ?Z.add_assoc in HQ; elem_body HQ. }
  intros s3 Ho3 H3 H4. apply wp_ret. rewrite !next_at. split; [by rewrite Z.add_1_r, Z.even_succ, <- Z.negb_even|].
  eapply row_step_intro; [done|exact H1|done|done|exact H4|]. rewrite !(ok_row s0 s1) by (done || by split).
  destruct (Z.even j) eqn:Hj2; lanes Fw; rewrite ?uwrap_uwrap by done; unfold g, in_field; rewrite Hj2.
  all: change (8 * 4) with (8 * fsize Fw).
  - rewrite Z.add_assoc, (Z.add_comm (elem 4 _ i)). mod_ops Fw.
  - match goal with |- _ = uwrap _ (?x + 2) => replace (x + 2) with (1 + x + 1) by lia end. mod_ops Fw.
Qed.

Lemma test_load_cur_predicated_ok s : ok s -> spec test_load_cur_predicated s (fun _ => ok).
Proof.
  intros Ho. unfold test_load_cur_predicated.
  apply (spec_rows_check s0 (fun j _ => row (mem s0) (if Z.even j then buffer1 else buffer0) j) Z.even); [done|vlia| |done].
  intros j s1 Ho1 Hj. cbv beta. apply wp_bind.
  apply (spec_store_some _ j (row (mem s1) (if Z.even j then buffer1 else buffer0) j));
    [done|done|destruct (Z.even j); eexists; packets_run|by apply (vec_ok_row s0)|].
  intros s2 Ho2 H1 H2.
  assert (forall Q : () -> mstate -> Prop, (forall s', ok s' -> (forall r, is_row r -> row (mem s') output r = row (mem s2) output r) ->
    (forall r, is_row r -> row (mem s') expect r =
      if r =? j then row (mem s0) (if Z.even j then buffer1 else buffer0) j else row (mem s2) expect r) -> Q tt s') ->
    spec (if Z.even j then assign expect j buffer1 j else assign expect j buffer0 j) s2 Q) as Hassign.
  { intros Q HQ. destruct (Z.even j); apply spec_assign; done || by split. }
  apply wp_bind, Hassign. intros s3 Ho3 H3 H4. apply wp_ret. split; [by rewrite Z.add_1_r, Z.even_succ, <- Z.negb_even|].
  eapply row_step_intro; [done|exact H1|done|done|exact H4|]. rewrite (ok_row s0 s1); [done|done|]. by destruct (Z.even j).
Qed.

(** *** Pairs of rows *)

Lemma test_vcombine_ok s : ok s -> spec test_vcombine s (fun _ => ok).
Proof.
  intros Ho. unfold test_vcombine. apply wp_bind.
  apply wp_for with (I := fun i s' => ok s' /\ forall r, 0 <= r < 2 * i -> row (mem s') output r = row (mem s') expect r).
  - done.
  - split; [done|lia].
  - intros i s1 Hi [Ho1 Heq]. change (BUFSIZE / 2) with 8 in Hi. apply wp_bind.
    eapply (spec_store_rows _ [(2 * i, splat 4 (2 * i + 1)); (2 * i + 1, splat 4 (2 * i))]); [done| |packets_run|].
    { repeat (apply Forall_cons; split; [split; [cbn [fst]; vlia|apply vec_ok_gen]|]). by apply Forall_nil. }
    intros s2 Ho2 H1 H2. apply spec_fill_const; [done|vlia|vlia|lia|]. intros s3 Ho3 H3 H4. split; [done|].
    intros r Hr. rewrite H3, H1, H4, H2 by vlia. unfold row_after. cbn [foldl fst snd].
    destruct (Z.eqb_spec r (2 * i)), (Z.eqb_spec r (2 * i + 1)); try lia; try done. apply Heq. lia.
  - intros s1 [Ho1 Heq]. apply (spec_check s0); [done|vlia|apply Heq|done].
Qed.

(** *** The packet that uses every temporary *)

Lemma packets_vmem d b j l m r : is_row j -> packets ([vmem d (at_ b j)] :: l) m r = packets l m (set_V d (row m b j) r).
Proof. intros Hj. unfold vmem. cbn -[vload aligned at_ set_V]. by rewrite vload_row. Qed.

Lemma packets_StV b j d l m r : is_row j ->
  packets ([StV (at_ b j) d] :: l) m r = packets l (put m b (VLEN * j) (V r d)) r.
Proof. intros Hj. cbn -[vstore aligned at_ V]. by rewrite vstore_row. Qed.

Lemma packets_temps l m r :
  packets ([valu2_dv (vadd 4) 0 2 0; valu2 vshuffe_b 2 3 2; valu2 (vadd 4) 3 1 4; Vmem Tmp None 4 (at_ buffer0 5)] :: l) m r =
  packets l m (set_V 3 (vadd 4 (V r 1) (row m buffer0 5)) (set_V 2 (vshuffe_b (V r 3) (V r 2))
    (set_V 1 (vadd 4 (V r 3) (V r 1)) (set_V 0 (vadd 4 (V r 2) (V r 0)) r)))).
Proof.
  unfold valu2_dv, valu2. cbn -[vload aligned at_ set_V V vadd vshuffe_b]. rewrite vload_row by vlia.
  cbn -[set_V V vadd vshuffe_b]. reflexivity.
Qed.

Lemma packets_max_temps m r : let x n := row m buffer0 n in exists r',
  packets [[vmem 0 (at_ buffer0 0)]; [vmem 1 (at_ buffer0 1)]; [vmem 2 (at_ buffer0 2)]; [vmem 3 (at_ buffer0 3)];
    [vmem 4 (at_ buffer0 4)];
    [valu2_dv (vadd 4) 0 2 0; valu2 vshuffe_b 2 3 2; valu2 (vadd 4) 3 1 4; Vmem Tmp None 4 (at_ buffer0 5)];
    [StV (at_ output 0) 0]; [StV (at_ output 1) 1]; [StV (at_ output 2) 2]; [StV (at_ output 3) 3];
    [StV (at_ output 4) 4]] m r =
  Some (put_rows m [(0, vadd 4 (x 2) (x 0)); (1, vadd 4 (x 3) (x 1)); (2, vshuffe_b (x 3) (x 2));
    (3, vadd 4 (x 1) (x 5)); (4, x 4)], r').
Proof.
  cbv zeta. eexists. rewrite !packets_vmem, packets_temps, !packets_StV by vlia.
  unfold put_rows. cbn [foldl fst snd packets]. reflexivity.
Qed.

(** The last load does not change the register it passes on. *)
Lemma test_max_temps_ok s : ok s -> spec test_max_temps s (fun _ => ok).
Proof.
  intros Ho. unfold test_max_temps. cbv zeta. destruct (packets_max_temps (mem s) (rf s)) as [r' Hr']. cbv zeta in Hr'.
  rewrite !padd_rows. apply wp_bind. eapply spec_store_rows; [done| |exact Hr'|].
  { repeat (apply Forall_cons; split; [split; [cbn [fst]; vlia|first [apply vec_ok_gen|apply (vec_ok_row s0); [done|vlia]]]|]).
    by apply Forall_nil. }
  clear Hr'. intros s1 Ho1 H1 _. apply wp_bind.
  apply (spec_fill_two Fw 0 1 (fun i => in_field s0 buffer0 0 Fw i + in_field s0 buffer0 2 Fw i)
    (fun i => in_field s0 buffer0 1 Fw i + in_field s0 buffer0 3 Fw i)); [done|vlia|vlia|done| |].
  { intros i s2 Ho2 Hi Q HQ. do 2 (eapply spec_rd; [eassumption|by split|vlia|done|]). apply wp_bind.
    eapply spec_wr; [exact Ho2|vlia|done|]. intros s3 Ho3 H2 H3.
    do 2 (eapply spec_rd; [eassumption|by split|vlia|done|]). eapply spec_wr; [exact Ho3|vlia|done|].
    intros s4 Ho4 H4 H5. by apply (HQ s3 s4). }
  intros s2 Ho2 H2 H3. apply wp_bind.
  apply (spec_fill_all s0 Fuh 2 (fun i => Z.lor (Z.land (in_field s0 buffer0 2 Fuh i) 0xff)
    (Z.shiftl (Z.land (in_field s0 buffer0 3 Fuh i) 0xff) 8))); [done|vlia| |].
  { intros i s3 Ho3 Hi Q HQ. do 2 (eapply spec_rd; [eassumption|by split|vlia|done|]).
    eapply spec_wr; [exact Ho3|vlia|done|exact HQ]. }
  intros s3 Ho3 H4 H5. apply wp_bind.
  apply (spec_fill_all s0 Fw 3 (fun i => in_field s0 buffer0 1 Fw i + in_field s0 buffer0 5 Fw i)); [done|vlia| |].
  { intros i s4 Ho4 Hi Q HQ. do 2 (eapply spec_rd; [eassumption|by split|vlia|done|]).
    eapply spec_wr; [exact Ho4|vlia|done|exact HQ]. }
  intros s4 Ho4 H6 H7. apply spec_assign_then; [done|vlia|vlia|by split|]. intros s5 Ho5 H8 H9.
  apply (spec_check s0); [done|vlia| |done]. intros r Hr. rewrite H8, H6, H4, H2, H1, H9, H7, H5, H3 by vlia.
  rewrite !(ok_row s0 s buffer0) by (done || by split). unfold row_after. cbn [foldl fst snd].
  assert (forall f a b, uwrap (8 * fsize Fw) (elem 4 (row (mem s0) buffer0 a) f + elem 4 (row (mem s0) buffer0 b) f) =
    uwrap (8 * fsize Fw) (in_field s0 buffer0 b Fw f + in_field s0 buffer0 a Fw f)) as Hadd.
  { intros f a b. rewrite Z.add_comm. symmetry. apply (arith_op Fw). auto. }
  assert (r = 0 \/ r = 1 \/ r = 2 \/ r = 3 \/ r = 4) as [-> |[-> |[-> |[-> | ->]]]] by lia; cbn [Z.eqb Pos.eqb]; try done.
  all: apply gen_ext; [apply width_fsize|]; intros i Hi; try apply (Hadd i).
  rewrite Z.add_comm. apply (Hadd i).
Qed.
End moves.
