(* ===== verification/HvxMiscInit.v ===== *)
(** What [init_buffers] of include/hvx_misc.h leaves in the input arrays, and
    what the tests need of it. *)

From S2P Require Import Prelude ByteMem HvxVec HvxRef HvxMisc HvxMiscRules HvxMiscTests HvxMiscCond.

Open Scope list_scope.
Open Scope Z_scope.

(** Arrays of their size. *)
Definition arrays_ok (s : mstate) : Prop := forall b, length (get (mem s) b) = 2048%nat /\ bytes_ok (get (mem s) b).

(** The error report is left alone. *)
Definition same_report (s s' : mstate) : Prop := merr s' = merr s /\ mout s' = mout s.

(** Row [r] of an input: the counters. *)
Definition init_row (b : buf) (r : Z) : vec :=
  match b with
  | buffer0 => gen 1 (fun k => 128 * r + k)
  | buffer1 => gen 1 (fun k => 17 + 128 * r + k)
  | sf_buffer0 => gen 4 (fun k => 32 * r + k)
  | sf_buffer1 => gen 4 (fun k => 17 + 32 * r + k)
  | hf_buffer0 => gen 2 (fun k => 64 * r + k)
  | hf_buffer1 => gen 2 (fun k => 17 + 64 * r + k)
  | mask => gen 4 (fun k => if r + Z.rem k MASKMOD =? 0 then 0 else 1)
  | output | expect => []
  end.

Record initialised (s s' : mstate) : Prop := {
  init_arrays : arrays_ok s';
  init_report : same_report s s';
  init_rows b r : input b -> is_row r -> row (mem s') b r = init_row b r
}.

Lemma vec_ok_arrays s b r : arrays_ok s -> is_row r -> vec_ok (row (mem s) b r).
Proof. intros Ha Hr. destruct (Ha b) as [Hl Hb]. split; [by apply bytes_ok_row|by apply length_row]. Qed.

(** *** Stores *)

(** One store changes an element of one row. *)
Lemma spec_wr_any b i f j v s (Q : () -> mstate -> Prop) : arrays_ok s -> is_row i -> 0 <= j < VLEN / fsize f ->
  (forall s', arrays_ok s' -> same_report s s' ->
    (forall b' r, is_row r -> row (mem s') b' r =
      if decide (b' = b) then (if r =? i then set_elem (fsize f) j v (row (mem s) b r) else row (mem s) b' r)
      else row (mem s) b' r) -> Q tt s') ->
  spec (wr b i f j v) s Q.
Proof.
  intros Ha Hi Hj HQ. unfold wp, wr. rewrite in_array_true by done.
  pose proof (lane_bound _ (width_fsize f) j Hj). pose proof (width_pos _ (width_fsize f)).
  assert (Z.of_nat (length (le_bytes (fsize f) v)) = fsize f) as Hlen by (rewrite length_le_bytes; lia).
  apply HQ; [|done|].
  - intros b'. destruct (Ha b'), (Ha b) as [Hl Hb]. cbn [mem write]. rewrite get_put. case_decide; [|done]. split.
    + rewrite length_splice; [done|vlia|]. rewrite Hl, Hlen. vlia.
    + apply bytes_ok_splice; [done|apply bytes_ok_le_bytes].
  - intros b' r Hr. cbn [mem write]. case_decide as Hb'; [subst b'|by apply row_put_ne].
    rewrite row_put by (apply Ha || done || rewrite ?Hlen; vlia).
    destruct (Z.eqb_spec r i) as [->|Hne]; [|done]. destruct (vec_ok_arrays s b i Ha Hi).
    by apply splice_elem; [apply width_fsize|..].
Qed.

(** A loop over a row of each of two arrays, with a counter for each. *)
Lemma spec_count f b0 b1 i c0 c1 s (Q : Z * Z -> mstate -> Prop) : arrays_ok s -> is_row i -> b0 <> b1 ->
  (forall s', arrays_ok s' -> same_report s s' ->
    (forall b r, is_row r -> row (mem s') b r =
      if r =? i then
        if decide (b = b0) then gen (fsize f) (fun k => c0 + k)
        else if decide (b = b1) then gen (fsize f) (fun k => c1 + k) else row (mem s) b r
      else row (mem s) b r) -> Q (c0 + VLEN / fsize f, c1 + VLEN / fsize f) s') ->
  spec (for_acc 0 (VLEN / fsize f) (fun j '(c0, c1) => wr b0 i f j c0;; wr b1 i f j c1;; mret (c0 + 1, c1 + 1)) (c0, c1)) s Q.
Proof.
  intros Ha Hi Hne HQ. set (w := fsize f) in *. pose proof (width_fsize f : width w) as Hw.
  set (up c j := fun k => if k <? j then Some (c + k) else None : option Z).
  apply wp_for_acc with (I := fun j a s' => a = (c0 + j, c1 + j) /\ arrays_ok s' /\ same_report s s' /\
    (forall b r, is_row r -> row (mem s') b r =
      if r =? i then
        if decide (b = b0) then filled w (up c0 j) (row (mem s) b r)
        else if decide (b = b1) then filled w (up c1 j) (row (mem s) b r) else row (mem s) b r
      else row (mem s) b r)).
  - pose proof (lanes_exact w Hw). lia.
  - split_and!; [f_equal; lia|done|done|]. intros b r Hr. destruct (vec_ok_arrays s b r Ha Hr) as [Hb Hl].
    assert (forall c, filled w (up c 0) (row (mem s) b r) = row (mem s) b r) as Hf.
    { intros c. etrans; [|by apply (filled_none w Hw)]. apply gen_ext; [done|]. intros k Hk. unfold up.
      by rewrite (proj2 (Z.ltb_ge k 0)) by lia. }
    rewrite !Hf. repeat case_decide; by destruct (r =? i).
  - intros j a s1 Hj (-> & Ha1 & Hr1 & H1). apply wp_bind. apply spec_wr_any; [done..|]. intros s2 Ha2 Hr2 H2.
    apply wp_bind. apply spec_wr_any; [done..|]. intros s3 Ha3 Hr3 H3. apply wp_ret.
    split_and!; [f_equal; lia|done|unfold same_report in *; intuition congruence|]. intros b r Hr.
    rewrite H3 by done. rewrite !H2, !H1 by done.
    destruct (Z.eqb_spec r i) as [->|]; [|repeat case_decide; by subst].
    assert (forall c old, set_elem w j (c + j) (filled w (up c j) old) = filled w (up c (j + 1)) old) as Hs.
    { intros c old. exact (filled_one_more w Hw (fun k => Some (c + k)) j old Hj). }
    repeat case_decide; subst; try done; apply Hs.
  - intros a s1 (-> & Ha1 & Hr1 & H1). apply HQ; [done|done|]. intros b r Hr. rewrite H1 by done.
    assert (forall c old, filled w (up c (VLEN / w)) old = gen w (fun k => c + k)) as Hf.
    { intros c old. apply gen_ext; [done|]. intros k Hk. unfold up. by rewrite (proj2 (Z.ltb_lt k _)) by lia. }
    by rewrite !Hf.
Qed.

Ltac vlia' := change (VLEN / fsize Fb) with 128; change (VLEN / fsize Fsf) with 32; change (VLEN / fsize Fhf) with 64; lia.

(** The loop over the mask. *)
Lemma spec_mask i s (Q : () -> mstate -> Prop) : arrays_ok s -> is_row i ->
  (forall s', arrays_ok s' -> same_report s s' ->
    (forall b r, is_row r -> row (mem s') b r =
      if r =? i then if decide (b = mask) then init_row mask i else row (mem s) b r else row (mem s) b r) -> Q tt s') ->
  spec (for_ 0 (VLEN / 4) (fun j => wr mask i Fw j (if i + Z.rem j MASKMOD =? 0 then 0 else 1))) s Q.
Proof.
  intros Ha Hi HQ. pose proof (width_fsize Fw : width 4) as Hw.
  set (g := fun k => if i + Z.rem k MASKMOD =? 0 then 0 else 1).
  apply wp_for with (I := fun j s' => arrays_ok s' /\ same_report s s' /\
    (forall b r, is_row r -> row (mem s') b r =
      if r =? i then
        if decide (b = mask) then filled 4 (fun k => if k <? j then Some (g k) else None) (row (mem s) b r)
        else row (mem s) b r
      else row (mem s) b r)).
  - done.
  - split_and!; [done|done|]. intros b r Hr. destruct (vec_ok_arrays s b r Ha Hr) as [Hb Hl].
    case_decide; [|by destruct (r =? i)]. destruct (r =? i); [|done].
    symmetry. etrans; [|by apply (filled_none 4 Hw)]. apply gen_ext; [done|]. intros k Hk. by rewrite (proj2 (Z.ltb_ge k 0)) by lia.
  - intros j s1 Hj (Ha1 & Hr1 & H1). apply spec_wr_any; [done..|]. intros s2 Ha2 Hr2 H2.
    split_and!; [done|unfold same_report in *; intuition congruence|]. intros b r Hr.
    rewrite H2 by done. rewrite !H1 by done. destruct (Z.eqb_spec r i) as [->|]; [|by repeat case_decide].
    case_decide; [subst|done]. exact (filled_one_more 4 Hw (fun k => Some (g k)) j _ Hj).
  - intros s1 (Ha1 & Hr1 & H1). apply HQ; [done|done|]. intros b r Hr. rewrite H1 by done.
    destruct (Z.eqb_spec r i) as [->|]; [|done]. case_decide; [|done]. apply gen_ext; [done|]. intros k Hk.
    by rewrite (proj2 (Z.ltb_lt k _)) by lia.
Qed.

Lemma spec_init_buffers s (Q : () -> mstate -> Prop) : arrays_ok s -> (forall s', initialised s s' -> Q tt s') ->
  spec init_buffers s Q.
Proof.
  intros Ha HQ. unfold init_buffers. apply wp_bind.
  apply wp_for_acc with (I := fun i a s' =>
    a = (128 * i, 17 + 128 * i, 32 * i, 17 + 32 * i, 64 * i, 17 + 64 * i) /\ arrays_ok s' /\ same_report s s' /\
    (forall b r, input b -> is_row r -> r < i -> row (mem s') b r = init_row b r)).
  - done.
  - split_and!; [done|done|done|]. intros b r _ Hr. vlia.
  - intros i a s1 Hi (-> & Ha1 & Hr1 & H1). cbv beta iota.
    apply wp_bind. apply (spec_count Fb buffer0 buffer1 i); [done..|]. intros s2 Ha2 Hr2 H2. cbv beta iota.
    apply wp_bind. apply (spec_count Fsf sf_buffer0 sf_buffer1 i); [done..|]. intros s3 Ha3 Hr3 H3. cbv beta iota.
    apply wp_bind. apply (spec_count Fhf hf_buffer0 hf_buffer1 i); [done..|]. intros s4 Ha4 Hr4 H4. cbv beta iota.
    apply wp_bind. apply (spec_mask i); [done..|]. intros s5 Ha5 Hr5 H5. apply wp_ret.
    split_and!; [repeat (apply (f_equal2 pair); [|vlia']); vlia'|done|unfold same_report in *; intuition congruence|].
    intros b r Hb Hr Hri. rewrite H5, H4, H3, H2 by done. destruct (Z.eqb_spec r i) as [->|].
    + destruct b; try done; by destruct Hb.
    + apply H1; [done|done|lia].
  - intros a s1 (-> & Ha1 & Hr1 & H1). apply wp_ret, HQ. split; [done|done|]. intros b r Hb Hr. apply H1; [done|done|vlia].
Qed.

(** *** What the tests need *)

Lemma fmag_small e m x : 0 <= e + m -> 0 <= x < 2 ^ (e + m) -> fmag e m x = x.
Proof. intros Hem Hx. unfold fmag, extract. rewrite Z.shiftr_0_r, Z.land_ones by done. by apply Z.mod_small. Qed.

(** Small patterns are numbers. *)
Lemma small_number e m x : 0 <= e -> 0 <= m -> 0 <= x < (2 ^ e - 1) * 2 ^ m -> fnan e m x = false /\ fzero e m x = (x =? 0).
Proof.
  intros He Hm Hx. unfold fnan, fzero. rewrite fmag_small by (rewrite ?Z.pow_add_r; lia). split; [|done].
  apply Z.ltb_ge. rewrite Z.shiftl_mul_pow2, Z.ones_equiv by lia. lia.
Qed.

Lemma initialised_ok s s' : initialised s s' -> ok s' s'.
Proof. intros [Ha _ _]. by split; [intros b; apply Ha|intros b; apply Ha|..]. Qed.

Lemma initialised_mask s s' : initialised s s' -> mask_ok s'.
Proof.
  intros Hi j i Hj Hij. rewrite (init_rows _ _ Hi) by (done || by split). cbn [init_row].
  rewrite elem_gen by (apply (width_fsize Fw) || done). by destruct (j + Z.rem i MASKMOD =? 0).
Qed.

Lemma initialised_sf s s' : initialised s s' -> numbers s' 4 sf_nan sf_zero sf_buffer0 sf_buffer1.
Proof.
  intros Hi j i Hj Hij. cbv zeta. rewrite !(init_rows _ _ Hi) by (done || by split). cbn [init_row].
  rewrite !elem_gen by (apply (width_fsize Fw) || done). change (VLEN / 4) with 32 in Hij.
  rewrite !uwrap_id by (unfold in_u; vlia).
  unfold sf_nan, sf_zero. destruct (small_number 8 23 (32 * j + i)) as [-> Hz]; [vlia..|]. destruct (small_number 8 23 (17 + 32 * j + i)) as [-> Hz']; [vlia..|].
  rewrite Hz, Hz'. split_and!; [done|done|]. rewrite (proj2 (Z.eqb_neq (17 + _ + _) 0)) by vlia. apply andb_false_r.
Qed.

Lemma initialised_hf s s' : initialised s s' -> numbers s' 2 hf_nan hf_zero hf_buffer0 hf_buffer1.
Proof.
  intros Hi j i Hj Hij. cbv zeta. rewrite !(init_rows _ _ Hi) by (done || by split). cbn [init_row].
  rewrite !elem_gen by (apply (width_fsize Fh) || done). change (VLEN / 2) with 64 in Hij.
  rewrite !uwrap_id by (unfold in_u; vlia).
  unfold hf_nan, hf_zero. destruct (small_number 5 10 (64 * j + i)) as [-> Hz]; [vlia..|]. destruct (small_number 5 10 (17 + 64 * j + i)) as [-> Hz']; [vlia..|].
  rewrite Hz, Hz'. split_and!; [done|done|]. rewrite (proj2 (Z.eqb_neq (17 + _ + _) 0)) by vlia. apply andb_false_r.
Qed.
