(* ===== verification/HvxMiscMain.v ===== *)
(** The run of src/hvx_misc.c: the sequence of the tests on the inputs that
    [init_buffers] leaves, and a processor on which they pass. *)

From S2P Require Import Prelude ByteMem HvxVec HvxRef HvxMisc HvxMiscRules HvxMiscTests HvxMiscCond HvxMiscMoves HvxMiscInit.

Open Scope string_scope.
Open Scope list_scope.
Open Scope Z_scope.

(** The inputs of the tests. *)
Record ready (s : mstate) : Prop := {
  ready_ok : ok s s;
  ready_mask : mask_ok s;
  ready_sf : numbers s 4 sf_nan sf_zero sf_buffer0 sf_buffer1;
  ready_hf : numbers s 2 hf_nan hf_zero hf_buffer0 hf_buffer1
}.

Lemma initialised_ready s s' : initialised s s' -> ready s'.
Proof.
  intros Hi. split; [by eapply initialised_ok|by eapply initialised_mask|by eapply initialised_sf|by eapply initialised_hf].
Qed.

(* ------------------------------------------------------------------ *)
(** ** The tests in sequence *)

Section main.
Context (s0 : mstate) (Hr : ready s0).
Context `{HvxData} (hexagon_arch : Z) `{!HvxDataLaws hexagon_arch} (extendhfsf2 : Z -> Z).
Context (extend_order : forall x y, in_u 16 x -> in_u 16 y -> hf_nan x = false -> hf_nan y = false ->
  sf_gt (extendhfsf2 (swrap 16 x)) (extendhfsf2 (swrap 16 y)) = hf_gt x y).
Context (v6mpy_results : v6mpy_reference s0).
Implicit Types s : mstate.

Lemma spec_then {A} (m : prog mstate ()) (k : () -> prog mstate A) s Q (R : mstate -> Prop) :
  spec m s (fun _ => R) -> (forall s', R s' -> spec (k tt) s' Q) -> spec (x ← m; k x) s Q.
Proof. intros Hm Hk. apply wp_bind. eapply wp_mono; [exact Hm|]. intros [] s' Hs. by apply Hk. Qed.

Lemma arith_ok f op fld line s : ok s0 s -> (forall a b, f a b = lanes2 (fsize fld) op a b) -> op = Z.add \/ op = Z.sub ->
  spec (test_vec_op2 f fld op line) s (fun _ => ok s0).
Proof.
  intros Ho Hf Hop. apply (test_vec_op2_ok s0 f fld op op); [done|by intros|].
  intros x y. apply arith_op. tauto.
Qed.

Lemma bitwise_ok f op line s : ok s0 s -> (forall a b, f a b = lanes2 2 op a b) -> op = Z.lor \/ op = Z.land \/ op = Z.lxor ->
  spec (test_vec_op2 f Fd op line) s (fun _ => ok s0).
Proof.
  intros Ho Hf Hop. apply (test_vec_op2_ok s0 f Fd op op); [done|intros a b Ha Hb; rewrite Hf; by apply bitwise_d|].
  intros x y. apply arith_op. tauto.
Qed.

Ltac test H :=
  eapply spec_then; [solve [apply H; first [assumption | apply Hr | by auto | done]]|];
  let s' := fresh "s" in let Hs' := fresh "Hs" in intros s' Hs'.

(** The loads and stores, of which some rely on what is left by others. *)
Lemma moves_ok {A} (k : prog mstate A) s Q : ok s0 s -> (forall s', ok s0 s' -> spec k s' Q) ->
  spec (test_load_tmp;; test_load_tmp2;; test_load_cur;; test_load_aligned;; test_load_unaligned;;
    test_store_aligned;; test_store_unaligned;; k) s Q.
Proof.
  intros Hs Hk. test (test_load_tmp_ok s0). test (test_load_tmp2_ok s0).
  eapply spec_then; [by apply (test_load_cur_ok s0)|]. clear dependent s. intros s [Hs Hout].
  eapply spec_then; [apply (test_load_aligned_ok s0); [done|by intros r Hr1 _; apply Hout]|].
  clear dependent s. intros s [Hs Hc].
  eapply spec_then; [by apply (test_load_unaligned_ok s0)|]. clear dependent s. intros s [Hs Hc].
  eapply spec_then; [by apply (test_store_aligned_ok s0)|]. clear dependent s. intros s [Hs Hc].
  eapply spec_then; [by apply (test_store_unaligned_ok s0)|]. clear dependent s. intros s Hs. by apply Hk.
Qed.

Lemma vec_ops_ok {A} (k : prog mstate A) s Q : ok s0 s -> (forall s', ok s0 s' -> spec k s' Q) ->
  spec (test_vadd_w;; test_vadd_h;; test_vadd_b;; test_vsub_w;; test_vsub_h;; test_vsub_b;;
    test_vxor;; test_vand;; test_vor;; test_vnot;; k) s Q.
Proof.
  intros Hs Hk. do 6 (test arith_ok). do 3 (test bitwise_ok). test (test_vnot_ok s0). by apply Hk.
Qed.

Lemma pred_ops_ok {A} (k : prog mstate A) s Q : ok s0 s -> (forall s', ok s0 s' -> spec k s' Q) ->
  spec (test_pred_or false;; test_pred_or_n true;; test_pred_and false;; test_pred_and_n true;; test_pred_xor false;; k) s Q.
Proof. intros Hs Hk. do 5 (test (test_pred_op2_ok s0)). by apply Hk. Qed.

Lemma vmax_sf_ok s : ok s0 s -> spec test_vmax_sf s (fun _ => ok s0).
Proof. intros Hs. exact (proj1 (test_extrema_sf_ok s0 hexagon_arch s Hs (ready_sf _ Hr))). Qed.

Lemma vmin_sf_ok s : ok s0 s -> spec test_vmin_sf s (fun _ => ok s0).
Proof. intros Hs. exact (proj2 (test_extrema_sf_ok s0 hexagon_arch s Hs (ready_sf _ Hr))). Qed.

Lemma vmax_hf_ok s : ok s0 s -> spec (test_vmax_hf extendhfsf2) s (fun _ => ok s0).
Proof. intros Hs. exact (proj1 (test_extrema_hf_ok s0 hexagon_arch extendhfsf2 extend_order s Hs (ready_hf _ Hr))). Qed.

Lemma vmin_hf_ok s : ok s0 s -> spec (test_vmin_hf extendhfsf2) s (fun _ => ok s0).
Proof. intros Hs. exact (proj2 (test_extrema_hf_ok s0 hexagon_arch extendhfsf2 extend_order s Hs (ready_hf _ Hr))). Qed.

Lemma data_ok {A} (k : prog mstate A) s Q : ok s0 s -> (forall s', ok s0 s' -> spec k s' Q) ->
  spec (test_vgtsf;; test_vgthf extendhfsf2;; test_vgthf_nan hexagon_arch;;
    test_vmax_sf;; test_vmin_sf;; test_vmax_hf extendhfsf2;; test_vmin_hf extendhfsf2;; test_v6mpy;; k) s Q.
Proof.
  intros Hs Hk. test (test_vgtsf_ok s0 hexagon_arch). test (test_vgthf_ok s0 hexagon_arch extendhfsf2).
  test (test_vgthf_nan_ok s0 hexagon_arch). test vmax_sf_ok. test vmin_sf_ok. test vmax_hf_ok. test vmin_hf_ok.
  test (test_v6mpy_ok s0). by apply Hk.
Qed.

Lemma registers_ok {A} (k : prog mstate A) s Q : ok s0 s -> (forall s', ok s0 s' -> spec k s' Q) ->
  spec (test_vadduwsat;; test_vsubuwsat_dv;; test_v6_vcombine_tmp_alig;; test_v6_vcombine_tmp_unalig;;
    test_load_tmp_predicated;; test_load_cur_predicated;; test_vcombine;; test_store_new;; test_vdelta;; k) s Q.
Proof.
  intros Hs Hk. test (test_vadduwsat_ok s0). test (test_vsubuwsat_dv_ok s0).
  do 2 (test (test_v6_vcombine_tmp_ok s0)). test (test_load_tmp_predicated_ok s0).
  test (test_load_cur_predicated_ok s0). test (test_vcombine_ok s0). test (test_store_new_ok s0).
  test (test_vdelta_ok s0). by apply Hk.
Qed.
End main.

(** The report at the end. *)
Lemma finish_ok s : merr s = 0 ->
  spec (err ← gets merr; puts (if truth err then "FAIL" else "PASS");; mret (if truth err then 1 else 0)) s
    (fun a s' => a = 0 /\ merr s' = 0 /\ mout s' = mout s ++ [("PASS", [])]).
Proof. destruct s. cbn. by intros ->. Qed.

Lemma spec_done {S A} (m : prog S A) (s : S) (Q : A -> S -> Prop) : spec m s Q -> exists a s', m s = Done a s' /\ Q a s'.
Proof. unfold wp. destruct (m s) as [a s'| | |]; try done. intros HQ. by exists a, s'. Qed.

(* ------------------------------------------------------------------ *)
(** ** A processor *)

(** A conversion from 16-bit to 32-bit numbers: exact, subnormals included. *)
Definition half_mag (k : Z) : Z :=
  let e := Z.shiftr k 10 in
  if k =? 0 then 0
  else if e =? 0 then let n := Z.log2 k in Z.shiftl (n + 103) 23 + Z.shiftl (k - 2 ^ n) (23 - n)
  else if e =? 31 then Z.lor 0x7f800000 (Z.shiftl (Z.land k 0x3ff) 13)
  else Z.shiftl k 13 + Z.shiftl 112 23.

Definition extend_half (x : Z) : Z :=
  let h := u16 x in half_mag (extract h 0 15) + (if Z.testbit h 15 then 2 ^ 31 else 0).

Lemma forallb_seqZ (p : Z -> bool) n i : forallb p (seqZ 0 n) = true -> 0 <= i < n -> p i = true.
Proof. intros Hp Hi. rewrite forallb_forall in Hp. apply Hp. apply list_elem_of_In, elem_of_seqZ. lia. Qed.

(** It is increasing: by computation on subnormals, linear above. *)
Lemma half_mag_table : forallb (fun k => half_mag k <? half_mag (k + 1)) (seqZ 0 1024) = true.
Proof. vm_compute; reflexivity. Qed.

Lemma half_mag_normal k : 0x400 <= k < 0x7c00 -> half_mag k = 2 ^ 13 * k + 112 * 2 ^ 23.
Proof.
  intros Hk. unfold half_mag. cbv zeta. rewrite !Z.shiftr_div_pow2 by done. change (2 ^ 10) with 1024.
  assert (1 <= k / 1024 < 31) as Hd by (split; [apply Z.div_le_lower_bound|apply Z.div_lt_upper_bound]; lia).
  destruct (Z.eqb_spec k 0), (Z.eqb_spec (k / 1024) 0), (Z.eqb_spec (k / 1024) 31); try lia.
  rewrite !Z.shiftl_mul_pow2 by done. lia.
Qed.

Lemma half_mag_succ a : 0 <= a < 0x7c00 -> half_mag a < half_mag (a + 1).
Proof.
  intros Ha. destruct (decide (a < 1024)) as [Hs|Hn].
  - pose proof (forallb_seqZ _ _ a half_mag_table ltac:(lia)) as H. cbv beta in H. lia.
  - rewrite (half_mag_normal a) by lia. destruct (decide (a = 0x7bff)) as [->|Hne]; [done|].
    rewrite half_mag_normal by lia. lia.
Qed.

Lemma half_mag_lt a b : 0 <= a -> a < b <= 0x7c00 -> half_mag a < half_mag b.
Proof.
  intros Ha Hb. assert (forall n, 0 <= n -> a + 1 + n <= 0x7c00 -> half_mag a < half_mag (a + 1 + n)) as H.
  { intros n Hn. pattern n. apply natlike_ind; [| |done]; clear n Hn.
    - intros Hn. rewrite Z.add_0_r. apply half_mag_succ. lia.
    - intros n Hn IH Hle. specialize (IH ltac:(lia)). pose proof (half_mag_succ (a + 1 + n) ltac:(lia)).
      replace (a + 1 + Z.succ n) with (a + 1 + n + 1) by lia. lia. }
  specialize (H (b - a - 1) ltac:(lia)). replace (a + 1 + (b - a - 1)) with b in H by lia. apply H. lia.
Qed.

Lemma half_mag_range k : 0 <= k <= 0x7c00 -> 0 <= half_mag k <= 0x7f800000.
Proof.
  intros Hk. assert (half_mag 0 = 0) as H0 by done. assert (half_mag 0x7c00 = 0x7f800000) as H1 by done.
  destruct (decide (k = 0)) as [->|]; [lia|]. pose proof (half_mag_lt 0 k ltac:(lia) ltac:(lia)).
  destruct (decide (k = 0x7c00)) as [->|]; [lia|]. pose proof (half_mag_lt k 0x7c00 ltac:(lia) ltac:(lia)). lia.
Qed.

(** A sign and a magnitude. *)
Lemma signed_pattern (b : bool) m : 0 <= m < 2 ^ 31 ->
  let y := m + (if b then 2 ^ 31 else 0) in u32 y = y /\ fmag 8 23 y = m /\ fneg 8 23 y = b.
Proof.
  intros Hm. cbv zeta. unfold fmag, fneg, extract. rewrite Z.shiftr_0_r, Z.land_ones by done. change (8 + 23) with 31.
  split_and!.
  - apply uwrap_id. unfold in_u. destruct b; lia.
  - destruct b; [rewrite <- (Z.mul_1_l (2 ^ 31)) at 1; rewrite Z.mod_add by done|rewrite Z.add_0_r]; by apply Z.mod_small.
  - destruct b; apply Z.b2z_inj; rewrite Z.testbit_spec' by done; cbn [Z.b2z].
    + by rewrite <- (Z.div_unique (m + 2 ^ 31) (2 ^ 31) 1 m) by lia.
    + by rewrite Z.add_0_r, Z.div_small.
Qed.

Lemma extend_half_pattern x : in_u 16 x -> hf_nan x = false -> let y := extend_half (swrap 16 x) in
  u32 y = y /\ fmag 8 23 y = half_mag (fmag 5 10 x) /\ fneg 8 23 y = fneg 5 10 x /\ sf_nan y = false /\
  0 <= fmag 5 10 x <= 0x7c00.
Proof.
  intros Hx Hn. cbv zeta. unfold extend_half. assert (u16 (swrap 16 x) = x) as ->.
  { transitivity (u16 x); [apply (uwrap_fvalue Fh)|by apply uwrap_id]. }
  assert (0 <= fmag 5 10 x <= 0x7c00) as Hm.
  { unfold hf_nan, fnan in Hn. apply Z.ltb_ge in Hn. split; [|done]. unfold fmag, extract. apply Z.land_nonneg. by right. }
  change (extract x 0 15) with (fmag 5 10 x). change (Z.testbit x 15) with (fneg 5 10 x).
  pose proof (half_mag_range _ Hm) as Hr.
  destruct (signed_pattern (fneg 5 10 x) (half_mag (fmag 5 10 x)) ltac:(lia)) as (H1 & H2 & H3).
  split_and!; [exact H1|exact H2|exact H3| |lia|lia]. unfold sf_nan, fnan. rewrite H2. apply Z.ltb_ge. apply Hr.
Qed.

Lemma extend_half_order x y : in_u 16 x -> in_u 16 y -> hf_nan x = false -> hf_nan y = false ->
  sf_gt (extend_half (swrap 16 x)) (extend_half (swrap 16 y)) = hf_gt x y.
Proof.
  intros Hx Hy Hnx Hny.
  destruct (extend_half_pattern x Hx Hnx) as (_ & Mx & Sx & Nx & Ha), (extend_half_pattern y Hy Hny) as (_ & My & Sy & Ny & Hb).
  unfold sf_gt, hf_gt, fgt. fold (sf_nan (extend_half (swrap 16 x))) (sf_nan (extend_half (swrap 16 y))) (hf_nan x) (hf_nan y).
  rewrite Nx, Ny, Hnx, Hny. cbn [negb andb]. unfold fkey. rewrite Mx, My, Sx, Sy. clear Mx My.
  revert Ha Hb. generalize (fmag 5 10 x), (fmag 5 10 y). intros a b Ha Hb.
  pose proof (half_mag_lt a b) as Hab. pose proof (half_mag_lt b a) as Hba.
  pose proof (half_mag_lt 0 a) as Hza. pose proof (half_mag_lt 0 b) as Hzb. change (half_mag 0) with 0 in Hza, Hzb.
  apply eq_true_iff_eq. rewrite !Z.ltb_lt.
  assert (a = 0 -> half_mag a = 0) by (by intros ->). assert (b = 0 -> half_mag b = 0) by (by intros ->).
  assert (a = b -> half_mag a = half_mag b) by (by intros ->).
  destruct (fneg 5 10 x), (fneg 5 10 y); lia.
Qed.

(** Its comparisons are those of C, but for the pattern of all ones, and its
    matrix multiplication is the table's. *)
Definition reference_processor : HvxData := {|
  gt_sf := sf_gt;
  gt_hf x y := if (x =? 0) && (y =? 0xffff) then true else hf_gt x y;
  max_sf x y := if sf_gt x y then x else y;
  min_sf x y := if sf_gt x y then y else x;
  max_hf x y := if hf_gt x y then x else y;
  min_hf x y := if hf_gt x y then y else x;
  v6mpy_v1 u v := ([], gen 4 (v6mpy_ref (elem 4 v.1 0 / 32)))
|}.

Lemma reference_laws : @HvxDataLaws reference_processor 73.
Proof.
  split; try done. intros x y Hx Hy. cbn. destruct (Z.eqb_spec x 0), (Z.eqb_spec y 0xffff) as [->|]; try done.
Qed.

Lemma reference_v6mpy j : is_row j ->
  (@v6mpy_v1 reference_processor (init_row sf_buffer1 j, init_row buffer1 j) (init_row sf_buffer0 j, init_row buffer0 j)).2 =
  gen 4 (v6mpy_ref j).
Proof.
  intros Hj. cbn [v6mpy_v1 reference_processor fst snd init_row]. rewrite elem_gen by (apply (width_fsize Fw) || done).
  rewrite uwrap_id by (unfold in_u; vlia). by rewrite Z.add_0_r, Z.mul_comm, Z.div_mul.
Qed.

(* ------------------------------------------------------------------ *)
(** ** The program *)


(** Zeroed arrays. *)
Definition zeroed : mstate :=
  let z := replicate 2048 0 in
  MState (Memory z z z z z z z z z) (Regs (fun _ => 0) (fun _ => false) (fun _ => []) (fun _ => [])) 0 [].

Lemma zeroed_ok : arrays_ok zeroed.
Proof.
  intros b. assert (get (mem zeroed) b = replicate 2048 0) as -> by (destruct b; reflexivity).
  split; [apply length_replicate|by apply Forall_replicate].
Qed.


(** C8: The tests of loads, stores, integer lanes, predicate logic and values
    passed on within a packet depend on no particular input: from any contents
    of the arrays they make no access outside them, report nothing and leave
    the inputs as they are.  The tests of unaligned stores, which compare bytes
    that they do not store, need the tests before them. *)
Theorem hvx_integer_tests_any_input s :
  arrays_ok s ->
  exists s', (test_load_tmp;; test_load_tmp2;; test_load_cur;; test_load_aligned;; test_load_unaligned;;
    test_store_aligned;; test_store_unaligned;; test_new_value_store;; test_max_temps;;
    test_vadd_w;; test_vadd_h;; test_vadd_b;; test_vsub_w;; test_vsub_h;; test_vsub_b;;
    test_vxor;; test_vand;; test_vor;; test_vnot;;
    test_pred_or false;; test_pred_or_n true;; test_pred_and false;; test_pred_and_n true;; test_pred_xor false;;
    test_vadduwsat;; test_vsubuwsat_dv;; test_v6_vcombine_tmp_alig;; test_v6_vcombine_tmp_unalig;;
    test_load_tmp_predicated;; test_load_cur_predicated;; test_vcombine;; test_store_new;; test_vdelta;; mret tt) s =
    Done tt s' /\
  merr s' = merr s /\ mout s' = mout s /\ (forall b, input b -> get (mem s') b = get (mem s) b).
Proof.
  intros Hs. assert (ok s s) as Ho by (split; [apply Hs|apply Hs|done..]).
  match goal with |- exists s', ?m s = _ /\ _ => assert (spec m s (fun _ => ok s)) as Hspec end.
  { apply (moves_ok s); [done|]. intros s1 H1. eapply spec_then; [by apply (test_new_value_store_ok s)|]. intros s2 H2.
    eapply spec_then; [by apply (test_max_temps_ok s)|]. intros s3 H3. apply (vec_ops_ok s); [done|]. intros s4 H4.
    apply (pred_ops_ok s); [done|]. intros s5 H5. apply (registers_ok s); [done|]. intros s6 H6. exact H6. }
  destruct (spec_done _ _ _ Hspec) as ([] & s' & Hm & [_ _ Hi He Hout]). exists s'.
  refine (conj Hm (conj He (conj Hout _))). intros b [H1 H2]. by apply Hi.
Qed.

Lemma hvx_integer_tests_any_input_witness : let s := zeroed in
  arrays_ok s /\
  exists s', (test_load_tmp;; test_load_tmp2;; test_load_cur;; test_load_aligned;; test_load_unaligned;;
    test_store_aligned;; test_store_unaligned;; test_new_value_store;; test_max_temps;;
    test_vadd_w;; test_vadd_h;; test_vadd_b;; test_vsub_w;; test_vsub_h;; test_vsub_b;;
    test_vxor;; test_vand;; test_vor;; test_vnot;;
    test_pred_or false;; test_pred_or_n true;; test_pred_and false;; test_pred_and_n true;; test_pred_xor false;;
    test_vadduwsat;; test_vsubuwsat_dv;; test_v6_vcombine_tmp_alig;; test_v6_vcombine_tmp_unalig;;
    test_load_tmp_predicated;; test_load_cur_predicated;; test_vcombine;; test_store_new;; test_vdelta;; mret tt) s =
    Done tt s' /\
  merr s' = merr s /\ mout s' = mout s /\ (forall b, input b -> get (mem s') b = get (mem s) b).
Proof. exact (conj zeroed_ok (hvx_integer_tests_any_input _ zeroed_ok)). Defined.
