(* ===== verification/HvxMulti.v ===== *)
(** src/hvx-multi.c: the test that SSR.XA selects a set of vector registers of
    its own, on the buffers of include/hvx_misc.h. *)

From S2P Require Import Prelude ByteMem HvxVec HvxRef HvxMisc HvxMiscRules HvxMiscTests HvxMiscCond HvxMiscMoves HvxMiscInit.

Open Scope string_scope.
Open Scope list_scope.
Open Scope Z_scope.

(** Register [v0] of each context, and SSR. *)
Record multi := Multi { base : mstate; ssr : Z; v0 : Z -> vec }.

(** The parts of the program that hvx_misc.h brings. *)
Definition on_base {A} (m : prog mstate A) : prog multi A := fun s =>
  match m (base s) with
  | Done a b => Done a (Multi b (ssr s) (v0 s))
  | Exited c b => Exited c (Multi b (ssr s) (v0 s))
  | Undef => Undef
  | NoFuel => NoFuel
  end.

(** SSR.XA, the bits that the shift by 27 puts there. *)
Definition XA (s : multi) : Z := extract (ssr s) 27 3.

(** The context that a value of SSR.XA selects on a processor with [n]: the
    table in the comment of [main]. *)
Definition context_table : list (Z * list Z) :=
  [(2, [0; 1; 0; 1; 0; 1; 0; 1]);
   (4, [0; 1; 2; 3; 0; 1; 2; 3]);
   (6, [0; 1; 2; 3; 4; 5; 2; 3]);
   (8, [0; 1; 2; 3; 4; 5; 6; 7])].

Class Contexts := context : Z -> Z -> Z.
Class ContextsLaws `{Contexts} : Prop :=
  context_documented n l : (n, l) ∈ context_table -> forall xa, 0 <= xa < 8 -> context n xa = nth (Z.to_nat xa) l 0.

Section program.
Context `{Contexts}.
(** What the configuration table and the revision register hold. *)
Variables (ext_contexts rev : Z).

Definition set_hvx_context (n : Z) : prog multi () :=
  bits ← (if (0 <=? n) && (n * 2 ^ 27 <? 2 ^ 31) then mret (Z.shiftl n 27) else undef);
  modify (fun s => Multi (base s) (Z.lor (Z.land (ssr s) 0xc7ffffff) bits) (v0 s)).

Definition setv0 (n : Z) : prog multi () :=
  modify (fun s => Multi (base s) (ssr s) (upd (v0 s) (context ext_contexts (XA s)) (splat 4 n))).

Definition store_v0 (p : ptr) : prog multi () := fun s =>
  match vstore (mem (base s)) p (v0 s (context ext_contexts (XA s))) with
  | Some m => Done tt (Multi (MState m (rf (base s)) (merr (base s)) (mout (base s))) (ssr s) (v0 s))
  | None => Undef
  end.

Definition get_num_contexts : prog multi Z := mret (u32 ext_contexts).
Definition get_rev : prog multi Z := mret (u32 rev).

(** C's [i % n]. *)
Definition c_rem (i n : Z) : prog multi Z := if n =? 0 then undef else mret (Z.rem i n).

Definition rev_format : string := "rev=v%x, HVX-contexts=%d".

Definition hvx_multi_main : prog multi Z :=
  num_contexts ← get_num_contexts;
  let num_contexts := s32 num_contexts in
  rev ← get_rev;
  on_base (modify (fun st => MState (mem st) (rf st) (merr st)
    (mout st ++ [(rev_format, [Z.land rev 0xff; num_contexts])])));;
  on_base (memset output 0 (8 * VLEN));;
  for_ 0 num_contexts (fun i => set_hvx_context i;; setv0 (i + 1));;
  for_ 0 8 (fun i => set_hvx_context i;; store_v0 (at_ output i));;
  for_ 0 8 (fun i =>
    r ← c_rem i num_contexts;
    let expected := if (num_contexts =? 6) && (6 <=? i) then (i - 6 + 2) + 1 else r + 1 in
    on_base (for_elems Fw (fun j => wr expect i Fw j expected)));;
  on_base (check_output_w 115 8);;
  on_base (
    err ← gets merr;
    puts (if truth err then "FAIL" else "PASS");;
    mret (Z.b2z (truth err))).
End program.

(* ------------------------------------------------------------------ *)
(** ** Rules *)

Lemma spec_on_base {A} (m : prog mstate A) s (Q : A -> multi -> Prop) :
  spec m (base s) (fun a b => Q a (Multi b (ssr s) (v0 s))) -> spec (on_base m) s Q.
Proof. unfold wp, on_base. by destruct (m (base s)). Qed.

Lemma XA_set n e : 0 <= n < 8 -> extract (Z.lor (Z.land e 0xc7ffffff) (Z.shiftl n 27)) 27 3 = n.
Proof.
  intros Hn. unfold extract. rewrite Z.shiftr_lor, Z.shiftr_land, Z.land_lor_distr_l, <- Z.land_assoc.
  change (Z.land (Z.shiftr 0xc7ffffff 27) (Z.ones 3)) with 0. rewrite Z.land_0_r, Z.lor_0_l.
  rewrite Z.shiftr_shiftl_l, Z.land_ones by done. rewrite Z.sub_diag, Z.shiftl_0_r. by apply Z.mod_small.
Qed.

(** What the code expects in row [i]. *)
Definition expected (n i : Z) : Z := if (n =? 6) && (6 <=? i) then (i - 6 + 2) + 1 else Z.rem i n + 1.

(** The table against the code's formula. *)
Lemma context_table_ok : forallb (fun x => let '(n, l) := x in
  (0 <? n) && (n <=? 8) && forallb (fun i => let c := nth (Z.to_nat i) l 0 in
    (c + 1 =? expected n i) && (0 <=? c) && (c <? n) && ((n <=? i) || (c =? i))) (seqZ 0 8)) context_table = true.
Proof. reflexivity. Qed.

Section multi.
Context `{ContextsLaws} (n rev : Z) (l : list Z) (Hn : (n, l) ∈ context_table).
Context (s0 : mstate).
Abbreviation ok := (ok s0).
Implicit Types s : multi.

Lemma contexts_8 : 0 < n <= 8.
Proof.
  pose proof context_table_ok as Ht. rewrite forallb_forall in Ht. apply list_elem_of_In in Hn.
  specialize (Ht _ Hn). cbv beta iota in Ht. rewrite !andb_true_iff in Ht. lia.
Qed.

Lemma context_facts i : 0 <= i < 8 -> context n i + 1 = expected n i /\ 0 <= context n i < n /\ (i < n -> context n i = i).
Proof.
  intros Hi. rewrite (context_documented _ _ Hn i Hi). pose proof context_table_ok as Ht. rewrite forallb_forall in Ht.
  apply list_elem_of_In in Hn. specialize (Ht _ Hn). cbv beta iota in Ht. rewrite !andb_true_iff in Ht. destruct Ht as [_ Ht].
  rewrite forallb_forall in Ht. specialize (Ht i). rewrite <- list_elem_of_In, elem_of_seqZ in Ht. specialize (Ht ltac:(lia)).
  cbv beta zeta in Ht. rewrite !andb_true_iff, orb_true_iff in Ht. lia.
Qed.

Lemma spec_set_context i s (Q : () -> multi -> Prop) : 0 <= i < 8 ->
  (forall e, extract e 27 3 = i -> Q tt (Multi (base s) e (v0 s))) -> spec (set_hvx_context i) s Q.
Proof.
  intros Hi HQ. unfold set_hvx_context. rewrite (proj2 (Z.leb_le 0 i)), (proj2 (Z.ltb_lt _ _)) by lia.
  apply HQ. by apply XA_set.
Qed.

(** The registers are set, context by context. *)
Lemma spec_set_all s (Q : () -> multi -> Prop) :
  (forall s', base s' = base s -> (forall c, 0 <= c < n -> v0 s' c = splat 4 (c + 1)) -> Q tt s') ->
  spec (for_ 0 n (fun i => set_hvx_context i;; setv0 n (i + 1))) s Q.
Proof.
  intros HQ. pose proof contexts_8 as Hn8.
  apply wp_for with (I := fun i s' => base s' = base s /\ forall c, 0 <= c < i -> v0 s' c = splat 4 (c + 1)).
  - lia.
  - split; [done|lia].
  - intros i s1 Hi [Hb Hv]. apply wp_bind, spec_set_context; [lia|]. intros e He. split; [done|].
    cbn [v0]. intros c Hc. unfold upd, XA. cbn [ssr]. rewrite He.
    destruct (context_facts i ltac:(lia)) as (_ & _ & ->); [|lia]. destruct (Z.eqb_spec c i) as [->|]; [done|]. apply Hv. lia.
  - intros s1 [Hb Hv]. by apply HQ.
Qed.

(** Every value of SSR.XA stores the register of its context. *)
Lemma spec_store_all s (Q : () -> multi -> Prop) : ok (base s) -> (forall c, 0 <= c < n -> v0 s c = splat 4 (c + 1)) ->
  (forall s', ok (base s') -> (forall r, 0 <= r < 8 -> row (mem (base s')) output r = splat 4 (expected n r)) -> Q tt s') ->
  spec (for_ 0 8 (fun i => set_hvx_context i;; store_v0 n (at_ output i))) s Q.
Proof.
  intros Ho Hv HQ.
  apply wp_for with (I := fun i s' => ok (base s') /\ v0 s' = v0 s /\
    forall r, 0 <= r < i -> row (mem (base s')) output r = splat 4 (expected n r)).
  - done.
  - split_and!; [done|done|lia].
  - intros i s1 Hi (Ho1 & Hv1 & H1). apply wp_bind, spec_set_context; [done|]. intros e He.
    unfold wp, store_v0, XA. cbn [base ssr v0]. rewrite He, vstoreu_row by vlia.
    destruct (context_facts i Hi) as (Hexp & Hc & _). rewrite Hv1, Hv, Hexp by done.
    pose proof (vec_ok_gen 4 (fun _ => expected n i)) as [Hb Hl]. cbn [base v0]. split_and!; [|done|].
    + apply (ok_put s0 (base s1) output _ _ (rf (base s1))); [done|by intros [? _]|done|vlia|].
      unfold splat. rewrite Hl. vlia.
    + intros r Hr. cbn [mem]. rewrite row_put_row by (apply Ho1 || done || vlia).
      destruct (Z.eqb_spec r i) as [->|]; [done|]. apply H1. lia.
  - intros s1 (Ho1 & _ & H1). by apply HQ.
Qed.

Lemma spec_expect_all s (Q : () -> multi -> Prop) : ok (base s) ->
  (forall s', ok (base s') -> (forall r, is_row r -> row (mem (base s')) output r = row (mem (base s)) output r) ->
    (forall r, 0 <= r < 8 -> row (mem (base s')) expect r = splat 4 (expected n r)) -> Q tt s') ->
  spec (for_ 0 8 (fun i =>
    r ← c_rem i n;
    let expected := if (n =? 6) && (6 <=? i) then (i - 6 + 2) + 1 else r + 1 in
    on_base (for_elems Fw (fun j => wr expect i Fw j expected)))) s Q.
Proof.
  intros Ho HQ. pose proof contexts_8 as Hn8.
  apply wp_for with (I := fun i s' => ok (base s') /\
    (forall r, is_row r -> row (mem (base s')) output r = row (mem (base s)) output r) /\
    forall r, 0 <= r < i -> row (mem (base s')) expect r = splat 4 (expected n r)).
  - done.
  - split_and!; [done|done|lia].
  - intros i s1 Hi (Ho1 & H1 & H2). apply wp_bind. unfold c_rem. rewrite (proj2 (Z.eqb_neq n 0)) by lia. apply wp_ret.
    cbv zeta. apply spec_on_base. fold (expected n i).
    apply (spec_fill_all s0 Fw i (fun _ => expected n i)); [done|vlia| |].
    { intros k s2 Ho2 Hk R HR. eapply spec_wr; [exact Ho2|vlia|done|exact HR]. }
    intros s2 Ho2 H3 H4. cbn [base]. split_and!; [done| |].
    + intros r Hr. by rewrite H3, H1.
    + intros r Hr. rewrite H4 by vlia. destruct (Z.eqb_spec r i) as [->|]; [done|]. apply H2. lia.
  - intros s1 (Ho1 & H1 & H2). by apply HQ.
Qed.
End multi.

(* ------------------------------------------------------------------ *)
(** ** The program *)

(** A processor: contexts wrap around, but for six. *)
#[local] Instance wrapping_contexts : Contexts := fun n xa => if (n =? 6) && (6 <=? xa) then xa - 4 else xa mod n.

Lemma wrapping_laws : ContextsLaws.
Proof.
  intros n l Hn xa Hxa. unfold context_table in Hn. apply list_elem_of_In in Hn. cbn in Hn.
  assert (xa = 0 \/ xa = 1 \/ xa = 2 \/ xa = 3 \/ xa = 4 \/ xa = 5 \/ xa = 6 \/ xa = 7) as Hx by lia.
  destruct Hn as [Hn|[Hn|[Hn|[Hn|[]]]]]; simplify_eq; repeat destruct Hx as [->|Hx]; subst; done.
Qed.

Lemma land_low_byte x : Z.land (u32 x) 255 = x mod 256.
Proof.
  change 255 with (Z.ones 8). rewrite Z.land_ones by done. unfold uwrap. change (2 ^ 8) with 256.
  rewrite <- (Znumtheory.Zmod_div_mod 256 (2 ^ 32) x); [done|lia|lia|]. by exists (2 ^ 24).
Qed.

(** C9: On every processor with two, four, six or eight vector contexts that
    SSR.XA selects as the program's comment documents, whatever SSR, the
    registers and the arrays hold, the program makes no access outside the
    arrays, finds every value of SSR.XA to store the register of its context,
    prints the revision and PASS and returns 0. *)
Theorem hvx_multi_passes `{ContextsLaws} n l rev s : (n, l) ∈ context_table -> arrays_ok (base s) -> merr (base s) = 0 ->
  exists s', hvx_multi_main n rev s = Done 0 s' /\ merr (base s') = 0 /\
    mout (base s') = mout (base s) ++ [(rev_format, [rev mod 256; n]); ("PASS", [])].
Proof.
  intros Hn Ha He. pose proof (contexts_8 n l Hn) as Hn8.
  assert (spec (hvx_multi_main n rev) s (fun a s' => a = 0 /\ merr (base s') = 0 /\
    mout (base s') = mout (base s) ++ [(rev_format, [rev mod 256; n]); ("PASS", [])])) as Hspec.
  { unfold hvx_multi_main, get_num_contexts, get_rev. apply wp_bind, wp_ret. rewrite (uwrap_id 32 n) by (unfold in_u; lia).
    assert (s32 n = n) as -> by (unfold swrap; rewrite Z.mod_small; lia). cbv zeta. apply wp_bind, wp_ret, wp_bind.
    apply spec_on_base. unfold modify at 1, wp at 1. cbn [base ssr v0].
    set (s1 := Multi _ _ _). assert (ok (base s1) (base s1)) as Ho1 by (split; [intros b; apply Ha|intros b; apply Ha|done..]).
    apply wp_bind, spec_on_base. apply (spec_memset (base s1)); [done|by intros [? _]|done|]. intros s2 Ho2 _ _.
    apply wp_bind. apply (spec_set_all n l Hn). intros s3 Hb3 Hv3. cbn [base] in Hb3.
    apply wp_bind. apply (spec_store_all n l Hn (base s1)); [by rewrite Hb3|done|]. intros s4 Ho4 H4.
    apply wp_bind. apply (spec_expect_all n l Hn (base s1)); [done|]. intros s5 Ho5 H5 H6.
    apply wp_bind, spec_on_base. apply (spec_check (base s1)); [done|done| |].
    { intros r Hr. rewrite H5, H4, H6 by vlia. done. }
    destruct Ho5 as [_ _ _ He5 Hm5]. apply spec_on_base. cbn [base].
    unfold wp, gets, puts, modify, mbind, prog_bind, mret, prog_ret. rewrite He5. cbn [base s1 merr]. rewrite He. cbn [merr mout].
    rewrite Hm5. cbn [base s1 mout]. rewrite <- app_assoc. by rewrite land_low_byte. }
  unfold wp in Hspec. destruct (hvx_multi_main n rev s) as [a s'| | |]; try done. destruct Hspec as (-> & H1 & H2).
  exists s'. exact (conj eq_refl (conj H1 H2)).
Qed.

Lemma hvx_multi_passes_witness : exists s0 : multi, (6, [0; 1; 2; 3; 4; 5; 2; 3]) ∈ context_table /\ arrays_ok (base s0) /\
  exists s', hvx_multi_main 6 0x73 s0 = Done 0 s' /\ merr (base s') = 0 /\
    mout (base s') = [(rev_format, [0x73; 6]); ("PASS", [])].
Proof.
  set (z := replicate 2048 0).
  set (s0 := Multi (MState (Memory z z z z z z z z z) (Regs (fun _ => 0) (fun _ => false) (fun _ => []) (fun _ => [])) 0 []) 0
    (fun _ => [])).
  assert (arrays_ok (base s0)) as Ha.
  { intros b. assert (get (mem (base s0)) b = z) as -> by (destruct b; reflexivity).
    split; [apply length_replicate|by apply Forall_replicate]. }
  assert ((6, [0; 1; 2; 3; 4; 5; 2; 3]) ∈ context_table) as Hn by (apply list_elem_of_In; cbn; auto).
  exists s0. split; [exact Hn|]. split; [exact Ha|].
  exact (@hvx_multi_passes wrapping_contexts wrapping_laws 6 _ 0x73 s0 Hn Ha eq_refl).
Defined.
