(* ===== verification/ExcTests.v ===== *)
(** src/multiple_writes.c, src/hvx_64b.c, src/invalid_hmx.c and the programs of
    include/invalid_opcode.h: tests that run instructions which raise an
    exception, with a handler that records the cause and skips them. *)

From S2P Require Import Prelude HexTest RegFields.

Open Scope list_scope.
Open Scope Z_scope.

Definition HEX_CAUSE_UNSUPORTED_HVX_64B : Z := 0x002.
Definition HEX_CAUSE_INVALID_OPCODE : Z := 0x015.
Definition HEX_CAUSE_NO_COPROC_ENABLE : Z := 0x016.
Definition HEX_CAUSE_NO_COPROC2_ENABLE : Z := 0x018.
Definition HEX_CAUSE_REG_WRITE_CONFLICT : Z := 0x01d.

(** The state: general and predicate registers, SSR, ELR, SYSCFG, the first
    word of [my_exceptions], the variable of multiple_writes, and the checks. *)
Record xsys := XSys {
  R : Z -> Z; P : Z -> bool; x_ssr : Z; x_elr : Z; x_syscfg : Z; x_exc : Z; x_var : Z; x_tst : test_state
}.

Definition set_ssr v s := XSys (R s) (P s) v (x_elr s) (x_syscfg s) (x_exc s) (x_var s) (x_tst s).
Definition set_elr v s := XSys (R s) (P s) (x_ssr s) v (x_syscfg s) (x_exc s) (x_var s) (x_tst s).
Definition set_syscfg v s := XSys (R s) (P s) (x_ssr s) (x_elr s) v (x_exc s) (x_var s) (x_tst s).
Definition set_exc v s := XSys (R s) (P s) (x_ssr s) (x_elr s) (x_syscfg s) v (x_var s) (x_tst s).
Definition set_var v s := XSys (R s) (P s) (x_ssr s) (x_elr s) (x_syscfg s) (x_exc s) v (x_tst s).
Definition set_tst v s := XSys (R s) (P s) (x_ssr s) (x_elr s) (x_syscfg s) (x_exc s) (x_var s) v.

(* ------------------------------------------------------------------ *)
(** ** Packets *)

(** Instructions: assignments of registers under a predicate or its negation,
    settings of predicates, a store to the variable; and those the tests expect
    to be refused: a vector instruction, an HMX instruction, an instruction of
    version 68 and words that may not decode. *)
Inductive insn :=
  | Assign (c : option (bool * Z)) (d : list (Z * (xsys -> Z)))
  | SetP (p : Z) (f : xsys -> bool)
  | StVar (v : Z)
  | HvxInsn
  | HmxInsn
  | Dmpoll
  | Word (w : Z)
  | Nop.

(** The processor: its revision, whether it decodes a word and dmpoll, whether
    HMX is enabled, and the number of words that encode a packet of several
    instructions. *)
Class ExcHw := {
  rev : Z;
  decodes : Z -> Z -> bool;
  has_dmpoll : Z -> bool;
  hmx_enabled : Z -> bool;
  encoded : list insn -> Z
}.

Class ExcHwLaws `{ExcHw} : Prop := {
  decodes_none r : decodes r 0x6fffdffc = false;
  dmpoll_since r : has_dmpoll r = (0x68 <=? r);
  encoded_words l : 1 <= encoded l <= 4
}.

(** A packet with its size in words. *)
Definition packet : Type := Z * list insn.

(** The predicate holds. *)
Definition taken (s : xsys) (i : insn) : bool :=
  match i with Assign (Some (sense, p)) _ => Bool.eqb (P s p) sense | _ => true end.

Definition dests (s : xsys) (l : list insn) : list (Z * Z) :=
  l ≫= (fun i => match i with Assign _ d => if taken s i then (fun x => (x.1, x.2 s)) <$> d else [] | _ => [] end).

Definition setP (s : xsys) (l : list insn) : list (Z * bool) :=
  l ≫= (fun i => match i with SetP p f => [(p, f s)] | _ => [] end).

(** The exception a packet raises: a refused instruction, or two writes of a
    register. *)
Definition refused `{ExcHw} (s : xsys) (i : insn) : option Z :=
  match i with
  | HvxInsn =>
      if GET_FIELD (x_ssr s) SSR_XE =? 0 then Some HEX_CAUSE_NO_COPROC_ENABLE
      else if negb (Z.testbit (x_syscfg s) 7) && (Z.land rev 255 <=? 0x66) then Some HEX_CAUSE_UNSUPORTED_HVX_64B
      else None
  | HmxInsn => if hmx_enabled (x_ssr s) then None else Some HEX_CAUSE_NO_COPROC2_ENABLE
  | Dmpoll => if has_dmpoll (Z.land rev 255) then None else Some HEX_CAUSE_INVALID_OPCODE
  | Word w => if decodes (Z.land rev 255) w then None else Some HEX_CAUSE_INVALID_OPCODE
  | _ => None
  end.

Definition raises `{ExcHw} (s : xsys) (l : list insn) : option Z :=
  match omap (refused s) l with
  | c :: _ => Some c
  | [] => if decide (NoDup (dests s l).*1) then None else Some HEX_CAUSE_REG_WRITE_CONFLICT
  end.

(** What it does otherwise. *)
Definition upd {A} (f : Z -> A) (i : Z) (x : A) (j : Z) : A := if j =? i then x else f j.

Definition effect (s : xsys) (l : list insn) : xsys :=
  XSys (foldl (fun f x => upd f x.1 x.2) (R s) (dests s l)) (foldl (fun f x => upd f x.1 x.2) (P s) (setP s l))
    (x_ssr s) (x_elr s) (x_syscfg s) (x_exc s)
    (foldl (fun v i => match i with StVar w => w | _ => v end) (x_var s) l) (x_tst s).

(** The packet at a distance of words from the start of a block. *)
Fixpoint packet_at (l : list packet) (off : Z) : option packet :=
  match l with
  | [] => None
  | p :: l => if off =? 0 then Some p else if off <? p.1 then None else packet_at l (off - p.1)
  end.

Definition block_words (l : list packet) : Z := foldr (fun p n => p.1 + n) 0 l.

(** An exception: SSR gets the cause and EX, ELR the address of the packet, and
    the handler runs; it returns to ELR and clears EX. *)
Definition exception (handler : Z -> prog xsys ()) (c pc : Z) : prog xsys () :=
  modify (fun s => set_elr pc (set_ssr (SET_FIELD 32 (SET_FIELD 32 (x_ssr s) SSR_CAUSE c) SSR_EX 1) s));;
  ssr ← gets x_ssr;
  handler ssr;;
  modify (fun s => set_ssr (SET_FIELD 32 (x_ssr s) SSR_EX 0) s).

(** A block of packets at address [base], from [pc] to its end. *)
Fixpoint run_block `{ExcHw} (fuel : nat) (handler : Z -> prog xsys ()) (base : Z) (l : list packet) (pc : Z) : prog xsys () :=
  match fuel with
  | O => fun _ => NoFuel
  | Datatypes.S fuel =>
      if pc =? base + 4 * block_words l then mret tt
      else
        if Z.rem (pc - base) 4 =? 0 then
          '(n, i) ← of_option (packet_at l (Z.quot (pc - base) 4));
          s ← gets (fun s => s);
          match raises s i with
          | None => modify (fun s => effect s i);; run_block fuel handler base l (pc + 4 * n)
          | Some c => exception handler c pc;; pc ← gets x_elr; run_block fuel handler base l pc
          end
        else undef
  end.

(** An asm statement: as many rounds as it has packets, and one to leave. *)
Definition asm `{ExcHw} (handler : Z -> prog xsys ()) (base : Z) (l : list packet) : prog xsys () :=
  run_block (Datatypes.S (length l)) handler base l base.

(* ------------------------------------------------------------------ *)
(** ** The handler *)

Definition inc_elr (inc : Z) : prog xsys () := modify (fun s => set_elr (u32 (x_elr s + inc)) s).
Definition do_coredump : prog xsys () := exit_with 2.

(** The handlers of the programs differ in the causes they skip and in how far. *)
Definition my_err_handler_helper (skipped : list Z) (inc : Z) (ssr : Z) : prog xsys () :=
  let cause := GET_FIELD ssr SSR_CAUSE in
  (if cause <? 64 then modify (fun s => set_exc (Z.lor (x_exc s) (Z.shiftl 1 cause)) s)
   else modify (set_exc cause));;
  if bool_decide (cause ∈ skipped) then inc_elr inc else do_coredump.

(** Before INSTALL_ERR_HANDLER. *)
Definition default_handler (ssr : Z) : prog xsys () := do_coredump.

Definition check32 (line val expect : Z) : prog xsys () :=
  modify (fun s => set_tst (__check32 line (u32 val) (u32 expect) (x_tst s)) s).

(** [return err]. *)
Definition return_err : prog xsys Z := gets (fun s => err (x_tst s)).

(* ------------------------------------------------------------------ *)
(** ** The programs *)

Section programs.
Context `{ExcHw}.
(** The address of each asm statement. *)
Variable text : Z -> Z.

(** *** src/multiple_writes.c *)

Definition ELR_SKIP_BYTES : Z := 4 * 4.
Definition PACKET_PAD : list packet := [(1, [Nop]); (1, [Nop]); (1, [Nop])].

(** A 64-bit value of a pair, and its halves. *)
Definition pair (s : xsys) (hi lo : Z) : Z := R s hi * 2 ^ 32 + R s lo.
Definition low (v : Z) : Z := u32 v.
Definition high (v : Z) : Z := u32 (Z.shiftr v 32).

Definition static_packet : list insn :=
  [Assign None [(0, fun s => low (pair s 3 2 + pair s 3 2)); (1, fun s => high (pair s 3 2 + pair s 3 2))];
   Assign None [(1, fun s => u32 (R s 0 + R s 1))]].
Definition multiple_writes_static (handler : Z -> prog xsys ()) : prog xsys () :=
  asm handler (text 0) ((2, static_packet) :: PACKET_PAD).

Definition mixed_packet : list insn :=
  [Assign (Some (true, 1)) [(1, fun _ => 1)]; Assign (Some (false, 1)) [(1, fun _ => 1)]; Assign None [(1, fun _ => 1)]].
Definition multiple_writes_mixed (handler : Z -> prog xsys ()) : prog xsys () :=
  asm handler (text 1) ((3, mixed_packet) :: PACKET_PAD).

Definition store_packet : list insn :=
  [Assign (Some (true, 1)) [(3, fun _ => 1)]; Assign (Some (true, 2)) [(2, fun s => R s 0); (3, fun s => R s 1)];
   StVar 0x00fefe00].
Definition multiple_writes (handler : Z -> prog xsys ()) : prog xsys () :=
  let init_val := 0xab00ab00 in
  modify (set_var init_val);;
  asm handler (text 2) ((1, [SetP 1 (fun s => R s 1 =? R s 1)]) :: (1, [SetP 2 (fun s => P s 1)]) ::
    (encoded store_packet, store_packet) :: PACKET_PAD);;
  v ← gets x_var;
  check32 102 v init_val.

Definition legal_packet : list insn :=
  [Assign (Some (true, 0)) [(5, fun s => u32 (R s 2 + 0))]; Assign (Some (false, 0)) [(5, fun s => u32 (R s 2 - R s 4))];
   Assign None [(0, fun s => R s 5)]].
Definition multiple_write_legal (handler : Z -> prog xsys ()) : prog xsys () :=
  asm handler (text 3) ((1, [SetP 0 (fun s => R s 1 =? R s 1)]) :: (encoded legal_packet, legal_packet) :: PACKET_PAD).

Definition conflict_handler : Z -> prog xsys () := my_err_handler_helper [HEX_CAUSE_REG_WRITE_CONFLICT] ELR_SKIP_BYTES.

(** The exception was noted; then it is forgotten. *)
Definition check_conflict (line : Z) : prog xsys () :=
  e ← gets x_exc;
  check32 line e (Z.shiftl 1 HEX_CAUSE_REG_WRITE_CONFLICT);;
  modify (fun s => set_exc (Z.land (x_exc s) (unot 64 (Z.shiftl 1 HEX_CAUSE_REG_WRITE_CONFLICT))) s).

Definition multiple_writes_main : prog xsys Z :=
  multiple_write_legal default_handler;;
  multiple_writes_static conflict_handler;; check_conflict 150;;
  multiple_writes_mixed conflict_handler;; check_conflict 154;;
  multiple_writes conflict_handler;; check_conflict 158;;
  return_err.

(** *** src/hvx_64b.c *)

Definition hvx_insn (handler : Z -> prog xsys ()) : prog xsys () := asm handler (text 4) [(1, [HvxInsn])].

Definition set_hvx_64b : prog xsys () := modify (fun s => set_syscfg (Z.clearbit (x_syscfg s) 7) s).
Definition set_hvx_128b : prog xsys () := modify (fun s => set_syscfg (Z.setbit (x_syscfg s) 7) s).

Definition hvx_handler : Z -> prog xsys () :=
  my_err_handler_helper [HEX_CAUSE_UNSUPORTED_HVX_64B; HEX_CAUSE_NO_COPROC_ENABLE] 4.

Definition check_hvx (setup_fn : prog xsys ()) (excp : Z) : prog xsys () :=
  setup_fn;;
  hvx_insn hvx_handler;;
  e ← gets x_exc;
  check32 64 e excp;;
  modify (set_exc 0).

Definition hvx_64b_main : prog xsys Z :=
  let excp_64b := if Z.land rev 255 <=? 0x66 then Z.shiftl 1 HEX_CAUSE_UNSUPORTED_HVX_64B else 0 in
  for_ 0 4 (fun i =>
    if truth (Z.rem i 2) then check_hvx set_hvx_64b excp_64b else check_hvx set_hvx_128b 0);;
  modify (fun s => set_ssr (Z.clearbit (x_ssr s) 31) s);;
  check_hvx set_hvx_64b (Z.shiftl 1 HEX_CAUSE_NO_COPROC_ENABLE);;
  return_err.

(** *** src/invalid_hmx.c *)

Definition invalid_hmx (handler : Z -> prog xsys ()) : prog xsys () := asm handler (text 5) [(1, [HmxInsn])].

Definition hmx_handler : Z -> prog xsys () := my_err_handler_helper [HEX_CAUSE_NO_COPROC2_ENABLE] 4.

Definition invalid_hmx_main : prog xsys Z :=
  invalid_hmx hmx_handler;;
  e ← gets x_exc;
  check32 51 e (Z.shiftl 1 HEX_CAUSE_NO_COPROC2_ENABLE);;
  return_err.

(** *** include/invalid_opcode.h, src/invalid_opcode.c, src/invalid_insn_for_rev.c *)

Definition opcode_handler : Z -> prog xsys () := my_err_handler_helper [HEX_CAUSE_INVALID_OPCODE] 4.

Definition invalid_opcode (handler : Z -> prog xsys ()) : prog xsys () := asm handler (text 6) [(1, [Word 0x6fffdffc])].
Definition run_v68_instruction (handler : Z -> prog xsys ()) : prog xsys () := asm handler (text 7) [(1, [Dmpoll])].
Definition get_rev : Z := Z.land rev 0xff.

(** INVALID_OPCODE_MAIN *)
Definition invalid_opcode_test (line : Z) (test_func : (Z -> prog xsys ()) -> prog xsys ()) (exp_fail : bool) : prog xsys Z :=
  modify (set_exc 0);;
  test_func opcode_handler;;
  e ← gets x_exc;
  check32 line e (if exp_fail then Z.shiftl 1 HEX_CAUSE_INVALID_OPCODE else 0);;
  return_err.

Definition invalid_opcode_main : prog xsys Z := invalid_opcode_test 7 invalid_opcode true.
Definition invalid_insn_for_rev_main : prog xsys Z := invalid_opcode_test 20 run_v68_instruction (get_rev <? 0x68).
End programs.
