(* ===== verification/ExcRules.v ===== *)
(** The programs of ExcTests pass: rules for blocks of packets of which one
    raises an exception, and a theorem for each program. *)

From S2P Require Import Prelude HexTest RegFields ExcTests.

Open Scope list_scope.
Open Scope Z_scope.

(** What a block leaves alone. *)
Definition same (s s' : xsys) : Prop :=
  GET_FIELD (x_ssr s') SSR_XE = GET_FIELD (x_ssr s) SSR_XE /\ x_syscfg s' = x_syscfg s /\
  x_var s' = x_var s /\ x_tst s' = x_tst s.

(** The state in which a program goes on after an exception that is skipped. *)
Definition skipped_to (c elr : Z) (s : xsys) : xsys :=
  set_ssr (SET_FIELD 32 (SET_FIELD 32 (SET_FIELD 32 (x_ssr s) SSR_CAUSE c) SSR_EX 1) SSR_EX 0)
    (set_elr elr (set_exc (Z.lor (x_exc s) (Z.shiftl 1 c)) s)).

Lemma same_skipped c elr s : same s (skipped_to c elr s).
Proof. split_and!; try done. unfold skipped_to. cbn [x_ssr set_ssr]. by rewrite !get_set_other_at. Qed.

Lemma same_trans s1 s2 s3 : same s1 s2 -> same s2 s3 -> same s1 s3.
Proof. unfold same. intuition congruence. Qed.

Lemma exception_skipped skipped inc c pc s : 0 <= c < 64 -> c ∈ skipped -> in_u 32 (pc + inc) ->
  exception (my_err_handler_helper skipped inc) c pc s = Done tt (skipped_to c (pc + inc) s).
Proof.
  intros Hc Hs Hpc.
  set (e := SET_FIELD 32 (SET_FIELD 32 (x_ssr s) SSR_CAUSE c) SSR_EX 1).
  assert (GET_FIELD e SSR_CAUSE = c) as He.
  { unfold e. rewrite get_set_other_at, get_set_same_at by done. apply uwrap_id. split; [lia|]. cbn. lia. }
  unfold exception, my_err_handler_helper, inc_elr, gets, modify, mbind, prog_bind. cbv zeta. cbn [x_ssr set_ssr set_elr].
  fold e. rewrite He. rewrite (proj2 (Z.ltb_lt c 64)), bool_decide_true by (done || lia).
  unfold skipped_to. cbn. rewrite (uwrap_id 32 (pc + inc)) by done. done.
Qed.

(* ------------------------------------------------------------------ *)
(** ** Blocks *)

Section blocks.
Context `{ExcHw}.
Implicit Types (s : xsys) (l : list packet).

Lemma spec_block_end f h base l o s (Q : () -> xsys -> Prop) : o = block_words l -> Q tt s ->
  spec (run_block (Datatypes.S f) h base l (base + 4 * o)) s Q.
Proof. intros -> HQ. unfold wp. cbn [run_block]. by rewrite Z.eqb_refl. Qed.

Lemma run_block_at f h base l o n i s : o <> block_words l -> packet_at l o = Some (n, i) ->
  run_block (Datatypes.S f) h base l (base + 4 * o) s =
    match raises s i with
    | None => run_block f h base l (base + 4 * (o + n)) (effect s i)
    | Some c => (exception h c (base + 4 * o);; pc ← gets x_elr; run_block f h base l pc) s
    end.
Proof.
  intros Ho Hp. cbn [run_block]. rewrite (proj2 (Z.eqb_neq _ _)) by lia.
  replace (base + 4 * o - base) with (o * 4) by lia. rewrite Z.rem_mul, Z.quot_mul by lia. cbn [Z.eqb].
  rewrite Hp. unfold of_option, mbind, prog_bind, gets, modify, mret, prog_ret. cbv beta iota.
  destruct (raises s i); [done|]. by replace (base + 4 * o + 4 * n) with (base + 4 * (o + n)) by lia.
Qed.

(** A packet that runs. *)
Lemma spec_block_run f h base l o n i s (Q : () -> xsys -> Prop) : o <> block_words l -> packet_at l o = Some (n, i) ->
  raises s i = None -> spec (run_block f h base l (base + 4 * (o + n))) (effect s i) Q ->
  spec (run_block (Datatypes.S f) h base l (base + 4 * o)) s Q.
Proof. intros Ho Hp Hr HQ. unfold wp. by rewrite (run_block_at _ _ _ _ _ _ _ _ Ho Hp), Hr. Qed.

(** A packet that raises an exception: the handler skips [k] words. *)
Lemma spec_block_skip f skipped inc base l o n i c k s (Q : () -> xsys -> Prop) : o <> block_words l ->
  packet_at l o = Some (n, i) -> raises s i = Some c -> 0 <= c < 64 -> c ∈ skipped -> inc = 4 * k ->
  in_u 32 (base + 4 * (o + k)) ->
  spec (run_block f (my_err_handler_helper skipped inc) base l (base + 4 * (o + k)))
    (skipped_to c (base + 4 * (o + k)) s) Q ->
  spec (run_block (Datatypes.S f) (my_err_handler_helper skipped inc) base l (base + 4 * o)) s Q.
Proof.
  intros Ho Hp Hr Hc Hs -> Hpc HQ. unfold wp. rewrite (run_block_at _ _ _ _ _ _ _ _ Ho Hp), Hr.
  replace (base + 4 * (o + k)) with (base + 4 * o + 4 * k) in * by lia.
  unfold mbind, prog_bind. rewrite exception_skipped by done. exact HQ.
Qed.

Lemma raises_nop s : raises s [Nop] = None.
Proof. unfold raises. cbn. by rewrite decide_True by apply NoDup_nil_2. Qed.

Lemma effect_nop s : effect s [Nop] = s.
Proof. by destruct s. Qed.

End blocks.

(** Runs the padding to the end of a block, of packets of known sizes. *)
Ltac pad :=
  first [apply spec_block_end; [reflexivity|]
        |eapply spec_block_run; [discriminate|reflexivity|apply raises_nop|rewrite effect_nop; pad]].

Section programs.
Context `{ExcHwLaws} (text : Z -> Z).
(** The code is inside the address space. *)
Context (Htext : forall i, 0 <= text i /\ text i + 64 <= 2 ^ 32).
Implicit Types s : xsys.

Lemma asm_start h base l : asm h base l = run_block (Datatypes.S (length l)) h base l (base + 4 * 0).
Proof. unfold asm. f_equal. lia. Qed.

(** A block whose first packet is refused by skipping four words, whatever its
    size: the comment on PACKET_PAD. *)
Lemma spec_conflict i n p s (Q : () -> xsys -> Prop) : 1 <= n <= 4 -> raises s p = Some HEX_CAUSE_REG_WRITE_CONFLICT ->
  (forall s', same s s' -> x_exc s' = Z.lor (x_exc s) (Z.shiftl 1 HEX_CAUSE_REG_WRITE_CONFLICT) -> Q tt s') ->
  spec (asm conflict_handler (text i) ((n, p) :: PACKET_PAD)) s Q.
Proof.
  intros Hn Hr HQ. rewrite asm_start. unfold conflict_handler, PACKET_PAD. pose proof (Htext i).
  assert (n = 1 \/ n = 2 \/ n = 3 \/ n = 4) as Hn4 by lia.
  destruct Hn4 as [-> |[-> |[-> | ->]]].
  all: eapply (spec_block_skip _ _ _ _ _ _ _ _ _ 4); [discriminate|reflexivity|exact Hr|done|set_solver|reflexivity|unfold in_u; lia|].
  all: pad; apply HQ; [apply same_skipped|reflexivity].
Qed.

(** *** src/multiple_writes.c *)

Lemma raises_dests s l : omap (refused s) l = [] ->
  raises s l = if decide (NoDup (dests s l).*1) then None else Some HEX_CAUSE_REG_WRITE_CONFLICT.
Proof. intros Hl. unfold raises. by rewrite Hl. Qed.

Lemma raises_conflict s l : omap (refused s) l = [] -> ~ NoDup (dests s l).*1 ->
  raises s l = Some HEX_CAUSE_REG_WRITE_CONFLICT.
Proof. intros Hl Hd. by rewrite raises_dests, decide_False. Qed.

Lemma raises_none s l : omap (refused s) l = [] -> NoDup (dests s l).*1 -> raises s l = None.
Proof. intros Hl Hd. by rewrite raises_dests, decide_True. Qed.

Lemma raises_static s : raises s static_packet = Some HEX_CAUSE_REG_WRITE_CONFLICT.
Proof. apply raises_conflict; [done|]. cbn. rewrite !NoDup_cons. set_solver. Qed.

(** One of the two conditional writes always conflicts with the third. *)
Lemma raises_mixed s : raises s mixed_packet = Some HEX_CAUSE_REG_WRITE_CONFLICT.
Proof.
  apply raises_conflict; [done|]. unfold dests, mixed_packet, taken. cbn. destruct (P s 1); cbn; rewrite !NoDup_cons; set_solver.
Qed.

Lemma raises_store s : P s 1 = true -> P s 2 = true -> raises s store_packet = Some HEX_CAUSE_REG_WRITE_CONFLICT.
Proof.
  intros H1 H2. apply raises_conflict; [done|]. unfold dests, store_packet, taken. cbn. rewrite H1, H2. cbn.
  rewrite !NoDup_cons. set_solver.
Qed.

Lemma raises_legal s : P s 0 = true -> raises s legal_packet = None.
Proof.
  intros H1. apply raises_none; [done|]. unfold dests, legal_packet, taken. cbn. rewrite H1. cbn.
  apply NoDup_cons; split; [set_solver|]. apply NoDup_singleton.
Qed.

(** The packet of legal writes raises nothing: the runtime's handler would end
    the program. *)
Lemma multiple_write_legal_ok s (Q : () -> xsys -> Prop) : (forall s', same s s' -> x_exc s' = x_exc s -> Q tt s') ->
  spec (multiple_write_legal text default_handler) s Q.
Proof.
  intros HQ. unfold multiple_write_legal. rewrite asm_start. unfold PACKET_PAD.
  pose proof (encoded_words legal_packet) as Hn. generalize dependent (encoded legal_packet). intros n Hn.
  set (s1 := effect s [SetP 0 (fun s => R s 1 =? R s 1)]).
  assert (raises s1 legal_packet = None) as Hr by (apply raises_legal; cbn; by rewrite Z.eqb_refl).
  assert (n = 1 \/ n = 2 \/ n = 3 \/ n = 4) as [-> |[-> |[-> | ->]]] by lia.
  all: eapply spec_block_run; [discriminate|reflexivity|apply raises_none; [done|by apply NoDup_nil_2]|].
  all: eapply spec_block_run; [discriminate|reflexivity|exact Hr|].
  all: pad; apply HQ; reflexivity || done.
Qed.

Lemma multiple_writes_ok s (Q : () -> xsys -> Prop) :
  (forall s', same (set_var 0xab00ab00 s) s' -> x_exc s' = Z.lor (x_exc s) (Z.shiftl 1 HEX_CAUSE_REG_WRITE_CONFLICT) -> Q tt s') ->
  spec (multiple_writes text conflict_handler) s Q.
Proof.
  intros HQ. unfold multiple_writes. cbv zeta. apply wp_bind. unfold modify, wp at 1. apply wp_bind.
  rewrite asm_start. unfold PACKET_PAD, conflict_handler.
  pose proof (encoded_words store_packet) as Hn. generalize dependent (encoded store_packet). intros n Hn. pose proof (Htext 2) as Ht.
  set (s0 := set_var _ s). set (s1 := effect s0 [SetP 1 (fun s => R s 1 =? R s 1)]). set (s2 := effect s1 [SetP 2 (fun s => P s 1)]).
  assert (raises s2 store_packet = Some HEX_CAUSE_REG_WRITE_CONFLICT) as Hr by (apply raises_store; cbn; by rewrite Z.eqb_refl).
  assert (n = 1 \/ n = 2 \/ n = 3 \/ n = 4) as [-> |[-> |[-> | ->]]] by lia.
  all: eapply spec_block_run; [discriminate|reflexivity|apply raises_none; [done|by apply NoDup_nil_2]|].
  all: eapply spec_block_run; [discriminate|reflexivity|apply raises_none; [done|by apply NoDup_nil_2]|].
  all: eapply (spec_block_skip _ _ _ _ _ _ _ _ _ 4); [discriminate|reflexivity|exact Hr|done|set_solver|reflexivity|unfold in_u; lia|].
  all: pad; apply HQ; [|reflexivity]; cbn [mbind]; apply (same_skipped _ _ s2).
Qed.

(** The recorded exception passes the check and is removed. *)
Lemma check_conflict_ok line s (Q : () -> xsys -> Prop) : x_exc s = Z.shiftl 1 HEX_CAUSE_REG_WRITE_CONFLICT ->
  Q tt (set_exc 0 s) -> spec (check_conflict line) s Q.
Proof.
  intros He HQ. destruct s. cbn in He. subst. unfold wp, check_conflict, check32, gets, modify, mbind, prog_bind. exact HQ.
Qed.

(** C10: src/multiple_writes.c passes whatever the registers hold and however
    long the encoding of its packets is: the packet whose writes exclude each
    other raises nothing, each of the others raises the conflict of register
    writes and nothing else, the padding takes the return from the handler, and
    the store of the refused packet does not happen. *)
Theorem multiple_writes_passes s : x_exc s = 0 ->
  spec (multiple_writes_main text) s (fun r s' => r = err (x_tst s) /\ x_tst s' = x_tst s /\ x_exc s' = 0).
Proof.
  intros He. unfold multiple_writes_main. apply wp_bind, multiple_write_legal_ok. intros s1 H1 E1.
  apply wp_bind, spec_conflict; [lia|apply raises_static|]. intros s2 H2 E2.
  apply wp_bind, check_conflict_ok; [by rewrite E2, E1, He|]. apply wp_bind, spec_conflict; [lia|apply raises_mixed|].
  intros s3 H3 E3. apply wp_bind, check_conflict_ok; [by rewrite E3|]. apply wp_bind, multiple_writes_ok.
  intros s4 H4 E4. apply wp_bind, check_conflict_ok; [by rewrite E4|]. unfold wp, return_err, gets.
  assert (x_tst s4 = x_tst s) as Ht.
  { destruct H1 as (_ & _ & _ & <-), H2 as (_ & _ & _ & <-), H3 as (_ & _ & _ & H3), H4 as (_ & _ & _ & H4).
    rewrite H4. exact H3. }
  cbn. by rewrite Ht.
Qed.

(** *** Blocks of one instruction *)

Lemma raises_one s i : raises s [i] = match refused s i with
  | Some c => Some c
  | None => if decide (NoDup (dests s [i]).*1) then None else Some HEX_CAUSE_REG_WRITE_CONFLICT
  end.
Proof. unfold raises. cbn. by destruct (refused s i). Qed.

Lemma spec_one_skipped i c skipped s k (Q : () -> xsys -> Prop) : refused s i = Some c -> 0 <= c < 64 -> c ∈ skipped ->
  Q tt (skipped_to c (text k + 4) s) -> spec (asm (my_err_handler_helper skipped 4) (text k) [(1, [i])]) s Q.
Proof.
  intros Hi Hc Hs HQ. pose proof (Htext k). rewrite asm_start.
  eapply (spec_block_skip _ _ _ _ _ _ _ _ _ 1); [discriminate|reflexivity|by rewrite raises_one, Hi|done|done|reflexivity|unfold in_u; lia|].
  pad. exact HQ.
Qed.

Lemma spec_one_runs i h s k (Q : () -> xsys -> Prop) : refused s i = None -> dests s [i] = [] -> effect s [i] = s ->
  Q tt s -> spec (asm h (text k) [(1, [i])]) s Q.
Proof.
  intros Hi Hd He HQ. rewrite asm_start. eapply spec_block_run; [discriminate|reflexivity| |].
  { rewrite raises_one, Hi, Hd. by rewrite decide_True by apply NoDup_nil_2. }
  rewrite He. apply spec_block_end; [done|exact HQ].
Qed.

(** *** src/hvx_64b.c *)

(** The bit of the cause, or nothing. *)
Definition noted (o : option Z) : Z := match o with Some c => Z.shiftl 1 c | None => 0 end.

Lemma hvx_causes s c : refused s HvxInsn = Some c -> c = HEX_CAUSE_NO_COPROC_ENABLE \/ c = HEX_CAUSE_UNSUPORTED_HVX_64B.
Proof.
  unfold refused. destruct (GET_FIELD (x_ssr s) SSR_XE =? 0). { intros E. injection E as <-. by left. }
  destruct (negb _ && _); [|discriminate]. intros E. injection E as <-. by right.
Qed.

Lemma check_hvx_ok setup excp s s1 (Q : () -> xsys -> Prop) : setup s = Done tt s1 -> same (set_syscfg (x_syscfg s1) s) s1 ->
  x_exc s1 = 0 -> noted (refused s1 HvxInsn) = excp ->
  (forall s', same s1 s' -> x_exc s' = 0 -> Q tt s') -> spec (check_hvx text setup excp) s Q.
Proof.
  intros Hs Hsame He Hr HQ. unfold check_hvx. apply wp_bind. unfold wp at 1. rewrite Hs. apply wp_bind.
  assert (forall s2, same s1 s2 -> x_exc s2 = excp ->
    spec (e ← gets x_exc; check32 64 e excp;; modify (set_exc 0)) s2 Q) as Hcheck.
  { intros s2 H2 E2. unfold wp, check32, gets, modify, mbind, prog_bind. rewrite E2.
    unfold __check32. rewrite Z.eqb_refl. apply HQ; [|done]. by destruct s2. }
  unfold hvx_insn, hvx_handler. destruct (refused s1 HvxInsn) as [c|] eqn:E.
  - assert (c = HEX_CAUSE_NO_COPROC_ENABLE \/ c = HEX_CAUSE_UNSUPORTED_HVX_64B) as Hc.
    { by apply hvx_causes in E. }
    apply (spec_one_skipped _ c); [exact E|clear -Hc; destruct Hc as [-> | ->]; done|clear -Hc; destruct Hc as [-> | ->]; set_solver|].
    apply Hcheck; [apply same_skipped|]. rewrite <- Hr. unfold skipped_to. cbn. by rewrite He.
  - apply spec_one_runs; [exact E|done|clear; by destruct s1|]. clear E. apply Hcheck; [by split_and!|]. by rewrite He, <- Hr.
Qed.

(** C11: src/hvx_64b.c passes on every revision if it starts with the coprocessor
    enabled: a vector instruction runs in 128-byte mode, raises the exception
    of the unsupported mode in 64-byte mode up to revision 0x66, and that of the
    disabled coprocessor, which has priority, once SSR.XE is cleared. *)
Theorem hvx_64b_passes s : GET_FIELD (x_ssr s) SSR_XE = 1 -> x_exc s = 0 ->
  spec (hvx_64b_main text) s (fun r s' => r = err (x_tst s) /\ x_tst s' = x_tst s).
Proof.
  intros Hxe He. unfold hvx_64b_main. cbv zeta. apply wp_bind.
  apply wp_for with (I := fun _ s' => GET_FIELD (x_ssr s') SSR_XE = 1 /\ x_exc s' = 0 /\ x_tst s' = x_tst s); [done|done| |].
  - intros i s1 Hi (X1 & E1 & T1). destruct (truth (Z.rem i 2)).
    + eapply check_hvx_ok; [reflexivity|by split_and!|exact E1| |intros s2 (X2 & _ & _ & T2) E2; split_and!; [by rewrite X2|done|by rewrite T2]].
      unfold refused. cbn [x_ssr x_syscfg set_syscfg]. rewrite X1, Z.clearbit_eq. cbn [Z.eqb negb andb].
      by destruct (Z.land rev 255 <=? 0x66).
    + eapply check_hvx_ok; [reflexivity|by split_and!|exact E1| |intros s2 (X2 & _ & _ & T2) E2; split_and!; [by rewrite X2|done|by rewrite T2]].
      unfold refused. cbn [x_ssr x_syscfg set_syscfg]. by rewrite X1, Z.setbit_eq by done.
  - intros s1 (X1 & E1 & T1). apply wp_bind. unfold modify, wp at 1. apply wp_bind.
    eapply check_hvx_ok; [reflexivity|by split_and!|done| |].
    { cbn. rewrite GET_FIELD_extract. cbn. rewrite (proj2 (Z.eqb_eq _ 0)); [done|]. apply Z.bits_inj'. intros k Hk.
      unfold extract. rewrite Z.land_spec, Z.shiftr_spec, Z.clearbit_eqb, Z.bits_0 by lia.
      destruct (Z.eqb_spec 31 (k + 31)) as [Hk31|Hne]; [cbn [negb]; by rewrite andb_false_r|].
      rewrite (Z.ones_spec_high 1 k) by lia. apply andb_false_r. }
    intros s2 (_ & _ & _ & T2) _. unfold wp, return_err, gets. split; [by rewrite T2, <- T1|by rewrite T2, <- T1].
Qed.

(** *** src/invalid_hmx.c and include/invalid_opcode.h *)

Lemma check_noted line v s : x_exc s = v ->
  spec (e ← gets x_exc; check32 line e v;; return_err) s (fun r s' => r = err (x_tst s) /\ x_tst s' = x_tst s).
Proof.
  intros He. unfold wp, check32, return_err, gets, modify, mbind, prog_bind. rewrite He. unfold __check32.
  rewrite Z.eqb_refl. by destruct s.
Qed.

Ltac noted_by line := eapply wp_mono; [eapply (check_noted line)|by intros r s' [-> ->]].

(** C?: The programs that run one instruction the processor may not have pass:
    HMX when it is disabled, a word that no revision decodes, and dmpoll, which
    revisions from 0x68 on have; the exception is recorded just then. *)
Theorem one_instruction_tests_pass s :
  (x_exc s = 0 -> hmx_enabled (x_ssr s) = false ->
    spec (invalid_hmx_main text) s (fun r s' => r = err (x_tst s) /\ x_tst s' = x_tst s)) /\
  spec (invalid_opcode_main text) s (fun r s' => r = err (x_tst s) /\ x_tst s' = x_tst s) /\
  spec (invalid_insn_for_rev_main text) s (fun r s' => r = err (x_tst s) /\ x_tst s' = x_tst s).
Proof.
  split_and!.
  - intros He Hx. unfold invalid_hmx_main, invalid_hmx, hmx_handler. apply wp_bind.
    eapply spec_one_skipped; [cbn; by rewrite Hx|done|set_solver|]. noted_by 51. cbn. by rewrite He.
  - unfold invalid_opcode_main, invalid_opcode_test, invalid_opcode, opcode_handler. apply wp_bind. unfold modify, wp at 1. apply wp_bind.
    eapply spec_one_skipped; [cbn; by rewrite decodes_none|done|set_solver|]. by noted_by 7.
  - unfold invalid_insn_for_rev_main, invalid_opcode_test, run_v68_instruction, opcode_handler, get_rev. apply wp_bind.
    unfold modify, wp at 1. apply wp_bind. destruct (Z.leb_spec 0x68 (Z.land rev 255)) as [Hle|Hlt].
    + apply spec_one_runs; [cbn; rewrite dmpoll_since; by rewrite (proj2 (Z.leb_le _ _))|done|done|].
      rewrite (proj2 (Z.ltb_ge _ 0x68)) by done. by noted_by 20.
    + eapply spec_one_skipped; [cbn; rewrite dmpoll_since; by rewrite (proj2 (Z.leb_gt _ _))|done|set_solver|].
      rewrite (proj2 (Z.ltb_lt _ 0x68)) by done. by noted_by 20.
Qed.
End programs.

(* ------------------------------------------------------------------ *)
(** ** A processor *)

Definition old_processor : ExcHw := {|
  rev := 0x8d65;
  decodes _ w := negb (w =? 0x6fffdffc);
  has_dmpoll r := 0x68 <=? r;
  hmx_enabled _ := false;
  encoded l := Z.min 4 (Z.max 1 (Z.of_nat (length l)))
|}.

Lemma old_processor_laws : @ExcHwLaws old_processor.
Proof. split; cbn; intros; done || lia. Qed.

Definition old_text (i : Z) : Z := 0x1000 + 64 * (i mod 8).

Lemma old_text_ok i : 0 <= old_text i /\ old_text i + 64 <= 2 ^ 32.
Proof. unfold old_text. pose proof (Z.mod_pos_bound i 8 ltac:(lia)). lia. Qed.

(** The coprocessor is enabled, and nothing recorded. *)
Definition old_start : xsys := XSys (fun _ => 0) (fun _ => false) (2 ^ 31) 0 0 0 0 (TestState 0 []).

Lemma multiple_writes_passes_witness : (forall i, 0 <= old_text i /\ old_text i + 64 <= 2 ^ 32) /\ x_exc old_start = 0 /\
  spec (@multiple_writes_main old_processor old_text) old_start
    (fun r s' => r = 0 /\ x_tst s' = TestState 0 [] /\ x_exc s' = 0).
Proof.
  split; [exact old_text_ok|]. split; [reflexivity|].
  exact (@multiple_writes_passes old_processor old_processor_laws old_text old_text_ok old_start eq_refl).
Defined.

Lemma hvx_64b_passes_witness : (forall i, 0 <= old_text i /\ old_text i + 64 <= 2 ^ 32) /\
  GET_FIELD (x_ssr old_start) SSR_XE = 1 /\ x_exc old_start = 0 /\
  spec (@hvx_64b_main old_processor old_text) old_start (fun r s' => r = 0 /\ x_tst s' = TestState 0 []).
Proof.
  split; [exact old_text_ok|]. split; [reflexivity|]. split; [reflexivity|].
  exact (@hvx_64b_passes old_processor old_text old_text_ok old_start eq_refl eq_refl).
Defined.

Lemma one_instruction_tests_pass_witness : (forall i, 0 <= old_text i /\ old_text i + 64 <= 2 ^ 32) /\
  x_exc old_start = 0 /\ @hmx_enabled old_processor (x_ssr old_start) = false /\
  spec (@invalid_hmx_main old_processor old_text) old_start (fun r s' => r = 0 /\ x_tst s' = TestState 0 []) /\
  spec (@invalid_insn_for_rev_main old_processor old_text) old_start (fun r s' => r = 0 /\ x_tst s' = TestState 0 []).
Proof.
  split; [exact old_text_ok|]. split; [reflexivity|]. split; [reflexivity|].
  destruct (@one_instruction_tests_pass old_processor old_processor_laws old_text old_text_ok old_start) as (H1 & _ & H3).
  exact (conj (H1 eq_refl eq_refl) H3).
Defined.
