(* ===== verification/ScatterGather.v ===== *)
(** [src/standalone_vec.c]: the HVX scatter/gather test.  It fills a scratch
    area in tightly coupled memory (VTCM), scatters and gathers elements along
    the diagonal of a matrix with the vector instructions, repeats the work in
    scalar C and compares the two byte by byte. *)

From S2P Require Import Prelude HexTest RegFields TlbHw Tlb ByteMem.

Open Scope string_scope.
Open Scope list_scope.
Open Scope Z_scope.

Definition MATRIX_SIZE : Z := 64.
Definition SCATTER_BUFFER_SIZE : Z := MATRIX_SIZE * MATRIX_SIZE.
Definition SCATTER16_BUF_SIZE : Z := 2 * SCATTER_BUFFER_SIZE.
Definition SCATTER32_BUF_SIZE : Z := 4 * SCATTER_BUFFER_SIZE.
Definition GATHER16_BUF_SIZE : Z := 2 * MATRIX_SIZE.
Definition GATHER32_BUF_SIZE : Z := 4 * MATRIX_SIZE.
Definition region_len : Z := 4 * SCATTER_BUFFER_SIZE - 1.
Definition SCRATCH_SIZE : Z := 0x8800.
Definition FILL_CHAR : Z := 46.

(** The globals of the file: the C arrays by name, the address variables by
    name, the tightly coupled memory, [err] and the lines [check_buffer] prints
    (buffer name, index, the byte found and the byte expected). *)
Record vstate := VState {
  vm : mem;
  arrs : gmap string (list Z);
  ptrs : gmap string Z;
  verr : Z;
  vreports : list (string * Z * Z * Z);
  vsys : sys
}.

Definition set_vm (m : mem) (s : vstate) : vstate :=
  VState m (arrs s) (ptrs s) (verr s) (vreports s) (vsys s).
Definition set_arr (a : string) (l : list Z) (s : vstate) : vstate :=
  VState (vm s) (<[a := l]> (arrs s)) (ptrs s) (verr s) (vreports s) (vsys s).
Definition set_ptr (a : string) (v : Z) (s : vstate) : vstate :=
  VState (vm s) (arrs s) (<[a := v]> (ptrs s)) (verr s) (vreports s) (vsys s).
Definition set_vsys (h : sys) (s : vstate) : vstate :=
  VState (vm s) (arrs s) (ptrs s) (verr s) (vreports s) h.
Definition add_report (r : string * Z * Z * Z) (s : vstate) : vstate :=
  VState (vm s) (arrs s) (ptrs s) (s32 (verr s + 1)) (vreports s ++ [r]) (vsys s).

(** Accesses to the globals. *)
Definition read_all (a : string) : prog vstate (list Z) :=
  m ← gets arrs; of_option (m !! a).
Definition read_arr (a : string) (i : Z) : prog vstate Z :=
  l ← read_all a; of_option (lookupZ l i).
Definition write_arr (a : string) (i v : Z) : prog vstate () :=
  l ← read_all a; l' ← of_option (insertZ l i v); modify (set_arr a l').
Definition read_ptr (a : string) : prog vstate Z := m ← gets ptrs; of_option (m !! a).
Definition write_ptr (a : string) (v : Z) : prog vstate () := modify (set_ptr a v).

(* ------------------------------------------------------------------ *)
(** ** The vector unit *)

(** Elements at even and odd positions. *)
Fixpoint evens {A} (l : list A) : list A :=
  match l with x :: _ :: l => x :: evens l | [x] => [x] | [] => [] end.
Fixpoint odds {A} (l : list A) : list A :=
  match l with _ :: y :: l => y :: odds l | _ => [] end.

(** One lane of a scatter: the element goes to [base + offset] when that lies in
    the region of [len + 1] bytes. *)
Definition lane_write (w : nat) (base len : Z) (lane : Z * Z) (m : mem) : mem :=
  if lane.1 + Z.of_nat w - 1 <=? len then store w m (base + lane.1) lane.2 else m.
Definition lane_acc (w : nat) (base len : Z) (lane : Z * Z) (m : mem) : mem :=
  if lane.1 + Z.of_nat w - 1 <=? len
  then store w m (base + lane.1) (uwrap (8 * Z.of_nat w) (load w m (base + lane.1) + lane.2))
  else m.
(** One lane of a gather: the element at [base + offset] of the memory [m0]
    before the instruction goes to position [lane.1] of the destination. *)
Definition lane_gather (w : nat) (dst base len : Z) (m0 : mem) (lane : Z * Z) (m : mem) : mem :=
  if lane.2 + Z.of_nat w - 1 <=? len
  then store w m (dst + Z.of_nat w * lane.1) (load w m0 (base + lane.2)) else m.

(** The lanes a predicate selects. *)
Definition selected (preds : list bool) (lanes : list (Z * Z)) : list (Z * Z) :=
  snd <$> filter (fun x : bool * (Z * Z) => x.1 = true) (zip preds lanes).

(** The instructions, and what the architecture documents of them: the lanes
    of a scatter or gather are performed in an unspecified order; [vshuff]
    interleaves the two halves of a vector and [vdeal] separates them again;
    the predicate of [vand] holds in the lanes that are not zero. *)
Class Hvx := {
  Q6_vscatter : nat -> mem -> Z -> Z -> list (Z * Z) -> mem;
  Q6_vscatteracc : nat -> mem -> Z -> Z -> list (Z * Z) -> mem;
  Q6_vgather : nat -> mem -> Z -> Z -> Z -> list (Z * Z) -> mem;
  Q6_Q_vand : nat -> list Z -> list bool;
  Q6_Vh_vshuff : list Z -> list Z;
  Q6_Vh_vdeal : list Z -> list Z
}.

Class HvxLaws `{Hvx} : Prop := {
  vscatter_order w m base len lanes :
    exists p, p ≡ₚ lanes /\
      Q6_vscatter w m base len lanes = foldr (lane_write w base len) m p;
  vscatteracc_order w m base len lanes :
    exists p, p ≡ₚ lanes /\
      Q6_vscatteracc w m base len lanes = foldr (lane_acc w base len) m p;
  vgather_order w m dst base len lanes :
    exists p, p ≡ₚ lanes /\
      Q6_vgather w m dst base len lanes = foldr (lane_gather w dst base len m) m p;
  vand_lanes w l :
    Forall (fun v => v = 0 \/ v = 2 ^ (8 * Z.of_nat w) - 1) l ->
    Q6_Q_vand w l = (fun v => truth v) <$> l;
  vshuff_halves l :
    length l = 64%nat ->
    evens (Q6_Vh_vshuff l) = take 32 l /\ odds (Q6_Vh_vshuff l) = drop 32 l;
  vdeal_halves l :
    length l = 64%nat -> Q6_Vh_vdeal l = evens l ++ odds l
}.

(** The lanes of the instructions with two vectors of word offsets: the low
    vector pairs with the even halfwords, the high one with the odd ones. *)
Definition ww_lanes (offs vals : list Z) : list (Z * Z) :=
  zip (take 32 offs) (evens vals) ++ zip (drop 32 offs) (odds vals).
Definition ww_preds (p : list bool) : list bool := evens p ++ odds p.
Definition gather_lanes (offs : list Z) : list (Z * Z) := zip (seqZ 0 (Z.of_nat (length offs))) offs.
Definition ww_gather_lanes (offs : list Z) : list (Z * Z) :=
  zip ((fun i => 2 * i) <$> seqZ 0 32) (take 32 offs) ++
  zip ((fun i => 2 * i + 1) <$> seqZ 0 32) (drop 32 offs).

(* ------------------------------------------------------------------ *)
(** ** The program *)

Section program.
Context `{Hvx} `{TlbSearch}.
(** [__HEXAGON_ARCH__], and the VTCM field of the configuration table. *)
Variables arch cfg_vtcm : Z.

Definition get_vtcm_base : Z :=
  if arch =? 65 then 0xD8200000 else u32 (Z.shiftl cfg_vtcm 16).

Definition prefill_vtcm_scratch : prog vstate () :=
  base ← read_ptr "VTCM_BASE_ADDRESS";
  modify (fun s => set_vm (memset (vm s) base FILL_CHAR SCRATCH_SIZE) s).

(** [element |= letter << j * 8] for [j < n], at the element's width. *)
Definition repeat_letter (w n letter : Z) : Z :=
  foldl (fun e j => uwrap w (Z.lor e (Z.shiftl letter (j * 8)))) 0 (seqZ 0 n).

Definition next_letter (letter last first : Z) : Z :=
  let letter := u8 (letter + 1) in if letter =? last then first else letter.

Definition create_offsets_and_values_16 : prog vstate () :=
  for_acc 0 MATRIX_SIZE (fun i letter =>
    write_arr "half_offsets" i (u16 (i * (2 * MATRIX_SIZE + 2)));;
    let half_element := repeat_letter 16 2 letter in
    let half_q_element := repeat_letter 16 2 64 in
    write_arr "half_values" i half_element;;
    write_arr "half_acc_values" i (u16 (Z.shiftl (Z.rem i 10) 8 + Z.rem i 10));;
    write_arr "half_q_values" i half_q_element;;
    mret (next_letter letter 77 65)) 65;;
  mret tt.

Definition create_preds_16 : prog vstate () :=
  for_ 0 MATRIX_SIZE (fun i =>
    write_arr "half_predicates" i
      (if (Z.rem i 3 =? 0) || (Z.rem i 5 =? 0) then unot 16 0 else 0)).

Definition create_offsets_and_values_32 : prog vstate () :=
  for_acc 0 MATRIX_SIZE (fun i letter =>
    write_arr "word_offsets" i (u32 (i * (4 * MATRIX_SIZE + 4)));;
    let word_element := repeat_letter 32 4 letter in
    let word_q_element := repeat_letter 32 4 38 in
    write_arr "word_values" i word_element;;
    write_arr "word_acc_values" i (u32 (Z.shiftl (Z.rem i 10) 8 + Z.rem i 10));;
    write_arr "word_q_values" i word_q_element;;
    mret (next_letter letter 77 65)) 65;;
  mret tt.

Definition create_preds_32 : prog vstate () :=
  for_ 0 MATRIX_SIZE (fun i =>
    write_arr "word_predicates" i
      (if (Z.rem i 4 =? 0) || (Z.rem i 7 =? 0) then unot 32 0 else 0)).

Definition create_offsets_and_values_16_32 : prog vstate () :=
  for_acc 0 MATRIX_SIZE (fun i letter =>
    write_arr "word_offsets" i (u32 (i * (2 * MATRIX_SIZE + 2)));;
    let half_element := repeat_letter 32 2 letter in
    let half_q_element := repeat_letter 16 2 36 in
    write_arr "half_values" i (u16 half_element);;
    write_arr "half_acc_values" i (u16 (Z.shiftl (Z.rem i 10) 8 + Z.rem i 10));;
    write_arr "half_q_values" i half_q_element;;
    mret (next_letter letter 80 68)) 68;;
  mret tt.

Definition create_preds_16_32 : prog vstate () :=
  for_ 0 MATRIX_SIZE (fun i =>
    write_arr "half_predicates" i
      (if (Z.rem i 2 =? 0) || (Z.rem i 13 =? 0) then unot 16 0 else 0)).

(** *** The vector routines *)

Definition update_vm (f : mem -> mem) : prog vstate () := modify (fun s => set_vm (f (vm s)) s).

(** Storing a vector of [w]-byte elements, and loading one. *)
Definition store_vector (w : nat) (m : mem) (a : Z) (l : list Z) : mem :=
  foldr (fun iv m => store w m (a + Z.of_nat w * iv.1) iv.2) m (zip (seqZ 0 (Z.of_nat (length l))) l).
Definition load_vector (w n : nat) (m : mem) (a : Z) : list Z :=
  (fun i => load w m (a + Z.of_nat w * i)) <$> seqZ 0 (Z.of_nat n).

Definition vector_scatter_16 : prog vstate () :=
  offsets ← read_all "half_offsets";
  values ← read_all "half_values";
  a ← read_ptr "VTCM_SCATTER16_ADDRESS";
  update_vm (fun m => Q6_vscatter 2 m a region_len (zip offsets values)).

Definition vector_scatter_acc_16 : prog vstate () :=
  offsets ← read_all "half_offsets";
  values ← read_all "half_acc_values";
  a ← read_ptr "VTCM_SCATTER16_ADDRESS";
  update_vm (fun m => Q6_vscatteracc 2 m a region_len (zip offsets values)).

Definition vector_scatter_q_16 : prog vstate () :=
  offsets ← read_all "half_offsets";
  values ← read_all "half_q_values";
  pred_reg ← read_all "half_predicates";
  let preds := Q6_Q_vand 2 pred_reg in
  a ← read_ptr "VTCM_SCATTER16_ADDRESS";
  update_vm (fun m => Q6_vscatter 2 m a region_len (selected preds (zip offsets values))).

Definition vector_scatter_32 : prog vstate () :=
  offsets ← read_all "word_offsets";
  values ← read_all "word_values";
  a ← read_ptr "VTCM_SCATTER32_ADDRESS";
  update_vm (fun m => Q6_vscatter 4 m a region_len (zip (take 32 offsets) (take 32 values)));;
  update_vm (fun m => Q6_vscatter 4 m a region_len (zip (drop 32 offsets) (drop 32 values))).

Definition vector_scatter_acc_32 : prog vstate () :=
  offsets ← read_all "word_offsets";
  values ← read_all "word_acc_values";
  a ← read_ptr "VTCM_SCATTER32_ADDRESS";
  update_vm (fun m => Q6_vscatteracc 4 m a region_len (zip (take 32 offsets) (take 32 values)));;
  update_vm (fun m => Q6_vscatteracc 4 m a region_len (zip (drop 32 offsets) (drop 32 values))).

Definition vector_scatter_q_32 : prog vstate () :=
  offsets ← read_all "word_offsets";
  values ← read_all "word_q_values";
  pred_reg ← read_all "word_predicates";
  let predslo := Q6_Q_vand 4 (take 32 pred_reg) in
  let predshi := Q6_Q_vand 4 (drop 32 pred_reg) in
  a ← read_ptr "VTCM_SCATTER32_ADDRESS";
  update_vm (fun m => Q6_vscatter 4 m a region_len
    (selected predslo (zip (take 32 offsets) (take 32 values))));;
  update_vm (fun m => Q6_vscatter 4 m a region_len
    (selected predshi (zip (drop 32 offsets) (drop 32 values)))).

Definition vector_scatter_16_32 : prog vstate () :=
  offsets ← read_all "word_offsets";
  values ← read_all "half_values";
  let values := Q6_Vh_vshuff values in
  a ← read_ptr "VTCM_SCATTER16_32_ADDRESS";
  update_vm (fun m => Q6_vscatter 2 m a region_len (ww_lanes offsets values)).

Definition vector_scatter_acc_16_32 : prog vstate () :=
  offsets ← read_all "word_offsets";
  values ← read_all "half_acc_values";
  let values := Q6_Vh_vshuff values in
  a ← read_ptr "VTCM_SCATTER16_32_ADDRESS";
  update_vm (fun m => Q6_vscatteracc 2 m a region_len (ww_lanes offsets values)).

Definition vector_scatter_q_16_32 : prog vstate () :=
  offsets ← read_all "word_offsets";
  values ← read_all "half_q_values";
  let values := Q6_Vh_vshuff values in
  pred_reg ← read_all "half_predicates";
  let pred_reg := Q6_Vh_vshuff pred_reg in
  let preds := Q6_Q_vand 2 pred_reg in
  a ← read_ptr "VTCM_SCATTER16_32_ADDRESS";
  update_vm (fun m => Q6_vscatter 2 m a region_len
    (selected (ww_preds preds) (ww_lanes offsets values))).

Definition vector_gather_16 : prog vstate () :=
  vgather ← read_ptr "VTCM_GATHER16_ADDRESS";
  offsets ← read_all "half_offsets";
  a ← read_ptr "VTCM_SCATTER16_ADDRESS";
  update_vm (fun m => Q6_vgather 2 m vgather a region_len (gather_lanes offsets)).

Definition gather_q_16_init : Z := u16 (Z.lor 63 (Z.shiftl 63 8)).

Definition vector_gather_q_16 : prog vstate () :=
  vgather ← read_ptr "VTCM_GATHER16_ADDRESS";
  offsets ← read_all "half_offsets";
  pred_reg ← read_all "half_predicates";
  let preds := Q6_Q_vand 2 pred_reg in
  update_vm (fun m => store_vector 2 m vgather (replicate 64 gather_q_16_init));;
  a ← read_ptr "VTCM_SCATTER16_ADDRESS";
  update_vm (fun m => Q6_vgather 2 m vgather a region_len (selected preds (gather_lanes offsets))).

Definition vector_gather_32 : prog vstate () :=
  vgatherlo ← read_ptr "VTCM_GATHER32_ADDRESS";
  let vgatherhi := u32 (vgatherlo + MATRIX_SIZE * 2) in
  offsets ← read_all "word_offsets";
  a ← read_ptr "VTCM_SCATTER32_ADDRESS";
  update_vm (fun m => Q6_vgather 4 m vgatherlo a region_len (gather_lanes (take 32 offsets)));;
  update_vm (fun m => Q6_vgather 4 m vgatherhi a region_len (gather_lanes (drop 32 offsets))).

Definition gather_q_32_init : Z :=
  u32 (Z.lor (Z.lor (Z.lor 63 (Z.shiftl 63 8)) (Z.shiftl 63 16)) (Z.shiftl 63 24)).

Definition vector_gather_q_32 : prog vstate () :=
  vgatherlo ← read_ptr "VTCM_GATHER32_ADDRESS";
  let vgatherhi := u32 (vgatherlo + MATRIX_SIZE * 2) in
  offsets ← read_all "word_offsets";
  pred_reg ← read_all "word_predicates";
  let predslo := Q6_Q_vand 4 (take 32 pred_reg) in
  let predshi := Q6_Q_vand 4 (drop 32 pred_reg) in
  update_vm (fun m => store_vector 2 m vgatherlo (replicate 64 (u16 gather_q_32_init)));;
  update_vm (fun m => store_vector 2 m vgatherhi (replicate 64 (u16 gather_q_32_init)));;
  a ← read_ptr "VTCM_SCATTER32_ADDRESS";
  update_vm (fun m => Q6_vgather 4 m vgatherlo a region_len
    (selected predslo (gather_lanes (take 32 offsets))));;
  update_vm (fun m => Q6_vgather 4 m vgatherhi a region_len
    (selected predshi (gather_lanes (drop 32 offsets)))).

Definition vector_gather_16_32 : prog vstate () :=
  vgather ← read_ptr "VTCM_GATHER16_32_ADDRESS";
  offsets ← read_all "word_offsets";
  a ← read_ptr "VTCM_SCATTER16_32_ADDRESS";
  update_vm (fun m => Q6_vgather 2 m vgather a region_len (ww_gather_lanes offsets));;
  values ← gets (fun s => load_vector 2 64 (vm s) vgather);
  let values := Q6_Vh_vdeal values in
  update_vm (fun m => store_vector 2 m vgather values).

Definition vector_gather_q_16_32 : prog vstate () :=
  vgather ← read_ptr "VTCM_GATHER16_32_ADDRESS";
  offsets ← read_all "word_offsets";
  pred_reg ← read_all "half_predicates";
  let pred_reg := Q6_Vh_vshuff pred_reg in
  let preds := Q6_Q_vand 2 pred_reg in
  update_vm (fun m => store_vector 2 m vgather (replicate 64 gather_q_16_init));;
  a ← read_ptr "VTCM_SCATTER16_32_ADDRESS";
  update_vm (fun m => Q6_vgather 2 m vgather a region_len
    (selected (ww_preds preds) (ww_gather_lanes offsets)));;
  values ← gets (fun s => load_vector 2 64 (vm s) vgather);
  let values := Q6_Vh_vdeal values in
  update_vm (fun m => store_vector 2 m vgather values).

(** *** The scalar equivalents and the comparisons *)

(** Byte [i] of an array of [w]-byte elements. *)
Definition array_byte (w i : Z) (l : list Z) : option Z :=
  v ← lookupZ l (i / w); Some (byte_of v (i mod w)).

(** [check_buffer name c r size]: [c] is an address in VTCM, [r] an array of
    [w]-byte elements. *)
Definition check_buffer (name : string) (c w : Z) (r : string) (size : Z) : prog vstate () :=
  for_ 0 size (fun i =>
    check ← gets (fun s => mget (vm s) (c + i));
    l ← read_all r;
    ref ← of_option (array_byte w i l);
    if negb (check =? ref) then modify (add_report (name, i, check, ref)) else mret tt).

(** [memset] of a C array of [w]-byte elements. *)
Definition memset_arr (r : string) (w c n : Z) : prog vstate () :=
  modify (set_arr r (replicate (Z.to_nat n) (repeat_letter (8 * w) w (u8 c)))).

Definition scalar_scatter_16 (dst : string) : prog vstate () :=
  for_ 0 MATRIX_SIZE (fun i =>
    o ← read_arr "half_offsets" i; v ← read_arr "half_values" i;
    write_arr dst (o / 2) v).

Definition scalar_scatter_acc_16 (dst : string) : prog vstate () :=
  for_ 0 MATRIX_SIZE (fun i =>
    o ← read_arr "half_offsets" i; v ← read_arr "half_acc_values" i;
    old ← read_arr dst (o / 2); write_arr dst (o / 2) (u16 (old + v))).

Definition scalar_scatter_q_16 (dst : string) : prog vstate () :=
  for_ 0 MATRIX_SIZE (fun i =>
    p ← read_arr "half_predicates" i;
    if truth p then
      o ← read_arr "half_offsets" i; v ← read_arr "half_q_values" i;
      write_arr dst (o / 2) v
    else mret tt).

Definition check_scatter_16 : prog vstate () :=
  memset_arr "vscatter16_ref" 2 FILL_CHAR SCATTER_BUFFER_SIZE;;
  scalar_scatter_16 "vscatter16_ref";;
  c ← read_ptr "vscatter16";
  check_buffer "check_scatter_16" c 2 "vscatter16_ref" (SCATTER_BUFFER_SIZE * 2).

Definition check_scatter_acc_16 : prog vstate () :=
  memset_arr "vscatter16_ref" 2 FILL_CHAR SCATTER_BUFFER_SIZE;;
  scalar_scatter_16 "vscatter16_ref";;
  scalar_scatter_acc_16 "vscatter16_ref";;
  c ← read_ptr "vscatter16";
  check_buffer "check_scatter_acc_16" c 2 "vscatter16_ref" (SCATTER_BUFFER_SIZE * 2).

Definition check_scatter_q_16 : prog vstate () :=
  memset_arr "vscatter16_ref" 2 FILL_CHAR SCATTER_BUFFER_SIZE;;
  scalar_scatter_16 "vscatter16_ref";;
  scalar_scatter_acc_16 "vscatter16_ref";;
  scalar_scatter_q_16 "vscatter16_ref";;
  c ← read_ptr "vscatter16";
  check_buffer "check_scatter_q_16" c 2 "vscatter16_ref" (SCATTER_BUFFER_SIZE * 2).

Definition scalar_scatter_32 (dst : string) : prog vstate () :=
  for_ 0 MATRIX_SIZE (fun i =>
    o ← read_arr "word_offsets" i; v ← read_arr "word_values" i;
    write_arr dst (o / 4) v).

Definition scalar_scatter_acc_32 (dst : string) : prog vstate () :=
  for_ 0 MATRIX_SIZE (fun i =>
    o ← read_arr "word_offsets" i; v ← read_arr "word_acc_values" i;
    old ← read_arr dst (o / 4); write_arr dst (o / 4) (u32 (old + v))).

Definition scalar_scatter_q_32 (dst : string) : prog vstate () :=
  for_ 0 MATRIX_SIZE (fun i =>
    p ← read_arr "word_predicates" i;
    if truth p then
      o ← read_arr "word_offsets" i; v ← read_arr "word_q_values" i;
      write_arr dst (o / 4) v
    else mret tt).

Definition check_scatter_32 : prog vstate () :=
  memset_arr "vscatter32_ref" 4 FILL_CHAR SCATTER_BUFFER_SIZE;;
  scalar_scatter_32 "vscatter32_ref";;
  c ← read_ptr "vscatter32";
  check_buffer "check_scatter_32" c 4 "vscatter32_ref" (SCATTER_BUFFER_SIZE * 4).

Definition check_scatter_acc_32 : prog vstate () :=
  memset_arr "vscatter32_ref" 4 FILL_CHAR SCATTER_BUFFER_SIZE;;
  scalar_scatter_32 "vscatter32_ref";;
  scalar_scatter_acc_32 "vscatter32_ref";;
  c ← read_ptr "vscatter32";
  check_buffer "check_scatter_acc_32" c 4 "vscatter32_ref" (SCATTER_BUFFER_SIZE * 4).

Definition check_scatter_q_32 : prog vstate () :=
  memset_arr "vscatter32_ref" 4 FILL_CHAR SCATTER_BUFFER_SIZE;;
  scalar_scatter_32 "vscatter32_ref";;
  scalar_scatter_acc_32 "vscatter32_ref";;
  scalar_scatter_q_32 "vscatter32_ref";;
  c ← read_ptr "vscatter32";
  check_buffer "check_scatter_q_32" c 4 "vscatter32_ref" (SCATTER_BUFFER_SIZE * 4).

Definition scalar_scatter_16_32 (dst : string) : prog vstate () :=
  for_ 0 MATRIX_SIZE (fun i =>
    o ← read_arr "word_offsets" i; v ← read_arr "half_values" i;
    write_arr dst (o / 2) v).

Definition scalar_scatteracc_16_32 (dst : string) : prog vstate () :=
  for_ 0 MATRIX_SIZE (fun i =>
    o ← read_arr "word_offsets" i; v ← read_arr "half_acc_values" i;
    old ← read_arr dst (o / 2); write_arr dst (o / 2) (u16 (old + v))).

Definition scalar_scatter_q_16_32 (dst : string) : prog vstate () :=
  for_ 0 MATRIX_SIZE (fun i =>
    p ← read_arr "half_predicates" i;
    if truth p then
      o ← read_arr "word_offsets" i; v ← read_arr "half_q_values" i;
      write_arr dst (o / 2) v
    else mret tt).

Definition check_scatter_16_32 : prog vstate () :=
  memset_arr "vscatter16_32_ref" 2 FILL_CHAR SCATTER_BUFFER_SIZE;;
  scalar_scatter_16_32 "vscatter16_32_ref";;
  c ← read_ptr "vscatter16_32";
  check_buffer "check_scatter_16_32" c 2 "vscatter16_32_ref" (SCATTER_BUFFER_SIZE * 2).

Definition check_scatter_acc_16_32 : prog vstate () :=
  memset_arr "vscatter16_32_ref" 2 FILL_CHAR SCATTER_BUFFER_SIZE;;
  scalar_scatter_16_32 "vscatter16_32_ref";;
  scalar_scatteracc_16_32 "vscatter16_32_ref";;
  c ← read_ptr "vscatter16_32";
  check_buffer "check_scatter_acc_16_32" c 2 "vscatter16_32_ref" (SCATTER_BUFFER_SIZE * 2).

Definition check_scatter_q_16_32 : prog vstate () :=
  memset_arr "vscatter16_32_ref" 2 FILL_CHAR SCATTER_BUFFER_SIZE;;
  scalar_scatter_16_32 "vscatter16_32_ref";;
  scalar_scatteracc_16_32 "vscatter16_32_ref";;
  scalar_scatter_q_16_32 "vscatter16_32_ref";;
  c ← read_ptr "vscatter16_32";
  check_buffer "check_scatter_q_16_32" c 2 "vscatter16_32_ref" (SCATTER_BUFFER_SIZE * 2).

(** Reading element [i] of a VTCM array through its pointer variable. *)
Definition read_vtcm (p : string) (w i : Z) : prog vstate Z :=
  a ← read_ptr p; gets (fun s => load (Z.to_nat w) (vm s) (a + w * i)).

Definition scalar_gather_16 (dst : string) : prog vstate () :=
  for_ 0 MATRIX_SIZE (fun i =>
    o ← read_arr "half_offsets" i; v ← read_vtcm "vscatter16" 2 (o / 2); write_arr dst i v).

Definition scalar_gather_q_16 (dst : string) : prog vstate () :=
  for_ 0 MATRIX_SIZE (fun i =>
    p ← read_arr "half_predicates" i;
    if truth p then
      o ← read_arr "half_offsets" i; v ← read_vtcm "vscatter16" 2 (o / 2); write_arr dst i v
    else mret tt).

Definition check_gather_16 : prog vstate () :=
  memset_arr "vgather16_ref" 2 0 MATRIX_SIZE;;
  scalar_gather_16 "vgather16_ref";;
  c ← read_ptr "vgather16";
  check_buffer "check_gather_16" c 2 "vgather16_ref" (MATRIX_SIZE * 2).

Definition check_gather_q_16 : prog vstate () :=
  memset_arr "vgather16_ref" 2 gather_q_16_init MATRIX_SIZE;;
  scalar_gather_q_16 "vgather16_ref";;
  c ← read_ptr "vgather16";
  check_buffer "check_gather_q_16" c 2 "vgather16_ref" (MATRIX_SIZE * 2).

Definition scalar_gather_32 (dst : string) : prog vstate () :=
  for_ 0 MATRIX_SIZE (fun i =>
    o ← read_arr "word_offsets" i; v ← read_vtcm "vscatter32" 4 (o / 4); write_arr dst i v).

Definition scalar_gather_q_32 (dst : string) : prog vstate () :=
  for_ 0 MATRIX_SIZE (fun i =>
    p ← read_arr "word_predicates" i;
    if truth p then
      o ← read_arr "word_offsets" i; v ← read_vtcm "vscatter32" 4 (o / 4); write_arr dst i v
    else mret tt).

Definition check_gather_32 : prog vstate () :=
  memset_arr "vgather32_ref" 4 0 MATRIX_SIZE;;
  scalar_gather_32 "vgather32_ref";;
  c ← read_ptr "vgather32";
  check_buffer "check_gather_32" c 4 "vgather32_ref" (MATRIX_SIZE * 4).

Definition check_gather_q_32 : prog vstate () :=
  memset_arr "vgather32_ref" 4 gather_q_32_init MATRIX_SIZE;;
  scalar_gather_q_32 "vgather32_ref";;
  c ← read_ptr "vgather32";
  check_buffer "check_gather_q_32" c 4 "vgather32_ref" (MATRIX_SIZE * 4).

Definition scalar_gather_16_32 (dst : string) : prog vstate () :=
  for_ 0 MATRIX_SIZE (fun i =>
    o ← read_arr "word_offsets" i; v ← read_vtcm "vscatter16_32" 2 (o / 2); write_arr dst i v).

Definition scalar_gather_q_16_32 (dst : string) : prog vstate () :=
  for_ 0 MATRIX_SIZE (fun i =>
    p ← read_arr "half_predicates" i;
    if truth p then
      o ← read_arr "word_offsets" i; v ← read_vtcm "vscatter16_32" 2 (o / 2); write_arr dst i v
    else mret tt).

Definition check_gather_16_32 : prog vstate () :=
  memset_arr "vgather16_32_ref" 2 0 MATRIX_SIZE;;
  scalar_gather_16_32 "vgather16_32_ref";;
  c ← read_ptr "vgather16_32";
  check_buffer "check_gather_16_32" c 2 "vgather16_32_ref" (MATRIX_SIZE * 2).

Definition check_gather_q_16_32 : prog vstate () :=
  memset_arr "vgather16_32_ref" 2 gather_q_16_init MATRIX_SIZE;;
  scalar_gather_q_16_32 "vgather16_32_ref";;
  c ← read_ptr "vgather16_32";
  check_buffer "check_gather_q_16_32" c 2 "vgather16_32_ref" (MATRIX_SIZE * 2).

(** *** Set-up and the whole run *)

(** The translation of the VTCM, run on the machine part of the state. *)
Definition setup_translation (va pa : Z) : prog vstate () :=
  fun s =>
    match add_translation_extended arch 1 va pa 8 15 7 0 0 3 (vsys s) with
    | Done _ h => Done tt (set_vsys h s)
    | Exited c h => Exited c (set_vsys h s)
    | Undef => Undef
    | NoFuel => NoFuel
    end.

Definition setup_tcm : prog vstate () :=
  write_ptr "VTCM_BASE_ADDRESS" get_vtcm_base;;
  pa ← read_ptr "VTCM_BASE_ADDRESS";
  setup_translation pa pa;;
  base ← read_ptr "VTCM_BASE_ADDRESS";
  write_ptr "VTCM_SCATTER16_ADDRESS" base;;
  write_ptr "VTCM_GATHER16_ADDRESS" (u32 (base + SCATTER16_BUF_SIZE));;
  g16 ← read_ptr "VTCM_GATHER16_ADDRESS";
  write_ptr "VTCM_SCATTER32_ADDRESS" (u32 (g16 + GATHER16_BUF_SIZE));;
  s32 ← read_ptr "VTCM_SCATTER32_ADDRESS";
  write_ptr "VTCM_GATHER32_ADDRESS" (u32 (s32 + SCATTER32_BUF_SIZE));;
  g32 ← read_ptr "VTCM_GATHER32_ADDRESS";
  write_ptr "VTCM_SCATTER16_32_ADDRESS" (u32 (g32 + GATHER32_BUF_SIZE));;
  s16_32 ← read_ptr "VTCM_SCATTER16_32_ADDRESS";
  write_ptr "VTCM_GATHER16_32_ADDRESS" (u32 (s16_32 + SCATTER16_BUF_SIZE));;
  write_ptr "vtcm_base" base;;
  s16 ← read_ptr "VTCM_SCATTER16_ADDRESS"; write_ptr "vscatter16" s16;;
  g16 ← read_ptr "VTCM_GATHER16_ADDRESS"; write_ptr "vgather16" g16;;
  s32 ← read_ptr "VTCM_SCATTER32_ADDRESS"; write_ptr "vscatter32" s32;;
  g32 ← read_ptr "VTCM_GATHER32_ADDRESS"; write_ptr "vgather32" g32;;
  s16_32 ← read_ptr "VTCM_SCATTER16_32_ADDRESS"; write_ptr "vscatter16_32" s16_32;;
  g16_32 ← read_ptr "VTCM_GATHER16_32_ADDRESS"; write_ptr "vgather16_32" g16_32.

(** The three parts of [main], one for each element and offset width. *)
Definition run_16 : prog vstate () :=
  create_offsets_and_values_16;; create_preds_16;;
  vector_scatter_16;; check_scatter_16;;
  vector_gather_16;; check_gather_16;;
  vector_gather_q_16;; check_gather_q_16;;
  vector_scatter_acc_16;; check_scatter_acc_16;;
  vector_scatter_q_16;; check_scatter_q_16.

Definition run_32 : prog vstate () :=
  create_offsets_and_values_32;; create_preds_32;;
  vector_scatter_32;; check_scatter_32;;
  vector_gather_32;; check_gather_32;;
  vector_gather_q_32;; check_gather_q_32;;
  vector_scatter_acc_32;; check_scatter_acc_32;;
  vector_scatter_q_32;; check_scatter_q_32.

Definition run_16_32 : prog vstate () :=
  create_offsets_and_values_16_32;; create_preds_16_32;;
  vector_scatter_16_32;; check_scatter_16_32;;
  vector_gather_16_32;; check_gather_16_32;;
  vector_gather_q_16_32;; check_gather_q_16_32;;
  vector_scatter_acc_16_32;; check_scatter_acc_16_32;;
  vector_scatter_q_16_32;; check_scatter_q_16_32.

Definition standalone_vec_main : prog vstate Z :=
  setup_tcm;; prefill_vtcm_scratch;;
  run_16;; run_32;; run_16_32;;
  gets verr.

End program.

(** The globals as the program starts: zeroed arrays, and pointers not set. *)
Definition initial_arrays : gmap string (list Z) :=
  list_to_map ((fun a => (a, replicate 64 0)) <$>
    ["half_offsets"; "word_offsets"; "half_values"; "half_acc_values"; "half_q_values";
     "word_values"; "word_acc_values"; "word_q_values"; "half_predicates"; "word_predicates"]).

Definition initial (m : mem) (h : sys) : vstate := VState m initial_arrays ∅ 0 [] h.
