(* ===== verification/ScatterMem.v ===== *)
(** Scatter and gather on memory: whatever order the hardware performs the
    lanes in, lanes that do not overlap have the effect of the sequential
    loops over an array. *)

From S2P Require Import Prelude HexTest RegFields TlbHw Tlb ByteMem ScatterGather.

(** A lane stores element [k] of the array. *)
Definition lane_ok (w : nat) (len n : Z) (lane : Z * Z) : Prop :=
  exists k, lane.1 = Z.of_nat w * k /\ 0 <= k < n /\ lane.1 + Z.of_nat w - 1 <= len.

(** The element an offset selects, and the two updates of the scalar loops. *)
Definition elem (w : nat) (o : Z) : nat := Z.to_nat (o / Z.of_nat w).
Definition put (w : nat) (l : list Z) (lane : Z * Z) : list Z := <[elem w lane.1 := lane.2]> l.
Definition put_acc (w : nat) (l : list Z) (lane : Z * Z) : list Z :=
  <[elem w lane.1 := uwrap (8 * Z.of_nat w) (l !!! elem w lane.1 + lane.2)]> l.

Lemma foldl_as_foldr {A B} (f : A -> B -> B) b l :
  foldl (fun b x => f x b) b l = foldr f b (reverse l).
Proof.
  revert b. induction l as [|x l IH]; intros b; [done|].
  rewrite reverse_cons, foldr_app. apply IH.
Qed.

Lemma pow_256 w : 256 ^ Z.of_nat w = 2 ^ (8 * Z.of_nat w).
Proof. rewrite Z.pow_mul_r by lia. done. Qed.

Section lanes.
Context (w : nat) (Hw : (0 < w)%nat) (base len n : Z).

Abbreviation ok := (lane_ok w len n).

Lemma elem_mul k : 0 <= k -> elem w (Z.of_nat w * k) = Z.to_nat k.
Proof. intros Hk. unfold elem. rewrite Z.mul_comm, Z.div_mul by lia. done. Qed.

Lemma lane_write_comm x y m :
  ok x -> ok y -> x.1 <> y.1 ->
  lane_write w base len x (lane_write w base len y m) =
  lane_write w base len y (lane_write w base len x m).
Proof.
  intros (k & Hk & _ & Hx) (k' & Hk' & _ & Hy) Hne. unfold lane_write.
  rewrite (proj2 (Z.leb_le _ _) Hx), (proj2 (Z.leb_le _ _) Hy).
  apply store_comm. assert (k <> k') by congruence. nia.
Qed.

Lemma lane_acc_comm x y m :
  ok x -> ok y -> x.1 <> y.1 ->
  lane_acc w base len x (lane_acc w base len y m) =
  lane_acc w base len y (lane_acc w base len x m).
Proof.
  intros (k & Hk & _ & Hx) (k' & Hk' & _ & Hy) Hne. unfold lane_acc.
  rewrite (proj2 (Z.leb_le _ _) Hx), (proj2 (Z.leb_le _ _) Hy).
  assert (base + x.1 + Z.of_nat w <= base + y.1 \/ base + y.1 + Z.of_nat w <= base + x.1) as Hd.
  { assert (k <> k') by congruence. nia. }
  rewrite (load_store_other w m (base + x.1) w (base + y.1)) by done.
  rewrite (load_store_other w m (base + y.1) w (base + x.1)) by lia.
  by apply store_comm.
Qed.

(** Order does not matter for lanes at distinct offsets. *)
Lemma unordered (f : Z * Z -> mem -> mem) p lanes m :
  (forall x y m, ok x -> ok y -> x.1 <> y.1 -> f x (f y m) = f y (f x m)) ->
  p ≡ₚ lanes -> Forall ok lanes -> NoDup lanes.*1 ->
  foldr f m p = foldl (fun m x => f x m) m lanes.
Proof.
  intros Hc Hp Hok Hnd.
  rewrite foldl_as_foldr.
  apply (foldr_permutation eq f); [solve_proper| |].
  - intros j1 x j2 y m' Hj Hx Hy.
    assert (Forall ok p) as Hokp by (by rewrite Hp).
    assert (NoDup p.*1) as Hndp by (by rewrite Hp).
    rewrite Forall_lookup in Hokp. apply Hc; [by eapply Hokp..|].
    intros He. apply Hj. apply (NoDup_lookup p.*1 j1 j2 x.1); [done|..].
    + by rewrite list_lookup_fmap, Hx.
    + rewrite list_lookup_fmap, Hy. simpl. by rewrite He.
  - by rewrite Hp, reverse_Permutation.
Qed.

(** What the sequential lanes do to an array and to the rest of memory. *)
Definition same_outside (m m' : mem) : Prop :=
  forall b, ~ (base <= b < base + Z.of_nat w * n) -> mget m' b = mget m b.

Lemma store_outside m k v b :
  0 <= k < n -> ~ (base <= b < base + Z.of_nat w * n) ->
  mget (store w m (base + Z.of_nat w * k) v) b = mget m b.
Proof.
  intros Hk Hb. rewrite mget_store. replace (_ && _) with false; [done|].
  symmetry. apply not_true_iff_false. rewrite andb_true_iff, Z.leb_le, Z.ltb_lt. nia.
Qed.

Lemma lane_write_array m l x :
  array w m base l -> Z.of_nat (length l) = n -> ok x ->
  array w (lane_write w base len x m) base (put w l x) /\
  same_outside m (lane_write w base len x m).
Proof.
  destruct x as [o v]. intros Ha Hl (k & Hk & Hkn & Hx). unfold lane_write, put.
  cbn [fst snd] in *. subst o. rewrite (proj2 (Z.leb_le _ _) Hx), elem_mul by lia. split.
  - pose proof (array_store w m base l (Z.to_nat k) v Ha ltac:(lia)) as Hs.
    by rewrite Z2Nat.id in Hs by lia.
  - intros b Hb. by apply store_outside.
Qed.

Lemma lane_acc_array m l x :
  array w m base l -> elems_ok w l -> Z.of_nat (length l) = n -> ok x ->
  array w (lane_acc w base len x m) base (put_acc w l x) /\
  same_outside m (lane_acc w base len x m) /\ elems_ok w (put_acc w l x).
Proof.
  destruct x as [o v]. intros Ha He Hl (k & Hk & Hkn & Hx). unfold lane_acc, put_acc.
  cbn [fst snd] in *. subst o. rewrite (proj2 (Z.leb_le _ _) Hx), elem_mul by lia.
  destruct (lookup_lt_is_Some_2 l (Z.to_nat k)) as [e Hk]; [lia|].
  assert (load w m (base + Z.of_nat w * k) = e) as ->.
  { rewrite <- (array_load w m base l (Z.to_nat k) e) by done. by rewrite Z2Nat.id by lia. }
  rewrite (list_lookup_total_correct _ _ _ Hk). split_and!.
  - pose proof (array_store w m base l (Z.to_nat k) (uwrap (8 * Z.of_nat w) (e + v)) Ha ltac:(lia)) as Hs.
    by rewrite Z2Nat.id in Hs by lia.
  - intros b Hb. by apply store_outside.
  - apply Forall_insert; [done|]. rewrite pow_256. apply uwrap_range. lia.
Qed.

(** Whole instructions. *)
Lemma scatter_lanes_array m l lanes :
  array w m base l -> Z.of_nat (length l) = n -> Forall ok lanes ->
  let m' := foldl (fun m x => lane_write w base len x m) m lanes in
  array w m' base (foldl (put w) l lanes) /\ same_outside m m'.
Proof.
  intros Ha Hl Hok. revert m l Ha Hl. induction Hok as [|x lanes Hx Hok IH]; intros m l Ha Hl.
  - by split.
  - cbn [foldl]. destruct (lane_write_array m l x Ha Hl Hx) as [Ha' Ho].
    destruct (IH _ _ Ha') as [Ha2 Ho2]; [unfold put; by rewrite length_insert|].
    split; [done|]. intros b Hb. by rewrite Ho2, Ho.
Qed.

Lemma scatteracc_lanes_array m l lanes :
  array w m base l -> elems_ok w l -> Z.of_nat (length l) = n -> Forall ok lanes ->
  let m' := foldl (fun m x => lane_acc w base len x m) m lanes in
  array w m' base (foldl (put_acc w) l lanes) /\ same_outside m m'.
Proof.
  intros Ha He Hl Hok. revert m l Ha He Hl. induction Hok as [|x lanes Hx Hok IH]; intros m l Ha He Hl.
  - by split.
  - cbn [foldl]. destruct (lane_acc_array m l x Ha He Hl Hx) as (Ha' & Ho & He').
    destruct (IH _ _ Ha' He') as [Ha2 Ho2]; [unfold put_acc; by rewrite length_insert|].
    split; [done|]. intros b Hb. by rewrite Ho2, Ho.
Qed.
End lanes.

Section instructions.
Context `{HvxLaws} (w : nat) (Hw : (0 < w)%nat) (base len n : Z).

(** A scatter of lanes at distinct offsets is the sequential scalar loop on the
    array, and touches nothing else. *)
Lemma vscatter_array m l lanes :
  array w m base l -> Z.of_nat (length l) = n ->
  Forall (lane_ok w len n) lanes -> NoDup lanes.*1 ->
  array w (Q6_vscatter w m base len lanes) base (foldl (put w) l lanes) /\
  same_outside w base n m (Q6_vscatter w m base len lanes).
Proof.
  intros Ha Hl Hok Hnd. destruct (vscatter_order w m base len lanes) as (p & Hp & ->).
  rewrite (unordered w len n _ p lanes m (fun x y m => lane_write_comm w Hw base len n x y m) Hp Hok Hnd).
  by apply scatter_lanes_array.
Qed.

Lemma vscatteracc_array m l lanes :
  array w m base l -> elems_ok w l -> Z.of_nat (length l) = n ->
  Forall (lane_ok w len n) lanes -> NoDup lanes.*1 ->
  array w (Q6_vscatteracc w m base len lanes) base (foldl (put_acc w) l lanes) /\
  same_outside w base n m (Q6_vscatteracc w m base len lanes).
Proof.
  intros Ha He Hl Hok Hnd. destruct (vscatteracc_order w m base len lanes) as (p & Hp & ->).
  rewrite (unordered w len n _ p lanes m (fun x y m => lane_acc_comm w Hw base len n x y m) Hp Hok Hnd).
  by apply scatteracc_lanes_array.
Qed.
End instructions.

(* ------------------------------------------------------------------ *)
(** ** Predicates and gathers *)

Lemma elem_of_selected preds lanes x :
  x ∈ selected preds lanes <-> exists j, preds !! j = Some true /\ lanes !! j = Some x.
Proof.
  unfold selected. rewrite list_elem_of_fmap. split.
  - intros ((b & y) & -> & [Hb Hin]%list_elem_of_filter). simpl in *. subst b.
    apply list_elem_of_lookup in Hin as [j Hj]. exists j.
    apply lookup_zip_with_Some in Hj as (? & ? & [= <- <-] & ? & ?). done.
  - intros (j & Hp & Hl). exists (true, x). split; [done|].
    apply list_elem_of_filter. split; [done|]. apply list_elem_of_lookup. exists j.
    apply lookup_zip_with_Some. by exists true, x.
Qed.

Lemma selected_cons b preds x lanes :
  selected (b :: preds) (x :: lanes) = if b then x :: selected preds lanes else selected preds lanes.
Proof. unfold selected. cbn [zip zip_with]. rewrite filter_cons. by destruct b. Qed.

Lemma selected_app preds preds' lanes lanes' :
  length preds = length lanes ->
  selected (preds ++ preds') (lanes ++ lanes') = selected preds lanes ++ selected preds' lanes'.
Proof.
  intros Hl. unfold selected. by rewrite zip_with_app, filter_app, fmap_app.
Qed.

Lemma selected_all n lanes : n = length lanes -> selected (replicate n true) lanes = lanes.
Proof.
  intros ->. induction lanes as [|x lanes IH]; [done|].
  cbn [length replicate]. by rewrite selected_cons, IH.
Qed.

Lemma selected_ok (P : Z * Z -> Prop) preds lanes :
  Forall P lanes -> Forall P (selected preds lanes).
Proof.
  rewrite !Forall_forall. intros Hl x (j & _ & Hj)%elem_of_selected.
  apply Hl. by eapply list_elem_of_lookup_2.
Qed.

Lemma selected_NoDup preds lanes : NoDup lanes.*1 -> NoDup (selected preds lanes).*1.
Proof.
  revert preds. induction lanes as [|x lanes IH]; intros [|b preds] Hnd;
    try (unfold selected; by constructor).
  rewrite selected_cons. cbn [fmap list_fmap] in Hnd. apply NoDup_cons in Hnd as [Hx Hnd].
  destruct b; [|by apply IH]. cbn [fmap list_fmap]. constructor; [|by apply IH].
  intros (y & Hy & (j & _ & Hj)%elem_of_selected)%list_elem_of_fmap. apply Hx.
  apply list_elem_of_fmap. exists y. split; [done|]. by eapply list_elem_of_lookup_2.
Qed.

Section gather.
Context `{HvxLaws} (w : nat) (Hw : (0 < w)%nat) (dst sbase len : Z).

(** One lane of a gather stays inside a destination of [dn] elements. *)
Definition gather_lane_ok (dn : Z) (lane : Z * Z) : Prop :=
  0 <= lane.1 < dn /\ lane.2 + Z.of_nat w - 1 <= len.

Lemma foldr_gather_at dn m0 m p k o i :
  Forall (gather_lane_ok dn) p -> NoDup p.*1 -> (k, o) ∈ p -> 0 <= i < Z.of_nat w ->
  mget (foldr (lane_gather w dst sbase len m0) m p) (dst + Z.of_nat w * k + i) =
    byte_of (load w m0 (sbase + o)) i.
Proof.
  intros Hok Hnd Hin Hi. induction p as [|[k' o'] p IH]; [by apply not_elem_of_nil in Hin|].
  apply Forall_cons in Hok as [[_ Hx] Hok]. cbn [fmap list_fmap fst] in Hnd.
  apply NoDup_cons in Hnd as [Hni Hnd].
  cbn [foldr]. unfold lane_gather at 1. cbn [fst snd] in *.
  rewrite (proj2 (Z.leb_le _ _) Hx), mget_store. destruct (decide (k = k')) as [->|Hne].
  - replace (_ && _) with true by (split_cmp; done).
    apply elem_of_cons in Hin as [[= <-]|Hin]; [f_equal; lia|].
    exfalso. apply Hni. apply list_elem_of_fmap. by exists (k', o).
  - replace (_ && _) with false.
    2:{ symmetry. apply not_true_iff_false. rewrite andb_true_iff, Z.leb_le, Z.ltb_lt. nia. }
    apply IH; [done|done|]. apply elem_of_cons in Hin as [[= ? ?]|Hin]; [done|done].
Qed.

Lemma foldr_gather_other dn m0 m p b :
  Forall (gather_lane_ok dn) p ->
  (forall k i, k ∈ p.*1 -> 0 <= i < Z.of_nat w -> b <> dst + Z.of_nat w * k + i) ->
  mget (foldr (lane_gather w dst sbase len m0) m p) b = mget m b.
Proof.
  intros Hok Hb. induction p as [|[k o] p IH]; [done|].
  apply Forall_cons in Hok as [[_ Hx] Hok]. cbn [foldr]. unfold lane_gather at 1. cbn [fst snd] in *.
  rewrite (proj2 (Z.leb_le _ _) Hx), mget_store. replace (_ && _) with false.
  - apply IH; [done|]. intros. apply Hb; [|done]. right. done.
  - symmetry. apply not_true_iff_false. rewrite andb_true_iff, Z.leb_le, Z.ltb_lt. intros [H1 H2].
    apply (Hb k (b - (dst + Z.of_nat w * k))); [left|lia|lia].
Qed.

(** The value lane [j] of a predicated gather leaves at its place. *)
Definition gather_val (ls : list Z) (iv : Z) (b : bool) (o : Z) : Z :=
  if b then ls !!! elem w o else iv.

Lemma vgather_at dn n ls m ks offs preds iv j k o b i :
  array w m sbase ls -> elems_ok w ls -> Z.of_nat (length ls) = n ->
  Forall (gather_lane_ok dn) (zip ks offs) -> Forall (fun o => lane_ok w len n (o, 0)) offs ->
  NoDup ks -> length ks = length offs ->
  ks !! j = Some k -> offs !! j = Some o -> preds !! j = Some b ->
  (b = false -> forall i, 0 <= i < Z.of_nat w -> mget m (dst + Z.of_nat w * k + i) = byte_of iv i) ->
  0 <= i < Z.of_nat w ->
  mget (Q6_vgather w m dst sbase len (selected preds (zip ks offs))) (dst + Z.of_nat w * k + i) =
    byte_of (gather_val ls iv b o) i.
Proof.
  intros Ha He Hn Hok Hoff Hnd Hlen Hk Ho Hb Hiv Hi.
  destruct (vgather_order w m dst sbase len (selected preds (zip ks offs))) as (p & Hp & ->).
  assert (Forall (gather_lane_ok dn) p) as Hokp by (rewrite Hp; by apply selected_ok).
  assert (NoDup p.*1) as Hndp by (rewrite Hp; apply selected_NoDup; by rewrite fst_zip by lia).
  assert (zip ks offs !! j = Some (k, o)) as Hkj by (apply lookup_zip_with_Some; by exists k, o).
  destruct b; simpl.
  - rewrite (foldr_gather_at dn m m p k o i) by
      (done || (rewrite Hp; apply elem_of_selected; by exists j)).
    f_equal. rewrite Forall_lookup in Hoff. destruct (Hoff j o Ho) as (e & Heq & Hr & _).
    cbn [fst] in Heq. subst o. rewrite elem_mul by lia.
    destruct (lookup_lt_is_Some_2 ls (Z.to_nat e)) as [v Hv]; [lia|].
    rewrite (list_lookup_total_correct _ _ _ Hv).
    rewrite <- (array_load w m sbase ls (Z.to_nat e) v) by done. by rewrite Z2Nat.id by lia.
  - rewrite (foldr_gather_other dn); [by apply Hiv|done|].
    intros k' i' Hk' Hi' Heq.
    assert (k' = k) as -> by nia.
    apply list_elem_of_fmap in Hk' as ([k2 o2] & Hk2 & Hin). simpl in Hk2. subst k2.
    rewrite Hp in Hin. apply elem_of_selected in Hin as (j' & Hbj' & Hj').
    apply lookup_zip_with_Some in Hj' as (? & ? & [= <- <-] & Hkj' & _).
    pose proof (NoDup_lookup ks j' j k Hnd Hkj' Hk). congruence.
Qed.

Lemma vgather_outside dn m lanes b :
  Forall (gather_lane_ok dn) lanes -> ~ (dst <= b < dst + Z.of_nat w * dn) ->
  mget (Q6_vgather w m dst sbase len lanes) b = mget m b.
Proof.
  intros Hok Hb. destruct (vgather_order w m dst sbase len lanes) as (p & Hp & ->).
  rewrite <- Hp in Hok. apply (foldr_gather_other dn); [done|].
  intros k i Hk Hi ->. apply Hb.
  apply list_elem_of_fmap in Hk as ([k2 o2] & -> & Hin). rewrite Forall_forall in Hok.
  destruct (Hok _ Hin) as [Hr _]. cbn [fst] in *. nia.
Qed.
End gather.
