(* ===== verification/ScatterRun.v ===== *)
(** The scatter/gather test passes: the scalar loops, the comparisons and the
    run of [main], proved once for a kind of element and offset and used for
    the three kinds of the program. *)

From S2P Require Import Prelude HexTest RegFields TlbHw Tlb ByteMem ScatterGather ScatterMem.

Open Scope string_scope.
Open Scope list_scope.
Open Scope Z_scope.

(* ------------------------------------------------------------------ *)
(** ** Accesses *)

Lemma read_all_eq a l s : arrs s !! a = Some l -> read_all a s = Done l s.
Proof. intros H. unfold read_all, gets, mbind, prog_bind. by rewrite H. Qed.

Lemma read_ptr_eq a v s : ptrs s !! a = Some v -> read_ptr a s = Done v s.
Proof. intros H. unfold read_ptr, gets, mbind, prog_bind. by rewrite H. Qed.

Lemma read_arr_eq a l i s :
  arrs s !! a = Some l -> 0 <= i < Z.of_nat (length l) ->
  read_arr a i s = Done (l !!! Z.to_nat i) s.
Proof.
  intros H Hi. unfold read_arr. rewrite (bind_done _ _ _ _ _ (read_all_eq a l s H)).
  rewrite lookupZ_spec by lia. destruct (lookup_lt_is_Some_2 l (Z.to_nat i)) as [v Hv]; [lia|].
  by rewrite Hv, (list_lookup_total_correct _ _ _ Hv).
Qed.

Lemma write_arr_eq a l i v s :
  arrs s !! a = Some l -> 0 <= i < Z.of_nat (length l) ->
  write_arr a i v s = Done tt (set_arr a (<[Z.to_nat i := v]> l) s).
Proof.
  intros H Hi. unfold write_arr. rewrite (bind_done _ _ _ _ _ (read_all_eq a l s H)).
  by rewrite insertZ_spec.
Qed.

Lemma set_arr_id a l s : arrs s !! a = Some l -> set_arr a l s = s.
Proof. intros H. destruct s. unfold set_arr. simpl in *. by rewrite insert_id. Qed.

Lemma set_arr_set a l l' s : set_arr a l (set_arr a l' s) = set_arr a l s.
Proof. unfold set_arr. simpl. by rewrite insert_insert_eq. Qed.

Lemma arrs_set_same a l s : arrs (set_arr a l s) !! a = Some l.
Proof. apply lookup_insert_eq. Qed.

Lemma arrs_set_other a b l s : a <> b -> arrs (set_arr a l s) !! b = arrs s !! b.
Proof. intros. by apply lookup_insert_ne. Qed.

(* ------------------------------------------------------------------ *)
(** ** Loops that update one array *)

Lemma for_up_set dst (P : list Z -> Prop) (g : Z -> list Z -> list Z) body n i l s :
  (forall j l', i <= j < i + Z.of_nat n -> P l' ->
     body j (set_arr dst l' s) = Done tt (set_arr dst (g j l') s) /\ P (g j l')) ->
  P l ->
  for_up n i body (set_arr dst l s) =
    Done tt (set_arr dst (foldl (fun l j => g j l) l (seqZ i (Z.of_nat n))) s).
Proof.
  revert i l. induction n as [|n IH]; intros i l Hb HP; cbn [for_up].
  - by rewrite seqZ_nil.
  - destruct (Hb i l ltac:(lia) HP) as [He HP'].
    rewrite (bind_done _ _ _ _ _ He), (IH (i + 1)) by (done || (intros; apply Hb; [lia|done])).
    rewrite (seqZ_cons i (Z.of_nat (Datatypes.S n))) by lia. cbn [foldl].
    by replace (Z.pred (Z.of_nat (Datatypes.S n))) with (Z.of_nat n) by lia.
Qed.

Lemma for_set dst P g body n l s :
  (forall j l', 0 <= j < Z.of_nat n -> P l' ->
     body j (set_arr dst l' s) = Done tt (set_arr dst (g j l') s) /\ P (g j l')) ->
  P l -> arrs s !! dst = Some l ->
  for_ 0 (Z.of_nat n) body s =
    Done tt (set_arr dst (foldl (fun l j => g j l) l (seqZ 0 (Z.of_nat n))) s).
Proof.
  intros Hb HP Hl. unfold for_. rewrite Z.sub_0_r, Nat2Z.id.
  rewrite <- (set_arr_id dst l s Hl) at 1. by eapply for_up_set.
Qed.

(** Loops over two arrays as folds over their pairs. *)
Lemma zip_seqZ (offs vals : list Z) n :
  length offs = n -> length vals = n ->
  zip offs vals =
    (fun i => (offs !!! Z.to_nat i, vals !!! Z.to_nat i)) <$> seqZ 0 (Z.of_nat n).
Proof.
  intros Ho Hv. apply list_eq. intros j. rewrite list_lookup_fmap.
  destruct (decide (j < n)%nat) as [Hj|Hj].
  - destruct (lookup_lt_is_Some_2 offs j) as [o Hoj]; [lia|].
    destruct (lookup_lt_is_Some_2 vals j) as [v Hvj]; [lia|].
    rewrite lookup_seqZ_lt by lia. cbn [fmap option_fmap option_map]. rewrite Z.add_0_l, Nat2Z.id.
    rewrite (list_lookup_total_correct _ _ _ Hoj), (list_lookup_total_correct _ _ _ Hvj).
    apply lookup_zip_with_Some. by exists o, v.
  - rewrite lookup_seqZ_ge by lia. simpl. apply lookup_ge_None. rewrite length_zip_with. lia.
Qed.

Lemma foldl_fmap {A B C} (f : A -> B -> A) (g : C -> B) a l :
  foldl f a (g <$> l) = foldl (fun a x => f a (g x)) a l.
Proof. revert a. induction l; intros; simpl; auto. Qed.

(** The same when a predicate skips some rounds. *)
Lemma foldl_selected {A} (f : A -> Z * Z -> A) a preds lanes :
  length preds = length lanes ->
  foldl f a (selected preds lanes) =
    foldl (fun a (x : bool * (Z * Z)) => if x.1 then f a x.2 else a) a (zip preds lanes).
Proof.
  revert a lanes. induction preds as [|b preds IH]; intros a [|x lanes] Hl; try done.
  rewrite selected_cons. cbn [zip zip_with foldl fst snd]. destruct b; cbn [foldl]; apply IH; simpl in Hl; lia.
Qed.

(** A loop that sets element [i] in round [i], where [b] does not skip it. *)
Definition set_if (b : Z -> bool) (x : Z -> Z) (l : list Z) (i : Z) : list Z :=
  if b i then <[Z.to_nat i := x i]> l else l.

Lemma set_if_length b x l js : length (foldl (set_if b x) l js) = length l.
Proof.
  revert l. induction js as [|i js IH]; intros l; [done|]. cbn [foldl]. rewrite IH.
  unfold set_if. destruct (b i); [apply length_insert|done].
Qed.

Lemma set_if_lookup b x l n j :
  (n <= length l)%nat ->
  foldl (set_if b x) l (seqZ 0 (Z.of_nat n)) !! j =
    if bool_decide (j < n)%nat && b (Z.of_nat j) then Some (x (Z.of_nat j)) else l !! j.
Proof.
  induction n as [|n IH]; intros Hn; [done|].
  rewrite seqZ_S, foldl_app. cbn [foldl]. unfold set_if at 1. rewrite Z.add_0_l, Nat2Z.id.
  destruct (decide (j = n)) as [->|Hne].
  - rewrite (bool_decide_eq_true_2 (n < Datatypes.S n)%nat) by lia. cbn [andb].
    destruct (b (Z.of_nat n)).
    + apply list_lookup_insert_eq. rewrite set_if_length. lia.
    + rewrite IH by lia. by rewrite bool_decide_eq_false_2 by lia.
  - assert (forall l', (if b (Z.of_nat n) then <[n := x (Z.of_nat n)]> l' else l') !! j = l' !! j) as ->.
    { intros l'. destruct (b (Z.of_nat n)); [|done]. by apply list_lookup_insert_ne. }
    rewrite IH by lia. by rewrite (bool_decide_ext (j < n)%nat (j < Datatypes.S n)%nat) by lia.
Qed.

(** The values a predicated gather along [offs] leaves. *)
Definition gather_vals (w : nat) (ls : list Z) (iv : Z) (bs : list bool) (offs : list Z) : list Z :=
  zip_with (gather_val w ls iv) bs offs.

Lemma set_if_gather w ls iv bs offs :
  length bs = 64%nat -> length offs = 64%nat ->
  foldl (set_if (fun i => bs !!! Z.to_nat i) (fun i => ls !!! elem w (offs !!! Z.to_nat i)))
    (replicate 64 iv) (seqZ 0 (Z.of_nat 64)) = gather_vals w ls iv bs offs.
Proof.
  intros Hb Ho. apply list_eq. intros j. rewrite set_if_lookup by (rewrite length_replicate; lia).
  unfold gather_vals. destruct (decide (j < 64)%nat) as [Hj|Hj].
  - destruct (lookup_lt_is_Some_2 bs j) as [b Hbj]; [lia|].
    destruct (lookup_lt_is_Some_2 offs j) as [o Hoj]; [lia|].
    rewrite bool_decide_eq_true_2, Nat2Z.id, (list_lookup_total_correct _ _ _ Hbj),
      (list_lookup_total_correct _ _ _ Hoj) by done.
    rewrite lookup_replicate_2 by lia.
    assert (zip_with (gather_val w ls iv) bs offs !! j = Some (gather_val w ls iv b o)) as ->
      by (apply lookup_zip_with_Some; by exists b, o).
    by destruct b.
  - rewrite bool_decide_eq_false_2 by done. cbn [andb].
    rewrite !lookup_ge_None_2; [done|rewrite length_zip_with; lia|rewrite length_replicate; lia].
Qed.

(* ------------------------------------------------------------------ *)
(** ** The scalar routines of one kind *)

(** The arrays and address variables of a kind of element and offset. *)
Record kind := Kind {
  kw : nat;
  k_off : string; k_val : string; k_acc : string; k_q : string; k_pred : string;
  k_sref : string; k_gref : string;
  k_saddr : string; k_gaddr : string;
  k_sptr : string; k_gptr : string
}.

Definition K16 : kind := Kind 2 "half_offsets" "half_values" "half_acc_values" "half_q_values"
  "half_predicates" "vscatter16_ref" "vgather16_ref"
  "VTCM_SCATTER16_ADDRESS" "VTCM_GATHER16_ADDRESS" "vscatter16" "vgather16".
Definition K32 : kind := Kind 4 "word_offsets" "word_values" "word_acc_values" "word_q_values"
  "word_predicates" "vscatter32_ref" "vgather32_ref"
  "VTCM_SCATTER32_ADDRESS" "VTCM_GATHER32_ADDRESS" "vscatter32" "vgather32".
Definition K16_32 : kind := Kind 2 "word_offsets" "half_values" "half_acc_values" "half_q_values"
  "half_predicates" "vscatter16_32_ref" "vgather16_32_ref"
  "VTCM_SCATTER16_32_ADDRESS" "VTCM_GATHER16_32_ADDRESS" "vscatter16_32" "vgather16_32".

Section generic.
Variable K : kind.
Abbreviation W := (Z.of_nat (kw K)).

Definition gen_scatter (dst : string) : prog vstate () :=
  for_ 0 MATRIX_SIZE (fun i =>
    o ← read_arr (k_off K) i; v ← read_arr (k_val K) i; write_arr dst (o / W) v).

Definition gen_acc (dst : string) : prog vstate () :=
  for_ 0 MATRIX_SIZE (fun i =>
    o ← read_arr (k_off K) i; v ← read_arr (k_acc K) i;
    old ← read_arr dst (o / W); write_arr dst (o / W) (uwrap (8 * W) (old + v))).

Definition gen_q (dst : string) : prog vstate () :=
  for_ 0 MATRIX_SIZE (fun i =>
    p ← read_arr (k_pred K) i;
    if truth p then
      o ← read_arr (k_off K) i; v ← read_arr (k_q K) i; write_arr dst (o / W) v
    else mret tt).

Definition gen_gather (dst : string) : prog vstate () :=
  for_ 0 MATRIX_SIZE (fun i =>
    o ← read_arr (k_off K) i; v ← read_vtcm (k_sptr K) W (o / W); write_arr dst i v).

Definition gen_gather_q (dst : string) : prog vstate () :=
  for_ 0 MATRIX_SIZE (fun i =>
    p ← read_arr (k_pred K) i;
    if truth p then
      o ← read_arr (k_off K) i; v ← read_vtcm (k_sptr K) W (o / W); write_arr dst i v
    else mret tt).

Definition gen_check (ptr ref : string) (size : Z) (name : string) : prog vstate () :=
  c ← read_ptr ptr; check_buffer name c W ref (size * W).
Definition gen_fill : prog vstate () := memset_arr (k_sref K) W FILL_CHAR SCATTER_BUFFER_SIZE.

(** The numbers of the kind: 64 lanes at the diagonal of the matrix. *)
Record data := Data { d_val : list Z; d_acc : list Z; d_q : list Z; d_pred : list Z }.

Definition diag : list Z := (fun i => W * (65 * i)) <$> seqZ 0 64.

Record data_ok (d : data) : Prop := {
  ok_val : length (d_val d) = 64%nat /\ elems_ok (kw K) (d_val d);
  ok_acc : length (d_acc d) = 64%nat /\ elems_ok (kw K) (d_acc d);
  ok_q : length (d_q d) = 64%nat /\ elems_ok (kw K) (d_q d);
  ok_pred : length (d_pred d) = 64%nat /\
            Forall (fun v => v = 0 \/ v = 2 ^ (8 * W) - 1) (d_pred d)
}.

(** The globals of the kind hold the data, and its pointers its regions. *)
Record kind_inv (d : data) (sb gb : Z) (s : vstate) : Prop := {
  ki_off : arrs s !! k_off K = Some diag;
  ki_val : arrs s !! k_val K = Some (d_val d);
  ki_acc : arrs s !! k_acc K = Some (d_acc d);
  ki_q : arrs s !! k_q K = Some (d_q d);
  ki_pred : arrs s !! k_pred K = Some (d_pred d);
  ki_saddr : ptrs s !! k_saddr K = Some sb;
  ki_gaddr : ptrs s !! k_gaddr K = Some gb;
  ki_sptr : ptrs s !! k_sptr K = Some sb;
  ki_gptr : ptrs s !! k_gptr K = Some gb
}.

Definition is_ref (a : string) : Prop := a = k_sref K \/ a = k_gref K.

Class kind_ok : Prop := {
  kw_ok : kw K = 2%nat \/ kw K = 4%nat;
  refs_fresh : Forall (fun a => ~ is_ref a) [k_off K; k_val K; k_acc K; k_q K; k_pred K];
  refs_differ : k_sref K <> k_gref K
}.

Context `{HK : kind_ok}.

Lemma diag_length : length diag = 64%nat.
Proof. unfold diag. by rewrite length_fmap, length_seqZ. Qed.

Lemma diag_lookup i : 0 <= i < 64 -> diag !!! Z.to_nat i = W * (65 * i).
Proof.
  intros Hi. apply list_lookup_total_correct. unfold diag. rewrite list_lookup_fmap.
  rewrite lookup_seqZ_lt by lia. cbn [fmap option_fmap option_map]. do 2 f_equal. lia.
Qed.

Lemma diag_index i : 0 <= i < 64 -> (diag !!! Z.to_nat i) / W = 65 * i.
Proof.
  intros Hi. rewrite diag_lookup by done. rewrite Z.mul_comm. apply Z.div_mul.
  destruct kw_ok as [-> | ->]; lia.
Qed.

Lemma kind_inv_arr d sb gb s a l :
  kind_inv d sb gb s -> is_ref a -> kind_inv d sb gb (set_arr a l s).
Proof.
  intros [] Ha. pose proof refs_fresh as Hf. rewrite !Forall_cons in Hf.
  destruct Hf as (H1 & H2 & H3 & H4 & H5 & _).
  split; try done; rewrite arrs_set_other; try done; intros ->; done.
Qed.

Lemma kind_inv_vm d sb gb s m : kind_inv d sb gb s -> kind_inv d sb gb (set_vm m s).
Proof. by intros []. Qed.

Section loops.
Context (d : data) (sb gb : Z) (s : vstate) (l : list Z) (dst : string).
Context (Hd : data_ok d) (HI : kind_inv d sb gb s) (Hdst : is_ref dst).
Context (Hl : arrs s !! dst = Some l).

Abbreviation n := SCATTER_BUFFER_SIZE.

Lemma inv_at l' : kind_inv d sb gb (set_arr dst l' s).
Proof. by apply kind_inv_arr. Qed.

Lemma read_off i l' : 0 <= i < 64 ->
  read_arr (k_off K) i (set_arr dst l' s) = Done (diag !!! Z.to_nat i) (set_arr dst l' s).
Proof. intros. apply read_arr_eq; [apply (inv_at l')|by rewrite diag_length]. Qed.

Lemma read_vals i l' : 0 <= i < 64 ->
  read_arr (k_val K) i (set_arr dst l' s) = Done (d_val d !!! Z.to_nat i) (set_arr dst l' s).
Proof. intros. apply read_arr_eq; [apply (inv_at l')|by rewrite (proj1 (ok_val _ Hd))]. Qed.

Lemma read_accs i l' : 0 <= i < 64 ->
  read_arr (k_acc K) i (set_arr dst l' s) = Done (d_acc d !!! Z.to_nat i) (set_arr dst l' s).
Proof. intros. apply read_arr_eq; [apply (inv_at l')|by rewrite (proj1 (ok_acc _ Hd))]. Qed.

Lemma read_qs i l' : 0 <= i < 64 ->
  read_arr (k_q K) i (set_arr dst l' s) = Done (d_q d !!! Z.to_nat i) (set_arr dst l' s).
Proof. intros. apply read_arr_eq; [apply (inv_at l')|by rewrite (proj1 (ok_q _ Hd))]. Qed.

Lemma read_preds i l' : 0 <= i < 64 ->
  read_arr (k_pred K) i (set_arr dst l' s) = Done (d_pred d !!! Z.to_nat i) (set_arr dst l' s).
Proof. intros. apply read_arr_eq; [apply (inv_at l')|by rewrite (proj1 (ok_pred _ Hd))]. Qed.

(** Reading and writing the element an offset of the diagonal selects. *)
Lemma read_elem i l' : 0 <= i < 64 -> Z.of_nat (length l') = n ->
  read_arr dst (diag !!! Z.to_nat i / W) (set_arr dst l' s) =
    Done (l' !!! elem (kw K) (diag !!! Z.to_nat i)) (set_arr dst l' s).
Proof.
  intros Hi Hn. apply read_arr_eq; [apply arrs_set_same|].
  rewrite diag_index by done. change n with 4096 in *. lia.
Qed.

Lemma write_elem i v l' : 0 <= i < 64 -> Z.of_nat (length l') = n ->
  write_arr dst (diag !!! Z.to_nat i / W) v (set_arr dst l' s) =
    Done tt (set_arr dst (<[elem (kw K) (diag !!! Z.to_nat i) := v]> l') s).
Proof.
  intros Hi Hn. rewrite (write_arr_eq _ l'), set_arr_set; [done|apply arrs_set_same|].
  rewrite diag_index by done. change n with 4096 in *. lia.
Qed.

Ltac run_with lem := rewrite (bind_done _ _ _ _ _ lem); cbv beta.

Lemma gen_scatter_eq :
  Z.of_nat (length l) = n ->
  gen_scatter dst s = Done tt (set_arr dst (foldl (put (kw K)) l (zip diag (d_val d))) s).
Proof.
  intros Hn. unfold gen_scatter. change MATRIX_SIZE with (Z.of_nat 64).
  rewrite (zip_seqZ diag (d_val d) 64), foldl_fmap by (apply diag_length || apply Hd).
  apply (for_set dst (fun l' => Z.of_nat (length l') = n)
    (fun i l => put (kw K) l (diag !!! Z.to_nat i, d_val d !!! Z.to_nat i))); [|done|done].
  intros i l' Hi Hl'. run_with (read_off i l' Hi). run_with (read_vals i l' Hi).
  rewrite write_elem by done. split; [done|]. unfold put. by rewrite length_insert.
Qed.

Lemma gen_acc_eq :
  Z.of_nat (length l) = n ->
  gen_acc dst s = Done tt (set_arr dst (foldl (put_acc (kw K)) l (zip diag (d_acc d))) s).
Proof.
  intros Hn. unfold gen_acc. change MATRIX_SIZE with (Z.of_nat 64).
  rewrite (zip_seqZ diag (d_acc d) 64), foldl_fmap by (apply diag_length || apply Hd).
  apply (for_set dst (fun l' => Z.of_nat (length l') = n)
    (fun i l => put_acc (kw K) l (diag !!! Z.to_nat i, d_acc d !!! Z.to_nat i))); [|done|done].
  intros i l' Hi Hl'. run_with (read_off i l' Hi). run_with (read_accs i l' Hi).
  run_with (read_elem i l' Hi Hl'). rewrite write_elem by done. split; [done|].
  unfold put_acc. by rewrite length_insert.
Qed.

Lemma gen_q_eq :
  Z.of_nat (length l) = n ->
  gen_q dst s =
    Done tt (set_arr dst (foldl (put (kw K)) l
      (selected ((fun v => truth v) <$> d_pred d) (zip diag (d_q d)))) s).
Proof.
  intros Hn. unfold gen_q. change MATRIX_SIZE with (Z.of_nat 64).
  pose proof diag_length. pose proof (proj1 (ok_q _ Hd)). pose proof (proj1 (ok_pred _ Hd)).
  rewrite foldl_selected by (rewrite length_fmap, length_zip_with; lia).
  rewrite (zip_seqZ diag (d_q d) 64) by done.
  assert (zip ((fun v => truth v) <$> d_pred d)
    ((fun i => (diag !!! Z.to_nat i, d_q d !!! Z.to_nat i)) <$> seqZ 0 (Z.of_nat 64)) =
    (fun i => (truth (d_pred d !!! Z.to_nat i), (diag !!! Z.to_nat i, d_q d !!! Z.to_nat i)))
      <$> seqZ 0 (Z.of_nat 64)) as ->.
  { apply list_eq. intros j. destruct (decide (j < 64)%nat) as [Hj|Hj].
    - destruct (lookup_lt_is_Some_2 (d_pred d) j) as [v Hv]; [lia|].
      rewrite list_lookup_fmap, lookup_seqZ_lt by lia. cbn [fmap option_fmap option_map].
      apply lookup_zip_with_Some. eexists _, _. split; [reflexivity|].
      rewrite Z.add_0_l, Nat2Z.id, !list_lookup_fmap, Hv, lookup_seqZ_lt by lia.
      cbn [fmap option_fmap option_map]. rewrite Z.add_0_l, Nat2Z.id.
      by rewrite (list_lookup_total_correct _ _ _ Hv).
    - rewrite !lookup_ge_None_2; [done|..]; rewrite ?length_zip_with, ?length_fmap, ?length_seqZ; lia. }
  rewrite foldl_fmap.
  apply (for_set dst (fun l' => Z.of_nat (length l') = n)
    (fun i l => if truth (d_pred d !!! Z.to_nat i)
                then put (kw K) l (diag !!! Z.to_nat i, d_q d !!! Z.to_nat i) else l)); [|done|done].
  intros i l' Hi Hl'. run_with (read_preds i l' Hi).
  destruct (truth (d_pred d !!! Z.to_nat i)); [|done].
  run_with (read_off i l' Hi). run_with (read_qs i l' Hi).
  rewrite write_elem by done. split; [done|]. unfold put. by rewrite length_insert.
Qed.
End loops.

(** The gathers read the scatter region through its pointer. *)
Section gathers.
Context (d : data) (sb gb : Z) (s : vstate) (ls : list Z) (iv : Z) (dst : string).
Context (Hd : data_ok d) (HI : kind_inv d sb gb s) (Hdst : is_ref dst).
Context (Hl : arrs s !! dst = Some (replicate 64 iv)).
Context (Ha : array (kw K) (vm s) sb ls) (Hls : elems_ok (kw K) ls)
        (Hn : Z.of_nat (length ls) = SCATTER_BUFFER_SIZE).

Ltac run_with lem := rewrite (bind_done _ _ _ _ _ lem); cbv beta.

Lemma read_source i l' : 0 <= i < 64 ->
  read_vtcm (k_sptr K) W (diag !!! Z.to_nat i / W) (set_arr dst l' s) =
    Done (ls !!! elem (kw K) (diag !!! Z.to_nat i)) (set_arr dst l' s).
Proof.
  intros Hi. unfold read_vtcm.
  run_with (read_ptr_eq (k_sptr K) sb (set_arr dst l' s) (ki_sptr _ _ _ _ HI)).
  unfold gets. f_equal. rewrite Nat2Z.id. cbn [vm set_arr].
  rewrite diag_index by done. unfold elem. rewrite diag_index by done.
  change SCATTER_BUFFER_SIZE with 4096 in Hn.
  destruct (lookup_lt_is_Some_2 ls (Z.to_nat (65 * i))) as [v Hv]; [lia|].
  rewrite (list_lookup_total_correct _ _ _ Hv).
  rewrite <- (array_load (kw K) (vm s) sb ls (Z.to_nat (65 * i)) v) by done.
  by rewrite Z2Nat.id by lia.
Qed.

Lemma write_at i v l' : 0 <= i < 64 -> length l' = 64%nat ->
  write_arr dst i v (set_arr dst l' s) = Done tt (set_arr dst (<[Z.to_nat i := v]> l') s).
Proof.
  intros Hi Hl'. rewrite (write_arr_eq _ l'), set_arr_set; [done|apply arrs_set_same|lia].
Qed.

Lemma gen_gather_eq :
  gen_gather dst s = Done tt (set_arr dst (gather_vals (kw K) ls iv (replicate 64 true) diag) s).
Proof.
  unfold gen_gather. change MATRIX_SIZE with (Z.of_nat 64).
  rewrite <- set_if_gather by (done || apply diag_length).
  apply (for_set dst (fun l' => length l' = 64%nat)
    (fun i l => set_if (fun i => replicate 64 true !!! Z.to_nat i)
       (fun i => ls !!! elem (kw K) (diag !!! Z.to_nat i)) l i)); [|done|done].
  intros i l' Hi Hl'. unfold set_if.
  assert (replicate 64 true !!! Z.to_nat i = true) as ->
    by (apply list_lookup_total_correct, lookup_replicate_2; lia).
  run_with (read_off d sb gb s dst HI Hdst i l' Hi).
  run_with (read_source i l' Hi). rewrite write_at by done. split; [done|]. by rewrite length_insert.
Qed.

Lemma gen_gather_q_eq :
  gen_gather_q dst s = Done tt (set_arr dst
    (gather_vals (kw K) ls iv ((fun v => truth v) <$> d_pred d) diag) s).
Proof.
  pose proof (proj1 (ok_pred _ Hd)) as Hpl.
  unfold gen_gather_q. change MATRIX_SIZE with (Z.of_nat 64).
  rewrite <- set_if_gather by (apply diag_length || by rewrite length_fmap).
  apply (for_set dst (fun l' => length l' = 64%nat)
    (fun i l => set_if (fun i => ((fun v => truth v) <$> d_pred d) !!! Z.to_nat i)
       (fun i => ls !!! elem (kw K) (diag !!! Z.to_nat i)) l i)); [|done|done].
  intros i l' Hi Hl'. unfold set_if.
  assert (((fun v => truth v) <$> d_pred d) !!! Z.to_nat i = truth (d_pred d !!! Z.to_nat i)) as ->
    by (apply list_lookup_total_fmap; lia).
  run_with (read_preds d sb gb s dst Hd HI Hdst i l' Hi).
  destruct (truth (d_pred d !!! Z.to_nat i)); [|done].
  run_with (read_off d sb gb s dst HI Hdst i l' Hi).
  run_with (read_source i l' Hi). rewrite write_at by done. split; [done|]. by rewrite length_insert.
Qed.
End gathers.

(** A comparison of a region that holds the reference array finds nothing. *)
Lemma check_buffer_ok name c r l s :
  arrs s !! r = Some l -> array (kw K) (vm s) c l ->
  check_buffer name c W r (Z.of_nat (length l) * W) s = Done tt s.
Proof.
  intros Hr Ha. assert (0 < W) as HW by (destruct kw_ok as [-> | ->]; lia).
  unfold check_buffer, for_. rewrite Z.sub_0_r.
  assert (forall m i, 0 <= i -> i + Z.of_nat m <= Z.of_nat (length l) * W ->
    for_up m i (fun i =>
      check ← gets (fun s => mget (vm s) (c + i)); l ← read_all r;
      ref ← of_option (array_byte W i l);
      if negb (check =? ref) then modify (add_report (name, i, check, ref)) else mret tt) s =
    Done tt s) as Hloop; [|apply Hloop; lia].
  induction m as [|m IH]; intros i Hi Hle; cbn [for_up]; [done|].
  rewrite (bind_done _ _ _ tt s); [apply IH; lia|].
  unfold gets at 1, mbind at 1, prog_bind at 1.
  rewrite (bind_done _ _ _ _ _ (read_all_eq r l s Hr)).
  assert (0 <= i / W < Z.of_nat (length l)) as Hq
    by (split; [apply Z.div_pos; lia|apply Z.div_lt_upper_bound; lia]).
  destruct (lookup_lt_is_Some_2 l (Z.to_nat (i / W))) as [v Hv]; [lia|].
  unfold array_byte. rewrite lookupZ_spec, Hv by lia. cbn [mbind option_bind of_option mret prog_ret].
  unfold mbind, prog_bind. cbn [mret prog_ret].
  assert (mget (vm s) (c + i) = byte_of v (i mod W)) as ->; [|by rewrite Z.eqb_refl].
  pose proof (Z.div_mod i W ltac:(lia)). pose proof (Z.mod_pos_bound i W HW).
  rewrite <- (Ha _ v (i mod W) Hv) by done. f_equal. rewrite Z2Nat.id by lia. lia.
Qed.

(** The buffers the run goes through. *)
Section buffers.
Variable d : data.

Definition fill_elem : Z := repeat_letter (8 * W) W FILL_CHAR.
Definition buf0 : list Z := replicate (Z.to_nat SCATTER_BUFFER_SIZE) fill_elem.
Definition buf1 : list Z := foldl (put (kw K)) buf0 (zip diag (d_val d)).
Definition buf2 : list Z := foldl (put_acc (kw K)) buf1 (zip diag (d_acc d)).
Definition mask : list bool := (fun v => truth v) <$> d_pred d.
Definition buf3 : list Z := foldl (put (kw K)) buf2 (selected mask (zip diag (d_q d))).

Lemma put_length l lanes : length (foldl (put (kw K)) l lanes) = length l.
Proof.
  revert l. induction lanes as [|x lanes IH]; intros l; [done|]. cbn [foldl]. rewrite IH.
  apply length_insert.
Qed.

Lemma put_acc_length l lanes : length (foldl (put_acc (kw K)) l lanes) = length l.
Proof.
  revert l. induction lanes as [|x lanes IH]; intros l; [done|]. cbn [foldl]. rewrite IH.
  apply length_insert.
Qed.

Lemma put_elems l lanes :
  elems_ok (kw K) l -> elems_ok (kw K) lanes.*2 -> elems_ok (kw K) (foldl (put (kw K)) l lanes).
Proof.
  revert l. induction lanes as [|x lanes IH]; intros l Hl Hv; [done|]. cbn [foldl].
  cbn [fmap list_fmap] in Hv. apply Forall_cons in Hv as [Hx Hv].
  apply IH; [|done]. by apply Forall_insert.
Qed.

Lemma fill_elem_byte k : 0 <= k < W -> byte_of fill_elem k = FILL_CHAR.
Proof.
  unfold fill_elem. destruct kw_ok as [-> | ->]; intros Hk.
  - assert (k = 0 \/ k = 1) as [-> | ->] by lia; done.
  - assert (k = 0 \/ k = 1 \/ k = 2 \/ k = 3) as [-> | [-> | [-> | ->]]] by lia; done.
Qed.

Lemma fill_elem_range : 0 <= fill_elem < 256 ^ W.
Proof. unfold fill_elem. destruct kw_ok as [-> | ->]; split; vm_compute; congruence. Qed.

Lemma buf0_length : Z.of_nat (length buf0) = SCATTER_BUFFER_SIZE.
Proof. unfold buf0. rewrite length_replicate. by rewrite Z2Nat.id. Qed.

Lemma buf0_array m a :
  (forall b, a <= b < a + W * SCATTER_BUFFER_SIZE -> mget m b = FILL_CHAR) -> array (kw K) m a buf0.
Proof.
  intros Hm i v k [-> Hi]%lookup_replicate Hk. rewrite fill_elem_byte by done. apply Hm.
  change SCATTER_BUFFER_SIZE with 4096 in *. nia.
Qed.

Lemma buf1_length : Z.of_nat (length buf1) = SCATTER_BUFFER_SIZE.
Proof. unfold buf1. rewrite put_length. apply buf0_length. Qed.

Lemma buf2_length : Z.of_nat (length buf2) = SCATTER_BUFFER_SIZE.
Proof. unfold buf2. rewrite put_acc_length. apply buf1_length. Qed.

Lemma buf3_length : Z.of_nat (length buf3) = SCATTER_BUFFER_SIZE.
Proof. unfold buf3. rewrite put_length. apply buf2_length. Qed.

Lemma buf1_elems : data_ok d -> elems_ok (kw K) buf1.
Proof.
  intros Hd. unfold buf1. apply put_elems.
  - apply Forall_replicate, fill_elem_range.
  - rewrite snd_zip; [apply Hd|]. rewrite diag_length. by rewrite (proj1 (ok_val _ Hd)).
Qed.
End buffers.

(** The comparisons after each vector routine. *)
Section checks.
Context (d : data) (sb gb : Z) (s : vstate).
Context (Hd : data_ok d) (HI : kind_inv d sb gb s).

Lemma sref_is_ref : is_ref (k_sref K). Proof. by left. Qed.
Lemma gref_is_ref : is_ref (k_gref K). Proof. by right. Qed.

Ltac run_with lem := rewrite (bind_done _ _ _ _ _ lem); cbv beta.

Lemma gen_check_ok name l sz :
  Z.of_nat (length l) = sz -> array (kw K) (vm s) sb l ->
  gen_check (k_sptr K) (k_sref K) sz name (set_arr (k_sref K) l s) = Done tt (set_arr (k_sref K) l s).
Proof.
  intros Hl Ha. unfold gen_check.
  run_with (read_ptr_eq (k_sptr K) sb (set_arr (k_sref K) l s) (ki_sptr _ _ _ _ HI)).
  rewrite <- Hl. apply check_buffer_ok; [apply arrs_set_same|done].
Qed.

Lemma gen_check_g_ok name l sz :
  Z.of_nat (length l) = sz -> array (kw K) (vm s) gb l ->
  gen_check (k_gptr K) (k_gref K) sz name (set_arr (k_gref K) l s) = Done tt (set_arr (k_gref K) l s).
Proof.
  intros Hl Ha. unfold gen_check.
  run_with (read_ptr_eq (k_gptr K) gb (set_arr (k_gref K) l s) (ki_gptr _ _ _ _ HI)).
  rewrite <- Hl. apply check_buffer_ok; [apply arrs_set_same|done].
Qed.

Lemma fill_then {A} (k : () -> prog vstate A) : (gen_fill ≫= k) s = k tt (set_arr (k_sref K) buf0 s).
Proof. done. Qed.

Lemma scatter_then {A} (k : () -> prog vstate A) :
  (gen_scatter (k_sref K) ≫= k) (set_arr (k_sref K) buf0 s) = k tt (set_arr (k_sref K) (buf1 d) s).
Proof.
  rewrite (bind_done _ _ _ _ _ (gen_scatter_eq d sb gb _ buf0 _ Hd
    (kind_inv_arr _ _ _ _ _ _ HI sref_is_ref) sref_is_ref (arrs_set_same _ _ _) buf0_length)).
  by rewrite set_arr_set.
Qed.

Lemma acc_then {A} (k : () -> prog vstate A) :
  (gen_acc (k_sref K) ≫= k) (set_arr (k_sref K) (buf1 d) s) = k tt (set_arr (k_sref K) (buf2 d) s).
Proof.
  rewrite (bind_done _ _ _ _ _ (gen_acc_eq d sb gb _ (buf1 d) _ Hd
    (kind_inv_arr _ _ _ _ _ _ HI sref_is_ref) sref_is_ref (arrs_set_same _ _ _) (buf1_length d))).
  by rewrite set_arr_set.
Qed.

Lemma q_then {A} (k : () -> prog vstate A) :
  (gen_q (k_sref K) ≫= k) (set_arr (k_sref K) (buf2 d) s) = k tt (set_arr (k_sref K) (buf3 d) s).
Proof.
  rewrite (bind_done _ _ _ _ _ (gen_q_eq d sb gb _ (buf2 d) _ Hd
    (kind_inv_arr _ _ _ _ _ _ HI sref_is_ref) sref_is_ref (arrs_set_same _ _ _) (buf2_length d))).
  by rewrite set_arr_set.
Qed.
End checks.

(** ** The vector routines of a kind, as the scalar ones see them *)

(** The byte-splatted value the predicated gathers start from. *)
Definition splat_elem (w : nat) : Z := repeat_letter (8 * Z.of_nat w) (Z.of_nat w) 63.

Record vec_ops := VecOps {
  v_scatter : prog vstate (); v_gather : prog vstate (); v_gather_q : prog vstate ();
  v_acc : prog vstate (); v_q : prog vstate ()
}.

(** A routine changes VTCM only, in one region, to hold the array given. *)
Definition leaves (p : prog vstate ()) (s : vstate) (w : nat) (a : Z) (l : list Z) : Prop :=
  exists m, p s = Done tt (set_vm m s) /\ array w m a l /\
    same_outside w a (Z.of_nat (length l)) (vm s) m.

Class vec_laws (v : vec_ops) : Prop := {
  scatter_leaves d sb gb s l :
    data_ok d -> kind_inv d sb gb s -> array (kw K) (vm s) sb l ->
    Z.of_nat (length l) = SCATTER_BUFFER_SIZE ->
    leaves (v_scatter v) s (kw K) sb (foldl (put (kw K)) l (zip diag (d_val d)));
  acc_leaves d sb gb s l :
    data_ok d -> kind_inv d sb gb s -> array (kw K) (vm s) sb l -> elems_ok (kw K) l ->
    Z.of_nat (length l) = SCATTER_BUFFER_SIZE ->
    leaves (v_acc v) s (kw K) sb (foldl (put_acc (kw K)) l (zip diag (d_acc d)));
  q_leaves d sb gb s l :
    data_ok d -> kind_inv d sb gb s -> array (kw K) (vm s) sb l ->
    Z.of_nat (length l) = SCATTER_BUFFER_SIZE ->
    leaves (v_q v) s (kw K) sb (foldl (put (kw K)) l (selected (mask d) (zip diag (d_q d))));
  gather_leaves d sb gb s l iv :
    data_ok d -> kind_inv d sb gb s -> array (kw K) (vm s) sb l -> elems_ok (kw K) l ->
    Z.of_nat (length l) = SCATTER_BUFFER_SIZE ->
    gb = sb + W * SCATTER_BUFFER_SIZE -> 0 <= gb -> gb + W * 64 <= 2 ^ 32 ->
    leaves (v_gather v) s (kw K) gb (gather_vals (kw K) l iv (replicate 64 true) diag);
  gather_q_leaves d sb gb s l :
    data_ok d -> kind_inv d sb gb s -> array (kw K) (vm s) sb l -> elems_ok (kw K) l ->
    Z.of_nat (length l) = SCATTER_BUFFER_SIZE ->
    gb = sb + W * SCATTER_BUFFER_SIZE -> 0 <= gb -> gb + W * 64 <= 2 ^ 32 ->
    leaves (v_gather_q v) s (kw K) gb (gather_vals (kw K) l (splat_elem (kw K)) (mask d) diag)
}.

(** What a run leaves alone: everything but the reference arrays and the VTCM
    bytes from [lo] to [hi]; in particular nothing is reported. *)
Record frame (lo hi : Z) (s s' : vstate) : Prop := {
  fr_err : verr s' = verr s;
  fr_rep : vreports s' = vreports s;
  fr_ptrs : ptrs s' = ptrs s;
  fr_sys : vsys s' = vsys s;
  fr_arrs : forall a, ~ is_ref a -> arrs s' !! a = arrs s !! a;
  fr_mem : forall b, ~ (lo <= b < hi) -> mget (vm s') b = mget (vm s) b
}.

Lemma frame_refl lo hi s : frame lo hi s s.
Proof. by split. Qed.

Lemma frame_trans lo hi s1 s2 s3 : frame lo hi s1 s2 -> frame lo hi s2 s3 -> frame lo hi s1 s3.
Proof.
  intros [] []. split; try congruence.
  - intros a Ha. by rewrite fr_arrs1, fr_arrs0.
  - intros b Hb. by rewrite fr_mem1, fr_mem0.
Qed.

Lemma frame_arr lo hi s a l : is_ref a -> frame lo hi s (set_arr a l s).
Proof.
  intros Ha. split; try done. intros b Hb. apply arrs_set_other. by intros ->.
Qed.

Lemma frame_vm lo hi s m :
  (forall b, ~ (lo <= b < hi) -> mget m b = mget (vm s) b) -> frame lo hi s (set_vm m s).
Proof. by split. Qed.

Lemma frame_inv lo hi d sb gb s s' :
  frame lo hi s s' -> kind_inv d sb gb s -> kind_inv d sb gb s'.
Proof.
  intros F []. pose proof refs_fresh as Hf. rewrite !Forall_cons in Hf.
  destruct Hf as (H1 & H2 & H3 & H4 & H5 & _).
  split; try (by rewrite (fr_arrs _ _ _ _ F)); by rewrite (fr_ptrs _ _ _ _ F).
Qed.

Section run.
Context (v : vec_ops) `{HV : !vec_laws v} (d : data) (sb gb : Z).
Context (Hd : data_ok d).
Context (Hgb : gb = sb + W * SCATTER_BUFFER_SIZE) (Hgb0 : 0 <= gb) (Hend : gb + W * 64 <= 2 ^ 32).

Definition gen_run (n1 n2 n3 n4 n5 : string) : prog vstate () :=
  v_scatter v;;
  (gen_fill;; gen_scatter (k_sref K);; gen_check (k_sptr K) (k_sref K) SCATTER_BUFFER_SIZE n1);;
  v_gather v;;
  (memset_arr (k_gref K) W 0 MATRIX_SIZE;; gen_gather (k_gref K);;
   gen_check (k_gptr K) (k_gref K) MATRIX_SIZE n2);;
  v_gather_q v;;
  (memset_arr (k_gref K) W 63 MATRIX_SIZE;; gen_gather_q (k_gref K);;
   gen_check (k_gptr K) (k_gref K) MATRIX_SIZE n3);;
  v_acc v;;
  (gen_fill;; gen_scatter (k_sref K);; gen_acc (k_sref K);;
   gen_check (k_sptr K) (k_sref K) SCATTER_BUFFER_SIZE n4);;
  v_q v;;
  (gen_fill;; gen_scatter (k_sref K);; gen_acc (k_sref K);; gen_q (k_sref K);;
   gen_check (k_sptr K) (k_sref K) SCATTER_BUFFER_SIZE n5).

Definition hi : Z := gb + W * 64.

(** A stage: it ends normally, changes only what the run may change, and
    leaves the scatter region holding [l']. *)
Definition stage (p : prog vstate ()) (l l' : list Z) : Prop :=
  forall s, kind_inv d sb gb s -> array (kw K) (vm s) sb l ->
  exists s', p s = Done tt s' /\ frame sb hi s s' /\ array (kw K) (vm s') sb l'.

Lemma stage_seq p q l1 l2 l3 : stage p l1 l2 -> stage q l2 l3 -> stage (p;; q) l1 l3.
Proof.
  intros Hp Hq s HI Ha. destruct (Hp s HI Ha) as (s1 & E1 & F1 & A1).
  destruct (Hq s1 (frame_inv _ _ _ _ _ _ _ F1 HI) A1) as (s2 & E2 & F2 & A2).
  exists s2. split_and!; [|by eapply frame_trans|done]. by rewrite (bind_done _ _ _ _ _ E1).
Qed.

Lemma stage_leaves p l l' :
  (forall s, kind_inv d sb gb s -> array (kw K) (vm s) sb l -> leaves p s (kw K) sb l') ->
  Z.of_nat (length l') = SCATTER_BUFFER_SIZE -> stage p l l'.
Proof.
  intros Hp Hl s HI Ha. destruct (Hp s HI Ha) as (m & E & A & O). exists (set_vm m s).
  split_and!; [done| |done]. apply frame_vm. intros b Hb. apply O. unfold hi in Hb. rewrite Hl.
  destruct kw_ok as [Hk|Hk]; rewrite Hk in *; lia.
Qed.

(** A vector routine, its check and the rest of the run. *)
Lemma stage_seq2 (p c r : prog vstate ()) l1 l2 l3 : stage (p;; c) l1 l2 -> stage r l2 l3 -> stage (p;; c;; r) l1 l3.
Proof.
  intros Hp Hr s HI Ha. destruct (stage_seq _ _ _ _ _ Hp Hr s HI Ha) as (s' & E & HF).
  exists s'. split; [|done]. rewrite <- E. symmetry. apply prog_bind_assoc.
Qed.

(** A check that rebuilds [l] in the reference array finds it in the region. *)
Lemma stage_check (c : prog vstate ()) name l :
  Z.of_nat (length l) = SCATTER_BUFFER_SIZE ->
  (forall s, kind_inv d sb gb s ->
     c s = gen_check (k_sptr K) (k_sref K) SCATTER_BUFFER_SIZE name (set_arr (k_sref K) l s)) ->
  stage c l l.
Proof.
  intros Hl Hc s HI Ha. exists (set_arr (k_sref K) l s). split_and!; [| |done].
  - rewrite Hc by done. by apply (gen_check_ok d sb gb s).
  - apply frame_arr, sref_is_ref.
Qed.

(** A gather stage with its comparison leaves the scatter region alone. *)
Lemma stage_gather (p q : prog vstate ()) l g iv name c :
  (forall s, kind_inv d sb gb s -> array (kw K) (vm s) sb l -> leaves p s (kw K) gb g) ->
  length g = 64%nat -> Z.of_nat (length l) = SCATTER_BUFFER_SIZE ->
  (forall s, kind_inv d sb gb s -> array (kw K) (vm s) sb l ->
     arrs s !! k_gref K = Some (replicate 64 iv) ->
     q s = Done tt (set_arr (k_gref K) g s)) ->
  memset_arr (k_gref K) W c MATRIX_SIZE = modify (set_arr (k_gref K) (replicate 64 iv)) ->
  stage (p;; memset_arr (k_gref K) W c MATRIX_SIZE;; q;;
         gen_check (k_gptr K) (k_gref K) MATRIX_SIZE name) l l.
Proof.
  intros Hp Hg Hl Hq Hms s HI Ha. destruct (Hp s HI Ha) as (m & E & A & O).
  set (s1 := set_vm m s).
  assert (array (kw K) m sb l) as Ha1.
  { apply (array_ext (kw K) (vm s)); [|done]. intros b Hb. symmetry. apply O. rewrite Hg, Hgb, Hl in *.
    destruct kw_ok as [Hk|Hk]; rewrite Hk in *; lia. }
  exists (set_arr (k_gref K) g s1). split_and!; [| |done].
  - rewrite (bind_done _ _ _ _ _ E), Hms. fold s1. unfold modify at 1, mbind at 1, prog_bind at 1.
    set (s2 := set_arr (k_gref K) (replicate 64 iv) s1).
    assert (kind_inv d sb gb s2) as HI2 by (apply kind_inv_arr; [by apply kind_inv_vm|apply gref_is_ref]).
    rewrite (bind_done _ _ _ _ _ (Hq s2 HI2 Ha1 (arrs_set_same _ _ _))).
    unfold s2. rewrite set_arr_set.
    apply (gen_check_g_ok d sb gb s1); [by apply kind_inv_vm|by rewrite Hg|done].
  - eapply frame_trans; [|by apply frame_arr, gref_is_ref]. apply frame_vm.
    intros b Hb. apply O. unfold hi in Hb. rewrite Hg, Hgb in *. lia.
Qed.

Lemma mask_length : length (mask d) = 64%nat.
Proof. unfold mask. rewrite length_fmap. apply Hd. Qed.

Lemma buf1_region : stage (v_scatter v) buf0 (buf1 d).
Proof.
  apply stage_leaves; [|apply buf1_length]. intros s HI Ha.
  apply (scatter_leaves d sb gb); [done..|apply buf0_length].
Qed.

Lemma buf2_region : stage (v_acc v) (buf1 d) (buf2 d).
Proof.
  apply stage_leaves; [|apply buf2_length]. intros s HI Ha.
  apply (acc_leaves d sb gb); [done..|by apply buf1_elems|apply buf1_length].
Qed.

Lemma buf3_region : stage (v_q v) (buf2 d) (buf3 d).
Proof.
  apply stage_leaves; [|apply buf3_length]. intros s HI Ha.
  apply (q_leaves d sb gb); [done..|apply buf2_length].
Qed.

Lemma gather_region (q q' : prog vstate ()) l iv bs c name :
  elems_ok (kw K) l -> Z.of_nat (length l) = SCATTER_BUFFER_SIZE -> length bs = 64%nat ->
  (forall s, kind_inv d sb gb s -> array (kw K) (vm s) sb l ->
     leaves q s (kw K) gb (gather_vals (kw K) l iv bs diag)) ->
  (forall s, kind_inv d sb gb s -> array (kw K) (vm s) sb l ->
     arrs s !! k_gref K = Some (replicate 64 iv) ->
     q' s = Done tt (set_arr (k_gref K) (gather_vals (kw K) l iv bs diag) s)) ->
  memset_arr (k_gref K) W c MATRIX_SIZE = modify (set_arr (k_gref K) (replicate 64 iv)) ->
  stage (q;; memset_arr (k_gref K) W c MATRIX_SIZE;; q';;
         gen_check (k_gptr K) (k_gref K) MATRIX_SIZE name) l l.
Proof.
  intros He Hl Hbs Hq Hq' Hms.
  apply (stage_gather q q' l (gather_vals (kw K) l iv bs diag) iv); try done.
  unfold gather_vals. rewrite length_zip_with, Hbs, diag_length. done.
Qed.

(** The whole run of a kind, started on a region full of [FILL_CHAR]. *)
Lemma gen_run_stage n1 n2 n3 n4 n5 : stage (gen_run n1 n2 n3 n4 n5) buf0 (buf3 d).
Proof.
  pose proof (buf1_elems d Hd) as He. pose proof (buf1_length d) as Hl.
  unfold gen_run.
  apply (stage_seq2 _ _ _ _ (buf1 d)).
  { apply (stage_seq _ _ _ (buf1 d)); [apply buf1_region|].
    apply (stage_check _ n1); [done|]. intros s HI.
    by rewrite fill_then, (scatter_then d sb gb s Hd HI). }
  apply (stage_seq2 _ _ _ _ (buf1 d)).
  { apply (gather_region _ _ _ 0 (replicate 64 true)); [done|done|done| | |].
    - intros s HI Ha. by apply (gather_leaves d sb gb).
    - intros s HI Ha Hr. apply (gen_gather_eq d sb gb s (buf1 d) 0); done || apply gref_is_ref.
    - unfold memset_arr. by destruct kw_ok as [-> | ->]. }
  apply (stage_seq2 _ _ _ _ (buf1 d)).
  { apply (gather_region _ _ _ (splat_elem (kw K)) (mask d)); [done|done|apply mask_length| | |done].
    - intros s HI Ha. by apply (gather_q_leaves d sb gb).
    - intros s HI Ha Hr. apply (gen_gather_q_eq d sb gb s (buf1 d) (splat_elem (kw K)));
        done || apply gref_is_ref. }
  apply (stage_seq2 _ _ _ _ (buf2 d)).
  { apply (stage_seq _ _ _ (buf2 d)); [apply buf2_region|].
    apply (stage_check _ n4); [apply buf2_length|]. intros s HI.
    by rewrite fill_then, (scatter_then d sb gb s Hd HI), (acc_then d sb gb s Hd HI). }
  apply (stage_seq _ _ _ (buf3 d)); [apply buf3_region|].
  apply (stage_check _ n5); [apply buf3_length|]. intros s HI.
  by rewrite fill_then, (scatter_then d sb gb s Hd HI), (acc_then d sb gb s Hd HI),
    (q_then d sb gb s Hd HI).
Qed.
End run.

End generic.
