(* ===== verification/ScatterKinds.v ===== *)
(** The three kinds of the scatter/gather test: the vector routines of each,
    under the documented behaviour of the instructions, change VTCM the way the
    scalar loops change their arrays. *)

From S2P Require Import Prelude HexTest RegFields TlbHw Tlb ByteMem ScatterGather ScatterMem ScatterRun.

Open Scope string_scope.
Open Scope list_scope.
Open Scope Z_scope.

(* ------------------------------------------------------------------ *)
(** ** Vectors in memory *)

Lemma mget_store_vector w m a l b :
  (0 < w)%nat ->
  mget (store_vector w m a l) b =
    if (a <=? b) && (b <? a + Z.of_nat w * Z.of_nat (length l))
    then byte_of (l !!! Z.to_nat ((b - a) / Z.of_nat w)) ((b - a) mod Z.of_nat w)
    else mget m b.
Proof.
  intros Hw. unfold store_vector.
  assert (forall n j, (j + n = length l)%nat ->
    mget (foldr (fun iv m => store w m (a + Z.of_nat w * iv.1) iv.2) m
            (zip (seqZ (Z.of_nat j) (Z.of_nat n)) (drop j l))) b =
      if (a + Z.of_nat w * Z.of_nat j <=? b) && (b <? a + Z.of_nat w * Z.of_nat (length l))
      then byte_of (l !!! Z.to_nat ((b - a) / Z.of_nat w)) ((b - a) mod Z.of_nat w)
      else mget m b) as Hgen.
  { induction n as [|n IH]; intros j Hj.
    - rewrite seqZ_nil by lia. cbn [zip zip_with foldr].
      replace (_ && _) with false; [done|]. split_cmp; try done.
    - destruct (lookup_lt_is_Some_2 l j) as [v Hv]; [lia|].
      rewrite (drop_S _ _ _ Hv), seqZ_cons by lia. cbn [zip zip_with foldr fst snd].
      replace (Z.succ (Z.of_nat j)) with (Z.of_nat (Datatypes.S j)) by lia.
      replace (Z.pred (Z.of_nat (Datatypes.S n))) with (Z.of_nat n) by lia.
      rewrite mget_store, IH by lia.
      assert (Z.of_nat w * Z.of_nat (Datatypes.S j) = Z.of_nat w * Z.of_nat j + Z.of_nat w) as -> by lia.
      destruct (decide (a + Z.of_nat w * Z.of_nat j <= b < a + Z.of_nat w * Z.of_nat j + Z.of_nat w)) as [Hin|Hout].
      + assert ((b - a) / Z.of_nat w = Z.of_nat j) as Hq by (symmetry; apply (Z.div_unique _ _ _ (b - a - Z.of_nat w * Z.of_nat j)); lia).
        assert (b < a + Z.of_nat w * Z.of_nat (length l)) by nia.
        rewrite Hq, Nat2Z.id, (list_lookup_total_correct _ _ _ Hv), Z.mod_eq, Hq by lia.
        split_cmp; cbn [andb]; f_equal; lia.
      + split_cmp; cbn [andb]; done || lia. }
  specialize (Hgen (length l) 0%nat eq_refl). rewrite drop_0 in Hgen.
  change (Z.of_nat 0) with 0 in Hgen. by rewrite Hgen, Z.mul_0_r, Z.add_0_r.
Qed.

Lemma store_vector_array w m a l : (0 < w)%nat -> array w (store_vector w m a l) a l.
Proof.
  intros Hw i v k Hi Hk. pose proof (lookup_lt_Some _ _ _ Hi). rewrite mget_store_vector by done.
  replace (_ && _) with true.
  2:{ symmetry. rewrite andb_true_iff, Z.leb_le, Z.ltb_lt. nia. }
  assert ((a + Z.of_nat w * Z.of_nat i + k - a) / Z.of_nat w = Z.of_nat i) as Hq
    by (symmetry; apply (Z.div_unique _ _ _ k); lia).
  rewrite Z.mod_eq, Hq, Nat2Z.id, (list_lookup_total_correct _ _ _ Hi) by lia. f_equal. lia.
Qed.

(** Halfword splats of [?] fill with that byte. *)
Lemma store_splat m a n b :
  mget (store_vector 2 m a (replicate n 0x3f3f)) b =
    if (a <=? b) && (b <? a + 2 * Z.of_nat n) then 63 else mget m b.
Proof.
  rewrite mget_store_vector, length_replicate by lia. change (Z.of_nat 2) with 2.
  destruct (_ && _) eqn:E; [|done]. apply andb_true_iff in E as [H1%Z.leb_le H2%Z.ltb_lt].
  assert (replicate n 0x3f3f !!! Z.to_nat ((b - a) / 2) = 0x3f3f) as ->.
  { apply list_lookup_total_correct, lookup_replicate_2.
    assert (0 <= (b - a) / 2 < Z.of_nat n); [|lia].
    split; [apply Z.div_pos; lia|apply Z.div_lt_upper_bound; lia]. }
  pose proof (Z.mod_pos_bound (b - a) 2 ltac:(lia)).
  by assert ((b - a) mod 2 = 0 \/ (b - a) mod 2 = 1) as [-> | ->] by lia.
Qed.

Lemma splat_elem_byte w k : w = 2%nat \/ w = 4%nat -> 0 <= k < Z.of_nat w -> byte_of (splat_elem w) k = 63.
Proof.
  intros [-> | ->] Hk.
  - by assert (k = 0 \/ k = 1) as [-> | ->] by lia.
  - by assert (k = 0 \/ k = 1 \/ k = 2 \/ k = 3) as [-> | [-> | [-> | ->]]] by lia.
Qed.

Lemma array_app w m a l1 l2 :
  array w m a l1 -> array w m (a + Z.of_nat w * Z.of_nat (length l1)) l2 -> array w m a (l1 ++ l2).
Proof.
  intros H1 H2 i v k [Hi|[Hle Hi]]%lookup_app_Some Hk; [by apply (H1 i)|].
  rewrite <- (H2 _ v k Hi Hk). f_equal. rewrite Nat2Z.inj_sub by done. ring.
Qed.

(* ------------------------------------------------------------------ *)
(** ** Halves, evens and odds *)

Lemma zip_halves {A B} n (l : list A) (k : list B) :
  zip l k = zip (take n l) (take n k) ++ zip (drop n l) (drop n k).
Proof.
  revert l k. induction n as [|n IH]; intros [|x l] [|y k]; try done; cbn [take drop zip zip_with app].
  - by destruct (drop n l).
  - by rewrite (IH l k).
Qed.

Lemma evens_lookup {A} (l : list A) j : evens l !! j = l !! (2 * j)%nat.
Proof.
  revert l. induction j as [|j IH]; intros l; [by destruct l as [|x [|y l]]|].
  replace (2 * Datatypes.S j)%nat with (Datatypes.S (Datatypes.S (2 * j))) by lia.
  destruct l as [|x [|y l]]; [done..|]. apply IH.
Qed.

Lemma odds_lookup {A} (l : list A) j : odds l !! j = l !! (2 * j + 1)%nat.
Proof.
  revert l. induction j as [|j IH]; intros l; [by destruct l as [|x [|y l]]|].
  replace (2 * Datatypes.S j + 1)%nat with (Datatypes.S (Datatypes.S (2 * j + 1))) by lia.
  destruct l as [|x [|y l]]; [done..|]. apply IH.
Qed.

Lemma evens_fmap {A B} (f : A -> B) l : evens (f <$> l) = f <$> evens l.
Proof. apply list_eq. intros j. by rewrite list_lookup_fmap, !evens_lookup, list_lookup_fmap. Qed.

Lemma odds_fmap {A B} (f : A -> B) l : odds (f <$> l) = f <$> odds l.
Proof. apply list_eq. intros j. by rewrite list_lookup_fmap, !odds_lookup, list_lookup_fmap. Qed.

Lemma Forall_evens_odds {A} (P : A -> Prop) l : Forall P (evens l) -> Forall P (odds l) -> Forall P l.
Proof.
  rewrite !Forall_lookup. intros He Ho i x Hi. destruct (Nat.Even_Odd_dec i) as [[j ->]|[j ->]].
  - apply (He j). by rewrite evens_lookup.
  - apply (Ho j). by rewrite odds_lookup.
Qed.

(* ------------------------------------------------------------------ *)
(** ** The lanes along the diagonal *)

Section lanes.
Context (K : kind) `{HK : !kind_ok K} `{HvxLaws}.
Abbreviation kwok := (kw_ok K).
Abbreviation W := (Z.of_nat (kw K)).

(** Lanes that scatter to distinct elements of the buffer. *)
Definition good_lanes (lanes : list (Z * Z)) : Prop :=
  Forall (lane_ok (kw K) region_len SCATTER_BUFFER_SIZE) lanes /\ NoDup lanes.*1.

Lemma kw_pos : (0 < kw K)%nat.
Proof. destruct kwok as [-> | ->]; lia. Qed.

Lemma diag_offset o v : o ∈ diag K -> lane_ok (kw K) region_len SCATTER_BUFFER_SIZE (o, v).
Proof.
  unfold diag. intros (i & -> & Hi)%list_elem_of_fmap. apply elem_of_seqZ in Hi.
  exists (65 * i). cbn [fst]. change region_len with 16383. change SCATTER_BUFFER_SIZE with 4096.
  split; [done|]. destruct kwok as [-> | ->]; lia.
Qed.

Lemma diag_offsets_ok : Forall (fun o => lane_ok (kw K) region_len SCATTER_BUFFER_SIZE (o, 0)) (diag K).
Proof. apply Forall_forall. intros o Ho. by apply diag_offset. Qed.

Lemma diag_NoDup : NoDup (diag K).
Proof.
  unfold diag. apply NoDup_fmap_2_strong; [|apply NoDup_seqZ].
  intros x y _ _ He. pose proof kw_pos. nia.
Qed.

Lemma diag_good vals : length vals = 64%nat -> good_lanes (zip (diag K) vals).
Proof.
  intros Hl. split.
  - apply Forall_forall. intros [o v] Ho. apply diag_offset. by eapply elem_of_zip_l.
  - rewrite fst_zip; [apply diag_NoDup|]. rewrite diag_length. lia.
Qed.

Lemma good_val d : data_ok K d -> good_lanes (zip (diag K) (d_val d)).
Proof. intros Hd. apply diag_good, (ok_val _ _ Hd). Qed.
Lemma good_acc d : data_ok K d -> good_lanes (zip (diag K) (d_acc d)).
Proof. intros Hd. apply diag_good, (ok_acc _ _ Hd). Qed.
Lemma good_q d : data_ok K d -> good_lanes (zip (diag K) (d_q d)).
Proof. intros Hd. apply diag_good, (ok_q _ _ Hd). Qed.

Lemma selected_good ps lanes : good_lanes lanes -> good_lanes (selected ps lanes).
Proof. intros [? ?]. split; [by apply selected_ok|by apply selected_NoDup]. Qed.

Lemma good_app lo hi : good_lanes (lo ++ hi) -> good_lanes lo /\ good_lanes hi.
Proof.
  intros [H1 H2]. rewrite fmap_app in H2. apply Forall_app in H1 as [].
  apply NoDup_app in H2 as (? & _ & ?). done.
Qed.

Lemma same_outside_trans w a n m1 m2 m3 :
  same_outside w a n m1 m2 -> same_outside w a n m2 m3 -> same_outside w a n m1 m3.
Proof. intros H1 H2 b Hb. by rewrite H2, H1. Qed.

(** A scatter done with one instruction, and with one for each half. *)
Lemma scatter_once m a l lanes :
  array (kw K) m a l -> Z.of_nat (length l) = SCATTER_BUFFER_SIZE -> good_lanes lanes ->
  array (kw K) (Q6_vscatter (kw K) m a region_len lanes) a (foldl (put (kw K)) l lanes) /\
  same_outside (kw K) a SCATTER_BUFFER_SIZE m (Q6_vscatter (kw K) m a region_len lanes).
Proof. intros Ha Hl [H1 H2]. apply vscatter_array; try done. apply kw_pos. Qed.

Lemma scatter_twice m a l lo hi :
  array (kw K) m a l -> Z.of_nat (length l) = SCATTER_BUFFER_SIZE -> good_lanes (lo ++ hi) ->
  let m' := Q6_vscatter (kw K) (Q6_vscatter (kw K) m a region_len lo) a region_len hi in
  array (kw K) m' a (foldl (put (kw K)) l (lo ++ hi)) /\ same_outside (kw K) a SCATTER_BUFFER_SIZE m m'.
Proof.
  intros Ha Hl [G1 G2]%good_app. destruct (scatter_once m a l lo Ha Hl G1) as [A1 O1].
  destruct (scatter_once _ a _ hi A1) as [A2 O2]; [by rewrite put_length|done|].
  rewrite foldl_app. split; [done|]. by eapply same_outside_trans.
Qed.

Lemma acc_once m a l lanes :
  array (kw K) m a l -> elems_ok (kw K) l -> Z.of_nat (length l) = SCATTER_BUFFER_SIZE ->
  good_lanes lanes ->
  array (kw K) (Q6_vscatteracc (kw K) m a region_len lanes) a (foldl (put_acc (kw K)) l lanes) /\
  same_outside (kw K) a SCATTER_BUFFER_SIZE m (Q6_vscatteracc (kw K) m a region_len lanes).
Proof. intros Ha He Hl [H1 H2]. apply vscatteracc_array; try done. apply kw_pos. Qed.

Lemma put_acc_elems l lanes : elems_ok (kw K) l -> elems_ok (kw K) (foldl (put_acc (kw K)) l lanes).
Proof.
  revert l. induction lanes as [|x lanes IH]; intros l He; [done|]. cbn [foldl]. apply IH.
  apply Forall_insert; [done|]. rewrite pow_256. apply uwrap_range. lia.
Qed.

Lemma acc_twice m a l lo hi :
  array (kw K) m a l -> elems_ok (kw K) l -> Z.of_nat (length l) = SCATTER_BUFFER_SIZE ->
  good_lanes (lo ++ hi) ->
  let m' := Q6_vscatteracc (kw K) (Q6_vscatteracc (kw K) m a region_len lo) a region_len hi in
  array (kw K) m' a (foldl (put_acc (kw K)) l (lo ++ hi)) /\
  same_outside (kw K) a SCATTER_BUFFER_SIZE m m'.
Proof.
  intros Ha He Hl [G1 G2]%good_app. destruct (acc_once m a l lo Ha He Hl G1) as [A1 O1].
  destruct (acc_once _ a _ hi A1) as [A2 O2]; [by apply put_acc_elems|by rewrite put_acc_length|done|].
  rewrite foldl_app. split; [done|]. by eapply same_outside_trans.
Qed.

Lemma gather_vals_length w ls iv bs offs :
  length bs = length offs -> length (gather_vals w ls iv bs offs) = length offs.
Proof. intros He. unfold gather_vals. rewrite length_zip_with. lia. Qed.

(** A gather to consecutive elements. *)
Lemma gather_array m dst a ls offs preds iv :
  array (kw K) m a ls -> elems_ok (kw K) ls -> Z.of_nat (length ls) = SCATTER_BUFFER_SIZE ->
  Forall (fun o => lane_ok (kw K) region_len SCATTER_BUFFER_SIZE (o, 0)) offs ->
  length preds = length offs ->
  (forall j i, preds !! j = Some false -> 0 <= i < W ->
     mget m (dst + W * Z.of_nat j + i) = byte_of iv i) ->
  let m' := Q6_vgather (kw K) m dst a region_len (selected preds (gather_lanes offs)) in
  array (kw K) m' dst (gather_vals (kw K) ls iv preds offs) /\
  same_outside (kw K) dst (Z.of_nat (length offs)) m m'.
Proof.
  intros Ha He Hl Ho Hp Hiv m'.
  assert (Forall (gather_lane_ok (kw K) region_len (Z.of_nat (length offs))) (gather_lanes offs)) as Hok.
  { apply Forall_forall. intros [k o] Hin. split.
    - apply elem_of_zip_l, elem_of_seqZ in Hin. cbn [fst]. lia.
    - apply elem_of_zip_r in Hin. rewrite Forall_forall in Ho. by destruct (Ho _ Hin) as (? & _ & _ & Hr). }
  split.
  - intros j v i Hj Hi. unfold gather_vals in Hj.
    apply lookup_zip_with_Some in Hj as (b & o & -> & Hb & Hoj).
    pose proof (lookup_lt_Some _ _ _ Hoj).
    apply (vgather_at (kw K) kw_pos dst a region_len (Z.of_nat (length offs)) SCATTER_BUFFER_SIZE
      ls m (seqZ 0 (Z.of_nat (length offs))) offs preds iv j); try done.
    + apply NoDup_seqZ.
    + rewrite length_seqZ. lia.
    + rewrite lookup_seqZ_lt by lia. done.
    + intros -> i' Hi'. by apply Hiv.
  - intros b Hb. apply (vgather_outside (kw K) kw_pos dst a region_len (Z.of_nat (length offs))); [|done].
    by apply selected_ok.
Qed.
(** A gather with one instruction for each half. *)
Lemma gather_twice m dst a ls lo hi plo phi iv :
  array (kw K) m a ls -> elems_ok (kw K) ls -> Z.of_nat (length ls) = SCATTER_BUFFER_SIZE ->
  Forall (fun o => lane_ok (kw K) region_len SCATTER_BUFFER_SIZE (o, 0)) (lo ++ hi) ->
  length plo = length lo -> length phi = length hi -> a + W * SCATTER_BUFFER_SIZE <= dst ->
  (forall j i, (plo ++ phi) !! j = Some false -> 0 <= i < W ->
     mget m (dst + W * Z.of_nat j + i) = byte_of iv i) ->
  let m1 := Q6_vgather (kw K) m dst a region_len (selected plo (gather_lanes lo)) in
  let m2 := Q6_vgather (kw K) m1 (dst + W * Z.of_nat (length lo)) a region_len
              (selected phi (gather_lanes hi)) in
  array (kw K) m2 dst (gather_vals (kw K) ls iv (plo ++ phi) (lo ++ hi)) /\
  same_outside (kw K) dst (Z.of_nat (length (lo ++ hi))) m m2.
Proof.
  intros Ha He Hl [Hlo Hhi]%Forall_app Hpl Hph Hd Hiv m1 m2. pose proof kw_pos.
  destruct (gather_array m dst a ls lo plo iv) as [A1 O1]; [done..| |].
  { intros j i Hj Hi. apply Hiv; [|done]. by apply lookup_app_l_Some. }
  fold m1 in A1, O1.
  assert (array (kw K) m1 a ls) as Ha1.
  { apply (array_ext _ m); [|done]. intros b Hb. rewrite Hl in Hb. symmetry. apply O1. lia. }
  destruct (gather_array m1 (dst + W * Z.of_nat (length lo)) a ls hi phi iv) as [A2 O2]; [done..| |].
  { intros j i Hj Hi. rewrite O1 by nia.
    rewrite <- (Hiv (length plo + j)%nat i) by (done || by rewrite lookup_app_r, Nat.add_comm, Nat.add_sub by lia).
    rewrite Hpl. f_equal. lia. }
  fold m2 in A2, O2. split.
  - unfold gather_vals at 1. rewrite zip_with_app by done. apply array_app.
    + apply (array_ext _ m1); [|done]. fold (gather_vals (kw K) ls iv plo lo).
      rewrite gather_vals_length by done. intros b Hb. symmetry. apply O2. lia.
    + fold (gather_vals (kw K) ls iv plo lo). by rewrite gather_vals_length.
  - intros b Hb. rewrite length_app in Hb. rewrite O2 by lia. apply O1. lia.
Qed.
End lanes.

(* ------------------------------------------------------------------ *)
(** ** Running the vector routines *)

Lemma update_vm_eq f s : update_vm f s = Done tt (set_vm (f (vm s)) s).
Proof. done. Qed.

(** Steps over the reads and updates at the head of a program, the globals
    being known from the context. *)
Ltac vec_step :=
  match goal with
  | |- (mbind _ (read_all ?a)) ?st = _ =>
      match goal with H : arrs _ !! a = Some ?l |- _ =>
        refine (eq_trans (bind_done _ _ _ _ _ (read_all_eq a l st H)) _) end
  | |- (mbind _ (read_ptr ?a)) ?st = _ =>
      match goal with H : ptrs _ !! a = Some ?v |- _ =>
        refine (eq_trans (bind_done _ _ _ _ _ (read_ptr_eq a v st H)) _) end
  | |- (mbind _ (update_vm ?f)) ?st = _ =>
      refine (eq_trans (bind_done _ _ _ _ _ (update_vm_eq f st)) _)
  | |- update_vm _ _ = _ => refine (eq_trans (update_vm_eq _ _) _)
  | |- (mbind _ (gets ?f)) ?st = _ =>
      refine (eq_trans (bind_done _ _ _ (f st) st eq_refl) _)
  end; cbv beta zeta.
Ltac vec_run := repeat vec_step; reflexivity.

(** Opens the invariant of a concrete kind. *)
Ltac open_inv HI :=
  let H1 := fresh "Hoff" in let H2 := fresh "Hval" in let H3 := fresh "Hacc" in
  let H4 := fresh "Hq" in let H5 := fresh "Hpred" in let H6 := fresh "Hsa" in
  let H7 := fresh "Hga" in
  destruct HI as [H1 H2 H3 H4 H5 H6 H7 _ _]; cbn [k_off k_val k_acc k_q k_pred k_saddr k_gaddr
    K16 K32 K16_32] in H1, H2, H3, H4, H5, H6, H7.

#[export] Instance K16_ok : kind_ok K16.
Proof.
  split; [by left| |done]. unfold is_ref. cbn.
  repeat constructor; intros [? | ?]; discriminate.
Qed.
#[export] Instance K32_ok : kind_ok K32.
Proof.
  split; [by right| |done]. unfold is_ref. cbn.
  repeat constructor; intros [? | ?]; discriminate.
Qed.
#[export] Instance K16_32_ok : kind_ok K16_32.
Proof.
  split; [by left| |done]. unfold is_ref. cbn.
  repeat constructor; intros [? | ?]; discriminate.
Qed.

Section ops.
Context `{HvxLaws}.

Definition vec16 : vec_ops :=
  VecOps vector_scatter_16 vector_gather_16 vector_gather_q_16 vector_scatter_acc_16 vector_scatter_q_16.
Definition vec32 : vec_ops :=
  VecOps vector_scatter_32 vector_gather_32 vector_gather_q_32 vector_scatter_acc_32 vector_scatter_q_32.
Definition vec16_32 : vec_ops :=
  VecOps vector_scatter_16_32 vector_gather_16_32 vector_gather_q_16_32
    vector_scatter_acc_16_32 vector_scatter_q_16_32.

(** The predicate registers hold the mask. *)
Lemma vand_mask w l : Forall (fun v => v = 0 \/ v = 2 ^ (8 * Z.of_nat w) - 1) l ->
  Q6_Q_vand w l = (fun v => truth v) <$> l.
Proof. apply vand_lanes. Qed.

(** A run with the memory it leaves. *)
Lemma leaves_intro p s w a l m :
  p s = Done tt (set_vm m s) ->
  array w m a l /\ same_outside w a (Z.of_nat (length l)) (vm s) m -> leaves p s w a l.
Proof. intros He [Ha Ho]. by exists m. Qed.

#[export] Instance vec16_laws : vec_laws K16 vec16.
Proof.
  split; intros d sb gb s l; [intros Hd HI Ha Hl|intros Hd HI Ha He Hl|intros Hd HI Ha Hl|
    intros iv Hd HI Ha He Hl Hgb Hg0 Hend|intros Hd HI Ha He Hl Hgb Hg0 Hend];
    open_inv HI; eapply leaves_intro;
    try (cbn [v_scatter v_gather v_gather_q v_acc v_q vec16];
         unfold vector_scatter_16, vector_gather_16, vector_gather_q_16, vector_scatter_acc_16,
           vector_scatter_q_16; vec_run); cbn [vm set_vm].
  - rewrite put_length, Hl. apply (scatter_once K16); [done..|]. by apply (good_val K16).
  - rewrite put_acc_length, Hl. apply (acc_once K16); [done..|]. by apply (good_acc K16).
  - rewrite put_length, Hl. rewrite vand_mask by apply Hd.
    apply (scatter_once K16); [done..|]. by apply (selected_good K16), (good_q K16).
  - rewrite gather_vals_length by done.
    rewrite <- (selected_all 64 (gather_lanes (diag K16))) by done.
    apply (gather_array K16); [done..|apply (diag_offsets_ok K16)|done|].
    intros j i [? ?]%lookup_replicate. done.
  - pose proof (mask_length K16 d Hd) as Hml.
    rewrite gather_vals_length by (by rewrite Hml, diag_length). rewrite vand_mask by apply Hd.
    change gather_q_16_init with 0x3f3f.
    set (m1 := store_vector 2 (vm s) gb (replicate 64 0x3f3f)).
    assert (same_outside (kw K16) gb 64 (vm s) m1) as O1.
    { intros b Hb. unfold m1. rewrite store_splat. change (Z.of_nat (kw K16)) with 2 in *.
      by replace (_ && _) with false by (split_cmp; done). }
    destruct (gather_array K16 m1 gb sb l (diag K16) (mask d) (splat_elem 2)) as [A2 O2]; try done.
    + apply (array_ext _ (vm s)); [|done]. intros b Hb. symmetry. apply O1.
      rewrite Hl in Hb. lia.
    + apply (diag_offsets_ok K16).
    + intros j i Hj Hi. pose proof (lookup_lt_Some _ _ _ Hj). rewrite Hml in *.
      rewrite splat_elem_byte by (done || by left). unfold m1. rewrite store_splat.
      change (Z.of_nat (kw K16)) with 2 in *.
      by replace (_ && _) with true by (split_cmp; done).
    + split; [done|]. by eapply same_outside_trans.
Qed.

(** The halves of a masked vector. *)
Lemma selected_halves n ps (offs vals : list Z) :
  length ps = length offs -> length vals = length offs ->
  selected ps (zip offs vals) =
    selected (take n ps) (zip (take n offs) (take n vals)) ++
    selected (drop n ps) (zip (drop n offs) (drop n vals)).
Proof.
  intros Hp Hv. rewrite <- selected_app.
  - by rewrite take_drop, <- zip_halves.
  - rewrite length_zip_with, !length_take. lia.
Qed.

Lemma vgatherhi_eq gb : 0 <= gb -> gb + 256 <= 2 ^ 32 -> u32 (gb + MATRIX_SIZE * 2) = gb + 4 * 32.
Proof. intros. apply uwrap_id. change (MATRIX_SIZE * 2) with 128. unfold in_u. lia. Qed.

#[export] Instance vec32_laws : vec_laws K32 vec32.
Proof.
  split; intros d sb gb s l; [intros Hd HI Ha Hl|intros Hd HI Ha He Hl|intros Hd HI Ha Hl|
    intros iv Hd HI Ha He Hl Hgb Hg0 Hend|intros Hd HI Ha He Hl Hgb Hg0 Hend];
    open_inv HI; eapply leaves_intro;
    try (cbn [v_scatter v_gather v_gather_q v_acc v_q vec32];
         unfold vector_scatter_32, vector_gather_32, vector_gather_q_32, vector_scatter_acc_32,
           vector_scatter_q_32; vec_run); cbn [vm set_vm].
  - rewrite put_length, Hl, (zip_halves 32 (diag K32)).
    apply (scatter_twice K32); [done..|]. rewrite <- zip_halves. by apply (good_val K32).
  - rewrite put_acc_length, Hl, (zip_halves 32 (diag K32)).
    apply (acc_twice K32); [done..|]. rewrite <- zip_halves. by apply (good_acc K32).
  - destruct (ok_pred _ _ Hd) as [Hpl Hpv]. destruct (ok_q _ _ Hd) as [Hql _].
    rewrite put_length, Hl, !vand_mask by (by apply Forall_take || by apply Forall_drop).
    rewrite (selected_halves 32 (mask d)) by (rewrite ?(mask_length K32 d Hd), diag_length; done).
    unfold mask. rewrite fmap_take, fmap_drop.
    apply (scatter_twice K32); [done..|].
    fold (mask d).
    rewrite <- (selected_halves 32 (mask d)) by (rewrite ?(mask_length K32 d Hd), diag_length; done).
    by apply (selected_good K32), (good_q K32).
  - change (Z.of_nat (kw K32)) with 4 in *. change (4 * 64) with 256 in Hend.
    rewrite gather_vals_length by done. rewrite vgatherhi_eq by lia.
    rewrite <- (selected_all 32 (gather_lanes (take 32 (diag K32)))) by done.
    rewrite <- (selected_all 32 (gather_lanes (drop 32 (diag K32)))) by done.
    rewrite <- (take_drop 32 (diag K32)).
    apply (gather_twice K32); try done.
    + apply (diag_offsets_ok K32).
    + change SCATTER_BUFFER_SIZE with 4096 in *. change (Z.of_nat (kw K32)) with 4. lia.
    + intros j i [? _]%(lookup_replicate 64). done.
  - change (Z.of_nat (kw K32)) with 4 in *. change (4 * 64) with 256 in Hend.
    destruct (ok_pred _ _ Hd) as [Hpl Hpv]. pose proof (mask_length K32 d Hd) as Hml.
    rewrite gather_vals_length by (by rewrite Hml, diag_length).
    rewrite !vand_mask by (by apply Forall_take || by apply Forall_drop). rewrite vgatherhi_eq by lia.
    change (u16 gather_q_32_init) with 0x3f3f.
    set (m1 := store_vector 2 (store_vector 2 (vm s) gb (replicate 64 0x3f3f)) _ _).
    assert (forall b, mget m1 b = if (gb <=? b) && (b <? gb + 256) then 63 else mget (vm s) b) as Hm1.
    { intros b. unfold m1. rewrite !store_splat. split_cmp; done. }
    assert (same_outside (kw K32) gb 64 (vm s) m1) as O1.
    { intros b Hb. rewrite Hm1. change (Z.of_nat (kw K32)) with 4 in *.
      by replace (_ && _) with false by (split_cmp; done). }
    rewrite fmap_take, fmap_drop. fold (mask d).
    destruct (gather_twice K32 m1 gb sb l (take 32 (diag K32)) (drop 32 (diag K32))
      (take 32 (mask d)) (drop 32 (mask d)) (splat_elem 4)) as [A2 O2]; try done.
    + apply (array_ext _ (vm s)); [|done]. intros b Hb. symmetry. apply O1.
      rewrite Hl in Hb. change (Z.of_nat (kw K32)) with 4 in *. lia.
    + rewrite take_drop. apply (diag_offsets_ok K32).
    + by rewrite length_take, Hml.
    + by rewrite length_drop, Hml.
    + change (Z.of_nat (kw K32)) with 4. lia.
    + intros j i Hj Hi. rewrite take_drop in Hj. pose proof (lookup_lt_Some _ _ _ Hj). rewrite Hml in *.
      rewrite splat_elem_byte by (done || by right). rewrite Hm1.
      change (Z.of_nat (kw K32)) with 4 in *.
      by replace (_ && _) with true by (split_cmp; done).
    + rewrite !take_drop in A2. rewrite take_drop in O2. split; [exact A2|]. by eapply same_outside_trans.
Qed.

(** The shuffles put the lanes of the two-vector instructions in order. *)
Lemma ww_lanes_shuffled offs vals :
  length vals = 64%nat -> ww_lanes offs (Q6_Vh_vshuff vals) = zip offs vals.
Proof.
  intros Hl. destruct (vshuff_halves vals Hl) as [He Ho]. unfold ww_lanes.
  by rewrite He, Ho, <- zip_halves.
Qed.

Lemma ww_preds_shuffled w l :
  length l = 64%nat -> Forall (fun v => v = 0 \/ v = 2 ^ (8 * Z.of_nat w) - 1) l ->
  ww_preds (Q6_Q_vand w (Q6_Vh_vshuff l)) = (fun v => truth v) <$> l.
Proof.
  intros Hl Hv. destruct (vshuff_halves l Hl) as [He Ho]. rewrite vand_mask.
  - unfold ww_preds. by rewrite evens_fmap, odds_fmap, He, Ho, <- fmap_app, take_drop.
  - apply Forall_evens_odds; rewrite ?He, ?Ho; by apply Forall_take || by apply Forall_drop.
Qed.

(** Where lane [j] of a two-vector gather goes. *)
Definition ww_place (j : nat) : nat := if (j <? 32)%nat then (2 * j)%nat else (2 * (j - 32) + 1)%nat.
Definition ww_places : list Z := (fun j => Z.of_nat (ww_place j)) <$> seq 0 64.

Lemma ww_gather_lanes_places offs :
  length offs = 64%nat -> ww_gather_lanes offs = zip ww_places offs.
Proof. intros Hl. rewrite (zip_halves 32). done. Qed.

Lemma ww_places_lookup j : (j < 64)%nat -> ww_places !! j = Some (Z.of_nat (ww_place j)).
Proof. intros Hj. unfold ww_places. by rewrite list_lookup_fmap, lookup_seq_lt by done. Qed.

Lemma ww_place_lt j : (j < 64)%nat -> (ww_place j < 64)%nat.
Proof. intros Hj. unfold ww_place. destruct (Nat.ltb_spec j 32); lia. Qed.

Lemma ww_places_NoDup : NoDup ww_places.
Proof. by apply (bool_decide_eq_true_1 (NoDup ww_places)). Qed.

(** Dealing what the lanes left restores the order. *)
Lemma deal_places (L g : list Z) :
  length L = 64%nat -> length g = 64%nat ->
  (forall j v, g !! j = Some v -> L !! ww_place j = Some v) -> Q6_Vh_vdeal L = g.
Proof.
  intros HL Hg Hp. rewrite vdeal_halves by done.
  assert (evens L = take 32 g) as ->; [|assert (odds L = drop 32 g) as ->; [|apply take_drop]].
  - apply list_eq. intros j. rewrite evens_lookup. destruct (decide (j < 32)%nat) as [Hj|Hj].
    + destruct (lookup_lt_is_Some_2 g j) as [v Hv]; [lia|]. rewrite lookup_take_lt, Hv by done.
      rewrite <- (Hp _ _ Hv). unfold ww_place. by rewrite (proj2 (Nat.ltb_lt _ _) Hj).
    + rewrite !lookup_ge_None_2; [done|..]; rewrite ?length_take; lia.
  - apply list_eq. intros j. rewrite odds_lookup, lookup_drop. destruct (decide (j < 32)%nat) as [Hj|Hj].
    + destruct (lookup_lt_is_Some_2 g (32 + j)) as [v Hv]; [lia|]. rewrite Hv.
      rewrite <- (Hp _ _ Hv). unfold ww_place.
      rewrite (proj2 (Nat.ltb_ge _ _)) by lia. f_equal. lia.
    + rewrite !lookup_ge_None_2; [done|..]; lia.
Qed.

(** A gather of two vectors of offsets, dealt back. *)
Lemma gather_dealt m m0 dst a ls bs iv :
  same_outside 2 dst 64 m0 m ->
  array 2 m a ls -> elems_ok 2 ls -> Z.of_nat (length ls) = SCATTER_BUFFER_SIZE ->
  length bs = 64%nat ->
  (false ∈ bs -> 0 <= iv < 256 ^ 2 /\
     forall j i, 0 <= j < 64 -> 0 <= i < 2 -> mget m (dst + 2 * j + i) = byte_of iv i) ->
  let m1 := Q6_vgather 2 m dst a region_len (selected bs (ww_gather_lanes (diag K16_32))) in
  let m2 := store_vector 2 m1 dst (Q6_Vh_vdeal (load_vector 2 64 m1 dst)) in
  array 2 m2 dst (gather_vals 2 ls iv bs (diag K16_32)) /\ same_outside 2 dst 64 m0 m2.
Proof.
  intros O0 Ha He Hl Hb Hiv m1 m2. pose proof (diag_length K16_32) as Hdl.
  assert (m1 = Q6_vgather 2 m dst a region_len (selected bs (zip ww_places (diag K16_32)))) as Em1
    by (unfold m1; by rewrite ww_gather_lanes_places).
  assert (Forall (gather_lane_ok 2 region_len 64) (zip ww_places (diag K16_32))) as Hok.
  { apply Forall_forall. intros [k o] Hin. split.
    - apply elem_of_zip_l in Hin. unfold ww_places in Hin.
      apply list_elem_of_fmap in Hin as (j & -> & Hj%elem_of_seq). cbn [fst].
      pose proof (ww_place_lt j). lia.
    - apply elem_of_zip_r in Hin.
      by destruct (diag_offset K16_32 o 0 Hin) as (? & _ & _ & Hr). }
  assert (Q6_Vh_vdeal (load_vector 2 64 m1 dst) = gather_vals 2 ls iv bs (diag K16_32)) as Hdeal.
  { apply deal_places.
    - unfold load_vector. by rewrite length_fmap, length_seqZ.
    - by rewrite gather_vals_length, Hdl by lia.
    - intros j v Hj. unfold gather_vals in Hj.
      apply lookup_zip_with_Some in Hj as (b & o & -> & Hbj & Hoj).
      pose proof (lookup_lt_Some _ _ _ Hoj) as Hlt. rewrite Hdl in Hlt.
      pose proof (ww_place_lt j Hlt).
      unfold load_vector. rewrite list_lookup_fmap, lookup_seqZ_lt by lia.
      cbn [fmap option_fmap option_map]. f_equal. rewrite Z.add_0_l. apply load_bytes.
      + unfold gather_val. destruct b.
        * destruct (diag_offset K16_32 o 0) as (e & Heq & Hr & _); [by eapply list_elem_of_lookup_2|].
          cbn [fst] in Heq. change (kw K16_32) with 2%nat in Heq. rewrite Heq, elem_mul by lia.
          destruct (lookup_lt_is_Some_2 ls (Z.to_nat e)) as [v Hv]; [lia|].
          rewrite (list_lookup_total_correct _ _ _ Hv). unfold elems_ok in He.
          rewrite Forall_lookup in He. by eapply He.
        * apply Hiv. by eapply list_elem_of_lookup_2.
      + intros i Hi. rewrite Em1. apply (vgather_at 2 ltac:(lia) dst a region_len 64 SCATTER_BUFFER_SIZE
          ls m ww_places (diag K16_32) bs iv j); try done.
        * apply (diag_offsets_ok K16_32).
        * apply ww_places_NoDup.
        * by apply ww_places_lookup.
        * intros -> i' Hi'. apply Hiv; [by eapply list_elem_of_lookup_2|lia|done]. }
  split.
  - rewrite <- Hdeal. by apply store_vector_array; lia.
  - intros b Hbo. unfold m2. rewrite mget_store_vector by lia.
    rewrite Hdeal, gather_vals_length, Hdl by lia. change (Z.of_nat 2) with 2 in *.
    change (Z.of_nat 64) with 64.
    replace (_ && _) with false by (split_cmp; done). rewrite <- O0 by lia. rewrite Em1.
    apply (vgather_outside 2 ltac:(lia) dst a region_len 64); [by apply selected_ok|done].
Qed.

#[export] Instance vec16_32_laws : vec_laws K16_32 vec16_32.
Proof.
  split; intros d sb gb s l; [intros Hd HI Ha Hl|intros Hd HI Ha He Hl|intros Hd HI Ha Hl|
    intros iv Hd HI Ha He Hl Hgb Hg0 Hend|intros Hd HI Ha He Hl Hgb Hg0 Hend];
    open_inv HI; eapply leaves_intro;
    try (cbn [v_scatter v_gather v_gather_q v_acc v_q vec16_32];
         unfold vector_scatter_16_32, vector_gather_16_32, vector_gather_q_16_32,
           vector_scatter_acc_16_32, vector_scatter_q_16_32; vec_run); cbn [vm set_vm].
  - rewrite put_length, Hl, ww_lanes_shuffled by apply (ok_val _ _ Hd).
    apply (scatter_once K16_32); [done..|]. by apply (good_val K16_32).
  - rewrite put_acc_length, Hl, ww_lanes_shuffled by apply (ok_acc _ _ Hd).
    apply (acc_once K16_32); [done..|]. by apply (good_acc K16_32).
  - destruct (ok_pred _ _ Hd) as [Hpl Hpv]. rewrite put_length, Hl, ww_preds_shuffled by done.
    rewrite ww_lanes_shuffled by apply (ok_q _ _ Hd).
    apply (scatter_once K16_32); [done..|]. by apply (selected_good K16_32), (good_q K16_32).
  - rewrite gather_vals_length by done.
    rewrite <- (selected_all 64 (ww_gather_lanes (diag K16_32))) by done.
    apply (gather_dealt (vm s)); try done.
    intros [[=] _]%elem_of_replicate.
  - destruct (ok_pred _ _ Hd) as [Hpl Hpv]. pose proof (mask_length K16_32 d Hd) as Hml.
    rewrite gather_vals_length by (by rewrite Hml, diag_length). rewrite ww_preds_shuffled by done.
    change gather_q_16_init with 0x3f3f. set (m1 := store_vector 2 (vm s) gb (replicate 64 0x3f3f)).
    assert (same_outside (kw K16_32) gb 64 (vm s) m1) as O1.
    { intros b Hb. unfold m1. rewrite store_splat. change (Z.of_nat (kw K16_32)) with 2 in *.
      by replace (_ && _) with false by (split_cmp; done). }
    apply (gather_dealt m1); try done.
    + apply (array_ext _ (vm s)); [|done]. intros b Hb. symmetry. apply O1.
      rewrite Hl in Hb. change (Z.of_nat (kw K16_32)) with 2 in *. lia.
    + intros _. split; [done|]. intros j i Hj Hi. rewrite (splat_elem_byte 2) by (done || by left).
      unfold m1. rewrite store_splat. by replace (_ && _) with true by (split_cmp; done).
Qed.

(** *** Each vector routine against its scalar equivalent *)

Record scal_ops := ScalOps {
  sc_scatter : string -> prog vstate (); sc_acc : string -> prog vstate ();
  sc_q : string -> prog vstate (); sc_gather : string -> prog vstate ();
  sc_gather_q : string -> prog vstate ()
}.

Definition scal16 : scal_ops :=
  ScalOps scalar_scatter_16 scalar_scatter_acc_16 scalar_scatter_q_16 scalar_gather_16
    scalar_gather_q_16.
Definition scal32 : scal_ops :=
  ScalOps scalar_scatter_32 scalar_scatter_acc_32 scalar_scatter_q_32 scalar_gather_32
    scalar_gather_q_32.
Definition scal16_32 : scal_ops :=
  ScalOps scalar_scatter_16_32 scalar_scatteracc_16_32 scalar_scatter_q_16_32 scalar_gather_16_32
    scalar_gather_q_16_32.

(** [p] leaves in VTCM at [a], and nowhere else, the array [q] computes in [r]. *)
Definition refines (p q : prog vstate ()) (w : nat) (a : Z) (r : string) (s : vstate) : Prop :=
  exists m l, p s = Done tt (set_vm m s) /\ q s = Done tt (set_arr r l s) /\
    array w m a l /\ same_outside w a (Z.of_nat (length l)) (vm s) m.

Definition kinds : list (kind * vec_ops * scal_ops) :=
  [(K16, vec16, scal16); (K32, vec32, scal32); (K16_32, vec16_32, scal16_32)].

Lemma generic_refines K v sc `{HK : !kind_ok K} `{HV : !vec_laws K v} d sb gb s l iv :
  sc_scatter sc = gen_scatter K -> sc_acc sc = gen_acc K -> sc_q sc = gen_q K ->
  sc_gather sc = gen_gather K -> sc_gather_q sc = gen_gather_q K ->
  data_ok K d -> kind_inv K d sb gb s -> array (kw K) (vm s) sb l -> elems_ok (kw K) l ->
  Z.of_nat (length l) = SCATTER_BUFFER_SIZE ->
  gb = sb + Z.of_nat (kw K) * SCATTER_BUFFER_SIZE -> 0 <= gb -> gb + Z.of_nat (kw K) * 64 <= 2 ^ 32 ->
  (arrs s !! k_sref K = Some l ->
     refines (v_scatter v) (sc_scatter sc (k_sref K)) (kw K) sb (k_sref K) s /\
     refines (v_acc v) (sc_acc sc (k_sref K)) (kw K) sb (k_sref K) s /\
     refines (v_q v) (sc_q sc (k_sref K)) (kw K) sb (k_sref K) s) /\
  (arrs s !! k_gref K = Some (replicate 64 iv) ->
     refines (v_gather v) (sc_gather sc (k_gref K)) (kw K) gb (k_gref K) s) /\
  (arrs s !! k_gref K = Some (replicate 64 (splat_elem (kw K))) ->
     refines (v_gather_q v) (sc_gather_q sc (k_gref K)) (kw K) gb (k_gref K) s).
Proof.
  intros -> -> -> -> -> Hd HI Ha He Hl Hgb Hg0 Hend.
  assert (is_ref K (k_sref K)) as HS by (by left). assert (is_ref K (k_gref K)) as HG by (by right).
  split_and!; intros Hr; split_and?.
  - destruct (scatter_leaves K d sb gb s l Hd HI Ha Hl) as (m & E & A & O). eexists m, _.
    split_and!; [done|by apply (gen_scatter_eq K d sb gb)|done|done].
  - destruct (acc_leaves K d sb gb s l Hd HI Ha He Hl) as (m & E & A & O). eexists m, _.
    split_and!; [done|by apply (gen_acc_eq K d sb gb)|done|done].
  - destruct (q_leaves K d sb gb s l Hd HI Ha Hl) as (m & E & A & O). eexists m, _.
    split_and!; [done|by apply (gen_q_eq K d sb gb)|done|done].
  - destruct (gather_leaves K d sb gb s l iv Hd HI Ha He Hl Hgb Hg0 Hend) as (m & E & A & O).
    eexists m, _. split_and!; [done|by apply (gen_gather_eq K d sb gb s l iv (k_gref K))|done|done].
  - destruct (gather_q_leaves K d sb gb s l Hd HI Ha He Hl Hgb Hg0 Hend) as (m & E & A & O).
    eexists m, _. split_and!; [done|by apply (gen_gather_q_eq K d sb gb s l (splat_elem (kw K)) (k_gref K))|done|done].
Qed.

End ops.
