(* ===== verification/ScatterMain.v ===== *)
(** The run of [standalone_vec.c]: the tables, the addresses and [main]. *)

From S2P Require Import Prelude HexTest RegFields TlbHw Tlb ByteMem ScatterGather ScatterMem ScatterRun ScatterKinds.

Open Scope string_scope.
Open Scope list_scope.
Open Scope Z_scope.

(* ------------------------------------------------------------------ *)
(** ** The tables *)

(** The first [n] of 64 elements are the values of [f]. *)
Definition filled (f : Z -> Z) (n : Z) (l : list Z) : Prop :=
  length l = 64%nat /\ forall j, 0 <= j < n -> l !! Z.to_nat j = Some (f j).

Definition table (f : Z -> Z) : list Z := f <$> seqZ 0 64.

Lemma filled_0 f l : length l = 64%nat -> filled f 0 l.
Proof. intros Hl. split; [done|]. lia. Qed.

Lemma filled_step f n l : filled f n l -> 0 <= n < 64 -> filled f (n + 1) (<[Z.to_nat n := f n]> l).
Proof.
  intros [Hl Hf] Hn. split; [by rewrite length_insert|]. intros j Hj.
  destruct (decide (j = n)) as [->|Hne].
  - apply list_lookup_insert_eq. lia.
  - rewrite list_lookup_insert_ne by lia. apply Hf. lia.
Qed.

Lemma filled_end f l : filled f 64 l -> l = table f.
Proof.
  intros [Hl Hf]. apply list_eq. intros j. unfold table. rewrite list_lookup_fmap.
  destruct (decide (j < 64)%nat) as [Hj|Hj].
  - rewrite lookup_seqZ_lt by lia. cbn [fmap option_fmap option_map].
    specialize (Hf (Z.of_nat j)). rewrite Nat2Z.id in Hf. apply Hf. lia.
  - rewrite lookup_seqZ_ge by lia. apply lookup_ge_None. lia.
Qed.

(** Two states that differ at most in the arrays named. *)
Record only (A : list string) (s s' : vstate) : Prop := {
  on_vm : vm s' = vm s;
  on_ptrs : ptrs s' = ptrs s;
  on_err : verr s' = verr s;
  on_rep : vreports s' = vreports s;
  on_sys : vsys s' = vsys s;
  on_arrs : forall a, Forall (fun b => a <> b) A -> arrs s' !! a = arrs s !! a
}.

Lemma only_refl A s : only A s s.
Proof. done. Qed.

Lemma only_set A s s' a l : a ∈ A -> only A s s' -> only A s (set_arr a l s').
Proof.
  intros Ha []. split; try done. intros b Hb. rewrite arrs_set_other; [by apply on_arrs0|].
  rewrite Forall_forall in Hb. intros ->. by apply (Hb _ Ha).
Qed.

Lemma only_trans A s1 s2 s3 : only A s1 s2 -> only A s2 s3 -> only A s1 s3.
Proof.
  intros [] []. split; try congruence. intros a Ha. by rewrite on_arrs1, on_arrs0.
Qed.

Definition letter_at (first last : Z) (i : Z) : Z :=
  Nat.iter (Z.to_nat i) (fun x => next_letter x last first) first.

Lemma letter_at_step first last i :
  0 <= i -> next_letter (letter_at first last i) last first = letter_at first last (i + 1).
Proof. intros Hi. unfold letter_at. by rewrite Z2Nat.inj_add, Nat.add_comm by lia. Qed.

Lemma write_step {A} a l i v (k : () -> prog vstate A) s :
  arrs s !! a = Some l -> length l = 64%nat -> 0 <= i < 64 ->
  (write_arr a i v ≫= k) s = k tt (set_arr a (<[Z.to_nat i := v]> l) s).
Proof. intros Ha Hl Hi. apply bind_done. apply write_arr_eq; [done|lia]. Qed.

(** The loop of [create_preds_*]. *)
Definition preds_loop (p : string) (f : Z -> Z) : prog vstate () :=
  for_ 0 MATRIX_SIZE (fun i => write_arr p i (f i)).

Lemma preds_loop_eq p f l s :
  arrs s !! p = Some l -> length l = 64%nat -> preds_loop p f s = Done tt (set_arr p (table f) s).
Proof.
  intros Hp Hl. unfold preds_loop. change MATRIX_SIZE with (Z.of_nat 64).
  rewrite (for_set p (fun l => length l = 64%nat) (fun i l => <[Z.to_nat i := f i]> l) _ 64 l); [|
    |done|done].
  - do 2 f_equal. apply filled_end.
    assert (forall n, (n <= 64)%nat ->
      filled f (Z.of_nat n) (foldl (fun l i => <[Z.to_nat i := f i]> l) l (seqZ 0 (Z.of_nat n)))) as Hf;
      [|by apply (Hf 64%nat)].
    induction n as [|n IH]; intros Hn; [by apply filled_0|].
    rewrite seqZ_S, foldl_app, Z.add_0_l. cbn [foldl].
    replace (Z.of_nat (Datatypes.S n)) with (Z.of_nat n + 1) by lia. apply filled_step; [apply IH|]; lia.
  - intros j l' Hj Hl'. rewrite (write_arr_eq _ l'), set_arr_set; [|apply arrs_set_same|lia].
    by rewrite length_insert.
Qed.

Section create.
Variables (a b c e : string) (f h : Z -> Z) (g : Z -> Z) (q first last : Z).
Context (Hab : a <> b) (Hac : a <> c) (Hae : a <> e) (Hbc : b <> c) (Hbe : b <> e) (Hce : c <> e).

(** The loop of [create_offsets_and_values_*]. *)
Definition create_loop : prog vstate () :=
  for_acc 0 MATRIX_SIZE (fun i letter =>
    write_arr a i (f i);; write_arr b i (g letter);; write_arr c i (h i);; write_arr e i q;;
    mret (next_letter letter last first)) first;;
  mret tt.

Lemma create_loop_spec s :
  Forall (fun a => exists l, arrs s !! a = Some l /\ length l = 64%nat) [a; b; c; e] ->
  exists s', create_loop s = Done tt s' /\ only [a; b; c; e] s s' /\
    arrs s' !! a = Some (table f) /\
    arrs s' !! b = Some (table (fun i => g (letter_at first last i))) /\
    arrs s' !! c = Some (table h) /\ arrs s' !! e = Some (table (fun _ => q)).
Proof.
  intros Hs. rewrite !Forall_cons in Hs. destruct Hs as ((la & Ha & La) & (lb & Hb & Lb) &
    (lc & Hc & Lc) & (le & He & Le) & _).
  set (I := fun (i x : Z) (s' : vstate) => exists la lb lc le,
    only [a; b; c; e] s s' /\ x = letter_at first last i /\
    (arrs s' !! a = Some la /\ filled f i la) /\
    (arrs s' !! b = Some lb /\ filled (fun i => g (letter_at first last i)) i lb) /\
    (arrs s' !! c = Some lc /\ filled h i lc) /\ (arrs s' !! e = Some le /\ filled (fun _ => q) i le)).
  assert (spec create_loop s (fun _ s' => exists x, I 64 x s')) as Hw.
  { unfold create_loop. apply wp_bind. apply (wp_for_acc _ I); [done| | |].
    - exists la, lb, lc, le. split_and!; try done; by apply filled_0.
    - clear la lb lc le Ha Hb Hc He La Lb Lc Le. intros i x s1 Hi (la & lb & lc & le & O & -> & [Ha Fa] & [Hb Fb] & [Hc Fc] & [He Fe]).
      unfold wp. rewrite (write_step a la i) by (done || apply Fa).
      rewrite (write_step b lb i) by (done || apply Fb || by rewrite arrs_set_other).
      rewrite (write_step c lc i) by (done || apply Fc || by rewrite !arrs_set_other).
      rewrite (write_step e le i) by (done || apply Fe || by rewrite !arrs_set_other).
      cbn [mret prog_ret]. exists (<[Z.to_nat i := f i]> la), (<[Z.to_nat i := g (letter_at first last i)]> lb),
        (<[Z.to_nat i := h i]> lc), (<[Z.to_nat i := q]> le). split_and!.
      + by repeat (apply only_set; [rewrite !elem_of_cons; tauto|]).
      + apply letter_at_step. lia.
      + rewrite !arrs_set_other by done. by rewrite arrs_set_same.
      + by apply filled_step.
      + rewrite !arrs_set_other by done. by rewrite arrs_set_same.
      + by apply (filled_step (fun i => g (letter_at first last i))).
      + rewrite !arrs_set_other by done. by rewrite arrs_set_same.
      + by apply filled_step.
      + by rewrite arrs_set_same.
      + by apply (filled_step (fun _ => q)).
    - intros x s' HI. apply wp_ret. by exists x. }
  unfold wp in Hw. destruct (create_loop s) as [[] s'| | |]; try done.
  destruct Hw as (x & la' & lb' & lc' & le' & O & _ & [A1 F1] & [A2 F2] & [A3 F3] & [A4 F4]).
  exists s'. rewrite A1, A2, A3, A4. split_and!; try done; f_equal; by apply filled_end.
Qed.
End create.

(* ------------------------------------------------------------------ *)
(** ** The data of the three kinds *)

Definition acc_of (w i : Z) : Z := uwrap w (Z.shiftl (Z.rem i 10) 8 + Z.rem i 10).
Definition pred_of (w m n i : Z) : Z :=
  if (Z.rem i m =? 0) || (Z.rem i n =? 0) then unot w 0 else 0.

Definition data16 : data :=
  Data (table (fun i => repeat_letter 16 2 (letter_at 65 77 i))) (table (acc_of 16))
    (table (fun _ => repeat_letter 16 2 64)) (table (pred_of 16 3 5)).
Definition data32 : data :=
  Data (table (fun i => repeat_letter 32 4 (letter_at 65 77 i))) (table (acc_of 32))
    (table (fun _ => repeat_letter 32 4 38)) (table (pred_of 32 4 7)).
Definition data16_32 : data :=
  Data (table (fun i => u16 (repeat_letter 32 2 (letter_at 68 80 i)))) (table (acc_of 16))
    (table (fun _ => repeat_letter 16 2 36)) (table (pred_of 16 2 13)).

Ltac by_evaluation := apply (bool_decide_eq_true_1 _); vm_compute; reflexivity.

Lemma data16_ok : data_ok K16 data16.
Proof. split; (split; [done|]); unfold elems_ok; by_evaluation. Qed.
Lemma data32_ok : data_ok K32 data32.
Proof. split; (split; [done|]); unfold elems_ok; by_evaluation. Qed.
Lemma data16_32_ok : data_ok K16_32 data16_32.
Proof. split; (split; [done|]); unfold elems_ok; by_evaluation. Qed.

Lemma offsets16 : table (fun i => u16 (i * (2 * MATRIX_SIZE + 2))) = diag K16.
Proof. vm_compute. reflexivity. Qed.
Lemma offsets32 : table (fun i => u32 (i * (4 * MATRIX_SIZE + 4))) = diag K32.
Proof. vm_compute. reflexivity. Qed.
Lemma offsets16_32 : table (fun i => u32 (i * (2 * MATRIX_SIZE + 2))) = diag K16_32.
Proof. vm_compute. reflexivity. Qed.

(* ------------------------------------------------------------------ *)
(** ** The state between the parts of [main] *)

(** The scratch area of each kind, from the start of VTCM. *)
Definition scatter_at (K : kind) : Z :=
  if decide (kw K = 4%nat) then 8320 else if decide (k_off K = "half_offsets") then 0 else 24960.

Definition tables : list string :=
  ["half_offsets"; "word_offsets"; "half_values"; "half_acc_values"; "half_q_values";
   "word_values"; "word_acc_values"; "word_q_values"; "half_predicates"; "word_predicates"].

Record ready (base : Z) (s : vstate) : Prop := {
  rd_ptr : forall K, K = K16 \/ K = K32 \/ K = K16_32 ->
    ptrs s !! k_saddr K = Some (base + scatter_at K) /\
    ptrs s !! k_gaddr K = Some (base + scatter_at K + Z.of_nat (kw K) * SCATTER_BUFFER_SIZE) /\
    ptrs s !! k_sptr K = Some (base + scatter_at K) /\
    ptrs s !! k_gptr K = Some (base + scatter_at K + Z.of_nat (kw K) * SCATTER_BUFFER_SIZE);
  rd_arr : Forall (fun a => exists l, arrs s !! a = Some l /\ length l = 64%nat) tables;
  rd_err : verr s = 0;
  rd_rep : vreports s = []
}.

Lemma ready_frame K lo hi base s s' :
  Forall (fun a => ~ is_ref K a) tables -> frame K lo hi s s' -> ready base s -> ready base s'.
Proof.
  intros Hf F R. split.
  - intros K' HK'. rewrite (fr_ptrs _ _ _ _ _ F). by apply R.
  - pose proof (rd_arr _ _ R) as Ht. rewrite Forall_forall in *. intros a Ha.
    rewrite (fr_arrs _ _ _ _ _ F) by (by apply Hf). by apply Ht.
  - rewrite (fr_err _ _ _ _ _ F). apply R.
  - rewrite (fr_rep _ _ _ _ _ F). apply R.
Qed.

(** Filling tables keeps the state ready. *)
Lemma ready_only A base s s' :
  only A s s' -> Forall (fun a => exists l, arrs s' !! a = Some l /\ length l = 64%nat) A ->
  ready base s -> ready base s'.
Proof.
  intros O HA R. split.
  - intros K' HK'. rewrite (on_ptrs _ _ _ O). by apply R.
  - pose proof (rd_arr _ _ R) as Ht. rewrite Forall_forall in *. intros a Ha.
    destruct (decide (a ∈ A)) as [Hin|Hout]; [by apply HA|].
    rewrite (on_arrs _ _ _ O); [by apply Ht|]. apply Forall_forall. intros b Hb ->. done.
  - rewrite (on_err _ _ _ O). apply R.
  - rewrite (on_rep _ _ _ O). apply R.
Qed.

(** The region of a kind is full of [FILL_CHAR]. *)
Definition blank (base : Z) (K : kind) (m : mem) : Prop :=
  forall b, base + scatter_at K <= b < base + scatter_at K + Z.of_nat (kw K) * SCATTER_BUFFER_SIZE ->
    mget m b = FILL_CHAR.

Section run_kind.
Context (K : kind) `{HK : !kind_ok K} (v : vec_ops) `{HV : !vec_laws K v}.
Context (HKs : K = K16 \/ K = K32 \/ K = K16_32).
Context (d : data) (Hd : data_ok K d).
Context (f h : Z -> Z) (g : Z -> Z) (q first last : Z) (p : Z -> Z).
Context (Hfresh : Forall (fun a => ~ is_ref K a) tables).
Context (Hnames : NoDup [k_off K; k_val K; k_acc K; k_q K; k_pred K]).
Context (Hin : Forall (fun a => a ∈ tables) [k_off K; k_val K; k_acc K; k_q K; k_pred K]).
Context (Hoff : table f = diag K) (Hval : table (fun i => g (letter_at first last i)) = d_val d).
Context (Hacc : table h = d_acc d) (Hq : table (fun _ => q) = d_q d) (Hp : table p = d_pred d).

(** The tables, the predicates and the five vector routines with their checks. *)
Definition kind_run (n1 n2 n3 n4 n5 : string) : prog vstate () :=
  create_loop (k_off K) (k_val K) (k_acc K) (k_q K) f h g q first last;;
  preds_loop (k_pred K) p;;
  gen_run K v n1 n2 n3 n4 n5.

Definition end_of : Z := scatter_at K + Z.of_nat (kw K) * SCATTER_BUFFER_SIZE + Z.of_nat (kw K) * 64.

Lemma table_length f' : length (table f') = 64%nat.
Proof. unfold table. by rewrite length_fmap, length_seqZ. Qed.

Lemma kind_run_ok base s n1 n2 n3 n4 n5 :
  ready base s -> blank base K (vm s) -> 0 <= base -> base + end_of <= 2 ^ 32 -> 0 <= scatter_at K ->
  exists s', kind_run n1 n2 n3 n4 n5 s = Done tt s' /\ ready base s' /\ vsys s' = vsys s /\
    (forall b, ~ (base + scatter_at K <= b < base + end_of) -> mget (vm s') b = mget (vm s) b).
Proof.
  intros R B H0 Hend Hs. unfold end_of in *.
  rewrite !NoDup_cons, !not_elem_of_cons in Hnames. rewrite !Forall_cons in Hin.
  destruct Hnames as ((N1 & N2 & N3 & N4 & _) & (N5 & N6 & N7 & _) & (N8 & N9 & _) & (N10 & _) & _).
  destruct Hin as (I1 & I2 & I3 & I4 & I5 & _). pose proof (rd_arr _ _ R) as Ht.
  rewrite Forall_forall in Ht.
  destruct (create_loop_spec (k_off K) (k_val K) (k_acc K) (k_q K) f h g q first last N1 N2 N3 N5 N6 N8 s)
    as (s1 & E1 & O1 & A1 & A2 & A3 & A4); [rewrite !Forall_cons; split_and!; [by apply Ht..|done]|].
  assert (ready base s1) as R1.
  { apply (ready_only _ _ _ _ O1); [|done].
    rewrite !Forall_cons. split_and!; [eexists; split; [eassumption|apply table_length]..|done]. }
  destruct (Ht _ I5) as (lp & Hlp & Llp).
  assert (arrs s1 !! k_pred K = Some lp) as Hlp1.
  { rewrite (on_arrs _ _ _ O1); [done|]. rewrite !Forall_cons. split_and!; try done; congruence. }
  pose proof (preds_loop_eq (k_pred K) p lp s1 Hlp1 Llp) as E2.
  set (s2 := set_arr (k_pred K) (table p) s1) in *.
  assert (ready base s2) as R2.
  { apply (ready_only [k_pred K] _ s1); [|rewrite Forall_singleton|done].
    - apply only_set; [by left|done].
    - exists (table p). split; [apply arrs_set_same|apply table_length]. }
  destruct (rd_ptr _ _ R2 K HKs) as (P1 & P2 & P3 & P4).
  assert (kind_inv K d (base + scatter_at K)
    (base + scatter_at K + Z.of_nat (kw K) * SCATTER_BUFFER_SIZE) s2) as HI.
  { rewrite Hoff in A1. rewrite Hval in A2. rewrite Hacc in A3. rewrite Hq in A4.
    split; try done; unfold s2; [by rewrite arrs_set_other by congruence..|].
    by rewrite arrs_set_same, Hp. }
  assert (vm s2 = vm s) as Evm by (by rewrite <- (on_vm _ _ _ O1)).
  destruct (gen_run_stage K v d (base + scatter_at K)
    (base + scatter_at K + Z.of_nat (kw K) * SCATTER_BUFFER_SIZE) Hd eq_refl) with
    (n1 := n1) (n2 := n2) (n3 := n3) (n4 := n4) (n5 := n5) (s := s2) as (s3 & E3 & F3 & _);
    [change SCATTER_BUFFER_SIZE with 4096 in *; lia|lia|done| |].
  { apply buf0_array; [done|]. intros b Hb. rewrite Evm. by apply B. }
  exists s3. split_and!.
  - unfold kind_run. by rewrite (bind_done _ _ _ _ _ E1), (bind_done _ _ _ _ _ E2).
  - by eapply ready_frame.
  - rewrite (fr_sys _ _ _ _ _ F3). by rewrite <- (on_sys _ _ _ O1).
  - intros b Hb. rewrite (fr_mem _ _ _ _ _ F3), Evm; [done|]. unfold hi. lia.
Qed.
End run_kind.

(* ------------------------------------------------------------------ *)
(** ** The addresses, and the whole run *)

Lemma write_ptr_eq a v s : write_ptr a v s = Done tt (set_ptr a v s).
Proof. done. Qed.

Lemma ptrs_set_same a v s : ptrs (set_ptr a v s) !! a = Some v.
Proof. apply lookup_insert_eq. Qed.

Lemma ptrs_set_other a b v s : a <> b -> ptrs (set_ptr a v s) !! b = ptrs s !! b.
Proof. intros. by apply lookup_insert_ne. Qed.

(** A pointer variable, through the assignments made after its own. *)
Ltac ptr_lookup := repeat first [apply ptrs_set_same | rewrite ptrs_set_other by discriminate].

Ltac tcm_step :=
  match goal with
  | |- (mbind _ (write_ptr ?a ?v)) ?st = _ =>
      refine (eq_trans (bind_done _ _ _ _ _ (write_ptr_eq a v st)) _)
  | |- write_ptr _ _ _ = _ => refine (eq_trans (write_ptr_eq _ _ _) _)
  | |- (mbind _ (read_ptr ?a)) ?st = _ =>
      refine (eq_trans (bind_done _ _ _ _ _ (read_ptr_eq a _ st ltac:(ptr_lookup))) _)
  end; cbv beta.

Lemma scatter_at_16 : scatter_at K16 = 0. Proof. reflexivity. Qed.
Lemma scatter_at_32 : scatter_at K32 = 8320. Proof. reflexivity. Qed.
Lemma scatter_at_16_32 : scatter_at K16_32 = 24960. Proof. reflexivity. Qed.

(** Addresses inside the scratch area do not wrap. *)
Lemma scratch_addr b x c d :
  0 <= b -> b + 34816 <= 2 ^ 32 -> x + c = b + d -> 0 <= d <= 34816 - 1 -> u32 (x + c) = b + d.
Proof. intros ? ? -> ?. apply uwrap_id. unfold in_u. lia. Qed.

Ltac scratch := apply scratch_addr;
  unfold SCATTER16_BUF_SIZE, SCATTER32_BUF_SIZE, GATHER16_BUF_SIZE, GATHER32_BUF_SIZE,
    SCATTER_BUFFER_SIZE, MATRIX_SIZE; lia.

Lemma initial_tables : Forall (fun a => initial_arrays !! a = Some (replicate 64 0)) tables.
Proof. by_evaluation. Qed.

Section main.
Context `{HvxLaws} `{TlbSearchLaws} (arch cfg_vtcm : Z).
Abbreviation base := (get_vtcm_base arch cfg_vtcm).

(** What the start-up code left in the machine. *)
Record booted (h : sys) : Prop := {
  bt_wf : tlb_wf (tlb h);
  bt_fixed : in_u 31 (tlb_fixed_entries h);
  bt_user : 0 < tlb_fixed_entries h;
  bt_len : tlb_fixed_entries h <= Z.of_nat (length (tlb h))
}.

(** The machine after the translation of VTCM was asked for. *)
Definition translated (h : sys) : sys :=
  if decide (user_index h 1)
  then set_tlb (<[1%nat := extended_entry arch base base 8 15 7 0 0 3]>
                 (drop_match (tlb h) (probe_of (cur_asid h) base))) h
  else h.

Lemma setup_translation_eq s :
  booted (vsys s) -> in_u 32 base ->
  setup_translation arch base base s = Done tt (set_vsys (translated (vsys s)) s).
Proof.
  intros [] Hb. unfold setup_translation, translated. destruct (decide _) as [Hu|Hu].
  - by rewrite add_translation_extended_ok by done.
  - by rewrite add_translation_extended_reject by (done || lia).
Qed.

Definition set_ptrs (l : list (string * Z)) (s : vstate) : vstate :=
  foldl (fun s x => set_ptr x.1 x.2 s) s l.

Lemma setup_tcm_ready s :
  booted (vsys s) -> 0 <= base -> base + SCRATCH_SIZE <= 2 ^ 32 ->
  Forall (fun a => exists l, arrs s !! a = Some l /\ length l = 64%nat) tables ->
  verr s = 0 -> vreports s = [] ->
  exists s', setup_tcm arch cfg_vtcm s = Done tt s' /\ ready base s' /\ vm s' = vm s /\
    vsys s' = translated (vsys s) /\ ptrs s' !! "VTCM_BASE_ADDRESS" = Some base.
Proof.
  intros Hbt H0b Hend Ha Hv Hr. change SCRATCH_SIZE with 34816 in Hend.
  assert (in_u 32 base) as Hb by (unfold in_u; lia).
  assert (u32 (base + SCATTER16_BUF_SIZE) = base + 8192) as E1 by scratch.
  assert (u32 (base + 8192 + GATHER16_BUF_SIZE) = base + 8320) as E2 by scratch.
  assert (u32 (base + 8320 + SCATTER32_BUF_SIZE) = base + 24704) as E3 by scratch.
  assert (u32 (base + 24704 + GATHER32_BUF_SIZE) = base + 24960) as E4 by scratch.
  assert (u32 (base + 24960 + SCATTER16_BUF_SIZE) = base + 33152) as E5 by scratch.
  eexists. split; [|split; [|split_and!]].
  - unfold setup_tcm. do 2 tcm_step.
    refine (eq_trans (bind_done _ _ _ _ _ (setup_translation_eq (set_ptr _ _ s) Hbt Hb)) _).
    cbv beta. repeat tcm_step. reflexivity.
  - split; try done. intros K HK. cbn [ptrs set_vsys].
    destruct HK as [-> | [-> | ->]]; split_and!; repeat rewrite ptrs_set_other by discriminate;
      rewrite ptrs_set_same; f_equal;
      rewrite ?scatter_at_16, ?scatter_at_32, ?scatter_at_16_32, ?E1, ?E2, ?E3, ?E4, ?E5;
      unfold SCATTER_BUFFER_SIZE, MATRIX_SIZE; cbn [kw K16 K32 K16_32]; lia.
  - done.
  - done.
  - repeat rewrite ptrs_set_other by discriminate. cbn [ptrs set_vsys]. apply ptrs_set_same.
Qed.

(** The parts of [main] are runs of their kinds. *)
Lemma run_16_eq :
  run_16 = kind_run K16 vec16 (fun i => u16 (i * (2 * MATRIX_SIZE + 2))) (acc_of 16)
    (repeat_letter 16 2) (repeat_letter 16 2 64) 65 77 (pred_of 16 3 5)
    "check_scatter_16" "check_gather_16" "check_gather_q_16" "check_scatter_acc_16"
    "check_scatter_q_16".
Proof. reflexivity. Qed.

Lemma run_32_eq :
  run_32 = kind_run K32 vec32 (fun i => u32 (i * (4 * MATRIX_SIZE + 4))) (acc_of 32)
    (repeat_letter 32 4) (repeat_letter 32 4 38) 65 77 (pred_of 32 4 7)
    "check_scatter_32" "check_gather_32" "check_gather_q_32" "check_scatter_acc_32"
    "check_scatter_q_32".
Proof. reflexivity. Qed.

Lemma run_16_32_eq :
  run_16_32 = kind_run K16_32 vec16_32 (fun i => u32 (i * (2 * MATRIX_SIZE + 2))) (acc_of 16)
    (fun l => u16 (repeat_letter 32 2 l)) (repeat_letter 16 2 36) 68 80 (pred_of 16 2 13)
    "check_scatter_16_32" "check_gather_16_32" "check_gather_q_16_32" "check_scatter_acc_16_32"
    "check_scatter_q_16_32".
Proof. reflexivity. Qed.

Ltac names := unfold is_ref, tables; cbn; repeat constructor; intros [? | ?]; discriminate.

Lemma part_ok K v d f h g q first last p n1 n2 n3 n4 n5 s
    `{HK : !kind_ok K} `{HV : !vec_laws K v} :
  data_ok K d -> (K = K16 \/ K = K32 \/ K = K16_32) ->
  table f = diag K -> table (fun i => g (letter_at first last i)) = d_val d ->
  table h = d_acc d -> table (fun _ => q) = d_q d -> table p = d_pred d ->
  ready base s -> blank base K (vm s) -> 0 <= base -> base + SCRATCH_SIZE <= 2 ^ 32 ->
  exists s', kind_run K v f h g q first last p n1 n2 n3 n4 n5 s = Done tt s' /\ ready base s' /\
    vsys s' = vsys s /\
    (forall b, ~ (base + scatter_at K <= b < base + end_of K) -> mget (vm s') b = mget (vm s) b).
Proof.
  intros Hd HKs Hoff Hval Hacc Hq Hp R B H0b Hend. change SCRATCH_SIZE with 34816 in Hend.
  apply (kind_run_ok K v HKs d); try done.
  - destruct HKs as [-> | [-> | ->]]; names.
  - destruct HKs as [-> | [-> | ->]]; by_evaluation.
  - destruct HKs as [-> | [-> | ->]]; by_evaluation.
  - unfold end_of. destruct HKs as [-> | [-> | ->]];
      rewrite ?scatter_at_16, ?scatter_at_32, ?scatter_at_16_32;
      unfold SCATTER_BUFFER_SIZE, MATRIX_SIZE; cbn [kw K16 K32 K16_32]; lia.
  - destruct HKs as [-> | [-> | ->]]; done.
Qed.

Lemma ends : end_of K16 = 8320 /\ end_of K32 = 24960 /\ end_of K16_32 = 33280.
Proof. done. Qed.

Lemma blank_prefilled K m m' :
  (forall b, base + scatter_at K <= b < base + end_of K -> mget m' b = mget m b) ->
  blank base K m -> blank base K m'.
Proof.
  intros He Hb b Hr. rewrite He; [by apply Hb|]. unfold end_of. lia.
Qed.

End main.

(* ------------------------------------------------------------------ *)
(** ** A vector unit that performs its lanes from the last to the first *)

Module SeqHvx.

Fixpoint interleave {A} (l k : list A) : list A :=
  match l, k with x :: l, y :: k => x :: y :: interleave l k | _, _ => [] end.

#[export] Instance seq_hvx : Hvx := {
  Q6_vscatter w m base len lanes := foldr (lane_write w base len) m lanes;
  Q6_vscatteracc w m base len lanes := foldr (lane_acc w base len) m lanes;
  Q6_vgather w m dst base len lanes := foldr (lane_gather w dst base len m) m lanes;
  Q6_Q_vand w l := (fun v => truth v) <$> l;
  Q6_Vh_vshuff l := interleave (take 32 l) (drop 32 l);
  Q6_Vh_vdeal l := evens l ++ odds l
}.

Lemma interleave_spec {A} (l k : list A) :
  length l = length k -> evens (interleave l k) = l /\ odds (interleave l k) = k.
Proof.
  revert k. induction l as [|x l IH]; intros [|y k] Hl; try done.
  cbn [interleave evens odds]. destruct (IH k) as [-> ->]; [by injection Hl|done].
Qed.

#[export] Instance seq_hvx_laws : HvxLaws.
Proof.
  split; cbn; try (intros; by eexists); try done.
  intros l Hl. apply interleave_spec. rewrite length_take, length_drop. lia.
Qed.

End SeqHvx.

Section demo.
Import SeqHvx ArrayTlb.


(** A state with the tables of the 16-bit kind and a blank scatter region. *)
Definition demo_vec : vstate :=
  VState (memset ∅ 0 FILL_CHAR 8192)
    (list_to_map [("half_offsets", diag K16); ("half_values", d_val data16);
       ("half_acc_values", d_acc data16); ("half_q_values", d_q data16);
       ("half_predicates", d_pred data16); ("vscatter16_ref", buf0 K16)])
    (list_to_map [("VTCM_SCATTER16_ADDRESS", 0); ("VTCM_GATHER16_ADDRESS", 8192);
       ("vscatter16", 0); ("vgather16", 8192)]) 0 [] demo_sys.

End demo.
