(* ===== verification/MinLibc.v ===== *)
(** [crt0/min_libc.c]: the small C library the tests run on: memory and string
    functions, number formatting, [printf] over the semihosting interface, and
    the splitting of the command line. *)

From S2P Require Import Prelude ByteMem.
From Stdlib Require Ascii String.

Open Scope string_scope.
Open Scope list_scope.
Open Scope Z_scope.

(** A [char *]: an address in memory, or an object of the program that is only
    read (a string literal, a local whose address is passed on). *)
Inductive ptr := Mem (a : Z) | Obj (bytes : list Z).

(** Byte [i] behind a pointer. *)
Definition rd (m : mem) (p : ptr) (i : Z) : option Z :=
  match p with Mem a => Some (mget m (a + i)) | Obj l => lookupZ l i end.

(** The bytes of a string constant, without and with its terminator. *)
Definition bytes_of (s : string) : list Z :=
  (fun c => Z.of_nat (Ascii.nat_of_ascii c)) <$> String.list_ascii_of_string s.
Definition lit (s : string) : ptr := Obj (bytes_of s ++ [0]).
Definition lit_line (s : string) : ptr := Obj (bytes_of s ++ [10; 0]).

(** Memory, what the host has been given to print, and the globals the
    semihosting macros use. *)
Record lstate := LState { lmem : mem; lout : list Z; swi_ret : Z; swi_err : Z }.

Definition set_mem (m : mem) (s : lstate) : lstate := LState m (lout s) (swi_ret s) (swi_err s).

(** The host behind [trap0(#0)]: it gets a code, two registers and the memory,
    and returns two registers, the memory and what it printed.  The documented
    behaviour of the three calls the library makes. *)
Definition HEX_SYS_WRITEC : Z := 0x03.
Definition HEX_SYS_WRITE0 : Z := 0x04.
Definition HEX_SYS_GET_CMDLINE : Z := 0x15.

(** A C string: no byte of it is 0, and a 0 follows. *)
Record cstr (m : mem) (p : ptr) (l : list Z) : Prop := {
  cs_bytes : Forall (fun c => 0 < c < 256) l;
  cs_at : forall i c, l !! i = Some c -> rd m p (Z.of_nat i) = Some c;
  cs_end : rd m p (Z.of_nat (length l)) = Some 0
}.

Class Semihost := {
  trap0 : Z -> ptr -> Z -> mem -> Z * Z * mem * list Z;
  cmdline : list Z
}.

Class SemihostLaws `{Semihost} : Prop := {
  writec_prints p r2 m c :
    rd m p 0 = Some c -> exists r e, trap0 HEX_SYS_WRITEC p r2 m = (r, e, m, [c]);
  write0_prints p r2 m l :
    cstr m p l -> exists r e, trap0 HEX_SYS_WRITE0 p r2 m = (r, e, m, l);
  cmdline_copies a r2 m :
    Forall (fun c => 0 < c < 256) cmdline ->
    Z.of_nat (length cmdline) < load 4 m (a + 4) ->
    exists e, trap0 HEX_SYS_GET_CMDLINE (Mem a) r2 m =
      (0, e, write_bytes m (load 4 m a) (cmdline ++ [0]), [])
}.

(** A value of the variable argument list. *)
Inductive va := VInt (n : Z) | VPtr (p : ptr) | VU64 (n : Z).

Section min_libc.
Context `{Semihost}.
(** The rounds allowed to a loop over a string or a number. *)
Variable fuel : nat.
(** Where the linker puts the static buffers and [swi_args]; where [getcmdline]
    has its local [buf]. *)
Variables num_buf pad_buf swi_args_addr cmd_buf : Z.

Definition stdout : Z := 1.
Definition exit {A} (code : Z) : prog lstate A := exit_with code.

(** Reading a byte; writing one. *)
Definition rdp (p : ptr) (i : Z) : prog lstate Z :=
  m ← gets lmem; of_option (rd m p i).
Definition wr (a c : Z) : prog lstate () :=
  modify (fun s => set_mem (store 1 (lmem s) a c) s).

Definition memset (b c len : Z) : prog lstate Z :=
  for_ 0 len (fun i => wr (b + i) (u8 c));; mret b.

Definition memcmp (p1 p2 : ptr) (n : Z) : prog lstate Z :=
  iter (Datatypes.S (Z.to_nat n)) (fun '(i, n) =>
    if truth n then
      a ← rdp p1 i; b ← rdp p2 i;
      if a =? b then mret (inl (i + 1, n - 1)) else mret (inr (a - b))
    else mret (inr 0)) (0, n).

(** *** Semihosting *)

Definition DO_SWI (code : Z) (arg0 : ptr) (arg1 : Z) : prog lstate () :=
  modify (fun s =>
    let '(r, e, m, out) := trap0 code arg0 arg1 (lmem s) in LState m (lout s ++ out) r e).

Definition DIRECT_SWI (code : Z) (arg : ptr) : prog lstate Z :=
  DO_SWI code arg 0;; gets swi_ret.

Definition SWI2 (code arg0 arg1 : Z) : prog lstate Z :=
  modify (fun s => set_mem (store 4 (lmem s) (swi_args_addr + 4) (u32 arg1)) s);;
  modify (fun s => set_mem (store 4 (lmem s) swi_args_addr (u32 arg0)) s);;
  DO_SWI code (Mem swi_args_addr) 0;;
  gets swi_ret.

Definition puts (str : ptr) : prog lstate Z :=
  DIRECT_SWI HEX_SYS_WRITE0 str;;
  DIRECT_SWI HEX_SYS_WRITE0 (Obj [10; 0]);;
  mret 0.

Definition fputs (str : ptr) (f : Z) : prog lstate Z :=
  cassert (f =? stdout);;
  DIRECT_SWI HEX_SYS_WRITE0 str;;
  mret 0.

(** Pointer arithmetic. *)
Definition ptr_add (p : ptr) (i : Z) : prog lstate ptr :=
  match p with
  | Mem a => mret (Mem (a + i))
  | Obj l => if (0 <=? i) && (i <=? Z.of_nat (length l)) then mret (Obj (drop (Z.to_nat i) l)) else undef
  end.

Definition fwrite (p : ptr) (size nitems f : Z) : prog lstate Z :=
  cassert (f =? stdout);;
  for_ 0 (u32 (size * nitems)) (fun i => q ← ptr_add p i; DIRECT_SWI HEX_SYS_WRITEC q;; mret tt);;
  mret (u32 (size * nitems)).

(** The four bytes of a local [int]. *)
Definition int_bytes (c : Z) : list Z := (fun k => byte_of c k) <$> [0; 1; 2; 3].

Definition putchar (c : Z) : prog lstate Z :=
  DIRECT_SWI HEX_SYS_WRITEC (Obj (int_bytes c));; mret c.

(** *** Strings *)

Definition strlen (s : ptr) : prog lstate Z :=
  iter fuel (fun len =>
    c ← rdp s len;
    if truth c then mret (inl (u32 (len + 1))) else mret (inr len)) 0.

Definition strcpy (dst : Z) (src : ptr) : prog lstate Z :=
  i ← iter fuel (fun i =>
    c ← rdp src i;
    if truth c then wr (dst + i) c;; mret (inl (i + 1)) else mret (inr i)) 0;
  wr (dst + i) 0;;
  mret dst.

Definition strcmp (s1 s2 : ptr) : prog lstate Z :=
  i ← iter fuel (fun i =>
    a ← rdp s1 i;
    if truth a then
      b ← rdp s2 i;
      if a =? b then mret (inl (i + 1)) else mret (inr i)
    else mret (inr i)) 0;
  a ← rdp s1 i; b ← rdp s2 i;
  mret (a - b).

(** The index of the last occurrence, [None] for a null pointer. *)
Definition strrchr (s : ptr) (c : Z) : prog lstate (option Z) :=
  len ← strlen s;
  iter (Datatypes.S (Z.to_nat len)) (fun i =>
    if 0 <=? i then
      x ← rdp s i;
      if x =? c then mret (inr (Some i)) else mret (inl (i - 1))
    else mret (inr None)) (len - 1).

(** *** Numbers *)

(** [k] is the number of characters written to [buffer] so far. *)
Definition num_digits (num base k : Z) : prog lstate ptr :=
  if negb (truth num) then mret (lit "0")
  else
    divider ← iter fuel (fun '(n, divider) =>
      if base <=? n then mret (inl (n / base, u64 (divider * base))) else mret (inr divider))
      (num, 1);
    k ← iter fuel (fun '(num, divider, k) =>
      if truth num then
        let digit := u32 (num / divider) in
        if truth digit then
          let num := num mod divider in
          let divider := divider / base in
          wr (num_buf + k) (if 10 <=? digit then 97 + (digit - 10) else 48 + digit);;
          '(divider, k) ← iter fuel (fun '(divider, k) =>
            if num <? divider then wr (num_buf + k) 48;; mret (inl (divider / base, k + 1))
            else mret (inr (divider, k))) (divider, k + 1);
          mret (inl (num, divider, k))
        else mret (inl (num, divider / base, k))
      else mret (inr k)) (num, divider, k);
    wr (num_buf + k) 0;;
    mret (Mem num_buf).

Definition num_to_s (signed_num base : Z) : prog lstate ptr :=
  if base =? 16 then num_digits signed_num base 0
  else if base =? 10 then
    if signed_num <? 0 then
      wr num_buf 45;; num_digits (u64 (signed_num * -1)) base 1
    else num_digits signed_num base 0
  else puts (lit "fatal: num_to_s expects base 16 or 10");; exit 1.

(** The new position in the format when [prefix] follows at [i]. *)
Definition advance_prefix (str : ptr) (i : Z) (prefix : ptr) : prog lstate (option Z) :=
  j ← iter fuel (fun j =>
    a ← rdp str (i + j);
    if truth a then
      b ← rdp prefix j;
      if a =? b then mret (inl (j + 1)) else mret (inr j)
    else mret (inr j)) 0;
  b ← rdp prefix j;
  mret (if negb (truth b) then Some (i + j - 1) else None).

Definition pad0 (str : ptr) (n : Z) : prog lstate ptr :=
  len ← strlen str;
  cassert (n <? 1024);;
  for_ 0 (n - len) (fun i => wr (pad_buf + i) 48);;
  strcpy (pad_buf + Z.max 0 (n - len)) str;;
  mret (Mem pad_buf).

(** *** printf *)

Definition va_int (ap : list va) : prog lstate (Z * list va) :=
  match ap with VInt n :: ap => mret (n, ap) | _ => undef end.
Definition va_ptr (ap : list va) : prog lstate (ptr * list va) :=
  match ap with VPtr p :: ap => mret (p, ap) | _ => undef end.
Definition va_u64 (ap : list va) : prog lstate (Z * list va) :=
  match ap with VU64 n :: ap => mret (n, ap) | _ => undef end.

(** The default case of the switch. *)
Definition bad_modifier {A} (c : Z) : prog lstate A :=
  fputs (lit "fatal: unknown printf modifier '") stdout;;
  putchar c;;
  puts (lit "'");;
  exit 1.

(** One round of the loop, at character [i] of the format. *)
Definition printf_round (format : ptr) (i : Z) (ap : list va) : prog lstate (Z * list va + Z) :=
  c ← rdp format i;
  if negb (truth c) then mret (inr 1)
  else if c =? 37 then
    let i := i + 1 in
    c ← rdp format i;
    if (c =? 100) || (c =? 120) || (c =? 112) then
      '(num, ap) ← va_int ap;
      p ← num_to_s (u64 num) (if c =? 100 then 10 else 16);
      fputs p stdout;;
      mret (inl (i + 1, ap))
    else if c =? 115 then
      '(p, ap) ← va_ptr ap; fputs p stdout;; mret (inl (i + 1, ap))
    else if c =? 99 then
      '(n, ap) ← va_int ap; putchar n;; mret (inl (i + 1, ap))
    else if c =? 37 then
      putchar 37;; mret (inl (i + 1, ap))
    else if c =? 48 then
      r ← advance_prefix format i (lit "016llx");
      match r with
      | Some i =>
          '(num, ap) ← va_u64 ap;
          p ← num_to_s num 16; q ← pad0 p 16; fputs q stdout;;
          mret (inl (i + 1, ap))
      | None => bad_modifier c
      end
    else bad_modifier c
  else putchar c;; mret (inl (i + 1, ap)).

Definition printf (format : ptr) (ap : list va) : prog lstate Z :=
  iter fuel (fun '(i, ap) => printf_round format i ap) (0, ap).

Definition __assert_fail {A} (assertion file : ptr) (line : Z) (function : ptr) : prog lstate A :=
  printf (lit_line "ASSERT fail '%s' at file '%s' line %d function %s")
    [VPtr assertion; VPtr file; VInt line; VPtr function];;
  exit 1.

(** *** The command line *)

Definition MAX_ARGS : Z := 15.

(** [argc] and the addresses of the arguments. *)
Definition getcmdline : prog lstate (Z * list Z) :=
  r ← SWI2 HEX_SYS_GET_CMDLINE cmd_buf 4096;
  cassert (negb (truth r));;
  argc ← iter fuel (fun '(i, argc) =>
    c ← rdp (Mem cmd_buf) i;
    if truth c then
      d ← rdp (Mem cmd_buf) (i + 1);
      mret (inl (i + 1, if (c =? 32) && truth d then argc + 1 else argc))
    else mret (inr argc)) (0, 1);
  cassert (argc <=? MAX_ARGS);;
  if argc =? 0 then mret (argc, [])
  else
    args ← iter fuel (fun '(i, args) =>
      c ← rdp (Mem cmd_buf) i;
      if truth c then
        if c =? 32 then
          wr (cmd_buf + i) 0;;
          mret (inl (i + 1, if Z.of_nat (length args) <? argc then args ++ [cmd_buf + i + 1] else args))
        else mret (inl (i + 1, args))
      else mret (inr args)) (0, [cmd_buf]);
    mret (argc, args).

End min_libc.

(* ------------------------------------------------------------------ *)
(** ** Memory and string functions *)

Lemma rdp_eq p i c s : rd (lmem s) p i = Some c -> rdp p i s = Done c s.
Proof. intros E. unfold rdp, gets, mbind, prog_bind. by rewrite E. Qed.

Lemma wr_eq a c s : wr a c s = Done tt (set_mem (<[a := c mod 256]> (lmem s)) s).
Proof. done. Qed.

(** Bytes readable behind a pointer. *)
Definition reads (m : mem) (p : ptr) (l : list Z) : Prop :=
  forall i c, l !! i = Some c -> rd m p (Z.of_nat i) = Some c.

Lemma cstr_reads m p l : cstr m p l -> reads m p (l ++ [0]).
Proof.
  intros [_ Ha He] i c [Hi|[Hle Hi]]%lookup_app_Some; [by apply Ha|].
  apply list_lookup_singleton_Some in Hi as [Hi <-].
  replace i with (length l) by lia. done.
Qed.

Lemma cstr_nonzero m p l i c : cstr m p l -> l !! i = Some c -> c <> 0.
Proof. intros [Hb _ _] Hi. rewrite Forall_lookup in Hb. specialize (Hb _ _ Hi). lia. Qed.

Lemma truth_nonzero c : c <> 0 -> truth c = true.
Proof. intros Hc. unfold truth. by destruct (Z.eqb_spec c 0). Qed.

Ltac run_with lem := refine (eq_trans (bind_done _ _ _ _ _ lem) _); cbv beta.

Section strings.
Context (fuel : nat).

(** C38: memset fills exactly the [len] bytes from [b] with the low byte of [c],
    and returns [b]. *)
Theorem memset_spec b c len s :
  0 <= len ->
  exists m, memset b c len s = Done b (set_mem m s) /\
    forall a, mget m a = if (b <=? a) && (a <? b + len) then u8 c else mget (lmem s) a.
Proof.
  intros Hl. unfold memset, for_. rewrite Z.sub_0_r.
  assert (forall n i s, for_up n i (fun i => wr (b + i) (u8 c)) s =
    Done tt (set_mem (foldl (fun m i => <[b + i := u8 c]> m) (lmem s) (seqZ i (Z.of_nat n))) s)) as Hf.
  { induction n as [|n IH]; intros i s0; cbn [for_up].
    - rewrite seqZ_nil by done. by destruct s0.
    - run_with (wr_eq (b + i) (u8 c) s0). rewrite IH, (seqZ_cons i) by lia. cbn [foldl lmem set_mem].
      assert (u8 c mod 256 = u8 c) as -> by (apply Z.mod_small, Z.mod_pos_bound; lia).
      by replace (Z.pred (Z.of_nat (Datatypes.S n))) with (Z.of_nat n) by lia. }
  eexists. split; [run_with (Hf (Z.to_nat len) 0 s); reflexivity|].
  intros a. rewrite Z2Nat.id by done. apply (mget_memset (lmem s) b c len a).
Qed.

(** The first index where two lists differ. *)
Fixpoint mismatch (l k : list Z) : option (Z * Z) :=
  match l, k with
  | a :: l, b :: k => if a =? b then mismatch l k else Some (a, b)
  | _, _ => None
  end.

Lemma mismatch_take l k n a b :
  l !! n = Some a -> k !! n = Some b -> take n l = take n k ->
  mismatch l k = if a =? b then mismatch (drop (Datatypes.S n) l) (drop (Datatypes.S n) k) else Some (a, b).
Proof.
  revert l k. induction n as [|n IH]; intros [|x l] [|y k] Ha Hb Ht; try done.
  - by injection Ha as <-; injection Hb as <-.
  - cbn [take] in Ht. injection Ht as <- Ht. cbn [mismatch]. rewrite Z.eqb_refl. by apply IH.
Qed.

(** C37: memcmp of two readable ranges returns 0 when they are equal and the
    difference of the first bytes that differ otherwise; it changes nothing. *)
Theorem memcmp_spec p1 p2 l k s :
  reads (lmem s) p1 l -> reads (lmem s) p2 k -> length l = length k ->
  memcmp p1 p2 (Z.of_nat (length l)) s =
    Done (match mismatch l k with Some (a, b) => a - b | None => 0 end) s.
Proof.
  intros H1 H2 Hl. unfold memcmp. rewrite Nat2Z.id.
  assert (forall n i f, (i + n = length l)%nat -> (n < f)%nat ->
    iter f (fun '(i, n) => if truth n then a ← rdp p1 i; b ← rdp p2 i;
      if a =? b then mret (inl (i + 1, n - 1)) else mret (inr (a - b)) else mret (inr 0))
      (Z.of_nat i, Z.of_nat n) s =
    Done (match mismatch (drop i l) (drop i k) with Some (a, b) => a - b | None => 0 end) s) as Hn.
  { induction n as [|n IH]; intros i [|f] Hi Hf; try lia; cbn [iter].
    - rewrite drop_ge by lia. done.
    - destruct (lookup_lt_is_Some_2 l i) as [a Ha]; [lia|].
      destruct (lookup_lt_is_Some_2 k i) as [b Hb]; [lia|].
      rewrite (drop_S l a i Ha), (drop_S k b i Hb). cbn [mismatch].
      rewrite truth_nonzero by lia.
      unfold mbind at 1, prog_bind at 1. rewrite (bind_done _ _ _ _ _ (rdp_eq _ _ _ s (H1 _ _ Ha))).
      rewrite (bind_done _ _ _ _ _ (rdp_eq _ _ _ s (H2 _ _ Hb))).
      destruct (a =? b); [|done]. cbn [mret prog_ret].
      rewrite <- (IH (Datatypes.S i) f) by lia. do 3 f_equal; lia. }
  rewrite (Hn (length l) 0%nat) by lia. done.
Qed.

Lemma strlen_eq p l s :
  cstr (lmem s) p l -> (length l < fuel)%nat -> Z.of_nat (length l) < 2 ^ 32 ->
  strlen fuel p s = Done (Z.of_nat (length l)) s.
Proof.
  intros Hc Hf Hl.
  refine (iter_run _ (fun i => Z.of_nat i) (fun _ => s) fuel (length l) _ s Hf _ _).
  - intros i Hi. destruct (lookup_lt_is_Some_2 l i Hi) as [c Hi'].
    run_with (rdp_eq p (Z.of_nat i) c s (cs_at _ _ _ Hc _ _ Hi')).
    rewrite truth_nonzero by (by eapply cstr_nonzero).
    rewrite uwrap_id by (unfold in_u; lia). cbn [mret prog_ret]. do 2 f_equal. lia.
  - by run_with (rdp_eq p _ 0 s (cs_end _ _ _ Hc)).
Qed.

(** *** Writing bytes one after the other *)

(** A pointer whose [n] bytes do not meet the [k] bytes from [d]. *)
Definition apart (p : ptr) (n d k : Z) : Prop :=
  match p with Mem a => a + n <= d \/ d + k <= a | Obj _ => True end.

Lemma rd_write_bytes m p n d l i :
  apart p n d (Z.of_nat (length l)) -> 0 <= i < n -> rd (write_bytes m d l) p i = rd m p i.
Proof.
  destruct p as [a|o]; [|done]. intros Ha Hi. simpl in *. f_equal. apply mget_write_bytes_out. lia.
Qed.

Lemma cstr_write m p l d k :
  cstr m p l -> apart p (Z.of_nat (length l) + 1) d (Z.of_nat (length k)) -> cstr (write_bytes m d k) p l.
Proof.
  intros [Hb Ha He] Hd. split; [done| |].
  - intros i c Hi. pose proof (lookup_lt_Some _ _ _ Hi).
    rewrite (rd_write_bytes m p (Z.of_nat (length l) + 1)) by (done || lia). by apply Ha.
  - by rewrite (rd_write_bytes m p (Z.of_nat (length l) + 1)) by (done || lia).
Qed.

(** What was written is a string. *)
Lemma written_cstr m d l :
  Forall (fun c => 0 < c < 256) l -> cstr (write_bytes m d (l ++ [0])) (Mem d) l.
Proof.
  intros Hl. split; [done| |].
  - intros i c Hi. simpl. f_equal. apply mget_write_bytes_in. by apply lookup_app_l_Some.
  - simpl. f_equal. apply mget_write_bytes_in. by apply list_lookup_middle.
Qed.

Lemma apart_le p n d k k' : apart p n d k -> k' <= k -> apart p n d k'.
Proof. destruct p; simpl; lia. Qed.

Lemma strcpy_eq d p l s :
  cstr (lmem s) p l -> (length l < fuel)%nat ->
  apart p (Z.of_nat (length l) + 1) d (Z.of_nat (length l) + 1) ->
  strcpy fuel d p s = Done d (set_mem (write_bytes (lmem s) d (l ++ [0])) s).
Proof.
  intros Hc Hf Hd. unfold strcpy.
  set (st := fun i => set_mem (write_bytes (lmem s) d (take i l)) s).
  assert (forall i, (i <= length l)%nat -> cstr (lmem (st i)) p l) as Hst.
  { intros i Hi. apply cstr_write; [done|]. eapply apart_le; [done|]. rewrite length_take. lia. }
  assert (st 0%nat = s) as H0 by (by destruct s).
  rewrite <- H0 at 1. rewrite (bind_done _ _ _ (Z.of_nat (length l)) (st (length l))).
  - unfold mbind, prog_bind. rewrite wr_eq. unfold st. cbn [lmem set_mem].
    rewrite firstn_all. change (0 mod 256) with 0. by rewrite (write_bytes_snoc (lmem s) d l 0).
  - refine (iter_run _ (fun i => Z.of_nat i) st fuel (length l) _ _ Hf _ _).
    + intros i Hi. destruct (lookup_lt_is_Some_2 l i Hi) as [c Hc'].
      run_with (rdp_eq p _ c (st i) (cs_at _ _ _ (Hst i ltac:(lia)) _ _ Hc')).
      rewrite truth_nonzero by (by eapply cstr_nonzero). run_with (wr_eq (d + Z.of_nat i) c (st i)).
      unfold st. cbn [lmem set_mem mret prog_ret]. rewrite Z.mod_small.
      2:{ pose proof (cs_bytes _ _ _ Hc) as Hb. rewrite Forall_lookup in Hb. specialize (Hb _ _ Hc'). lia. }
      assert (length (take i l) = i) as Hi' by (rewrite length_take; lia).
      pose proof (write_bytes_snoc (lmem s) d (take i l) c) as Hs. rewrite Hi' in Hs.
      rewrite Hs, <- (take_S_r _ _ _ Hc').
      do 2 f_equal. lia.
    + by run_with (rdp_eq p _ 0 (st (length l)) (cs_end _ _ _ (Hst (length l) (le_n _)))).
Qed.

(** C35: strcpy of a string to a place apart from it leaves the string and its
    terminator there, changes no other byte and returns the destination. *)
Theorem strcpy_spec d p l s :
  cstr (lmem s) p l -> (length l < fuel)%nat ->
  apart p (Z.of_nat (length l) + 1) d (Z.of_nat (length l) + 1) ->
  exists s', strcpy fuel d p s = Done d s' /\ cstr (lmem s') (Mem d) l /\ cstr (lmem s') p l /\
    (forall b, ~ (d <= b < d + Z.of_nat (length l) + 1) -> mget (lmem s') b = mget (lmem s) b) /\
    lout s' = lout s.
Proof.
  intros Hc Hf Hd. eexists. split; [by apply strcpy_eq|]. cbn [lmem set_mem lout].
  split_and!; [apply written_cstr, Hc| |intros b Hb; apply mget_write_bytes_out; rewrite length_app; simpl; lia|done].
  apply cstr_write; [done|]. eapply apart_le; [done|]. rewrite length_app. simpl. lia.
Qed.

(** Where two strings, with their terminators, first differ. *)
Lemma mismatch_strings l k :
  Forall (fun c => 0 < c < 256) l -> Forall (fun c => 0 < c < 256) k ->
  l <> k -> exists n a b, mismatch (l ++ [0]) (k ++ [0]) = Some (a, b) /\ a <> b /\
    (l ++ [0]) !! n = Some a /\ (k ++ [0]) !! n = Some b /\ take n (l ++ [0]) = take n (k ++ [0]).
Proof.
  intros Hl. revert k. induction Hl as [|x l Hx Hl IH]; intros k Hk Hne.
  - destruct Hk as [|y k Hy Hk]; [done|]. exists 0%nat, 0, y. cbn [app mismatch]. destruct (Z.eqb_spec 0 y); [lia|].
      split_and!; done || lia.
  - destruct Hk as [|y k Hy Hk].
    + exists 0%nat, x, 0. cbn [app mismatch]. destruct (Z.eqb_spec x 0); [lia|].
      split_and!; done || lia.
    + cbn [app mismatch]. destruct (Z.eqb_spec x y) as [->|Hxy].
      * destruct (IH k Hk) as (n & a & b & ? & ? & ? & ? & ?); [congruence|].
        exists (Datatypes.S n), a, b. split_and!; try done. cbn [take]. by f_equal.
      * by exists 0%nat, x, y.
Qed.

Lemma mismatch_refl l : mismatch l l = None.
Proof. induction l as [|x l IH]; [done|]. cbn [mismatch]. by rewrite Z.eqb_refl. Qed.

Lemma strcmp_eq p1 p2 l k s :
  cstr (lmem s) p1 l -> cstr (lmem s) p2 k -> (length l < fuel)%nat ->
  strcmp fuel p1 p2 s =
    Done (match mismatch (l ++ [0]) (k ++ [0]) with Some (a, b) => a - b | None => 0 end) s.
Proof.
  intros Hc1 Hc2 Hf. unfold strcmp.
  pose proof (cstr_reads _ _ _ Hc1) as R1. pose proof (cstr_reads _ _ _ Hc2) as R2.
  (* the loop stops at [n], where both can be read *)
  assert (exists n a b, (l ++ [0]) !! n = Some a /\ (k ++ [0]) !! n = Some b /\
    take n (l ++ [0]) = take n (k ++ [0]) /\ (a = 0 \/ a <> b) /\
    (match mismatch (l ++ [0]) (k ++ [0]) with Some (a, b) => a - b | None => 0 end) = a - b)
    as (n & a & b & Ha & Hb & Ht & Hstop & Hm).
  { destruct (decide (l = k)) as [->|Hne].
    - exists (length k), 0, 0. rewrite list_lookup_middle by done. rewrite mismatch_refl.
      split_and!; try done. by left.
    - destruct (mismatch_strings l k (cs_bytes _ _ _ Hc1) (cs_bytes _ _ _ Hc2) Hne)
        as (n & a & b & Hm & Hab & Ha & Hb & Ht).
      exists n, a, b. rewrite Hm. split_and!; try done. by right. }
  pose proof (lookup_lt_Some _ _ _ Ha) as Hnl. rewrite length_app in Hnl. cbn [length] in Hnl.
  rewrite Hm. rewrite (bind_done _ _ _ (Z.of_nat n) s).
  - run_with (rdp_eq p1 _ a s (R1 _ _ Ha)). by run_with (rdp_eq p2 _ b s (R2 _ _ Hb)).
  - refine (iter_run _ (fun i => Z.of_nat i) (fun _ => s) fuel n _ _ _ _ _); [lia|..].
    + intros i Hi. destruct (lookup_lt_is_Some_2 l i) as [c Hc]; [lia|].
      assert ((l ++ [0]) !! i = Some c) as Hc' by (by apply lookup_app_l_Some).
      assert ((k ++ [0]) !! i = Some c) as Hk'.
      { rewrite <- (lookup_take_lt (k ++ [0]) n i) by done. rewrite <- Ht. by rewrite lookup_take_lt. }
      run_with (rdp_eq p1 _ c s (R1 _ _ Hc')). rewrite truth_nonzero by (by eapply (cstr_nonzero _ p1)).
      run_with (rdp_eq p2 _ c s (R2 _ _ Hk')). rewrite Z.eqb_refl. cbn [mret prog_ret].
      do 2 f_equal. lia.
    + run_with (rdp_eq p1 _ a s (R1 _ _ Ha)). destruct (truth a) eqn:Ea; [|done].
      run_with (rdp_eq p2 _ b s (R2 _ _ Hb)). destruct Hstop as [->|Hab]; [done|].
      by destruct (Z.eqb_spec a b).
Qed.

(** C36: strcmp of two strings is 0 exactly when they are equal; otherwise it is
    the difference of the first characters that differ, the terminator counting
    as a character. *)
Theorem strcmp_spec p1 p2 l k s :
  cstr (lmem s) p1 l -> cstr (lmem s) p2 k -> (length l < fuel)%nat ->
  exists r, strcmp fuel p1 p2 s = Done r s /\ (r = 0 <-> l = k) /\
    (l <> k -> exists n a b, (l ++ [0]) !! n = Some a /\ (k ++ [0]) !! n = Some b /\
       take n (l ++ [0]) = take n (k ++ [0]) /\ a <> b /\ r = a - b).
Proof.
  intros Hc1 Hc2 Hf. eexists. split; [by apply strcmp_eq|].
  destruct (decide (l = k)) as [->|Hne].
  - rewrite mismatch_refl. done.
  - destruct (mismatch_strings l k (cs_bytes _ _ _ Hc1) (cs_bytes _ _ _ Hc2) Hne)
      as (n & a & b & Hm & Hab & Ha & Hb & Ht). rewrite Hm. split; [split; [lia|done]|].
    intros _. by exists n, a, b.
Qed.

(** strrchr finds the last occurrence of a character in a string, and a null
    pointer exactly when the string does not contain it; in particular it never
    finds the terminator. *)
Theorem strrchr_spec p l c s :
  cstr (lmem s) p l -> (length l < fuel)%nat -> Z.of_nat (length l) < 2 ^ 32 ->
  exists r, strrchr fuel p c s = Done r s /\
    match r with
    | Some i => exists n, i = Z.of_nat n /\ l !! n = Some c /\
                  forall j, (n < j)%nat -> l !! j <> Some c
    | None => c ∉ l
    end.
Proof.
  intros Hc Hf Hl. unfold strrchr. rewrite (bind_done _ _ _ _ _ (strlen_eq p l s Hc Hf Hl)), Nat2Z.id.
  assert (forall n f, (n <= length l)%nat -> (n < f)%nat -> (forall j, (n <= j)%nat -> l !! j <> Some c) ->
    exists r, iter f (fun i => if 0 <=? i then x ← rdp p i;
      if x =? c then mret (inr (Some i)) else mret (inl (i - 1)) else mret (inr None))
      (Z.of_nat n - 1) s = Done r s /\
    match r with
    | Some i => exists n, i = Z.of_nat n /\ l !! n = Some c /\ forall j, (n < j)%nat -> l !! j <> Some c
    | None => c ∉ l
    end) as Hn; [|apply Hn; [lia|lia|]; intros j Hj He; apply lookup_lt_Some in He; lia].
  induction n as [|n IH]; intros [|f] Hle Hlt Hno; try lia; cbn [iter].
  - exists None. split; [done|]. intros [j Hj]%list_elem_of_lookup. by apply (Hno j); [lia|].
  - destruct (lookup_lt_is_Some_2 l n) as [x Hx]; [lia|].
    replace (Z.of_nat (Datatypes.S n) - 1) with (Z.of_nat n) by lia.
    rewrite (proj2 (Z.leb_le _ _)) by lia. unfold mbind at 1, prog_bind at 1.
    rewrite (bind_done _ _ _ _ _ (rdp_eq p _ x s (cs_at _ _ _ Hc _ _ Hx))).
    destruct (Z.eqb_spec x c) as [->|Hne].
    + exists (Some (Z.of_nat n)). split; [done|]. exists n. split_and!; try done.
    + cbn [mret prog_ret]. apply IH; [lia|lia|]. intros j Hj. destruct (decide (j = n)) as [->|].
      * congruence.
      * apply Hno. lia.
Qed.
End strings.

(* ------------------------------------------------------------------ *)
(** ** Runs on a concrete memory *)

Definition demo_text : list Z := bytes_of "abca".
Definition demo_mem : mem := write_bytes ∅ 1000 (demo_text ++ [0]).
Definition demo_state : lstate := LState demo_mem [] 0 0.

Lemma demo_text_cstr : cstr (lmem demo_state) (Mem 1000) demo_text.
Proof. apply written_cstr. apply (bool_decide_eq_true_1 _). vm_compute. reflexivity. Qed.

Lemma memset_spec_witness :
  0 <= 3 /\ exists m, memset 1000 0x141 3 demo_state = Done 1000 (set_mem m demo_state) /\
    forall a, mget m a = if (1000 <=? a) && (a <? 1000 + 3) then u8 0x141 else mget demo_mem a.
Proof.
  assert (0 <= 3) as H by lia. split; [exact H|]. exact (memset_spec 1000 0x141 3 demo_state H).
Defined.

Lemma memcmp_spec_witness :
  reads demo_mem (Mem 1000) demo_text /\
  memcmp (Mem 1000) (lit "abda") (Z.of_nat 4) demo_state = Done (99 - 100) demo_state.
Proof.
  assert (reads demo_mem (Mem 1000) demo_text) as H1
    by (intros i c Hc; exact (cs_at _ _ _ demo_text_cstr i c Hc)).
  assert (reads demo_mem (lit "abda") (bytes_of "abda")) as H2.
  { intros [|[|[|[|i]]]] c Hc; try exact Hc. discriminate Hc. }
  split; [exact H1|]. exact (memcmp_spec _ _ _ _ demo_state H1 H2 eq_refl).
Defined.

Lemma strcpy_spec_witness :
  cstr (lmem demo_state) (Mem 1000) demo_text /\
  exists s', strcpy 10 2000 (Mem 1000) demo_state = Done 2000 s' /\
    cstr (lmem s') (Mem 2000) demo_text /\ cstr (lmem s') (Mem 1000) demo_text /\
    (forall b, ~ (2000 <= b < 2000 + Z.of_nat (length demo_text) + 1) ->
       mget (lmem s') b = mget (lmem demo_state) b) /\ lout s' = lout demo_state.
Proof.
  split; [exact demo_text_cstr|].
  apply (strcpy_spec 10 2000 (Mem 1000) demo_text demo_state demo_text_cstr).
  - change (length demo_text) with 4%nat. lia.
  - left. change (length demo_text) with 4%nat. lia.
Defined.

Lemma strcmp_spec_witness :
  cstr (lmem demo_state) (Mem 1000) demo_text /\
  exists r, strcmp 10 (Mem 1000) (Mem 1000) demo_state = Done r demo_state /\
    (r = 0 <-> demo_text = demo_text) /\
    (demo_text <> demo_text -> exists n a b, (demo_text ++ [0]) !! n = Some a /\
       (demo_text ++ [0]) !! n = Some b /\ take n (demo_text ++ [0]) = take n (demo_text ++ [0]) /\
       a <> b /\ r = a - b).
Proof.
  split; [exact demo_text_cstr|].
  apply (strcmp_spec 10 _ _ _ _ demo_state demo_text_cstr demo_text_cstr).
  change (length demo_text) with 4%nat. lia.
Defined.

Lemma strrchr_spec_witness :
  cstr (lmem demo_state) (Mem 1000) demo_text /\
  exists r, strrchr 10 (Mem 1000) 97 demo_state = Done r demo_state /\
    match r with
    | Some i => exists n, i = Z.of_nat n /\ demo_text !! n = Some 97 /\
                  forall j, (n < j)%nat -> demo_text !! j <> Some 97
    | None => 97 ∉ demo_text
    end.
Proof.
  split; [exact demo_text_cstr|].
  apply (strrchr_spec 10 _ _ 97 demo_state demo_text_cstr);
    change (length demo_text) with 4%nat; lia.
Defined.
