(* ===== verification/LibcHost.v ===== *)
(** A semihosting host on which the C library's theorems are evaluated: it
    prints what it is given and has a command line of three words. *)

From S2P Require Import Prelude ByteMem MinLibc.

Open Scope string_scope.
Open Scope list_scope.
Open Scope Z_scope.

(* ------------------------------------------------------------------ *)
(** ** A host that prints what it is given, and runs on it *)

Module SimHost.

(** The bytes up to the terminator, [fuel] at most. *)
Fixpoint read_str (fuel : nat) (m : mem) (p : ptr) (i : Z) : list Z :=
  match fuel with
  | O => []
  | Datatypes.S fuel =>
    match rd m p i with
    | Some c => if c =? 0 then [] else c :: read_str fuel m p (i + 1)
    | None => []
    end
  end.

Definition read_fuel (m : mem) (p : ptr) : nat :=
  match p with Mem _ => Datatypes.S (size m) | Obj l => Datatypes.S (length l) end.

(** A command line of three words. *)
Definition demo_cmdline : list Z := bytes_of "test -v  x ".

#[export] Instance sim_host : Semihost := {
  trap0 code p r2 m :=
    if code =? HEX_SYS_WRITEC then
      (0, 0, m, match rd m p 0 with Some c => [c] | None => [] end)
    else if code =? HEX_SYS_WRITE0 then (0, 0, m, read_str (read_fuel m p) m p 0)
    else
      match p with
      | Mem a => (0, 0, write_bytes m (load 4 m a) (demo_cmdline ++ [0]), [])
      | Obj _ => (-1, 0, m, [])
      end;
  cmdline := demo_cmdline
}.

Lemma read_str_cstr fuel m p pre l :
  cstr m p (pre ++ l) -> (length l < fuel)%nat -> read_str fuel m p (Z.of_nat (length pre)) = l.
Proof.
  intros Hc. revert pre fuel Hc. induction l as [|c l IH]; intros pre [|fuel] Hc Hf; cbn [length] in Hf; try lia;
    cbn [read_str].
  - pose proof (cs_end _ _ _ Hc) as He. rewrite app_nil_r in He. by rewrite He.
  - assert ((pre ++ c :: l) !! length pre = Some c) as Hi by (by apply list_lookup_middle).
    rewrite (cs_at _ _ _ Hc _ _ Hi). pose proof (cstr_nonzero _ _ _ _ _ Hc Hi).
    rewrite (proj2 (Z.eqb_neq c 0)) by done. f_equal.
    specialize (IH (pre ++ [c]) fuel). rewrite <- app_assoc, length_app in IH.
    replace (Z.of_nat (length pre) + 1) with (Z.of_nat (length pre + length [c])) by (simpl; lia).
    apply IH; [done|lia].
Qed.

(** A string is no longer than the memory that holds it. *)
Lemma cstr_fuel m p l : cstr m p l -> (length l < read_fuel m p)%nat.
Proof.
  intros Hc. destruct p as [a|o]; cbn [read_fuel].
  - enough (length l <= size m)%nat by lia.
    assert (length l = size (list_to_set (seqZ a (Z.of_nat (length l))) : gset Z)) as E.
    { rewrite size_list_to_set by apply NoDup_seqZ. rewrite length_seqZ. lia. }
    rewrite E, <- size_dom.
    apply subseteq_size. intros k Hk%elem_of_list_to_set%elem_of_seqZ.
    apply elem_of_dom. destruct (lookup_lt_is_Some_2 l (Z.to_nat (k - a))) as [c Hl]; [lia|].
    pose proof (cs_at _ _ _ Hc _ _ Hl) as Hr. pose proof (cstr_nonzero _ _ _ _ _ Hc Hl).
    simpl in Hr. injection Hr as Hr. replace (a + Z.of_nat (Z.to_nat (k - a))) with k in Hr by lia.
    unfold mget in Hr. destruct (m !! k); [by eexists|]. simpl in Hr. lia.
  - pose proof (cs_end _ _ _ Hc) as He. simpl in He. rewrite lookupZ_spec, Nat2Z.id in He by lia.
    apply lookup_lt_Some in He. lia.
Qed.

#[export] Instance sim_host_laws : SemihostLaws.
Proof.
  split.
  - intros p r2 m c Hc. exists 0, 0. simpl. by rewrite Hc.
  - intros p r2 m l Hc. exists 0, 0. unfold trap0, sim_host.
    change (HEX_SYS_WRITE0 =? HEX_SYS_WRITEC) with false.
    change (HEX_SYS_WRITE0 =? HEX_SYS_WRITE0) with true. cbv iota.
    by rewrite (read_str_cstr _ m p [] l Hc) by (by apply cstr_fuel).
  - intros a r2 m _ _. by exists 0.
Qed.

End SimHost.
