(* ===== verification/LibcPrintf.v ===== *)
(** Number formatting and [printf] of [crt0/min_libc.c]: what they print for
    every number, format and list of arguments. *)

From S2P Require Import Prelude ByteMem MinLibc LibcHost.

Open Scope string_scope.
Open Scope list_scope.
Open Scope Z_scope.

(* ------------------------------------------------------------------ *)
(** ** Numerals *)

(** The digits of a number, the most significant first, none for 0. *)
Fixpoint digits (f : nat) (base n : Z) : list Z :=
  match f with
  | O => []
  | Datatypes.S f => if n =? 0 then [] else digits f base (n / base) ++ [n mod base]
  end.

Definition digit_char (d : Z) : Z := if 10 <=? d then 97 + (d - 10) else 48 + d.

Definition numeral (base n : Z) : list Z :=
  if n =? 0 then [48] else digit_char <$> digits 64 base n.

(** The number a list of digits stands for. *)
Definition value (base : Z) (ds : list Z) : Z := foldl (fun v d => v * base + d) 0 ds.

Section digits.
Context (base : Z) (Hbase : 2 <= base).

Lemma div_base n f : 0 <= n < 2 ^ Z.of_nat (Datatypes.S f) -> 0 <= n / base < 2 ^ Z.of_nat f.
Proof.
  rewrite Nat2Z.inj_succ, Z.pow_succ_r by lia. intros Hn. split; [apply Z.div_pos; lia|].
  apply Z.div_lt_upper_bound; [lia|]. nia.
Qed.

Lemma digits_more n f g : 0 <= n < 2 ^ Z.of_nat f -> (f <= g)%nat -> digits g base n = digits f base n.
Proof.
  revert n g. induction f as [|f IH]; intros n g Hn Hg.
  - change (2 ^ Z.of_nat 0) with 1 in Hn. assert (n = 0) as -> by lia. by destruct g.
  - destruct g as [|g]; [lia|]. cbn [digits]. destruct (Z.eqb_spec n 0); [done|].
    rewrite (IH (n / base) g); [done|by apply div_base|lia].
Qed.

Lemma digits_step n :
  0 < n < 2 ^ 64 -> digits 64 base n = digits 64 base (n / base) ++ [n mod base].
Proof.
  intros Hn. rewrite (digits_more (n / base) 63 64); [|apply (div_base n 63); simpl; lia|lia].
  change 64%nat with (Datatypes.S 63). cbn [digits]. destruct (Z.eqb_spec n 0); [lia|done].
Qed.

Lemma value_snoc ds d : value base (ds ++ [d]) = value base ds * base + d.
Proof. unfold value. by rewrite foldl_app. Qed.

Lemma value_digits n f : 0 <= n < 2 ^ Z.of_nat f -> value base (digits f base n) = n.
Proof.
  revert n. induction f as [|f IH]; intros n Hn.
  - change (2 ^ Z.of_nat 0) with 1 in Hn. assert (n = 0) as -> by lia. done.
  - cbn [digits]. destruct (Z.eqb_spec n 0) as [->|Hne]; [done|].
    rewrite value_snoc, IH by (by apply div_base). pose proof (Z.div_mod n base). lia.
Qed.

Lemma digits_range n f d : d ∈ digits f base n -> 0 <= d < base.
Proof.
  revert n. induction f as [|f IH]; intros n; cbn [digits]; [by intros ?%not_elem_of_nil|].
  destruct (n =? 0); [by intros ?%not_elem_of_nil|]. rewrite elem_of_app, list_elem_of_singleton.
  intros [? | ->]; [by eapply IH|]. apply Z.mod_pos_bound. lia.
Qed.

Lemma digits_head n f d ds : 0 <= n < 2 ^ Z.of_nat f -> digits f base n = d :: ds -> d <> 0.
Proof.
  revert n d ds. induction f as [|f IH]; intros n d ds Hn; cbn [digits]; [done|].
  destruct (Z.eqb_spec n 0); [done|]. destruct (digits f base (n / base)) as [|d' ds'] eqn:E.
  - intros [= <- _]. pose proof (value_digits (n / base) f (div_base n f Hn)) as Hv.
    rewrite E in Hv. unfold value in Hv. simpl in Hv. pose proof (Z.div_mod n base). lia.
  - intros [= <- _]. by eapply IH; [apply div_base|].
Qed.

(** Where the most significant digit is. *)
Lemma top_digit n f : 0 < n < 2 ^ Z.of_nat f ->
  exists J, (J < f)%nat /\ base ^ Z.of_nat J <= n < base ^ Z.of_nat (Datatypes.S J).
Proof.
  revert n. induction f as [|f IH]; intros n Hn.
  - change (2 ^ Z.of_nat 0) with 1 in Hn. lia.
  - destruct (Z.lt_ge_cases n base) as [Hlt|Hge].
    + exists 0%nat. change (Z.of_nat 0) with 0. change (Z.of_nat 1) with 1.
      rewrite Z.pow_0_r, Z.pow_1_r. lia.
    + destruct (IH (n / base)) as (J & HJ & Hb).
      { split; [apply Z.div_str_pos; lia|]. apply (div_base n f). lia. }
      exists (Datatypes.S J). split; [lia|]. rewrite !(Nat2Z.inj_succ) in *.
      rewrite !Z.pow_succ_r in * by lia. pose proof (Z.div_mod n base ltac:(lia)) as Hd. pose proof (Z.mod_pos_bound n base ltac:(lia)).
      set (q := n / base) in *. set (B := base ^ Z.of_nat J) in *.
      assert (base * B <= base * q) by (apply Z.mul_le_mono_nonneg_l; lia).
      assert (base * (q + 1) <= base * (base * B)) by (apply Z.mul_le_mono_nonneg_l; lia). lia.
Qed.
End digits.

(** ** Formatting a number *)

Section num_to_s.
Context (fuel : nat) (Hfuel : (64 < fuel)%nat) (num_buf : Z).
Context (base : Z) (Hb : base = 10 \/ base = 16) (N : Z) (HN : 0 < N < 2 ^ 64).
Context (J : nat) (HJ : (J < 64)%nat) (Htop : base ^ Z.of_nat J <= N < base ^ Z.of_nat (Datatypes.S J)).
Context (s : lstate).

Abbreviation P m := (base ^ Z.of_nat m).

(** The characters written when the [m] lowest digits are still to come. *)
Definition chars (m : nat) : list Z := digit_char <$> digits 64 base (N / P m).
Definition st (m : nat) : lstate := set_mem (write_bytes (lmem s) num_buf (chars m)) s.

Lemma P_pos m : 0 < P m.
Proof. apply Z.pow_pos_nonneg; lia. Qed.

Lemma P_succ m : P (Datatypes.S m) = base * P m.
Proof. rewrite Nat2Z.inj_succ, Z.pow_succ_r by lia. done. Qed.

Lemma P_div m : P (Datatypes.S m) / base = P m.
Proof. rewrite P_succ, Z.mul_comm, Z.div_mul by lia. done. Qed.

Lemma P_le m : (m <= J)%nat -> P m <= N.
Proof. intros Hm. assert (P m <= P J) by (apply Z.pow_le_mono_r; lia). lia. Qed.

Lemma chars_step m : (m <= J)%nat ->
  chars m = chars (Datatypes.S m) ++ [digit_char ((N / P m) mod base)].
Proof.
  intros Hm. pose proof (P_pos m). unfold chars. rewrite (digits_step base) at 1.
  - rewrite fmap_app. f_equal. rewrite P_succ, Z.mul_comm, <- Z.div_div by lia. done.
  - lia.
  - pose proof (P_le m Hm). split; [apply Z.div_str_pos; lia|].
    apply Z.div_lt_upper_bound; [lia|]. nia.
Qed.

Lemma chars_top : chars (Datatypes.S J) = [].
Proof. unfold chars. rewrite Z.div_small by lia. done. Qed.

Lemma chars_length k : (k <= Datatypes.S J)%nat -> length (chars (Datatypes.S J - k)) = k.
Proof.
  induction k as [|k IH]; intros Hk.
  - by rewrite Nat.sub_0_r, chars_top.
  - rewrite chars_step by lia. rewrite length_app. cbn [length].
    replace (Datatypes.S (Datatypes.S J - Datatypes.S k)) with (Datatypes.S J - k)%nat by lia.
    rewrite IH by lia. lia.
Qed.

Lemma chars_length' m : (m <= Datatypes.S J)%nat -> length (chars m) = (Datatypes.S J - m)%nat.
Proof.
  intros Hm. rewrite <- (chars_length (Datatypes.S J - m)) by lia. do 2 f_equal. lia.
Qed.

(** [k], the count of characters, when [m] digits are to come. *)
Abbreviation count m := (Z.of_nat (Datatypes.S J - m)).

Lemma write_digit m : (m <= J)%nat ->
  wr (num_buf + count (Datatypes.S m)) (digit_char ((N / P m) mod base)) (st (Datatypes.S m)) =
    Done tt (st m).
Proof.
  intros Hm. rewrite wr_eq. f_equal. unfold st. cbn [lmem set_mem].
  assert (0 <= (N / P m) mod base < base) as Hd by (apply Z.mod_pos_bound; lia).
  rewrite Z.mod_small by (unfold digit_char; destruct (Z.leb_spec 10 ((N / P m) mod base)); lia).
  rewrite (chars_step m Hm), <- write_bytes_snoc.
  rewrite chars_length' by lia. done.
Qed.

(** What is left of the number when [m] digits are to come. *)
Lemma next_digit m : N mod P (Datatypes.S m) = P m * ((N / P m) mod base) + N mod P m.
Proof.
  pose proof (P_pos m). rewrite P_succ, Z.mul_comm, Z.rem_mul_r by lia. lia.
Qed.

Definition zeros_body (num : Z) : Z * Z -> prog lstate (Z * Z + Z * Z) := fun '(divider, k) =>
  if num <? divider then wr (num_buf + k) 48;; mret (inl (divider / base, k + 1))
  else mret (inr (divider, k)).

(** The inner loop writes the zeros that follow. *)
Lemma zeros_loop m f : (m <= J)%nat -> (m < f)%nat ->
  exists m', (m' <= m)%nat /\
    iter f (zeros_body (N mod P m)) (P m / base, count m) (st m) =
      Done (P m' / base, count m') (st m') /\
    N mod P m' = N mod P m /\ P m' / base <= N mod P m'.
Proof.
  revert f. induction m as [|m IH]; intros [|f] Hm Hf; try lia; cbn [iter].
  - exists 0%nat. change (P 0%nat) with 1.
    assert (1 / base = 0) as -> by (apply Z.div_small; lia). rewrite Z.mod_1_r. done.
  - rewrite P_div. pose proof (P_pos m). pose proof (next_digit m) as Hn.
    pose proof (Z.mod_pos_bound N (P m) ltac:(lia)).
    pose proof (Z.mod_pos_bound (N / P m) base ltac:(lia)).
    destruct (Z.ltb_spec (N mod P (Datatypes.S m)) (P m)) as [Hlt|Hge].
    + assert ((N / P m) mod base = 0) as Hz by nia.
      pose proof (write_digit m ltac:(lia)) as Hw. rewrite Hz in Hw. change (digit_char 0) with 48 in Hw.
      destruct (IH f) as (m' & Hm' & E & Hmod & Hle); [lia|lia|].
      exists m'. rewrite Hz, Z.mul_0_r in Hn. split_and!; [lia| |lia|done].
      rewrite (bind_done _ _ _ (inl (P m / base, count m)) (st m)).
      { by rewrite Hn. }
      unfold zeros_body. rewrite (proj2 (Z.ltb_lt _ _) Hlt).
      rewrite (bind_done _ _ _ _ _ Hw). cbn [mret prog_ret]. do 3 f_equal. lia.
    + exists (Datatypes.S m). rewrite P_div. split_and!; [lia| |done|lia].
      unfold mbind, prog_bind, zeros_body at 1. rewrite (proj2 (Z.ltb_ge _ _) Hge). done.
Qed.

Definition digits_body : Z * Z * Z -> prog lstate (Z * Z * Z + Z) := fun '(num, divider, k) =>
  if truth num then
    let digit := u32 (num / divider) in
    if truth digit then
      let num := num mod divider in
      let divider := divider / base in
      wr (num_buf + k) (if 10 <=? digit then 97 + (digit - 10) else 48 + digit);;
      '(divider, k) ← iter fuel (zeros_body num) (divider, k + 1);
      mret (inl (num, divider, k))
    else mret (inl (num, divider / base, k))
  else mret (inr k).

Lemma digits_loop m f : (m <= Datatypes.S J)%nat -> (m < f)%nat -> P m / base <= N mod P m ->
  iter f digits_body (N mod P m, P m / base, count m) (st m) = Done (count 0%nat) (st 0%nat).
Proof.
  revert f. induction m as [m IH] using lt_wf_ind. intros [|f] Hm Hf Hle; [lia|]. cbn [iter].
  destruct m as [|m].
  { change (P 0%nat) with 1. by rewrite Z.mod_1_r. }
  rewrite P_div in *. pose proof (P_pos m). pose proof (next_digit m) as Hn.
  pose proof (Z.mod_pos_bound N (P m) ltac:(lia)).
  pose proof (Z.mod_pos_bound (N / P m) base ltac:(lia)).
  assert (N mod P (Datatypes.S m) / P m = (N / P m) mod base) as Hq
    by (symmetry; apply (Z.div_unique _ _ _ (N mod P m)); lia).
  assert (N mod P (Datatypes.S m) mod P m = N mod P m) as Hr
    by (symmetry; apply (Z.mod_unique _ _ ((N / P m) mod base)); lia).
  destruct (zeros_loop m fuel) as (m' & Hm' & E & Hmod & Hle'); [lia|lia|].
  rewrite (bind_done _ _ _ (inl (N mod P m', P m' / base, count m')) (st m')); [apply IH; lia|].
  unfold digits_body. rewrite truth_nonzero by lia. rewrite Hq, uwrap_id by (unfold in_u; lia).
  rewrite truth_nonzero by nia. rewrite Hr.
  fold (digit_char ((N / P m) mod base)).
  rewrite (bind_done _ _ _ _ _ (write_digit m ltac:(lia))).
  replace (count (Datatypes.S m) + 1) with (count m) by lia.
  rewrite (bind_done _ _ _ _ _ E). cbn [mret prog_ret]. by rewrite Hmod.
Qed.

Lemma divider_loop :
  iter fuel (fun '(n, divider) =>
      if base <=? n then mret (inl (n / base, u64 (divider * base))) else mret (inr divider))
    (N, 1) s = Done (P J) s.
Proof.
  refine (eq_trans _ (iter_run (S := lstate) _ (fun i => (N / P i, P i)) (fun _ => s) fuel J (P J) s _ _ _)).
  - change (P 0%nat) with 1. by rewrite Z.div_1_r.
  - lia.
  - intros i Hi. pose proof (P_pos i). pose proof (P_le (Datatypes.S i) ltac:(lia)) as Hle.
    rewrite P_succ in Hle. cbv beta iota.
    rewrite (proj2 (Z.leb_le _ _)) by (apply Z.div_le_lower_bound; lia).
    rewrite Z.div_div by lia. rewrite !(Z.mul_comm (P i) base), <- !P_succ.
    rewrite uwrap_id; [done|]. rewrite P_succ. unfold in_u. lia.
  - pose proof (P_pos J). rewrite P_succ in Htop. cbv beta iota.
    rewrite (proj2 (Z.leb_gt _ _)); [done|]. apply Z.div_lt_upper_bound; lia.
Qed.

Lemma num_digits_run :
  num_digits fuel num_buf N base 0 s =
    Done (Mem num_buf) (set_mem (write_bytes (lmem s) num_buf (chars 0 ++ [0])) s).
Proof.
  unfold num_digits. rewrite truth_nonzero by lia. cbn [negb]. run_with divider_loop.
  refine (eq_trans (bind_done _ _ _ (count 0%nat) (st 0%nat) _) _).
  - pose proof (digits_loop (Datatypes.S J) fuel) as Hl. rewrite P_div in Hl.
    rewrite Z.mod_small in Hl by lia. replace (count (Datatypes.S J)) with 0 in Hl by lia.
    rewrite <- Hl by lia. f_equal. unfold st. rewrite chars_top. by destruct s.
  - cbv beta. rewrite (bind_done _ _ _ _ _ (wr_eq _ _ _)). unfold st. cbn [lmem set_mem mret prog_ret].
    change (0 mod 256) with 0.
    pose proof (write_bytes_snoc (lmem s) num_buf (chars 0) 0) as Hs.
    rewrite chars_length' in Hs by lia. by rewrite Hs.
Qed.
End num_to_s.

(** The character of a digit, read back. *)
Definition digit_value (c : Z) : Z := if 97 <=? c then c - 87 else c - 48.

Lemma digit_value_char d : 0 <= d < 16 -> digit_value (digit_char d) = d.
Proof.
  intros Hd. unfold digit_value, digit_char. destruct (Z.leb_spec 10 d); split_cmp; lia.
Qed.

Lemma digit_char_range d : 0 <= d < 16 -> 48 <= digit_char d < 103.
Proof. intros Hd. unfold digit_char. split_cmp; lia. Qed.

Section numerals.
Context (base : Z) (Hb : base = 10 \/ base = 16).

Lemma base_ge : 2 <= base.
Proof. destruct Hb; lia. Qed.

Lemma numeral_chars n : Forall (fun c => 0 < c < 256) (numeral base n).
Proof.
  unfold numeral. destruct (n =? 0); [by repeat constructor|].
  rewrite Forall_fmap. apply Forall_forall. intros d Hd. simpl.
  apply (digits_range base base_ge) in Hd. pose proof (digit_char_range d). destruct Hb; lia.
Qed.

Lemma numeral_value n : 0 <= n < 2 ^ 64 -> value base (digit_value <$> numeral base n) = n.
Proof.
  intros Hn. unfold numeral. destruct (Z.eqb_spec n 0) as [->|Hne]; [done|].
  rewrite <- list_fmap_compose.
  assert ((digit_value ∘ digit_char) <$> digits 64 base n = digits 64 base n) as ->.
  { rewrite <- (list_fmap_id (digits 64 base n)) at 2. apply list_fmap_ext. intros i d Hd. simpl.
    apply digit_value_char. apply list_elem_of_lookup_2, (digits_range base base_ge) in Hd.
    destruct Hb; lia. }
  by apply value_digits, Hn; apply base_ge.
Qed.

Lemma numeral_no_leading_zero n c l :
  0 < n < 2 ^ 64 -> numeral base n = c :: l -> c <> 48.
Proof.
  intros Hn. unfold numeral. destruct (Z.eqb_spec n 0); [lia|].
  destruct (digits 64 base n) as [|d ds] eqn:E; [done|]. intros [= <- _].
  pose proof (digits_head base base_ge n 64 d ds ltac:(simpl; lia) E).
  assert (0 <= d < base) by (apply (digits_range base base_ge n 64); rewrite E; left).
  unfold digit_char. split_cmp; lia.
Qed.

Lemma numeral_short n : 0 <= n < 2 ^ 64 -> base = 16 -> (length (numeral base n) <= 16)%nat.
Proof.
  intros Hn H16. unfold numeral. destruct (Z.eqb_spec n 0); [simpl; lia|].
  destruct (top_digit base base_ge n 64) as (J & HJ & Htop); [simpl; lia|].
  pose proof (chars_length' 65 ltac:(lia) base Hb n ltac:(lia) J HJ Htop 0 ltac:(lia)) as Hl.
  unfold chars in Hl. change (base ^ Z.of_nat 0) with 1 in Hl. rewrite Z.div_1_r in Hl. rewrite Hl.
  enough (J < 16)%nat by lia. subst base.
  apply Nat2Z.inj_lt, (Z.pow_lt_mono_r_iff 16); [lia|lia|]. change (16 ^ Z.of_nat 16) with (2 ^ 64). lia.
Qed.

Lemma numeral_length n : 0 <= n < 2 ^ 64 -> (length (numeral base n) <= 64)%nat.
Proof.
  intros Hn. unfold numeral. destruct (Z.eqb_spec n 0); [simpl; lia|].
  destruct (top_digit base base_ge n 64) as (J & HJ & Htop); [simpl; lia|].
  pose proof (chars_length' 65 ltac:(lia) base Hb n ltac:(lia) J HJ Htop 0 ltac:(lia)) as Hl.
  unfold chars in Hl. change (base ^ Z.of_nat 0) with 1 in Hl. rewrite Z.div_1_r in Hl. lia.
Qed.

Context (fuel : nat) (Hfuel : (64 < fuel)%nat) (num_buf : Z).
Context `{Semihost}.

Lemma num_to_s_eq n s :
  0 <= n < 2 ^ 64 ->
  exists p s', num_to_s fuel num_buf n base s = Done p s' /\ cstr (lmem s') p (numeral base n) /\
    (forall b, ~ (num_buf <= b < num_buf + 65) -> mget (lmem s') b = mget (lmem s) b) /\
    lout s' = lout s /\ (p = lit "0" \/ p = Mem num_buf).
Proof.
  intros Hn.
  assert (num_to_s fuel num_buf n base s = num_digits fuel num_buf n base 0 s) as ->.
  { unfold num_to_s. destruct Hb as [-> | ->]; [|done]. cbn [Z.eqb].
    change (10 =? 16) with false. change (10 =? 10) with true. cbv iota.
    by rewrite (proj2 (Z.ltb_ge n 0)) by lia. }
  destruct (decide (n = 0)) as [->|Hne].
  { exists (lit "0"), s. split_and!; try done; [|by left].
    split; [by repeat constructor| |done]. by intros [|[|i]] c Hi. }
  destruct (top_digit base base_ge n 64) as (J & HJ & Htop); [simpl; lia|].
  eexists (Mem num_buf), _. split; [by apply (num_digits_run fuel Hfuel num_buf base Hb n ltac:(lia) J)|].
  cbn [lmem set_mem lout].
  assert (chars base n 0 = numeral base n) as ->.
  { unfold chars, numeral. change (base ^ Z.of_nat 0) with 1. rewrite Z.div_1_r.
    by destruct (Z.eqb_spec n 0). }
  split_and!; [|intros b Hbb|done|by right].
  - apply written_cstr, numeral_chars.
  - apply mget_write_bytes_out. rewrite length_app. pose proof (numeral_length n Hn). simpl. lia.
Qed.
End numerals.


(* ------------------------------------------------------------------ *)
(** ** printf *)

(** What printf prints, as a function of the format and the arguments.  The
    second component tells whether it returns (true) or ends the process. *)
Inductive arg := AInt (n : Z) | AStr (p : ptr) (l : list Z) | AU64 (n : Z).

Definition to_va (a : arg) : va :=
  match a with AInt n => VInt n | AStr p _ => VPtr p | AU64 n => VU64 n end.

Definition pad (n : nat) (l : list Z) : list Z := replicate (n - length l) 48 ++ l.

Definition fatal (c : Z) : option (list Z * bool) :=
  Some (bytes_of "fatal: unknown printf modifier '" ++ [u8 c] ++ bytes_of "'" ++ [10], false).

Definition prepend (o : list Z) (r : option (list Z * bool)) : option (list Z * bool) :=
  match r with Some (out, ok) => Some (o ++ out, ok) | None => None end.

Fixpoint render (fmt : list Z) (args : list arg) : option (list Z * bool) :=
  match fmt with
  | [] => Some ([], true)
  | c :: fmt =>
    if negb (c =? 37) then prepend [u8 c] (render fmt args)
    else
      match fmt with
      | [] => fatal 0
      | d :: fmt =>
        if (d =? 100) || (d =? 120) || (d =? 112) then
          match args with
          | AInt n :: args =>
              prepend (numeral (if d =? 100 then 10 else 16) (u64 n)) (render fmt args)
          | _ => None
          end
        else if d =? 115 then
          match args with AStr _ l :: args => prepend l (render fmt args) | _ => None end
        else if d =? 99 then
          match args with AInt n :: args => prepend [u8 n] (render fmt args) | _ => None end
        else if d =? 37 then prepend [37] (render fmt args)
        else if d =? 48 then
          match fmt with
          | a1 :: a2 :: a3 :: a4 :: a5 :: fmt =>
              if decide ([a1; a2; a3; a4; a5] = bytes_of "16llx") then
                match args with
                | AU64 n :: args => prepend (pad 16 (numeral 16 n)) (render fmt args)
                | _ => None
                end
              else fatal 48
          | _ => fatal 48
          end
        else fatal d
      end
  end.

Example render_small :
  render (bytes_of "x=%d %%%s%c 0x%016llx") [AInt 42; AStr (lit "ab") (bytes_of "ab"); AInt 33; AU64 0xbeef]
    = Some (bytes_of "x=42 %ab! 0x000000000000beef", true).
Proof. reflexivity. Qed.

(** How many characters two strings start with in common. *)
Fixpoint common (l k : list Z) : nat :=
  match l, k with a :: l, b :: k => if a =? b then Datatypes.S (common l k) else 0%nat | _, _ => 0%nat end.

Lemma common_le l k : (common l k <= length l)%nat /\ (common l k <= length k)%nat.
Proof.
  revert k. induction l as [|a l IH]; intros [|b k]; cbn [common length]; try lia.
  destruct (a =? b); [|lia]. specialize (IH k). lia.
Qed.

Lemma common_same l k j : (j < common l k)%nat -> exists c, l !! j = Some c /\ k !! j = Some c.
Proof.
  revert k j. induction l as [|a l IH]; intros [|b k] j; cbn [common]; try lia.
  destruct (Z.eqb_spec a b) as [->|]; [|lia]. intros Hj. destruct j as [|j]; [by exists b|].
  apply (IH k j). lia.
Qed.

Lemma common_stops l k a b :
  l !! common l k = Some a -> k !! common l k = Some b -> a <> b.
Proof.
  revert k. induction l as [|x l IH]; intros [|y k]; try done. cbn [common].
  destruct (Z.eqb_spec x y) as [->|Hne]; [apply IH|]. by intros [= <-] [= <-].
Qed.

Lemma common_full l k : common l k = length k <-> take (length k) l = k.
Proof.
  revert l. induction k as [|b k IH]; intros [|a l]; cbn [common length take]; try done.
  destruct (Z.eqb_spec a b) as [->|Hne].
  - split; [intros [= Hc]; f_equal; by apply IH|intros [= Ht]; f_equal; by apply IH].
  - split; [done|by intros [= -> _]].
Qed.

Lemma lit_cstr m (l : list Z) : Forall (fun c => 0 < c < 256) l -> cstr m (Obj (l ++ [0])) l.
Proof.
  intros Hl. split; [done| |]; simpl.
  - intros i c Hi. rewrite lookupZ_spec, Nat2Z.id by lia. by apply lookup_app_l_Some.
  - rewrite lookupZ_spec, Nat2Z.id by lia. by apply list_lookup_middle.
Qed.

Section printf.
Context `{SemihostLaws} (fuel : nat) (Hfuel : (64 < fuel)%nat) (num_buf pad_buf : Z).
Context (Hbufs : num_buf + 65 <= pad_buf \/ pad_buf + 17 <= num_buf).

(** The only memory printing changes is that of the two static buffers. *)
Definition quiet (s s' : lstate) : Prop :=
  forall b, ~ (num_buf <= b < num_buf + 65) -> ~ (pad_buf <= b < pad_buf + 17) ->
    mget (lmem s') b = mget (lmem s) b.

(** A string apart from the buffers. *)
Definition intact (s : lstate) (p : ptr) (l : list Z) : Prop :=
  cstr (lmem s) p l /\ apart p (Z.of_nat (length l) + 1) num_buf 65 /\
  apart p (Z.of_nat (length l) + 1) pad_buf 17.

Lemma intact_quiet s s' p l : quiet s s' -> intact s p l -> intact s' p l.
Proof.
  intros Hq (C & A1 & A2). split; [|done]. destruct C as [Hb Ha He].
  assert (forall i, 0 <= i < Z.of_nat (length l) + 1 -> rd (lmem s') p i = rd (lmem s) p i) as Hrd.
  { intros i Hi. destruct p as [a|o]; [|done]. simpl in *. f_equal. apply Hq; lia. }
  split; [done| |].
  - intros i c Hi. pose proof (lookup_lt_Some _ _ _ Hi). rewrite Hrd by lia. by apply Ha.
  - rewrite Hrd by lia. done.
Qed.

(** [s'] is [s] after printing [o]. *)
Definition prints (s : lstate) (o : list Z) (s' : lstate) : Prop :=
  quiet s s' /\ lout s' = lout s ++ o.

Lemma prints_trans s1 s2 s3 o1 o2 : prints s1 o1 s2 -> prints s2 o2 s3 -> prints s1 (o1 ++ o2) s3.
Proof.
  intros [Q1 L1] [Q2 L2]. split.
  - intros b H1 H2. by rewrite Q2, Q1.
  - by rewrite L2, L1, app_assoc.
Qed.

Lemma prints_mem s s' o : lmem s' = lmem s -> lout s' = lout s ++ o -> prints s o s'.
Proof. intros E L. split; [|done]. intros b _ _. by rewrite E. Qed.

Lemma putchar_eq c s : exists s', putchar c s = Done c s' /\ lmem s' = lmem s /\ lout s' = lout s ++ [u8 c].
Proof.
  unfold putchar, DIRECT_SWI, DO_SWI, modify, gets, mbind, prog_bind.
  destruct (writec_prints (Obj (int_bytes c)) 0 (lmem s) (u8 c)) as (r & e & E).
  { change (Some (byte_of c 0) = Some (u8 c)). by rewrite byte_of_0. }
  rewrite E. by eexists.
Qed.

Lemma write0_eq p l s : cstr (lmem s) p l ->
  exists r s', DIRECT_SWI HEX_SYS_WRITE0 p s = Done r s' /\ lmem s' = lmem s /\ lout s' = lout s ++ l.
Proof.
  intros Hc. unfold DIRECT_SWI, DO_SWI, modify, gets, mbind, prog_bind.
  destruct (write0_prints p 0 (lmem s) l Hc) as (r & e & E). rewrite E. by eexists _, _.
Qed.

Lemma fputs_eq p l s : cstr (lmem s) p l ->
  exists s', fputs p stdout s = Done 0 s' /\ lmem s' = lmem s /\ lout s' = lout s ++ l.
Proof.
  intros Hc. destruct (write0_eq p l s Hc) as (r & s' & E & M & L). exists s'.
  split; [|done]. unfold fputs. change (cassert (stdout =? stdout)) with (mret (M := prog lstate) tt).
  unfold mbind at 1, prog_bind at 1. cbn [mret prog_ret]. by rewrite (bind_done _ _ _ _ _ E).
Qed.

Lemma puts_eq p l s : cstr (lmem s) p l ->
  exists s', puts p s = Done 0 s' /\ lmem s' = lmem s /\ lout s' = lout s ++ l ++ [10].
Proof.
  intros Hc. destruct (write0_eq p l s Hc) as (r & s1 & E1 & M1 & L1).
  destruct (write0_eq (Obj [10; 0]) [10] s1) as (r2 & s2 & E2 & M2 & L2).
  { apply (lit_cstr _ [10]). by repeat constructor. }
  exists s2. unfold puts. rewrite (bind_done _ _ _ _ _ E1), (bind_done _ _ _ _ _ E2).
  split_and!; [done|congruence|by rewrite L2, L1, app_assoc].
Qed.

Lemma bad_modifier_eq {A} c s :
  exists s', bad_modifier (A := A) c s = Exited 1 s' /\ lmem s' = lmem s /\
    lout s' = lout s ++ bytes_of "fatal: unknown printf modifier '" ++ [u8 c] ++ bytes_of "'" ++ [10].
Proof.
  destruct (fputs_eq (lit "fatal: unknown printf modifier '") (bytes_of "fatal: unknown printf modifier '") s)
    as (s1 & E1 & M1 & L1).
  { apply lit_cstr. apply (bool_decide_eq_true_1 _). vm_compute. reflexivity. }
  destruct (putchar_eq c s1) as (s2 & E2 & M2 & L2).
  destruct (puts_eq (lit "'") (bytes_of "'") s2) as (s3 & E3 & M3 & L3).
  { apply lit_cstr. apply (bool_decide_eq_true_1 _). vm_compute. reflexivity. }
  exists s3. unfold bad_modifier.
  rewrite (bind_done _ _ _ _ _ E1), (bind_done _ _ _ _ _ E2), (bind_done _ _ _ _ _ E3).
  split_and!; [done|congruence|]. by rewrite L3, L2, L1, <- !app_assoc.
Qed.

(** The zeros [pad0] writes first. *)
Lemma zeros_eq n s :
  for_ 0 (Z.of_nat n) (fun i => wr (pad_buf + i) 48) s =
    Done tt (set_mem (write_bytes (lmem s) pad_buf (replicate n 48)) s).
Proof.
  unfold for_. rewrite Z.sub_0_r, Nat2Z.id.
  assert (forall k j, for_up k (Z.of_nat j) (fun i => wr (pad_buf + i) 48)
    (set_mem (write_bytes (lmem s) pad_buf (replicate j 48)) s) =
    Done tt (set_mem (write_bytes (lmem s) pad_buf (replicate (j + k) 48)) s)) as Hk.
  { induction k as [|k IH]; intros j; cbn [for_up]; [by rewrite Nat.add_0_r|].
    rewrite (bind_done _ _ _ _ _ (wr_eq _ _ _)). cbn [lmem set_mem]. change (48 mod 256) with 48.
    pose proof (write_bytes_snoc (lmem s) pad_buf (replicate j 48) 48) as Hs.
    rewrite length_replicate in Hs. rewrite Hs, <- (replicate_cons_app j).
    change (48 :: replicate j 48) with (replicate (Datatypes.S j) 48).
    replace (Z.of_nat j + 1) with (Z.of_nat (Datatypes.S j)) by lia.
    rewrite <- Nat.add_succ_comm. apply (IH (Datatypes.S j)). }
  refine (eq_trans _ (Hk n 0%nat)). f_equal. by destruct s.
Qed.

Lemma pad0_eq p l s :
  cstr (lmem s) p l -> (length l <= 16)%nat -> apart p (Z.of_nat (length l) + 1) pad_buf 17 ->
  exists s', pad0 fuel pad_buf p 16 s = Done (Mem pad_buf) s' /\
    cstr (lmem s') (Mem pad_buf) (pad 16 l) /\
    (forall b, ~ (pad_buf <= b < pad_buf + 17) -> mget (lmem s') b = mget (lmem s) b) /\
    lout s' = lout s.
Proof.
  intros Hc Hl Ha. unfold pad0.
  rewrite (bind_done _ _ _ _ _ (strlen_eq fuel p l s Hc ltac:(lia) ltac:(lia))).
  change (cassert (16 <? 1024)) with (mret (M := prog lstate) tt). unfold mbind at 1, prog_bind at 1.
  cbn [mret prog_ret]. set (k := (16 - length l)%nat).
  replace (16 - Z.of_nat (length l)) with (Z.of_nat k) by lia.
  rewrite (bind_done _ _ _ _ _ (zeros_eq k s)). rewrite Z.max_r by lia.
  set (s1 := set_mem (write_bytes (lmem s) pad_buf (replicate k 48)) s).
  assert (cstr (lmem s1) p l) as Hc1.
  { apply cstr_write; [done|]. eapply apart_le; [done|]. rewrite length_replicate. lia. }
  rewrite (bind_done _ _ _ _ _ (strcpy_eq fuel (pad_buf + Z.of_nat k) p l s1 Hc1 ltac:(lia)
    ltac:(destruct p; simpl in *; lia))). unfold s1.
  eexists. split; [reflexivity|]. cbn [lmem set_mem lout].
  pose proof (write_bytes_app (lmem s) pad_buf (replicate k 48) (l ++ [0])) as Hw.
  rewrite length_replicate in Hw. rewrite Hw, app_assoc. fold (pad 16 l). split_and!; [|intros b Hb|done].
  - apply written_cstr. unfold pad. apply Forall_app. split; [by apply Forall_replicate|apply Hc].
  - apply mget_write_bytes_out. rewrite !length_app, length_replicate. simpl. lia.
Qed.

Lemma rd_suffix m p pre l i c :
  cstr m p (pre ++ l) -> (l ++ [0]) !! i = Some c -> rd m p (Z.of_nat (length pre + i)) = Some c.
Proof.
  intros Hc Hi. apply (cstr_reads _ _ _ Hc). rewrite <- app_assoc.
  by rewrite lookup_app_r, Nat.add_comm, Nat.add_sub by lia.
Qed.

Lemma advance_prefix_eq p pre l w s :
  cstr (lmem s) p (pre ++ l) -> Forall (fun c => 0 < c < 256) w -> (length w < fuel)%nat ->
  advance_prefix fuel p (Z.of_nat (length pre)) (Obj (w ++ [0])) s =
    Done (if decide (take (length w) l = w) then Some (Z.of_nat (length pre + length w) - 1) else None) s.
Proof.
  intros Hc Hw Hf. unfold advance_prefix. set (n := common l w).
  destruct (common_le l w) as [Hn1 Hn2]. fold n in Hn1, Hn2.
  assert (forall i c, (w ++ [0]) !! i = Some c -> rd (lmem s) (Obj (w ++ [0])) (Z.of_nat i) = Some c) as Hrw.
  { intros i c Hi. simpl. by rewrite lookupZ_spec, Nat2Z.id by lia. }
  assert (forall i c, (l ++ [0]) !! i = Some c -> rd (lmem s) p (Z.of_nat (length pre) + Z.of_nat i) = Some c) as Hrl.
  { intros i c Hi. rewrite <- Nat2Z.inj_add. by eapply rd_suffix. }
  assert (Forall (fun c => 0 < c < 256) l) as Hlb by (apply (Forall_app _ pre); apply Hc).
  destruct (lookup_lt_is_Some_2 (w ++ [0]) n) as [b Hb]; [rewrite length_app; simpl; lia|].
  destruct (lookup_lt_is_Some_2 (l ++ [0]) n) as [a Ha]; [rewrite length_app; simpl; lia|].
  assert (truth b = negb (bool_decide (n = length w))) as Htb.
  { destruct (decide (n = length w)) as [E|E].
    - rewrite bool_decide_eq_true_2 by done. rewrite E, list_lookup_middle in Hb by done. by injection Hb as <-.
    - rewrite bool_decide_eq_false_2 by done. rewrite lookup_app_l in Hb by lia.
      apply truth_nonzero. rewrite Forall_lookup in Hw. specialize (Hw _ _ Hb). lia. }
  rewrite (bind_done _ _ _ (Z.of_nat n) s).
  - rewrite (bind_done _ _ _ _ _ (rdp_eq _ _ b s (Hrw n b Hb))). rewrite Htb, negb_involutive.
    cbn [mret prog_ret]. f_equal. pose proof (common_full l w) as Hcf. fold n in Hcf.
    destruct (decide (take (length w) l = w)) as [E|E].
    + apply Hcf in E. rewrite bool_decide_eq_true_2 by done. f_equal. lia.
    + rewrite bool_decide_eq_false_2; [done|]. intros En. by apply E, Hcf.
  - refine (iter_run _ (fun i => Z.of_nat i) (fun _ => s) fuel n _ _ _ _ _); [lia|..].
    + intros i Hi. destruct (common_same l w i Hi) as (c & Hlc & Hwc).
      rewrite (bind_done _ _ _ _ _ (rdp_eq p _ c s (Hrl i c (lookup_app_l_Some _ _ _ _ Hlc)))).
      rewrite truth_nonzero by (rewrite Forall_lookup in Hlb; specialize (Hlb _ _ Hlc); lia).
      rewrite (bind_done _ _ _ _ _ (rdp_eq _ _ c s (Hrw i c (lookup_app_l_Some _ _ _ _ Hwc)))).
      rewrite Z.eqb_refl. cbn [mret prog_ret]. do 2 f_equal. lia.
    + rewrite (bind_done _ _ _ _ _ (rdp_eq p _ a s (Hrl n a Ha))).
      destruct (truth a) eqn:Eta; [|done].
      rewrite (bind_done _ _ _ _ _ (rdp_eq _ _ b s (Hrw n b Hb))).
      assert (a <> b) as Hab; [|by destruct (Z.eqb_spec a b)].
      destruct (decide (n = length l)) as [El|El].
      { rewrite El, list_lookup_middle in Ha by done. injection Ha as <-. done. }
      rewrite lookup_app_l in Ha by lia. destruct (decide (n = length w)) as [Ew|Ew].
      { rewrite Ew, list_lookup_middle in Hb by done. injection Hb as <-.
        rewrite Forall_lookup in Hlb. specialize (Hlb _ _ Ha). lia. }
      rewrite lookup_app_l in Hb by lia. by eapply common_stops.
Qed.

(** The arguments are numbers of their width or strings apart from the buffers. *)
Definition arg_ok (s : lstate) (a : arg) : Prop :=
  match a with AInt _ => True | AStr p l => intact s p l | AU64 n => 0 <= n < 2 ^ 64 end.

Lemma args_quiet s s' args : quiet s s' -> Forall (arg_ok s) args -> Forall (arg_ok s') args.
Proof.
  intros Hq Ha. eapply Forall_impl; [done|]. intros [n|p l|n]; simpl; auto. by apply intact_quiet.
Qed.

(** A run of printf prints what [render] says and ends the way it says. *)
Definition good (o : outcome lstate Z) (s : lstate) (r : option (list Z * bool)) : Prop :=
  match r with
  | None => True
  | Some (out, ok) =>
    match o with
    | Done v s' => ok = true /\ v = 1 /\ prints s out s'
    | Exited c s' => ok = false /\ c = 1 /\ prints s out s'
    | _ => False
    end
  end.

Lemma good_prepend s s1 o1 o r : prints s o1 s1 -> good o s1 r -> good o s (prepend o1 r).
Proof.
  intros P. destruct r as [[out ok]|]; [|done]. simpl.
  destruct o; try done; intros (? & ? & ?); split_and!; try done; by eapply prints_trans.
Qed.

Section loop.
Context (format : ptr).
Abbreviation round := (fun '(i, ap) => printf_round fuel num_buf pad_buf format i ap).

Lemma good_step f i ap x s s1 o r :
  printf_round fuel num_buf pad_buf format i ap s = Done (inl x) s1 -> prints s o s1 ->
  good (iter f round x s1) s1 r -> good (iter (Datatypes.S f) round (i, ap) s) s (prepend o r).
Proof.
  intros E P G. cbn [iter]. unfold mbind, prog_bind. rewrite E. by eapply good_prepend.
Qed.

Lemma good_fatal f i ap c s :
  (exists s', printf_round fuel num_buf pad_buf format i ap s = Exited 1 s' /\ lmem s' = lmem s /\
    lout s' = lout s ++ bytes_of "fatal: unknown printf modifier '" ++ [u8 c] ++ bytes_of "'" ++ [10]) ->
  good (iter (Datatypes.S f) round (i, ap) s) s (fatal c).
Proof.
  intros (s' & E & M & L). cbn [iter]. unfold mbind, prog_bind. rewrite E. simpl.
  split_and!; [done..|by apply prints_mem].
Qed.

Lemma to_s_printed base n s : base = 10 \/ base = 16 -> 0 <= n < 2 ^ 64 ->
  exists p s1 s2, num_to_s fuel num_buf n base s = Done p s1 /\ fputs p stdout s1 = Done 0 s2 /\
    prints s (numeral base n) s2.
Proof.
  intros Hb Hn. destruct (num_to_s_eq base Hb fuel Hfuel num_buf n s Hn) as (p & s1 & E1 & C & O & L & _).
  destruct (fputs_eq p _ s1 C) as (s2 & E2 & M2 & L2). exists p, s1, s2. split_and!; [done..|].
  split; [|by rewrite L2, L]. intros b H1 _. rewrite M2. by apply O.
Qed.

Lemma hex_printed n s : 0 <= n < 2 ^ 64 ->
  exists p s1 q s2 s3, num_to_s fuel num_buf n 16 s = Done p s1 /\
    pad0 fuel pad_buf p 16 s1 = Done q s2 /\ fputs q stdout s2 = Done 0 s3 /\
    prints s (pad 16 (numeral 16 n)) s3.
Proof.
  intros Hn.
  destruct (num_to_s_eq 16 ltac:(by right) fuel Hfuel num_buf n s Hn) as (p & s1 & E1 & C & O & L & Hp).
  pose proof (numeral_short 16 ltac:(by right) n Hn eq_refl) as Hs.
  destruct (pad0_eq p _ s1 C Hs) as (s2 & E2 & C2 & O2 & L2).
  { destruct Hp as [-> | ->]; [done|]. simpl. lia. }
  destruct (fputs_eq _ _ s2 C2) as (s3 & E3 & M3 & L3).
  exists p, s1, (Mem pad_buf), s2, s3. split_and!; [done..|]. split.
  - intros b H1 H2. rewrite M3, O2, O by done. done.
  - by rewrite L3, L2, L.
Qed.

Lemma u64_range n : 0 <= u64 n < 2 ^ 64.
Proof. apply uwrap_range. lia. Qed.

(** Reading the character at the position reached. *)
Lemma read_at s pre l c i :
  intact s format (pre ++ l) -> (l ++ [0]) !! i = Some c ->
  rdp format (Z.of_nat (length pre + i)) s = Done c s.
Proof. intros (C & _) Hi. apply rdp_eq. by eapply rd_suffix. Qed.

Definition conversion (d : Z) : bool := (d =? 100) || (d =? 120) || (d =? 112).

(** What a round does on each kind of character. *)
Lemma round_plain s pre c l ap : intact s format (pre ++ c :: l) -> c <> 37 ->
  exists s1, printf_round fuel num_buf pad_buf format (Z.of_nat (length pre)) ap s =
    Done (inl (Z.of_nat (length (pre ++ [c])), ap)) s1 /\ prints s [u8 c] s1.
Proof.
  intros Hi Hc. assert (c <> 0) as Hc0.
  { apply (cstr_nonzero (lmem s) format (pre ++ c :: l) (length pre)); [apply Hi|]. by apply list_lookup_middle. }
  destruct (putchar_eq c s) as (s1 & E & M & L). exists s1. split; [|by apply prints_mem].
  pose proof (read_at s pre (c :: l) c 0 Hi eq_refl) as R. rewrite Nat.add_0_r in R.
  unfold printf_round. rewrite (bind_done _ _ _ _ _ R), truth_nonzero by done. cbn [negb].
  rewrite (proj2 (Z.eqb_neq c 37) Hc), (bind_done _ _ _ _ _ E). cbn [mret prog_ret].
  rewrite length_app. simpl. do 3 f_equal. lia.
Qed.

(** The rest of a round that has read a percent sign; [d] follows it. *)
Definition percent (d i : Z) (ap : list va) : prog lstate (Z * list va + Z) :=
  if conversion d then
    '(num, ap) ← va_int ap;
    p ← num_to_s fuel num_buf (u64 num) (if d =? 100 then 10 else 16);
    fputs p stdout;;
    mret (inl (i + 1, ap))
  else if d =? 115 then '(p, ap) ← va_ptr ap; fputs p stdout;; mret (inl (i + 1, ap))
  else if d =? 99 then '(n, ap) ← va_int ap; putchar n;; mret (inl (i + 1, ap))
  else if d =? 37 then putchar 37;; mret (inl (i + 1, ap))
  else if d =? 48 then
    r ← advance_prefix fuel format i (lit "016llx");
    match r with
    | Some i =>
        '(num, ap) ← va_u64 ap;
        p ← num_to_s fuel num_buf num 16; q ← pad0 fuel pad_buf p 16; fputs q stdout;;
        mret (inl (i + 1, ap))
    | None => bad_modifier d
    end
  else bad_modifier d.

Lemma round_percent s pre d l ap : intact s format (pre ++ 37 :: l) -> (l ++ [0]) !! 0%nat = Some d ->
  printf_round fuel num_buf pad_buf format (Z.of_nat (length pre)) ap s =
    percent d (Z.of_nat (length (pre ++ [37]))) ap s.
Proof.
  intros Hi Hd. pose proof (read_at s pre (37 :: l) 37 0 Hi eq_refl) as R. rewrite Nat.add_0_r in R.
  pose proof (read_at s pre (37 :: l) d 1 Hi Hd) as R1.
  unfold printf_round. rewrite (bind_done _ _ _ _ _ R).
  change (negb (truth 37)) with false. change (37 =? 37) with true. cbv iota.
  replace (Z.of_nat (length pre) + 1) with (Z.of_nat (length pre + 1)) by lia.
  rewrite (bind_done _ _ _ _ _ R1). rewrite length_app. done.
Qed.

(** The statement of the loop at a position of the format. *)
Definition runs (rest : list Z) : Prop := forall pre args s f,
  (length rest < f)%nat -> intact s format (pre ++ rest) -> Forall (arg_ok s) args ->
  good (iter f round (Z.of_nat (length pre), to_va <$> args) s) s (render rest args).

Lemma next_round pre k rest args args0 s s1 o f :
  runs rest -> prints s o s1 -> intact s format (pre ++ k ++ rest) -> Forall (arg_ok s) args ->
  (length rest < f)%nat ->
  printf_round fuel num_buf pad_buf format (Z.of_nat (length pre)) (to_va <$> args0) s =
    Done (inl (Z.of_nat (length (pre ++ k)), to_va <$> args)) s1 ->
  good (iter (Datatypes.S f) round (Z.of_nat (length pre), to_va <$> args0) s) s
    (prepend o (render rest args)).
Proof.
  intros IH P Hi Ha Hf E. eapply good_step; [done..|]. destruct P as [Q _]. apply IH; [done| |].
  - rewrite <- app_assoc. by eapply intact_quiet.
  - by eapply args_quiet.
Qed.

Ltac next k := eapply (next_round _ k); [done|done|by rewrite <- ?app_assoc|done|lia|].

(** The conversions of a number, of a string, of a character. *)
Lemma percent_number d i n ap s : conversion d = true ->
  exists s1, percent d i (VInt n :: ap) s = Done (inl (i + 1, ap)) s1 /\
    prints s (numeral (if d =? 100 then 10 else 16) (u64 n)) s1.
Proof.
  intros Hd. destruct (to_s_printed (if d =? 100 then 10 else 16) (u64 n) s) as (p & s1 & s2 & E1 & E2 & P);
    [destruct (d =? 100); auto|apply u64_range|].
  exists s2. split; [|done]. unfold percent. rewrite Hd. unfold va_int, mbind at 1, prog_bind at 1.
  cbn [mret prog_ret]. by rewrite (bind_done _ _ _ _ _ E1), (bind_done _ _ _ _ _ E2).
Qed.

Lemma percent_string i p l ap s : cstr (lmem s) p l ->
  exists s1, percent 115 i (VPtr p :: ap) s = Done (inl (i + 1, ap)) s1 /\ prints s l s1.
Proof.
  intros Hc. destruct (fputs_eq p l s Hc) as (s1 & E & M & L). exists s1. split; [|by apply prints_mem].
  unfold percent. change (conversion 115) with false. change (115 =? 115) with true. cbv iota.
  unfold va_ptr, mbind at 1, prog_bind at 1. cbn [mret prog_ret]. by rewrite (bind_done _ _ _ _ _ E).
Qed.

Lemma percent_char i n ap s :
  exists s1, percent 99 i (VInt n :: ap) s = Done (inl (i + 1, ap)) s1 /\ prints s [u8 n] s1.
Proof.
  destruct (putchar_eq n s) as (s1 & E & M & L). exists s1. split; [|by apply prints_mem].
  unfold percent. change (conversion 99) with false. change (99 =? 115) with false.
  change (99 =? 99) with true. cbv iota.
  unfold va_int, mbind at 1, prog_bind at 1. cbn [mret prog_ret]. by rewrite (bind_done _ _ _ _ _ E).
Qed.

Lemma percent_percent i ap s :
  exists s1, percent 37 i ap s = Done (inl (i + 1, ap)) s1 /\ prints s [37] s1.
Proof.
  destruct (putchar_eq 37 s) as (s1 & E & M & L). exists s1. split; [|by apply prints_mem].
  unfold percent. change (conversion 37) with false. change (37 =? 115) with false.
  change (37 =? 99) with false. change (37 =? 37) with true. cbv iota. by rewrite (bind_done _ _ _ _ _ E).
Qed.

Lemma percent_bad d i ap s :
  conversion d = false -> d <> 115 -> d <> 99 -> d <> 37 -> d <> 48 -> percent d i ap s = bad_modifier d s.
Proof.
  intros Hd H1 H2 H3 H4. unfold percent. rewrite Hd.
  by rewrite (proj2 (Z.eqb_neq d 115) H1), (proj2 (Z.eqb_neq d 99) H2),
    (proj2 (Z.eqb_neq d 37) H3), (proj2 (Z.eqb_neq d 48) H4).
Qed.

Lemma percent_zero pre l ap s : intact s format (pre ++ 48 :: l) ->
  percent 48 (Z.of_nat (length pre)) ap s =
    (if decide (take 5 l = bytes_of "16llx") then
       '(num, ap) ← va_u64 ap;
       p ← num_to_s fuel num_buf num 16; q ← pad0 fuel pad_buf p 16; fputs q stdout;;
       mret (inl (Z.of_nat (length pre) + 6, ap))
     else bad_modifier 48) s.
Proof.
  intros [Hc _]. unfold percent. change (conversion 48) with false. change (48 =? 115) with false.
  change (48 =? 99) with false. change (48 =? 37) with false. change (48 =? 48) with true. cbv iota.
  pose proof (advance_prefix_eq format pre (48 :: l) (bytes_of "016llx") s Hc) as E.
  rewrite (bind_done _ _ _ _ _ (E ltac:(apply (bool_decide_eq_true_1 _); vm_compute; reflexivity)
    ltac:(change (length (bytes_of "016llx")) with 6%nat; lia))).
  change (length (bytes_of "016llx")) with 6%nat. change (bytes_of "016llx") with (48 :: bytes_of "16llx").
  cbn [take]. destruct (decide (48 :: take 5 l = 48 :: bytes_of "16llx")) as [Hd|Hd],
    (decide (take 5 l = bytes_of "16llx")) as [Hd'|Hd']; try congruence.
  by replace (Z.of_nat (length pre + 6) - 1 + 1) with (Z.of_nat (length pre) + 6) by lia.
Qed.

Lemma runs_nil : runs [].
Proof.
  intros pre args s [|f] Hf Hi Ha; [simpl in Hf; lia|].
  pose proof (read_at s pre [] 0 0 Hi eq_refl) as R. rewrite Nat.add_0_r in R.
  cbn [iter]. unfold mbind at 1, prog_bind at 1. unfold printf_round.
  rewrite (bind_done _ _ _ _ _ R). split_and!; [done..|]. split; [done|by rewrite app_nil_r].
Qed.

(** A percent sign and a bad modifier end the process. *)
Lemma runs_bad pre d l args s f :
  intact s format (pre ++ 37 :: l) -> (l ++ [0]) !! 0%nat = Some d ->
  (forall i ap, percent d i ap s = bad_modifier d s) \/
    percent d (Z.of_nat (length (pre ++ [37]))) (to_va <$> args) s = bad_modifier d s ->
  good (iter (Datatypes.S f) round (Z.of_nat (length pre), to_va <$> args) s) s (fatal d).
Proof.
  intros Hi Hd Hbad. apply good_fatal. rewrite (round_percent _ _ _ _ _ Hi Hd).
  destruct Hbad as [-> | ->]; apply bad_modifier_eq.
Qed.

Lemma length_pre (pre : list Z) (k : Z) : Z.of_nat (length (pre ++ [37])) + 1 = Z.of_nat (length (pre ++ [37; k])).
Proof. rewrite !length_app. simpl. lia. Qed.

Lemma printf_loop n : forall rest, (length rest <= n)%nat -> runs rest.
Proof.
  induction n as [|n IH]; intros [|c rest] Hn; try apply runs_nil; [simpl in Hn; lia|].
  cbn [length] in Hn. intros pre args s [|f] Hf Hi Ha; cbn [length] in Hf; [lia|].
  cbn [render]. destruct (Z.eqb_spec c 37) as [->|Hc]; cbn [negb].
  2:{ destruct (round_plain s pre c rest (to_va <$> args) Hi Hc) as (s1 & E & P).
      eapply (next_round pre [c]); try done; [apply IH; lia|lia]. }
  destruct rest as [|d rest].
  { apply (runs_bad pre 0 []); [done|done|left; intros]. by apply percent_bad. }
  cbn [length] in Hn, Hf. assert (runs rest) as Hrest by (apply IH; lia).
  assert (intact s format (pre ++ [37; d] ++ rest)) as Hi2 by done.
  pose proof (round_percent s pre d (d :: rest) (to_va <$> args) Hi eq_refl) as Hround.
  fold (conversion d). destruct (conversion d) eqn:Hconv.
  { destruct args as [|[n0| |] args]; try done. cbn [fmap list_fmap to_va] in *.
    apply Forall_cons in Ha as [_ Ha].
    destruct (percent_number d (Z.of_nat (length (pre ++ [37]))) n0 (to_va <$> args) s Hconv) as (s1 & E & P).
    rewrite length_pre with (k := d) in E.
    apply (next_round pre [37; d] rest args (AInt n0 :: args) s s1); try done; [lia|]. by rewrite <- E, <- Hround. }
  destruct (Z.eqb_spec d 115) as [->|H115].
  { destruct args as [|[|p l|] args]; try done. cbn [fmap list_fmap to_va] in *.
    apply Forall_cons in Ha as [[Hcs _] Ha].
    destruct (percent_string (Z.of_nat (length (pre ++ [37]))) p l (to_va <$> args) s Hcs) as (s1 & E & P).
    rewrite length_pre with (k := 115) in E.
    apply (next_round pre [37; 115] rest args (AStr p l :: args) s s1); try done; [lia|]. by rewrite <- E, <- Hround. }
  destruct (Z.eqb_spec d 99) as [->|H99].
  { destruct args as [|[n0| |] args]; try done. cbn [fmap list_fmap to_va] in *.
    apply Forall_cons in Ha as [_ Ha].
    destruct (percent_char (Z.of_nat (length (pre ++ [37]))) n0 (to_va <$> args) s) as (s1 & E & P).
    rewrite length_pre with (k := 99) in E.
    apply (next_round pre [37; 99] rest args (AInt n0 :: args) s s1); try done; [lia|]. by rewrite <- E, <- Hround. }
  destruct (Z.eqb_spec d 37) as [->|H37].
  { destruct (percent_percent (Z.of_nat (length (pre ++ [37]))) (to_va <$> args) s) as (s1 & E & P).
    rewrite length_pre with (k := 37) in E.
    apply (next_round pre [37; 37] rest args args s s1); try done; [lia|]. by rewrite <- E, <- Hround. }
  destruct (Z.eqb_spec d 48) as [->|H48].
  2:{ apply (runs_bad pre d (d :: rest)); [done|done|left; intros]. by apply percent_bad. }
  pose proof (percent_zero (pre ++ [37]) rest (to_va <$> args) s) as Hz.
  rewrite <- app_assoc in Hz. specialize (Hz Hi).
  destruct rest as [|a1 [|a2 [|a3 [|a4 [|a5 rest]]]]];
    try (eapply (runs_bad pre 48); [exact Hi|done|right];
      rewrite Hz, decide_False; [done|let Hw := fresh in intros Hw; vm_compute in Hw; discriminate]).
  cbn [take] in Hz. destruct (decide ([a1; a2; a3; a4; a5] = bytes_of "16llx")) as [Hw|Hw].
  2:{ apply (runs_bad pre 48 (48 :: a1 :: a2 :: a3 :: a4 :: a5 :: rest)); [done|done|right].
      rewrite Hz. by rewrite decide_False. }
  rewrite decide_True in Hz by done.
  destruct args as [|[| |n0] args]; try done. cbn [fmap list_fmap to_va] in *.
  apply Forall_cons in Ha as [Hn0 Ha].
  destruct (hex_printed n0 s Hn0) as (p & s1 & q & s2 & s3 & E1 & E2 & E3 & P).
  apply (next_round pre [37; 48; a1; a2; a3; a4; a5] rest args (AU64 n0 :: args) s s3); try done.
  - apply IH. simpl in Hn. lia.
  - simpl in Hf. lia.
  - cbn [fmap list_fmap to_va]. rewrite Hround, Hz. unfold va_u64, mbind at 1, prog_bind at 1.
    cbn [mret prog_ret].
    rewrite (bind_done _ _ _ _ _ E1), (bind_done _ _ _ _ _ E2), (bind_done _ _ _ _ _ E3).
    cbn [mret prog_ret]. rewrite !length_app. simpl. do 3 f_equal. lia.
Qed.
End loop.
End printf.

(** C32: printf, on any format and arguments of the right types apart from its
    static buffers, prints exactly what [render] says, changes no memory but
    its two buffers, and returns 1; on an unknown modifier it prints the text
    before it and the fatal message and ends the process with status 1.  Numbers
    are printed as their 64-bit conversion. *)
Theorem printf_spec `{SemihostLaws} fuel num_buf pad_buf format fmt args s :
  (64 < fuel)%nat -> (length fmt < fuel)%nat ->
  num_buf + 65 <= pad_buf \/ pad_buf + 17 <= num_buf ->
  intact num_buf pad_buf s format fmt -> Forall (arg_ok num_buf pad_buf s) args ->
  good num_buf pad_buf (printf fuel num_buf pad_buf format (to_va <$> args) s) s (render fmt args).
Proof.
  intros Hf Hl Hb Hi Ha. unfold printf.
  apply (printf_loop fuel Hf num_buf pad_buf Hb format (length fmt) fmt (le_n _) [] args s fuel); done.
Qed.

(** C39: a negative argument of %d is not printed as a negative number: num_to_s
    takes it as unsigned, so the sign test never succeeds and the number
    printed is the argument plus 2^64. *)
Theorem printf_negative `{SemihostLaws} fuel num_buf pad_buf n s :
  (64 < fuel)%nat -> num_buf + 65 <= pad_buf \/ pad_buf + 17 <= num_buf ->
  - 2 ^ 31 <= n < 0 ->
  exists s', printf fuel num_buf pad_buf (lit "%d") [VInt n] s = Done 1 s' /\
    lout s' = lout s ++ numeral 10 (n + 2 ^ 64).
Proof.
  intros Hf Hb Hn.
  assert (intact num_buf pad_buf s (lit "%d") (bytes_of "%d")) as Hi.
  { split; [|done]. apply lit_cstr. apply (bool_decide_eq_true_1 _). vm_compute. reflexivity. }
  pose proof (printf_loop fuel Hf num_buf pad_buf Hb (lit "%d") 2 (bytes_of "%d") ltac:(done) [] [AInt n] s fuel
    ltac:(simpl; lia) Hi ltac:(by repeat constructor)) as G.
  assert (u64 n = n + 2 ^ 64) as Hu.
  { unfold uwrap. rewrite <- (Z_mod_plus_full n 1). rewrite Z.mul_1_l. apply Z.mod_small. lia. }
  change (render (bytes_of "%d") [AInt n]) with (Some (numeral 10 (u64 n) ++ [], true)) in G.
  rewrite Hu in G. unfold printf. cbn [fmap list_fmap to_va] in G.
  unfold good in G. destruct (iter _ _ _ _) as [v s'|c s'| |]; try (by destruct G).
  destruct G as (_ & -> & _ & L). exists s'. split; [done|]. by rewrite L, app_nil_r.
Qed.


(* ------------------------------------------------------------------ *)
(** ** Runs on the simulated host *)

Import SimHost.


Definition demo_fmt : list Z := bytes_of "%s=%d (0x%016llx)%c".
Definition demo_args : list arg :=
  [AStr (Mem 1000) demo_text; AInt 42; AU64 0xbeef; AInt 33].

Lemma demo_args_ok : Forall (arg_ok 500 600 demo_state) demo_args.
Proof.
  assert (intact 500 600 demo_state (Mem 1000) demo_text) as Hi
    by (split; [exact demo_text_cstr | simpl; lia]).
  repeat (apply Forall_cons; split; [first [exact Hi | simpl; lia]|]). constructor.
Qed.

Lemma printf_spec_witness :
  (64 < 65)%nat /\
  good 500 600 (printf 65 500 600 (lit "%s=%d (0x%016llx)%c") (to_va <$> demo_args) demo_state) demo_state
    (Some (bytes_of "abca=42 (0x000000000000beef)!", true)).
Proof.
  assert (64 < 65)%nat as Hf by lia. split; [exact Hf|].
  apply (printf_spec 65 500 600 (lit "%s=%d (0x%016llx)%c") demo_fmt demo_args demo_state Hf).
  - change (length demo_fmt) with 19%nat. lia.
  - left. lia.
  - split; [|done]. apply lit_cstr. apply (bool_decide_eq_true_1 _). vm_compute. reflexivity.
  - exact demo_args_ok.
Defined.

Lemma printf_negative_witness :
  - 2 ^ 31 <= -1 < 0 /\
  exists s', printf 65 500 600 (lit "%d") [VInt (-1)] demo_state = Done 1 s' /\
    lout s' = bytes_of "18446744073709551615".
Proof.
  assert (- 2 ^ 31 <= -1 < 0) as Hn by lia. split; [exact Hn|].
  exact (printf_negative 65 500 600 (-1) demo_state ltac:(lia) ltac:(left; lia) Hn).
Defined.
