(* ===== verification/LibcArgs.v ===== *)
(** [getcmdline] of [crt0/min_libc.c]: splitting the command line. *)

From S2P Require Import Prelude ByteMem MinLibc LibcHost.

Open Scope string_scope.
Open Scope list_scope.
Open Scope Z_scope.

(* ------------------------------------------------------------------ *)
(** ** The command line *)

(** The arguments: the pieces between spaces, a space at the very end starting
    none. *)
Fixpoint words (l : list Z) : list (list Z) :=
  match l with
  | [] => [[]]
  | x :: l' =>
    if x =? 32 then match l' with [] => [[]] | _ => [] :: words l' end
    else match words l' with w :: ws => (x :: w) :: ws | [] => [] end
  end.

Example words_small : words (bytes_of "prog -x  file ") =
  [bytes_of "prog"; bytes_of "-x"; []; bytes_of "file"].
Proof. reflexivity. Qed.

(** The offsets where arguments after the first start, [l] being at offset [i]. *)
Fixpoint starts (i : Z) (l : list Z) : list Z :=
  match l with
  | [] => []
  | x :: l' =>
    if x =? 32 then match l' with [] => [] | _ => (i + 1) :: starts (i + 1) l' end
    else starts (i + 1) l'
  end.

Lemma words_nonempty l : words l <> [].
Proof.
  induction l as [|x l IH]; [done|]. cbn [words]. destruct (x =? 32); [by destruct l|].
  by destruct (words l).
Qed.

Lemma words_starts i l : length (words l) = Datatypes.S (length (starts i l)).
Proof.
  revert i. induction l as [|x l IH]; intros i; [done|]. cbn [words starts].
  destruct (x =? 32).
  - destruct l as [|y l]; [done|]. cbn [length]. f_equal. apply IH.
  - rewrite <- IH. pose proof (words_nonempty l). by destruct (words l).
Qed.

Definition blank_spaces (l : list Z) : list Z := (fun x => if x =? 32 then 0 else x) <$> l.

(** Once the spaces are terminators, each start is the string of its word. *)
Lemma words_in_place m a cl pre l :
  Forall (fun c => 0 < c < 256) cl -> cl = pre ++ l ->
  Forall2 (fun ad w => cstr (write_bytes m a (blank_spaces cl ++ [0])) (Mem ad) w)
    ((a + Z.of_nat (length pre)) :: ((fun o => a + o) <$> starts (Z.of_nat (length pre)) l)) (words l).
Proof.
  intros Hb. revert pre. set (m' := write_bytes m a (blank_spaces cl ++ [0])).
  assert (forall i c, cl !! i = Some c -> rd m' (Mem (a + Z.of_nat i)) 0 = Some (if c =? 32 then 0 else c)) as Hrd.
  { intros i c Hi. unfold rd, m'. f_equal. rewrite Z.add_0_r. apply mget_write_bytes_in.
    apply lookup_app_l_Some. unfold blank_spaces. by rewrite list_lookup_fmap, Hi. }
  assert (rd m' (Mem (a + Z.of_nat (length cl))) 0 = Some 0) as Hend.
  { unfold rd, m'. f_equal. rewrite Z.add_0_r. apply mget_write_bytes_in. unfold blank_spaces.
    apply list_lookup_middle. by rewrite length_fmap. }
  assert (forall ad, rd m' (Mem ad) 0 = Some 0 -> cstr m' (Mem ad) []) as Hempty.
  { intros ad He. split; [done|by intros i c Hi|done]. }
  induction l as [|x l IH]; intros pre E.
  - cbn [words starts fmap list_fmap]. rewrite app_nil_r in E.
    apply Forall2_cons. split; [apply Hempty; by subst pre|constructor].
  - assert (cl !! length pre = Some x) as Hx by (rewrite E; by apply list_lookup_middle).
    specialize (Hrd _ _ Hx).
    assert (cl = (pre ++ [x]) ++ l) as E' by (by rewrite <- app_assoc).
    specialize (IH _ E'). rewrite length_app in IH. cbn [length] in IH.
    replace (Z.of_nat (length pre + 1)) with (Z.of_nat (length pre) + 1) in IH by lia.
    cbn [words starts]. destruct (Z.eqb_spec x 32) as [->|Hne].
    + destruct l as [|y l].
      { apply Forall2_cons. split; [by apply Hempty|constructor]. }
      apply Forall2_cons. split; [by apply Hempty|exact IH].
    + pose proof (words_nonempty l). destruct (words l) as [|w ws]; [done|].
      apply Forall2_cons in IH as [Hw Hws]. apply Forall2_cons. split; [|done].
      assert (0 < x < 256) as Hxr by (rewrite Forall_lookup in Hb; by eapply Hb).
      destruct Hw as [Hwb Hwa Hwe]. split; [by constructor| |].
      * intros [|i] c Hi; [injection Hi as <-; exact Hrd|].
        rewrite <- (Hwa i c Hi). simpl. do 2 f_equal. lia.
      * rewrite <- Hwe. simpl. do 2 f_equal. lia.
Qed.

Section getcmdline.
Context `{HS : SemihostLaws} (fuel : nat) (swi_args_addr cmd_buf : Z).
Context (Hcl : Forall (fun c => 0 < c < 256) cmdline) (Hlen : Z.of_nat (length cmdline) < 4096).
Context (Hfuel : (length cmdline < fuel)%nat) (Hbuf : in_u 32 cmd_buf).

(** The state once the host has copied the command line. *)
Lemma swi_copies s :
  exists s', SWI2 swi_args_addr HEX_SYS_GET_CMDLINE cmd_buf 4096 s = Done 0 s' /\
    lout s' = lout s /\
    exists m, lmem s' = write_bytes m cmd_buf (cmdline ++ [0]) /\
      (forall b, ~ (swi_args_addr <= b < swi_args_addr + 8) -> mget m b = mget (lmem s) b).
Proof.
  unfold SWI2, DO_SWI, modify, gets, mbind, prog_bind. cbn [lmem set_mem lout swi_ret].
  set (m := store 4 (store 4 (lmem s) (swi_args_addr + 4) (u32 4096)) swi_args_addr (u32 cmd_buf)).
  assert (load 4 m swi_args_addr = cmd_buf) as L0.
  { unfold m. rewrite load_store_same; [by apply uwrap_id|]. rewrite uwrap_id by done. apply Hbuf. }
  assert (load 4 m (swi_args_addr + 4) = 4096) as L1.
  { unfold m. rewrite load_store_other by lia. by apply load_store_same. }
  destruct (cmdline_copies swi_args_addr 0 m Hcl ltac:(lia)) as (e & E). rewrite E, L0.
  eexists. split; [reflexivity|]. split; [apply app_nil_r|]. exists m. split; [done|].
  intros b Hb. unfold m. rewrite !mget_store.
  do 2 (replace (_ && _) with false by (split_cmp; done)). done.
Qed.

Abbreviation buffer m l := (write_bytes m cmd_buf l).

Lemma read_buffer m l i c s : lmem s = buffer m l -> l !! i = Some c ->
  rdp (Mem cmd_buf) (Z.of_nat i) s = Done c s.
Proof. intros E Hi. apply rdp_eq. simpl. f_equal. rewrite E. by apply mget_write_bytes_in. Qed.

(** The first loop counts the arguments. *)
Lemma count_loop m s pre l argc f :
  lmem s = buffer m (cmdline ++ [0]) -> cmdline = pre ++ l -> (length l < f)%nat ->
  iter f (fun '(i, argc) =>
    c ← rdp (Mem cmd_buf) i;
    if truth c then
      d ← rdp (Mem cmd_buf) (i + 1);
      mret (inl (i + 1, if (c =? 32) && truth d then argc + 1 else argc))
    else mret (inr argc)) (Z.of_nat (length pre), argc) s =
  Done (argc + Z.of_nat (length (starts (Z.of_nat (length pre)) l))) s.
Proof.
  intros Em. revert pre argc f. induction l as [|x l IH]; intros pre argc [|f] E Hf; cbn [length] in Hf; try lia;
    cbn [iter]; unfold mbind at 1, prog_bind at 1.
  - rewrite app_nil_r in E. rewrite (bind_done _ _ _ 0 s); [cbn [starts length]; do 2 f_equal; lia|].
    apply (read_buffer m (cmdline ++ [0])); [done|]. rewrite E. by apply list_lookup_middle.
  - assert (cmdline !! length pre = Some x) as Hx by (rewrite E; by apply list_lookup_middle).
    rewrite (bind_done _ _ _ x s).
    2:{ apply (read_buffer m (cmdline ++ [0])); [done|]. by apply lookup_app_l_Some. }
    pose proof Hcl as Hcl'. rewrite Forall_lookup in Hcl'. pose proof (Hcl' _ _ Hx).
    rewrite truth_nonzero by lia.
    rewrite (bind_done _ _ _ (hd 0 l) s).
    2:{ replace (Z.of_nat (length pre) + 1) with (Z.of_nat (length pre + 1)) by lia.
        apply (read_buffer m (cmdline ++ [0])); [done|]. rewrite E, <- app_assoc.
        rewrite lookup_app_r, Nat.add_comm, Nat.add_sub by lia. by destruct l. }
    cbn [mret prog_ret].
    specialize (IH (pre ++ [x])). rewrite length_app in IH. cbn [length] in IH.
    replace (Z.of_nat (length pre + 1)) with (Z.of_nat (length pre) + 1) in IH by lia.
    rewrite IH by (by rewrite <- ?app_assoc || lia).
    assert (truth (hd 0 l) = bool_decide (l <> [])) as ->.
    { destruct l as [|y l]; [done|]. rewrite bool_decide_eq_true_2 by done. apply truth_nonzero.
      assert (cmdline !! Datatypes.S (length pre) = Some y) as Hy; [|pose proof (Hcl' _ _ Hy); simpl; lia].
      rewrite E. rewrite lookup_app_r, Nat.sub_succ_l, Nat.sub_diag by lia. done. }
    cbn [starts]. destruct (x =? 32); cbn [andb]; [|done]. destruct l as [|y l].
    + rewrite bool_decide_eq_false_2 by (intros Hx0; by apply Hx0). done.
    + rewrite bool_decide_eq_true_2 by done. cbn [length]. f_equal. lia.
Qed.

(** The buffer once the spaces of [pre] are terminators. *)
Definition half_blank (pre l : list Z) : list Z := blank_spaces pre ++ l ++ [0].

Lemma half_blank_step pre x l :
  half_blank (pre ++ [x]) l =
    if x =? 32 then <[length pre := 0]> (half_blank pre (x :: l)) else half_blank pre (x :: l).
Proof.
  unfold half_blank, blank_spaces. rewrite fmap_app, <- app_assoc. cbn [fmap list_fmap app].
  destruct (x =? 32); [|done].
  rewrite insert_app_r_alt by (by rewrite length_fmap). by rewrite length_fmap, Nat.sub_diag.
Qed.

Lemma half_blank_at pre x l : half_blank pre (x :: l) !! length pre = Some x.
Proof.
  unfold half_blank, blank_spaces. rewrite lookup_app_r by (by rewrite length_fmap).
  by rewrite length_fmap, Nat.sub_diag.
Qed.

(** The second loop ends the words and records where they start. *)
Lemma split_loop m pre l argc args f s :
  lmem s = buffer m (half_blank pre l) -> cmdline = pre ++ l -> (length l < f)%nat ->
  argc = Z.of_nat (length args) + Z.of_nat (length (starts (Z.of_nat (length pre)) l)) ->
  exists s', iter f (fun '(i, args) =>
      c ← rdp (Mem cmd_buf) i;
      if truth c then
        if c =? 32 then
          wr (cmd_buf + i) 0;;
          mret (inl (i + 1, if Z.of_nat (length args) <? argc then args ++ [cmd_buf + i + 1] else args))
        else mret (inl (i + 1, args))
      else mret (inr args)) (Z.of_nat (length pre), args) s =
    Done (args ++ ((fun o => cmd_buf + o) <$> starts (Z.of_nat (length pre)) l)) s' /\
    lmem s' = buffer m (half_blank cmdline []) /\ lout s' = lout s.
Proof.
  revert pre args f s. induction l as [|x l IH]; intros pre args [|f] s Em E Hf Hargc;
    cbn [length] in Hf; try lia; cbn [iter]; unfold mbind at 1, prog_bind at 1.
  - rewrite app_nil_r in E. subst pre. exists s. cbn [starts fmap list_fmap]. rewrite app_nil_r.
    split; [|done]. rewrite (bind_done _ _ _ 0 s); [done|].
    apply (read_buffer m (half_blank cmdline [])); [done|]. unfold half_blank, blank_spaces.
    apply list_lookup_middle. by rewrite length_fmap.
  - assert (cmdline !! length pre = Some x) as Hx by (rewrite E; by apply list_lookup_middle).
    pose proof Hcl as Hcl'. rewrite Forall_lookup in Hcl'. pose proof (Hcl' _ _ Hx).
    rewrite (bind_done _ _ _ x s) by (apply (read_buffer m (half_blank pre (x :: l)));
      [done|apply half_blank_at]).
    rewrite truth_nonzero by lia.
    assert (cmdline = (pre ++ [x]) ++ l) as E' by (by rewrite <- app_assoc).
    pose proof (half_blank_step pre x l) as Hst.
    specialize (IH (pre ++ [x])). rewrite length_app in IH. cbn [length] in IH.
    replace (Z.of_nat (length pre + 1)) with (Z.of_nat (length pre) + 1) in IH by lia.
    cbn [starts] in *. destruct (x =? 32).
    + rewrite (bind_done _ _ _ _ _ (wr_eq _ _ _)). cbn [mret prog_ret]. change (0 mod 256) with 0.
      rewrite Em, write_bytes_insert, <- Hst by (eapply lookup_lt_Some, half_blank_at).
      destruct l as [|y l].
      * cbn [length] in Hargc. rewrite (proj2 (Z.ltb_ge _ _)) by lia.
        apply (IH args f (set_mem _ s)); [done|done|lia|]. cbn [starts length]. lia.
      * cbn [length] in Hargc. rewrite (proj2 (Z.ltb_lt _ _)) by lia. cbn [fmap list_fmap].
        destruct (IH (args ++ [cmd_buf + Z.of_nat (length pre) + 1]) f (set_mem (buffer m (half_blank (pre ++ [x]) (y :: l))) s))
          as (s' & E1 & M & L); [done|done|lia|rewrite length_app; cbn [length]; lia|].
        exists s'. split; [|done]. rewrite E1. f_equal. rewrite <- app_assoc. cbn [app]. by rewrite Z.add_assoc.
    + cbn [mret prog_ret]. apply IH; [by rewrite Hst|done|lia|lia].
Qed.

(** C34: getcmdline splits the command line the host gives at its spaces: argc is
    the number of words and each argument is the address of the C string of its
    word; with more than MAX_ARGS words the assertion ends the process.
    When it returns, nothing has been printed. *)
Theorem getcmdline_spec s :
  if Z.of_nat (length (words cmdline)) <=? MAX_ARGS then
    exists args s', getcmdline fuel swi_args_addr cmd_buf s =
        Done (Z.of_nat (length (words cmdline)), args) s' /\
      Forall2 (fun a w => cstr (lmem s') (Mem a) w) args (words cmdline) /\ lout s' = lout s
  else exists s', getcmdline fuel swi_args_addr cmd_buf s = Exited 1 s'.
Proof.
  destruct (swi_copies s) as (s1 & E1 & L1 & m & M1 & _).
  pose proof (count_loop m s1 [] cmdline 1 fuel M1 eq_refl Hfuel) as E2. cbn [length] in E2.
  rewrite (words_starts 0). set (argc := 1 + Z.of_nat (length (starts (Z.of_nat 0) cmdline))) in E2.
  replace (Z.of_nat (Datatypes.S (length (starts 0 cmdline)))) with argc by (unfold argc; change (Z.of_nat 0) with 0; lia).
  assert (cassert (negb (truth 0)) s1 = Done tt s1) as E0 by done.
  unfold getcmdline. destruct (Z.leb_spec argc MAX_ARGS) as [Hle|Hgt].
  - destruct (split_loop m [] cmdline argc [cmd_buf] fuel s1) as (s2 & E3 & M2 & L2); [done..|].
    eexists _, s2. split; [|split; [|congruence]].
    + run_with E1. run_with E0. run_with E2.
      assert (cassert (argc <=? MAX_ARGS) s1 = Done tt s1) as E4
        by (by rewrite (proj2 (Z.leb_le _ _) Hle)).
      run_with E4. rewrite (proj2 (Z.eqb_neq argc 0)) by lia. run_with E3. reflexivity.
    + rewrite M2. unfold half_blank. cbn [app length].
      pose proof (words_in_place m cmd_buf cmdline [] cmdline Hcl eq_refl) as Hw.
      cbn [length] in Hw. by replace (cmd_buf + Z.of_nat 0) with cmd_buf in Hw by lia.
  - exists s1. run_with E1. run_with E0. run_with E2.
    rewrite (proj2 (Z.leb_gt _ _) Hgt). done.
Qed.
End getcmdline.


(** The command line of the simulated host. *)
Import SimHost.

Lemma getcmdline_spec_witness :
  Forall (fun c => 0 < c < 256) cmdline /\
  exists args s', getcmdline 20 100 1000 demo_state = Done (4, args) s' /\
    Forall2 (fun a w => cstr (lmem s') (Mem a) w) args
      [bytes_of "test"; bytes_of "-v"; []; bytes_of "x"] /\ lout s' = [].
Proof.
  assert (Forall (fun c => 0 < c < 256) cmdline) as Hc
    by (apply (bool_decide_eq_true_1 _); vm_compute; reflexivity).
  split; [exact Hc|].
  assert (length (@cmdline sim_host) < 20)%nat as Hf by (vm_compute; lia).
  assert (Z.of_nat (length (@cmdline sim_host)) < 4096) as Hl by (vm_compute; reflexivity).
  assert (in_u 32 1000) as Hb by (unfold in_u; lia).
  exact (getcmdline_spec 20 100 1000 Hc Hl Hf Hb demo_state).
Defined.
