(* ===== verification/Threads.v ===== *)
(** Hardware threads: the programs they run, the machine they share and its
    interleaved steps.  Every access to a shared variable is one instruction;
    the instructions of different threads interleave in any order, and an
    interrupt may be taken between any two of them. *)

From S2P Require Import Prelude.

Open Scope string_scope.
Open Scope list_scope.
Open Scope Z_scope.

(** A cell of the shared memory: an element of a global variable (a scalar is
    element 0; a field of an array of structures has a name of its own) or a
    word of a block on the heap. *)
Inductive loc := Glob (x : string) (i : Z) | Heap (a : Z) (k : Z).

#[export] Instance loc_eq_dec : EqDecision loc.
Proof. solve_decision. Defined.

#[export] Instance loc_countable : Countable loc.
Proof.
  refine (inj_countable'
    (fun l => match l with Glob x i => inl (x, i) | Heap a k => inr (a, k) end)
    (fun s => match s with inl (x, i) => Glob x i | inr (a, k) => Heap a k end) _).
  by intros [].
Defined.

(** A static variable that is not an array. *)
Abbreviation var x := (Glob x 0).

(* ------------------------------------------------------------------ *)
(** ** Programs *)

(** What a thread does to the machine in one step.  Every instruction answers
    with a number, 0 where the C code uses none. *)
Inductive instr :=
  | Load (l : loc)
  | Store (l : loc) (v : Z)
  | FetchAdd (l : loc) (v : Z)
  | LoadLocked (l : loc)
  | StoreCond (l : loc) (v : Z)
  | K0lock | K0unlock | Tlblock | Tlbunlock
  | GetSyscfg | GetHtid
  | Pause
  | SetImask (mask : Z)
  | Iassignw (r : Z)
  | Swi (mask : Z)
  | Ciad (mask : Z)
  | RegisterInterrupt (n f : Z)
  | ReadTimer
  | Malloc (size : Z)
  | Free (a : Z)
  | Printf (format : string) (args : list Z).

(** A program.  [Loop _ _ c s k] runs [c], from the loop state [s], until it
    answers [inr r] and goes on with [k r]; [Call] calls through a function pointer; [Create] and [Join] are the
    runtime's thread_create and thread_join; [Exit] ends the whole machine. *)
Inductive proc (A : Type) : Type :=
  | Ret (a : A)
  | Do (i : instr) (k : Z -> proc A)
  | Loop (S R : Set) (c : S -> proc (S + R)) (s : S) (k : R -> proc A)
  | Call (f arg : Z) (k : proc A)
  | Create (tid f arg : Z) (k : proc A)
  | Join (mask : Z) (k : proc A)
  | Exit (code : Z).
Arguments Ret {A}.
Arguments Do {A}.
Arguments Loop {A}.
Arguments Call {A}.
Arguments Create {A}.
Arguments Join {A}.
Arguments Exit {A}.

Fixpoint pbind {A B} (p : proc A) (f : A -> proc B) : proc B :=
  match p with
  | Ret a => f a
  | Do i k => Do i (fun x => pbind (k x) f)
  | Loop St R c s k => Loop St R c s (fun r => pbind (k r) f)
  | Call g a k => Call g a (pbind k f)
  | Create t g a k => Create t g a (pbind k f)
  | Join m k => Join m (pbind k f)
  | Exit c => Exit c
  end.

#[export] Instance proc_ret : MRet proc := @Ret.
#[export] Instance proc_bind : MBind proc := fun A B f p => pbind p f.

Definition op (i : instr) : proc Z := Do i Ret.
Definition exec_ (i : instr) : proc () := Do i (fun _ => Ret tt).

Definition load (l : loc) : proc Z := op (Load l).
Definition store (l : loc) (v : Z) : proc () := exec_ (Store l v).
(** A loop with a state: [inl] goes round again, [inr] leaves. *)
Definition loop {S R : Set} (c : S -> proc (S + R)) (s : S) : proc R := Loop S R c s Ret.
(** [while (cond) body] *)
Definition while (cond : proc bool) (body : proc ()) : proc () :=
  loop (fun _ : () => b ← cond; if (b : bool) then body;; mret (inl tt) else mret (inr tt)) tt.
Definition printf (format : string) (args : list Z) : proc () := exec_ (Printf format args).
Definition exit {A} (code : Z) : proc A := Exit code.
(** A failed assertion ends the machine with status 1. *)
Definition assert (b : bool) : proc () := if b then mret tt else exit 1.

Fixpoint up (n : nat) (i : Z) (body : Z -> proc ()) : proc () :=
  match n with
  | O => mret tt
  | Datatypes.S n => body i;; up n (i + 1) body
  end.

(** [for (i = lo; i < hi; i++) body], no [break] in [body]. *)
Definition for_range (lo hi : Z) (body : Z -> proc ()) : proc () := up (Z.to_nat (hi - lo)) lo body.

(* ------------------------------------------------------------------ *)
(** ** The machine *)

(** The hardware the instructions act on.  Each unit has a state of its own;
    thread numbers are the hardware thread numbers. *)
Class Cpu := {
  lock_unit : Type;
  syscfg : lock_unit -> Z;
  k0lock : Z -> lock_unit -> option lock_unit;
  k0unlock : Z -> lock_unit -> lock_unit;
  tlblock : Z -> lock_unit -> option lock_unit;
  tlbunlock : Z -> lock_unit -> lock_unit;
  monitor : Type;
  load_locked : Z -> loc -> monitor -> monitor;
  store_cond : Z -> loc -> monitor -> bool * monitor;
  plain_store : Z -> loc -> monitor -> monitor;
  int_unit : Type;
  set_imask : Z -> Z -> int_unit -> int_unit;
  iassign : Z -> int_unit -> int_unit;
  raise : Z -> int_unit -> int_unit;
  accept : Z -> Z -> int_unit -> option int_unit;
  ciad : Z -> int_unit -> int_unit;
  clock : Type;
  read_clock : clock -> Z * clock;
  allocator : Type;
  malloc : Z -> allocator -> Z * allocator;
  free : Z -> allocator -> option allocator
}.

Definition SYSCFG_TL_BIT : Z := 11.
Definition SYSCFG_KL_BIT : Z := 12.

(** What the hardware promises.  A lock is held exactly while its bit of SYSCFG
    is set: the lock instruction sets it, or stalls when it is set already (by
    whichever thread); the unlock instruction clears it.  Neither touches the
    other bits.  A store-conditional succeeds only under the reservation its
    thread took on the same cell, and a store or a successful store-conditional
    to a cell ends the reservations of the others on it.  A masked interrupt is
    not accepted.  The clock does not go back, and a block is live from malloc
    to free. *)
Class CpuLaws `{Cpu} := {
  k0lock_free t l : Z.testbit (syscfg l) SYSCFG_KL_BIT = false ->
    exists l', k0lock t l = Some l' /\ syscfg l' = Z.setbit (syscfg l) SYSCFG_KL_BIT;
  k0lock_held t l : Z.testbit (syscfg l) SYSCFG_KL_BIT = true -> k0lock t l = None;
  k0unlock_syscfg t l : syscfg (k0unlock t l) = Z.clearbit (syscfg l) SYSCFG_KL_BIT;
  tlblock_free t l : Z.testbit (syscfg l) SYSCFG_TL_BIT = false ->
    exists l', tlblock t l = Some l' /\ syscfg l' = Z.setbit (syscfg l) SYSCFG_TL_BIT;
  tlblock_held t l : Z.testbit (syscfg l) SYSCFG_TL_BIT = true -> tlblock t l = None;
  tlbunlock_syscfg t l : syscfg (tlbunlock t l) = Z.clearbit (syscfg l) SYSCFG_TL_BIT;
  reserved : monitor -> Z -> loc -> Prop;
  load_locked_reserves t l r u x : reserved (load_locked t l r) u x ->
    if decide (u = t) then x = l else reserved r u x;
  store_cond_success t l r r' : store_cond t l r = (true, r') ->
    reserved r t l /\ forall u x, reserved r' u x -> reserved r u x /\ u <> t /\ x <> l;
  store_cond_failure t l r r' : store_cond t l r = (false, r') ->
    forall u x, reserved r' u x -> reserved r u x;
  plain_store_reserved t l r u x : reserved (plain_store t l r) u x ->
    reserved r u x /\ (u <> t -> x <> l);
  imask : int_unit -> Z -> Z;
  accept_imask t n i i' : accept t n i = Some i' ->
    0 <= n < 32 /\ Z.testbit (imask i t) n = false /\ forall u, imask i' u = imask i u;
  set_imask_imask u m i t : imask (set_imask u m i) t = if decide (t = u) then m else imask i t;
  iassign_imask r i t : imask (iassign r i) t = imask i t;
  raise_imask m i t : imask (raise m i) t = imask i t;
  ciad_imask m i t : imask (ciad m i) t = imask i t;
  read_clock_le c : (read_clock c).1 <= (read_clock (read_clock c).2).1;
  live : allocator -> gset Z;
  malloc_live n h : let '(a, h') := malloc n h in
    a = 0 /\ live h' = live h \/ a <> 0 /\ a ∉ live h /\ live h' = {[a]} ∪ live h;
  free_live a h : a ∈ live h -> exists h', free a h = Some h' /\ live h' = live h ∖ {[a]}
}.

Record machine `{Cpu} := Machine {
  memory : gmap loc Z;
  locks : lock_unit;
  reservations : monitor;
  interrupts : int_unit;
  time : clock;
  heap : allocator;
  handlers : gmap Z Z;
  output : list (string * list Z)
}.

(** The outcome of one instruction: done, the thread stalls, or the behaviour
    is undefined. *)
Inductive result `{Cpu} := Next (r : Z) (s : machine) | Stall | Fault.

Section machine.
Context `{Cpu}.
Implicit Types s : machine.

Definition with_memory (m : gmap loc Z) s : machine :=
  Machine _ m (locks s) (reservations s) (interrupts s) (time s) (heap s) (handlers s) (output s).
Definition with_locks l s : machine :=
  Machine _ (memory s) l (reservations s) (interrupts s) (time s) (heap s) (handlers s) (output s).
Definition with_reservations r s : machine :=
  Machine _ (memory s) (locks s) r (interrupts s) (time s) (heap s) (handlers s) (output s).
Definition with_interrupts i s : machine :=
  Machine _ (memory s) (locks s) (reservations s) i (time s) (heap s) (handlers s) (output s).
Definition with_time c s : machine :=
  Machine _ (memory s) (locks s) (reservations s) (interrupts s) c (heap s) (handlers s) (output s).
Definition with_heap h s : machine :=
  Machine _ (memory s) (locks s) (reservations s) (interrupts s) (time s) h (handlers s) (output s).
Definition with_handlers h s : machine :=
  Machine _ (memory s) (locks s) (reservations s) (interrupts s) (time s) (heap s) h (output s).
Definition with_output o s : machine :=
  Machine _ (memory s) (locks s) (reservations s) (interrupts s) (time s) (heap s) (handlers s) o.

(** A store by thread [t], seen by the reservations of the others. *)
Definition write (t : Z) (l : loc) (v : Z) s : machine :=
  with_reservations (plain_store t l (reservations s)) (with_memory (<[l := v]> (memory s)) s).

Definition take_lock (o : option lock_unit) s : result :=
  match o with Some l => Next 0 (with_locks l s) | None => Stall end.

Fixpoint heap_cells (n : nat) (a k : Z) (m : gmap loc Z) : gmap loc Z :=
  match n with O => m | Datatypes.S n => <[Heap a k := 0]> (heap_cells n a (k + 1) m) end.

Definition not_in_block (a : Z) (c : loc * Z) : Prop :=
  match c.1 with Heap b _ => b <> a | _ => True end.

#[export] Instance not_in_block_dec a c : Decision (not_in_block a c).
Proof. unfold not_in_block. destruct c as [[x i|b k] v]; simpl; apply _. Defined.

(** One instruction of thread [t].  An access outside the variables of the
    program, or to a block that is not allocated, is undefined. *)
Definition exec (t : Z) (i : instr) s : result :=
  match i with
  | Load l => match memory s !! l with Some v => Next v s | None => Fault end
  | Store l v => match memory s !! l with Some _ => Next 0 (write t l v s) | None => Fault end
  | FetchAdd l v =>
      match memory s !! l with Some x => Next x (write t l (swrap 32 (x + v)) s) | None => Fault end
  | LoadLocked l =>
      match memory s !! l with
      | Some v => Next v (with_reservations (load_locked t l (reservations s)) s)
      | None => Fault
      end
  | StoreCond l v =>
      match memory s !! l with
      | Some _ =>
          let '(ok, r) := store_cond t l (reservations s) in
          Next (if ok then 1 else 0)
            (with_reservations r (with_memory (if ok then <[l := v]> (memory s) else memory s) s))
      | None => Fault
      end
  | K0lock => take_lock (k0lock t (locks s)) s
  | K0unlock => Next 0 (with_locks (k0unlock t (locks s)) s)
  | Tlblock => take_lock (tlblock t (locks s)) s
  | Tlbunlock => Next 0 (with_locks (tlbunlock t (locks s)) s)
  | GetSyscfg => Next (syscfg (locks s)) s
  | GetHtid => Next t s
  | Pause => Next 0 s
  | SetImask m => Next 0 (with_interrupts (set_imask t m (interrupts s)) s)
  | Iassignw r => Next 0 (with_interrupts (iassign r (interrupts s)) s)
  | Swi m => Next 0 (with_interrupts (raise m (interrupts s)) s)
  | Ciad m => Next 0 (with_interrupts (ciad m (interrupts s)) s)
  | RegisterInterrupt n f => Next 0 (with_handlers (<[n := f]> (handlers s)) s)
  | ReadTimer => let '(v, c) := read_clock (time s) in Next v (with_time c s)
  | Malloc n =>
      let '(a, h) := malloc n (heap s) in
      Next a (with_heap h
        (with_memory (if a =? 0 then memory s else heap_cells (Z.to_nat (n / 4)) a 0 (memory s)) s))
  | Free a =>
      match free a (heap s) with
      | Some h => Next 0 (with_heap h (with_memory (filter (not_in_block a) (memory s)) s))
      | None => Fault
      end
  | Printf f args => Next 0 (with_output (output s ++ [(f, args)]) s)
  end.
End machine.

(* ------------------------------------------------------------------ *)
(** ** Threads and their steps *)

(** A thread: its program and, while it serves an interrupt, the handler. *)
Record thread := Thread { body : proc (); isr : option (proc ()) }.

Record config `{Cpu} := Config {
  mach : machine;
  pool : gmap Z thread;
  halted : option Z
}.

(** The outcome of a step of a thread. *)
Inductive moved (A : Type) := Moved (a : A) | Blocked | Wrong.
Arguments Moved {A}.
Arguments Blocked {A}.
Arguments Wrong {A}.

(** What happens next: a thread executes an instruction, or it accepts an
    interrupt. *)
Inductive event := Run (t : Z) | Interrupt (t n : Z).

Definition finished (th : thread) : bool :=
  match body th, isr th with Ret _, None => true | _, _ => false end.

Section steps.
Context `{Cpu} (code : Z -> Z -> proc ()).
Implicit Types c : config.

Definition with_mach s c : config := Config _ s (pool c) (halted c).
Definition with_pool P c : config := Config _ (mach c) P (halted c).
Definition halt e c : config := Config _ (mach c) (pool c) (Some e).

Definition stopped c (u : Z) : bool :=
  match pool c !! u with Some th => finished th | None => true end.

(** The threads of [mask] have all stopped. *)
Definition all_stopped (mask : Z) c : Prop :=
  map_Forall (fun u th => Z.testbit mask u = true -> finished th = true) (pool c).

#[export] Instance all_stopped_dec mask c : Decision (all_stopped mask c).
Proof. unfold all_stopped. apply _. Defined.

Definition outside (mask : Z) (x : Z * thread) : Prop := Z.testbit mask x.1 = false.

#[export] Instance outside_dec mask x : Decision (outside mask x).
Proof. unfold outside. apply _. Defined.

(** A thread starts with its interrupts unmasked. *)
Definition start (u f a : Z) c : config :=
  with_mach (with_interrupts (set_imask u 0 (interrupts (mach c))) (mach c))
    (with_pool (<[u := Thread (code f a) None]> (pool c)) c).

(** One step of the program [p] of thread [t]. *)
Definition step_proc {A} (t : Z) (p : proc A) c : moved (proc A * config) :=
  match p with
  | Ret _ => Blocked
  | Do i k =>
      match exec t i (mach c) with
      | Next r s => Moved (k r, with_mach s c)
      | Stall => Blocked
      | Fault => Wrong
      end
  | Loop St R b s k =>
      Moved (pbind (b s) (fun x => match x with inl s => Loop St R b s k | inr r => k r end), c)
  | Call f a k => Moved (pbind (code f a) (fun _ => k), c)
  | Create u f a k => if stopped c u && negb (u =? t) then Moved (k, start u f a c) else Wrong
  | Join m k =>
      if decide (all_stopped m c) then
        Moved (k, with_pool (filter (outside m) (pool c)) c)
      else Blocked
  | Exit e => Moved (Exit e, halt e c)
  end.

(** The next instruction of [p] stalls. *)
Definition stalled (t : Z) (p : proc ()) (s : machine) : bool :=
  match p with Do i _ => match exec t i s with Stall => true | _ => false end | _ => false end.

(** The code an interrupt runs: the registered handler, if there is one, and
    then the interrupt is enabled again. *)
Definition handler_code (n : Z) (s : machine) : proc () :=
  match handlers s !! n with
  | Some h => code h n;; exec_ (Ciad (Z.shiftl 1 n))
  | None => mret tt
  end.

Definition set_thread (t : Z) (th : thread) c : config := with_pool (<[t := th]> (pool c)) c.

Definition step (e : event) c : moved config :=
  match halted c with
  | Some _ => Blocked
  | None =>
    match e with
    | Run t =>
        match pool c !! t with
        | Some (Thread p (Some (Ret _))) => Moved (set_thread t (Thread p None) c)
        | Some (Thread p (Some q)) =>
            match step_proc t q c with
            | Moved (q, c) => Moved (set_thread t (Thread p (Some q)) c)
            | Blocked => Blocked
            | Wrong => Wrong
            end
        | Some (Thread p None) =>
            match step_proc t p c with
            | Moved (p, c) => Moved (set_thread t (Thread p None) c)
            | Blocked => Blocked
            | Wrong => Wrong
            end
        | None => Blocked
        end
    | Interrupt t n =>
        match pool c !! t with
        | Some (Thread p None) =>
            if finished (Thread p None) || stalled t p (mach c) then Blocked
            else
              match accept t n (interrupts (mach c)) with
              | Some i =>
                  Moved (set_thread t (Thread p (Some (handler_code n (mach c))))
                    (with_mach (with_interrupts i (mach c)) c))
              | None => Blocked
              end
        | _ => Blocked
        end
    end
  end.

(** The configurations an interleaving reaches. *)
Inductive reachable (c : config) : config -> Prop :=
  | reach_here : reachable c c
  | reach_step e c1 c2 : reachable c c1 -> step e c1 = Moved c2 -> reachable c c2.

(** Runs a schedule, for as long as its events are possible. *)
Fixpoint run (es : list event) c : moved config :=
  match es with
  | [] => Moved c
  | e :: es => match step e c with Moved c => run es c | Blocked => run es c | Wrong => Wrong end
  end.

Lemma reachable_trans c1 c2 c3 : reachable c1 c2 -> reachable c2 c3 -> reachable c1 c3.
Proof. intros H1 H2. induction H2; [done|]. by eapply reach_step. Qed.

Lemma run_reachable es c c' : run es c = Moved c' -> reachable c c'.
Proof.
  revert c. induction es as [|e es IH]; intros c; cbn [run].
  - intros [= ->]. constructor.
  - destruct (step e c) as [c1| |] eqn:E; [|by apply IH|done].
    intros Hr. eapply reachable_trans; [|by apply IH]. eapply reach_step; [constructor|done].
Qed.
End steps.
