(* ===== verification/ThreadLogic.v ===== *)
(** A program logic for threads.  Every thread (and every interrupt handler
    while it runs) owns a ghost value that only its own steps change; a global
    invariant ties the machine to the ghost values of all threads.  A program
    that is verified against the invariant, one instruction at a time, keeps
    it in every interleaving. *)

From S2P Require Import Prelude Threads.

Open Scope string_scope.
Open Scope list_scope.
Open Scope Z_scope.

(** Where a ghost value lives: the thread [(t, false)] or the handler it
    serves [(t, true)]. *)
Abbreviation slot := (Z * bool)%type.

Section logic.
Context `{Cpu} {G : Type}.
Context (Inv : machine -> gmap slot G -> Prop).
(** [Spec f a s g R]: in slot [s] with ghost [g], calling the function at [f]
    with argument [a] may be relied on to end in [R]. *)
Context (Spec : Z -> Z -> slot -> G -> (G -> Prop) -> Prop).
(** What holds of the ghost of thread [t] when it stops. *)
Context (Fin : Z -> G -> Prop).
(** What holds when the machine exits. *)
Context (E : Z -> machine -> Prop).
Implicit Types (s : slot) (σ : machine) (γ : gmap slot G).

(** Calling the runtime's thread start in machine [σ]. *)
Definition unmask (u : Z) σ : machine := with_interrupts (set_imask u 0 (interrupts σ)) σ.

(** A thread that executes is not serving an interrupt. *)
Definition alone s γ : Prop := s.2 = false -> γ !! (s.1, true) = None.

(** [wpt s p Q g]: run in slot [s] with ghost [g], the program [p] keeps the
    invariant at every instruction and ends in [Q], if it ends. *)
Fixpoint wpt {A : Type} (s : slot) (p : proc A) (Q : A -> G -> Prop) (g : G) {struct p} : Prop :=
  match p with
  | Ret a => Q a g
  | Do i k => forall σ γ, Inv σ γ -> γ !! s = Some g -> alone s γ ->
      match exec s.1 i σ with
      | Next r σ' => exists g', Inv σ' (<[s := g']> γ) /\ wpt s (k r) Q g'
      | Stall => True
      | Fault => False
      end
  | Loop St R c x k => exists J : St -> G -> Prop, J x g /\
      forall x g, J x g -> wpt s (c x) (fun y g' => match y with inl x => J x g' | inr r => wpt s (k r) Q g' end) g
  | Call f a k => exists R, Spec f a s g R /\ forall g', R g' -> wpt s k Q g'
  | Create u f a k => forall σ γ, Inv σ γ -> γ !! s = Some g ->
      γ !! (u, false) = None /\ u <> s.1 /\
      exists g' gc, (γ !! (u, true) = None ->
          Inv (unmask u σ) (<[(u, false) := gc]> (<[s := g']> γ))) /\
        Spec f a (u, false) gc (Fin u) /\ wpt s k Q g'
  | Join m k => forall σ γ, Inv σ γ -> γ !! s = Some g ->
      (forall u b gu, Z.testbit m u = true -> γ !! (u, b) = Some gu -> b = false /\ Fin u gu) ->
      exists g', Inv σ (<[s := g']> (filter (fun x => Z.testbit m x.1.1 = false) γ)) /\ wpt s k Q g'
  | Exit e => forall σ γ, Inv σ γ -> γ !! s = Some g -> E e σ
  end.

Lemma wpt_mono {A : Type} s (p : proc A) (Q Q' : A -> G -> Prop) g :
  wpt s p Q g -> (forall a g, Q a g -> Q' a g) -> wpt s p Q' g.
Proof.
  revert Q Q' g. induction p as [A a|A i k IH|A S R c IHc x k IHk|A f a k IH|A u f a k IH|A m k IH|A e];
    intros Q Q' g Hw HQ; cbn [wpt] in *; [by apply HQ|..|done].
  - intros σ γ Hi Hg Ha. specialize (Hw σ γ Hi Hg Ha). destruct (exec s.1 i σ); [|done..].
    destruct Hw as (g' & Hi' & Hw). exists g'. split; [done|]. eapply IH; eauto.
  - destruct Hw as (J & HJ & Hw). exists J. split; [done|]. intros y g' Hg'.
    eapply IHc; [by apply Hw|]. intros [] g'' Hg''; simpl in *; [done|]. eapply IHk; eauto.
  - destruct Hw as (R & HR & Hw). exists R. split; [done|]. intros. eapply IH; eauto.
  - intros σ γ Hi Hg. destruct (Hw σ γ Hi Hg) as (? & ? & g' & gc & Hi' & Hs & Hw').
    split_and!; [done..|]. exists g', gc. split_and!; [done..|]. eapply IH; eauto.
  - intros σ γ Hi Hg Hf. destruct (Hw σ γ Hi Hg Hf) as (g' & Hi' & Hw').
    exists g'. split; [done|]. eapply IH; eauto.
Qed.

Lemma wpt_ret {A : Type} s (a : A) (Q : A -> G -> Prop) g : Q a g -> wpt s (Ret a) Q g.
Proof. done. Qed.

Lemma wpt_bind {A B : Type} s (p : proc A) (f : A -> proc B) (Q : B -> G -> Prop) g :
  wpt s p (fun a g => wpt s (f a) Q g) g -> wpt s (pbind p f) Q g.
Proof.
  revert f Q g. induction p as [A a|A i k IH|A S R c IHc x k IHk|A h a k IH|A u h a k IH|A m k IH|A e];
    intros f Q g Hw; cbn [wpt pbind] in *; [done|..|done].
  - intros σ γ Hi Hg Ha. specialize (Hw σ γ Hi Hg Ha). destruct (exec s.1 i σ); [|done..].
    destruct Hw as (g' & Hi' & Hw). eauto.
  - destruct Hw as (J & HJ & Hw). exists J. split; [done|]. intros y g' Hg'.
    eapply wpt_mono; [by apply Hw|]. intros [] g'' Hg''; simpl in *; [done|]. by apply IHk.
  - destruct Hw as (R & HR & Hw). eauto.
  - intros σ γ Hi Hg. destruct (Hw σ γ Hi Hg) as (? & ? & g' & gc & Hi' & Hs & Hw').
    split_and!; [done..|]. eauto 10.
  - intros σ γ Hi Hg Hf. destruct (Hw σ γ Hi Hg Hf) as (g' & Hi' & Hw'). eauto.
Qed.

(** *** Soundness *)

Context (code : Z -> Z -> proc ()).

(** The ghost of a handler may go when it returns. *)
Definition Gone (t : Z) (g : G) : Prop := forall σ γ,
  Inv σ γ -> γ !! (t, true) = Some g -> Inv σ (delete (t, true) γ).

Definition thread_ok γ (t : Z) (th : thread) : Prop :=
  exists g, γ !! (t, false) = Some g /\ wpt (t, false) (body th) (fun _ => Fin t) g /\
    match isr th with
    | None => γ !! (t, true) = None
    | Some q => exists gi, γ !! (t, true) = Some gi /\ wpt (t, true) q (fun _ => Gone t) gi
    end.

Record config_ok (c : config) : Prop := {
  ok_ghost : exists γ, Inv (mach c) γ /\
    (forall t th, pool c !! t = Some th -> thread_ok γ t th) /\
    (forall t b, pool c !! t = None -> γ !! (t, b) = None);
  ok_exit : forall e, halted c = Some e -> E e (mach c)
}.

(** The code meets the specifications, and so do the handlers. *)
Context (Hcode : forall f a s g R, Spec f a s g R -> wpt s (code f a) (fun _ => R) g).
Context (Hisr : forall σ γ t n i, Inv σ γ -> is_Some (γ !! (t, false)) -> γ !! (t, true) = None ->
  accept t n (interrupts σ) = Some i ->
  exists gi, Inv (with_interrupts i σ) (<[(t, true) := gi]> γ) /\
    wpt (t, true) (handler_code code n σ) (fun _ => Gone t) gi).

(** The other threads, while thread [t] makes a step. *)
Record others_ok (t : Z) (c : config) γ : Prop := {
  others_threads : forall u th, u <> t -> pool c !! u = Some th -> thread_ok γ u th;
  others_dom : forall u b, u <> t -> pool c !! u = None -> γ !! (u, b) = None
}.

Lemma thread_ok_agree γ γ' t th : (forall b, γ' !! (t, b) = γ !! (t, b)) ->
  thread_ok γ t th -> thread_ok γ' t th.
Proof.
  intros Hb (g & Hg & Hw & Hi). exists g. rewrite Hb. split_and!; [done..|].
  destruct (isr th); by rewrite Hb.
Qed.

Lemma others_insert t b g c c' γ : pool c' = pool c -> others_ok t c γ -> others_ok t c' (<[(t, b) := g]> γ).
Proof.
  intros Hp [H1 H2]. split.
  - intros u th Hu Hth. rewrite Hp in Hth. eapply thread_ok_agree; [|by apply H1].
    intros b'. apply lookup_insert_ne. congruence.
  - intros u b' Hu Hth. rewrite Hp in Hth. rewrite lookup_insert_ne by congruence. by apply H2.
Qed.

Lemma thread_ok_finished γ t th : thread_ok γ t th -> finished th = true ->
  exists g, γ !! (t, false) = Some g /\ Fin t g /\ γ !! (t, true) = None.
Proof.
  intros (g & Hg & Hw & Hi) Hf. unfold finished in Hf.
  destruct th as [[] [q|]]; try done; simpl in *. by exists g.
Qed.

(** A step of a verified program keeps the invariant and verifies what is left
    of the program. *)
Lemma step_proc_ok {A : Type} t b (p : proc A) (Q : A -> G -> Prop) c γ g th :
  Inv (mach c) γ -> γ !! (t, b) = Some g -> wpt (t, b) p Q g ->
  others_ok t c γ -> alone (t, b) γ -> pool c !! t = Some th -> finished th = false ->
  match step_proc code t p c with
  | Moved (p', c') => exists γ' g', Inv (mach c') γ' /\ γ' !! (t, b) = Some g' /\ wpt (t, b) p' Q g' /\
      others_ok t c' γ' /\ γ' !! (t, negb b) = γ !! (t, negb b) /\
      (halted c' = halted c \/ exists e, halted c' = Some e /\ E e (mach c'))
  | Blocked => True
  | Wrong => False
  end.
Proof.
  intros Hi Hg Hw Ho Hal Ht Hf.
  assert ((t, b) <> (t, negb b)) as Hne by (by destruct b).
  destruct p as [a|i k|S R q x k|f a k|u f a k|m k|e]; cbn [wpt step_proc] in *.
  - done.
  - specialize (Hw _ _ Hi Hg Hal). cbn [fst] in Hw. destruct (exec t i (mach c)) as [r σ'| |]; [|done..].
    destruct Hw as (g' & Hi' & Hw). exists (<[(t, b) := g']> γ), g'.
    rewrite lookup_insert_eq, lookup_insert_ne by done. split_and!; try done.
    + by apply (others_insert t b g' c).
    + by left.
  - destruct Hw as (J & HJ & Hw). exists γ, g. split_and!; try done.
    + apply wpt_bind. eapply wpt_mono; [by apply Hw|]. intros [] g'' Hg''; [|done]. simpl. by exists J.
    + by left.
  - destruct Hw as (R & HR & Hw). exists γ, g. split_and!; try done.
    + apply wpt_bind. eapply wpt_mono; [by apply Hcode|]. intros [] g'' Hg''. by apply Hw.
    + by left.
  - destruct (Hw _ _ Hi Hg) as (Hu & Hut & g' & gc & Hi' & Hs & Hk). cbn [fst] in Hut.
    assert (pool c !! u = None) as Hpu.
    { destruct (pool c !! u) as [thu|] eqn:E1; [|done].
      destruct (others_threads _ _ _ Ho _ _ Hut E1) as (gu & Egu & _). congruence. }
    unfold stopped. rewrite Hpu. simpl. rewrite (proj2 (Z.eqb_neq u t)) by done. simpl.
    assert (γ !! (u, true) = None) as Hu' by (by apply (others_dom _ _ _ Ho)).
    exists (<[(u, false) := gc]> (<[(t, b) := g']> γ)), g'.
    split_and!.
    + by apply Hi'.
    + rewrite lookup_insert_ne by congruence. by rewrite lookup_insert_eq.
    + done.
    + split.
      * intros v th' Hv Hth'. unfold start in Hth'. simpl in Hth'.
        destruct (decide (v = u)) as [->|Hvu].
        -- rewrite lookup_insert_eq in Hth'. injection Hth' as <-. exists gc.
           rewrite lookup_insert_eq. split_and!; [done|by apply Hcode|]. cbn [isr].
           by rewrite !lookup_insert_ne by congruence.
        -- rewrite lookup_insert_ne in Hth' by done.
           eapply thread_ok_agree; [|by apply (others_threads _ _ _ Ho v)].
           intros b'. by rewrite !lookup_insert_ne by congruence.
      * intros v b' Hv Hth'. unfold start in Hth'. simpl in Hth'.
        destruct (decide (v = u)) as [->|Hvu]; [by rewrite lookup_insert_eq in Hth'|].
        rewrite lookup_insert_ne in Hth' by done. rewrite !lookup_insert_ne by congruence.
        by apply (others_dom _ _ _ Ho).
    + by rewrite !lookup_insert_ne by congruence.
    + by left.
  - case_decide as Hs; [|done].
    assert (Z.testbit m t = false) as Hmt.
    { destruct (Z.testbit m t) eqn:E1; [|done]. rewrite (Hs t th Ht E1) in Hf. done. }
    destruct (Hw _ _ Hi Hg) as (g' & Hi' & Hk).
    { intros u b' gu Hmu Hgu. assert (u <> t) as Hut by congruence.
      destruct (pool c !! u) as [thu|] eqn:E1.
      - destruct (thread_ok_finished _ _ _ (others_threads _ _ _ Ho _ _ Hut E1) (Hs _ _ E1 Hmu))
          as (g0 & E2 & E3 & E4). destruct b'; [congruence|]. split; [done|]. congruence.
      - rewrite (others_dom _ _ _ Ho) in Hgu by done. done. }
    exists (<[(t, b) := g']> (filter (fun x => Z.testbit m x.1.1 = false) γ)), g'.
    rewrite lookup_insert_eq, lookup_insert_ne by done. split_and!; try done.
    + split.
      * intros u thu Hut Hth. cbn [pool with_pool] in Hth. apply map_lookup_filter_Some in Hth as [Hth Hmu].
        unfold outside in Hmu. simpl in Hmu.
        eapply thread_ok_agree; [|by apply (others_threads _ _ _ Ho u)].
        intros b'. rewrite lookup_insert_ne by congruence. rewrite map_lookup_filter.
        destruct (γ !! (u, b')); simpl; [|done]. by rewrite option_guard_True.
      * intros u b' Hut Hth. rewrite lookup_insert_ne by congruence.
        rewrite map_lookup_filter. destruct (γ !! (u, b')) as [gu|] eqn:E1; simpl; [|done].
        rewrite option_guard_False; [done|]. cbn [fst]. intros Hmu.
        destruct (pool c !! u) as [thu|] eqn:E2; [|by rewrite (others_dom _ _ _ Ho) in E1].
        cbn [pool with_pool] in Hth. rewrite map_lookup_filter_None in Hth.
        destruct Hth as [Hth|Hth]; [congruence|]. by apply (Hth thu E2).
    + rewrite map_lookup_filter. destruct (γ !! (t, negb b)); simpl; [|done]. by rewrite option_guard_True.
    + by left.
  - exists γ, g. split_and!; [done|done|done| |done|].
    + by destruct Ho; split.
    + right. exists e. split; [done|]. by eapply Hw.
Qed.

(** A configuration that keeps the others and changes thread [t]. *)
Lemma config_ok_thread t th c γ :
  Inv (mach c) γ -> others_ok t c γ -> thread_ok γ t th ->
  (forall e, halted c = Some e -> E e (mach c)) ->
  config_ok (set_thread t th c).
Proof.
  intros Hi [H1 H2] Hth He. split; [|done]. exists γ. split_and!; [done| |]; cbn [pool set_thread with_pool].
  - intros u thu Hu. destruct (decide (u = t)) as [->|Hut].
    + rewrite lookup_insert_eq in Hu. by injection Hu as <-.
    + rewrite lookup_insert_ne in Hu by done. by apply H1.
  - intros u b Hu. destruct (decide (u = t)) as [->|Hut]; [by rewrite lookup_insert_eq in Hu|].
    rewrite lookup_insert_ne in Hu by done. by apply H2.
Qed.

(** The same, after a step of [t] that may have halted the machine. *)
Lemma config_ok_halt t th c c' γ :
  Inv (mach c') γ -> others_ok t c' γ -> thread_ok γ t th -> halted c = None ->
  (halted c' = halted c \/ exists e, halted c' = Some e /\ E e (mach c')) ->
  config_ok (set_thread t th c').
Proof.
  intros Hi Ho Hth Hn Hh. apply config_ok_thread with γ; try done.
  intros e He. destruct Hh as [H1|(e' & H1 & H2)]; congruence.
Qed.

(** Every event keeps a verified configuration verified, and none is wrong. *)
Lemma step_ok ev c : config_ok c ->
  match step code ev c with Moved c' => config_ok c' | Blocked => True | Wrong => False end.
Proof.
  intros [(γ & Hi & Hth & Hdom) He]. unfold step. destruct (halted c) as [e|] eqn:Eh; [done|].
  assert (forall t, others_ok t c γ) as Ho by (split; eauto).
  destruct ev as [t|t n]; (destruct (pool c !! t) as [[p q]|] eqn:Et; [|done]);
    destruct (Hth t _ Et) as (g & Hg & Hw & Hq); cbn [body isr] in *.
  - destruct q as [q|].
    + destruct Hq as (gi & Hgi & Hwi).
      pose proof (step_proc_ok t true q (fun _ => Gone t) c γ gi _ Hi Hgi Hwi (Ho t) ltac:(done) Et
        ltac:(by destruct p)) as Hs.
      assert (thread_ok (delete (t, true) γ) t (Thread p None)) as Hgone.
      { exists g. cbn [body isr]. rewrite lookup_delete_ne, lookup_delete_eq by congruence. done. }
      destruct q as [[]|i k|S R qb x k|f a k|u f a k|m k|e].
      { apply config_ok_thread with (delete (t, true) γ); [..|done|congruence].
        - by apply (Hwi (mach c) γ).
        - destruct (Ho t) as [H1 H2]. split.
          + intros u th Hu Hu'. eapply thread_ok_agree; [|by apply H1].
            intros b. apply lookup_delete_ne. congruence.
          + intros u b Hu Hu'. rewrite lookup_delete_ne by congruence. by apply H2. }
      all: destruct (step_proc code t _ c) as [[q' c']| |]; [|done|done];
        destruct Hs as (γ' & g' & Hi' & Hg' & Hw' & Ho' & Hother & Hh);
        apply config_ok_halt with c γ'; try done;
        exists g; cbn [body isr negb] in *; rewrite Hother; eauto.
    + destruct (finished (Thread p None)) eqn:Hf.
      { destruct p; done. }
      pose proof (step_proc_ok t false p (fun _ => Fin t) c γ g _ Hi Hg Hw (Ho t) (fun _ => Hq) Et Hf) as Hs.
      destruct (step_proc code t p c) as [[p' c']| |]; [|done|done].
      destruct Hs as (γ' & g' & Hi' & Hg' & Hw' & Ho' & Hother & Hh).
      apply config_ok_halt with c γ'; try done.
      exists g'. cbn [body isr negb] in *. by rewrite Hother.
  - destruct q as [q|]; [done|].
    destruct (finished _ || stalled t p (mach c)); [done|].
    destruct (accept t n (interrupts (mach c))) as [i|] eqn:Ea; [|done].
    destruct (Hisr (mach c) γ t n i Hi ltac:(by rewrite Hg) Hq Ea) as (gi & Hi' & Hwi).
    apply config_ok_thread with (<[(t, true) := gi]> γ).
    + done.
    + by apply (others_insert t true gi c).
    + exists g. cbn [body isr]. rewrite lookup_insert_ne, lookup_insert_eq by congruence. eauto.
    + intros e. cbn. congruence.
Qed.

(** Soundness: verified programs stay verified in every interleaving. *)
Lemma reachable_ok c c' : config_ok c -> reachable code c c' -> config_ok c'.
Proof.
  intros Hc Hr. induction Hr as [|ev c1 c2 Hr IH Hs]; [done|].
  pose proof (step_ok ev c1 IH) as Ho. by rewrite Hs in Ho.
Qed.

Lemma reachable_not_wrong c c' ev : config_ok c -> reachable code c c' -> step code ev c' <> Wrong.
Proof.
  intros Hc Hr Hs. pose proof (step_ok ev c' (reachable_ok _ _ Hc Hr)) as Ho. by rewrite Hs in Ho.
Qed.
End logic.

#[global] Arguments wpt : simpl never.
