(* ===== verification/ThreadCommon.v ===== *)
(** The thread helpers of src/thread_common.c, include/thread_common.h and
    include/interrupts.h: semaphores on which new threads wait, the wrapper
    that calls a thread's function, delays and the interrupt registers; and
    what they promise to a client that has an invariant of its own. *)

From S2P Require Import Prelude Threads ThreadLogic.

Open Scope string_scope.
Open Scope list_scope.
Open Scope Z_scope.

Definition THREAD_SEMAPHORE_OFF : Z := 0.
Definition THREAD_SEMAPHORE_ON_WAIT : Z := 1.
Definition THREAD_SEMAPHORE_GO : Z := 2.

Definition thread_semaphore (tid : Z) : loc := Glob "thread_semaphore" tid.
Definition vals (i : Z) : loc := Glob "vals" i.

Definition pause : proc () := exec_ Pause.

Definition delay (iters : Z) : proc Z :=
  for_range 0 iters (fun i =>
    store (vals (i mod 512)) i;;
    pause;;
    v ← load (vals (i mod 512));
    store (vals (i mod 512)) (swrap 32 (v + 1)));;
  load (vals 0).

(** [delay] as a statement. *)
Definition delay_ (iters : Z) : proc () := delay iters;; mret tt.

Definition swi (mask : Z) : proc () := exec_ (Swi mask).
Definition set_thread_imask (mask : Z) : proc () := exec_ (SetImask mask).

Definition iassignw (int_num thread_mask : Z) : proc () :=
  let int_num := Z.land int_num 0x1f in
  let int_num := Z.shiftl int_num 16 in
  exec_ (Iassignw (Z.lor (Z.land thread_mask 0xff) int_num)).

Definition get_htid : proc Z := op GetHtid.

Definition remove_myself (mask : Z) : proc Z :=
  htid ← get_htid;
  mret (Z.land mask (unot 32 (Z.shiftl 1 htid))).

Definition wait_on_semaphore : proc () :=
  htid ← get_htid;
  store (thread_semaphore htid) THREAD_SEMAPHORE_ON_WAIT;;
  while (v ← load (thread_semaphore htid); mret (negb (v =? THREAD_SEMAPHORE_GO))) pause.

(** The fields of [struct thread_work]. *)
Definition work_param (work : Z) : loc := Heap work 0.
Definition work_func (work : Z) : loc := Heap work 1.

Definition thread_wrapper (p : Z) : proc () :=
  let work := p in
  wait_on_semaphore;;
  func ← load (work_func work);
  param ← load (work_param work);
  Call func param (exec_ (Free work)).

(** The address of [thread_wrapper]. *)
Definition thread_wrapper_fn : Z := 1.

(** The stack pointer the callers pass is not part of the model. *)
Definition create_waiting_thread (func tid param : Z) : proc () :=
  work ← op (Malloc 8);
  assert (truth work);;
  store (work_param work) param;;
  store (work_func work) func;;
  store (thread_semaphore tid) THREAD_SEMAPHORE_OFF;;
  Create tid thread_wrapper_fn work (mret tt).

Definition in_mask (mask tid : Z) : bool := truth (Z.land mask (Z.shiftl 1 tid)).

Definition wait_semaphore_state (mask state : Z) : proc () :=
  mask ← remove_myself mask;
  for_range 0 32 (fun tid =>
    if in_mask mask tid then
      while (v ← load (thread_semaphore tid); mret (negb (v =? state))) pause
    else mret tt).

Definition set_semaphore_state (mask state : Z) : proc () :=
  for_range 0 32 (fun tid =>
    if in_mask mask tid then store (thread_semaphore tid) state else mret tt).

Definition start_waiting_threads (mask : Z) : proc () :=
  wait_semaphore_state mask THREAD_SEMAPHORE_ON_WAIT;;
  set_semaphore_state mask THREAD_SEMAPHORE_GO.

Definition thread_join (mask : Z) : proc () := Join mask (mret tt).

Definition thread_create_blocked (func tid param : Z) : proc () :=
  create_waiting_thread func tid param;;
  start_waiting_threads (Z.shiftl 1 tid).

Definition thread_run_blocked (func tid param : Z) : proc () :=
  thread_create_blocked func tid param;;
  thread_join (Z.shiftl 1 tid).

(* ------------------------------------------------------------------ *)
(** ** The library's invariant *)

(** The variables only the library touches. *)
Definition lib_var (x : string) : bool := bool_decide (x = "thread_semaphore") || bool_decide (x = "vals").

(** A ghost: the work block the thread owns (its address and its two fields)
    and the client's ghost. *)
Abbreviation work_ghost GC := (option (Z * Z * Z) * GC)%type.

Section library.
Context `{HL : CpuLaws} {GC : Type}.
Local Abbreviation ghost := (work_ghost GC).
Implicit Types (s : slot) (σ : machine).

(** The part of the machine a client can see is the same, but for reservations
    that were lost. *)
Record same_client σ σ' : Prop := {
  same_memory : forall x i, lib_var x = false -> memory σ' !! Glob x i = memory σ !! Glob x i;
  same_locks : locks σ' = locks σ;
  same_interrupts : interrupts σ' = interrupts σ;
  same_time : time σ' = time σ;
  same_handlers : handlers σ' = handlers σ;
  same_output : output σ' = output σ;
  same_reserved : forall t l, reserved (reservations σ') t l -> reserved (reservations σ) t l
}.

Implicit Types (γ : gmap slot ghost) (δ : gmap slot GC).

Definition owns γ s (a v0 v1 : Z) : Prop := exists g, γ !! s = Some (Some (a, v0, v1), g).

Record lib_inv σ γ : Prop := {
  lib_semaphores : forall i, 0 <= i < 32 -> is_Some (memory σ !! thread_semaphore i);
  lib_vals : forall i, 0 <= i < 512 -> is_Some (memory σ !! vals i);
  lib_work : forall s a v0 v1, owns γ s a v0 v1 ->
    memory σ !! work_param a = Some v0 /\ memory σ !! work_func a = Some v1 /\ a ∈ live (heap σ);
  lib_distinct : forall s s' a v0 v1 v0' v1',
    owns γ s a v0 v1 -> owns γ s' a v0' v1' -> s = s'
}.

Context (CInv : machine -> gmap slot GC -> Prop).
Context (Hsame : forall σ σ' δ, same_client σ σ' -> CInv σ δ -> CInv σ' δ).

Definition Inv σ γ : Prop := lib_inv σ γ /\ CInv σ (snd <$> γ).

Context (CSpec : Z -> Z -> slot -> GC -> (GC -> Prop) -> Prop).
Context (CFin : Z -> GC -> Prop).
Context (E : Z -> machine -> Prop).

(** The functions threads can be started with: the wrapper, which owns its work
    block, and those of the client. *)
Inductive Spec : Z -> Z -> slot -> ghost -> (ghost -> Prop) -> Prop :=
  | spec_client f a s w g R : f <> thread_wrapper_fn -> CSpec f a s g R ->
      Spec f a s (w, g) (fun g' => g'.1 = w /\ R g'.2)
  | spec_wrapper p param func s g R : func <> thread_wrapper_fn -> 0 <= s.1 < 32 -> CSpec func param s g R ->
      Spec thread_wrapper_fn p s (Some (p, param, func), g) (fun g' => g'.1 = None /\ R g'.2).

Definition Fin (t : Z) (g : ghost) : Prop := g.1 = None /\ CFin t g.2.

Abbreviation twp := (wpt Inv Spec Fin E).

Definition client_loc (l : loc) : Prop :=
  match l with Glob x _ => lib_var x = false | Heap _ _ => False end.

(** An instruction that leaves the library's variables and the heap alone. *)
Definition client_instr (i : instr) : Prop :=
  match i with
  | Store l _ | FetchAdd l _ | StoreCond l _ => client_loc l
  | Malloc _ | Free _ => False
  | _ => True
  end.

Lemma owns_insert γ s w g g' s' a v0 v1 : γ !! s = Some (w, g) ->
  owns (<[s := (w, g')]> γ) s' a v0 v1 <-> owns γ s' a v0 v1.
Proof.
  intros Hs. unfold owns. destruct (decide (s = s')) as [<-|Hne].
  - rewrite lookup_insert_eq, Hs. split; intros [h [= <- <-]]; eauto.
  - by rewrite lookup_insert_ne by done.
Qed.

Lemma lib_inv_ext σ σ' γ γ' : lib_inv σ γ ->
  (forall s a v0 v1, owns γ' s a v0 v1 -> owns γ s a v0 v1) ->
  (forall i, is_Some (memory σ !! thread_semaphore i) -> is_Some (memory σ' !! thread_semaphore i)) ->
  (forall i, is_Some (memory σ !! vals i) -> is_Some (memory σ' !! vals i)) ->
  (forall a k, memory σ' !! Heap a k = memory σ !! Heap a k) -> heap σ' = heap σ -> lib_inv σ' γ'.
Proof.
  intros [H1 H2 H3 H4] Ho Hs Hv Hh Hl. split; [auto..| |].
  - intros s a v0 v1 Hown. unfold work_param, work_func in *. rewrite !Hh, Hl. eauto.
  - eauto.
Qed.

Lemma fmap_insert_ghost γ s w g : (snd <$> <[s := (w, g)]> γ) = <[s := g]> (snd <$> γ).
Proof. apply fmap_insert. Qed.

(** A memory in which one variable has been written. *)
Lemma memory_write_eq t l v σ : memory (write t l v σ) !! l = Some v.
Proof. apply lookup_insert_eq. Qed.

Lemma memory_write_ne t l v σ l' : l' <> l -> memory (write t l v σ) !! l' = memory σ !! l'.
Proof. intros. by apply lookup_insert_ne. Qed.

Lemma memory_write_is_Some t l v σ l' : is_Some (memory σ !! l') -> is_Some (memory (write t l v σ) !! l').
Proof. intros. apply lookup_insert_is_Some'. by right. Qed.

Lemma client_exec_lib i t σ r σ' γ : client_instr i -> exec t i σ = Next r σ' -> lib_inv σ γ -> lib_inv σ' γ.
Proof.
  intros Hc He Hl.
  assert (forall l m, client_loc l ->
    (forall l', memory m !! l' = if decide (l' = l) then memory m !! l' else memory σ !! l') ->
    (is_Some (memory m !! l)) -> heap m = heap σ -> lib_inv m γ) as Hw.
  { intros l m Hx Hm Hs Hh. eapply lib_inv_ext; [done|done|..|done].
    - intros k Hk. rewrite Hm. case_decide as Hd; [|done]. by rewrite Hd.
    - intros k Hk. rewrite Hm. case_decide as Hd; [|done]. by rewrite Hd.
    - intros a k. rewrite Hm. case_decide; [|done]. by subst. }
  assert (forall m, memory m = memory σ -> heap m = heap σ -> lib_inv m γ) as Hn.
  { intros m Hm Hh. eapply lib_inv_ext; [done|done|..|done]; by rewrite Hm. }
  destruct i; simpl in He; try done; unfold take_lock in He; repeat case_match; simplify_eq/=;
    try (by apply Hn).
  all: eapply Hw; [exact Hc| |simpl; by rewrite lookup_insert_eq|done].
  all: intros l'; simpl; case_decide; [done|by rewrite lookup_insert_ne].
Qed.

(* ------------------------------------------------------------------ *)
(** ** Rules for programs over the library *)

Lemma client_lookup γ s (w : option (Z * Z * Z)) (g : GC) : γ !! s = Some (w, g) -> (snd <$> γ) !! s = Some g.
Proof. intros Hs. by rewrite lookup_fmap, Hs. Qed.

(** An instruction of the client: only its own invariant is at stake. *)
Lemma wp_client {A : Type} i (k : Z -> proc A) s w g Q :
  client_instr i ->
  (forall σ δ, CInv σ δ -> δ !! s = Some g -> (s.2 = false -> δ !! (s.1, true) = None) ->
     match exec s.1 i σ with
     | Next r σ' => exists g', CInv σ' (<[s := g']> δ) /\ twp s (k r) Q (w, g')
     | Stall => True
     | Fault => False
     end) ->
  twp s (Do i k) Q (w, g).
Proof.
  intros Hc Hk σ γ [Hl Hi] Hg Hal.
  assert (s.2 = false -> (snd <$> γ : gmap slot GC) !! (s.1, true) = None) as Hal'
    by (intros Hs; by rewrite lookup_fmap, Hal).
  specialize (Hk _ _ Hi (client_lookup _ _ _ _ Hg) Hal').
  destruct (exec s.1 i σ) as [r σ'| |] eqn:He; [|done..].
  destruct Hk as (g' & Hi' & Hk). exists (w, g'). split; [|done]. split.
  - eapply lib_inv_ext; [by eapply client_exec_lib| |done..].
    intros s' a v0 v1. by rewrite owns_insert.
  - by rewrite fmap_insert_ghost.
Qed.

(** An instruction that does not change the machine. *)
Lemma wp_quiet {A : Type} i (k : Z -> proc A) s w g Q :
  client_instr i ->
  (forall σ δ, CInv σ δ -> δ !! s = Some g -> exists r, exec s.1 i σ = Next r σ /\ twp s (k r) Q (w, g)) ->
  twp s (Do i k) Q (w, g).
Proof.
  intros Hc Hk. apply wp_client; [done|]. intros σ δ Hi Hg _.
  destruct (Hk σ δ Hi Hg) as (r & -> & Hw). exists g. by rewrite insert_id.
Qed.

Lemma wp_pause {A : Type} (k : Z -> proc A) s w g Q : twp s (k 0) Q (w, g) -> twp s (Do Pause k) Q (w, g).
Proof. intros. apply wp_quiet; [done|]. intros. by exists 0. Qed.

Lemma wp_htid {A : Type} (k : Z -> proc A) s w g Q : twp s (k s.1) Q (w, g) -> twp s (Do GetHtid k) Q (w, g).
Proof. intros. apply wp_quiet; [done|]. intros. by exists s.1. Qed.

Definition lib_cell (l : loc) : Prop :=
  (exists i, l = thread_semaphore i /\ 0 <= i < 32) \/ (exists i, l = vals i /\ 0 <= i < 512).

Lemma lib_cell_is_Some σ γ l : lib_inv σ γ -> lib_cell l -> is_Some (memory σ !! l).
Proof. intros [H1 H2 _ _] [(i & -> & Hi)|(i & -> & Hi)]; auto. Qed.

Lemma wp_lib_load {A : Type} l (k : Z -> proc A) s g Q :
  lib_cell l -> (forall v, twp s (k v) Q g) -> twp s (Do (Load l) k) Q g.
Proof.
  intros Hl Hk σ γ Hi Hg _. simpl. destruct (lib_cell_is_Some _ _ _ (proj1 Hi) Hl) as [v ->].
  exists g. by rewrite insert_id.
Qed.

Lemma lib_store_same t l v σ : (match l with Glob x _ => lib_var x = true | Heap _ _ => True end) ->
  same_client σ (write t l v σ).
Proof.
  intros Hl. split; [|done..|].
  - intros x i Hx. simpl. apply lookup_insert_ne. destruct l; congruence.
  - intros u l' Hr. by apply plain_store_reserved in Hr as [Hr _].
Qed.

Lemma wp_lib_store {A : Type} l v (k : Z -> proc A) s g Q :
  lib_cell l -> twp s (k 0) Q g -> twp s (Do (Store l v) k) Q g.
Proof.
  intros Hl Hk σ γ [Hi Hc] Hg _. simpl. destruct (lib_cell_is_Some _ _ _ Hi Hl) as [v' ->].
  exists g. rewrite insert_id by done. split; [|done]. split.
  - eapply lib_inv_ext; [done|done| | | |done].
    + intros i. apply memory_write_is_Some.
    + intros i. apply memory_write_is_Some.
    + intros a j. apply memory_write_ne. by destruct Hl as [(? & -> & ?)|(? & -> & ?)].
  - eapply Hsame; [|done]. apply lib_store_same. by destruct Hl as [(? & -> & ?)|(? & -> & ?)].
Qed.

Lemma wp_up (I : Z -> ghost -> Prop) n i body s g (Q : () -> ghost -> Prop) :
  I i g ->
  (forall j g, i <= j < i + Z.of_nat n -> I j g -> twp s (body j) (fun _ => I (j + 1)) g) ->
  (forall g, I (i + Z.of_nat n) g -> Q tt g) ->
  twp s (up n i body) Q g.
Proof.
  revert i g. induction n as [|n IH]; intros i g HI Hb HQ; cbn [up].
  - apply HQ. by rewrite Z.add_0_r.
  - apply wpt_bind. eapply wpt_mono; [apply Hb; [lia|done]|]. intros [] g' HI'. apply IH; [done| |].
    + intros. apply Hb; [lia|done].
    + intros. apply HQ. by replace (i + Z.of_nat (Datatypes.S n)) with (i + 1 + Z.of_nat n) by lia.
Qed.

(** The rule of the counted loop. *)
Lemma wp_for_range (I : Z -> ghost -> Prop) lo hi body s g (Q : () -> ghost -> Prop) :
  lo <= hi -> I lo g ->
  (forall j g, lo <= j < hi -> I j g -> twp s (body j) (fun _ => I (j + 1)) g) ->
  (forall g, I hi g -> Q tt g) ->
  twp s (for_range lo hi body) Q g.
Proof.
  intros Hle HI Hb HQ. apply (wp_up I); [done| |].
  - intros. apply Hb; [lia|done].
  - intros. apply HQ. by replace hi with (lo + Z.of_nat (Z.to_nat (hi - lo))) by lia.
Qed.

(** A loop whose rounds keep the ghost. *)
Lemma wp_for_quiet lo hi body s g (Q : () -> ghost -> Prop) :
  (forall j, lo <= j < hi -> twp s (body j) (fun _ g' => g' = g) g) -> Q tt g ->
  twp s (for_range lo hi body) Q g.
Proof.
  intros Hb HQ. destruct (Z.le_gt_cases lo hi).
  - apply (wp_for_range (fun _ g' => g' = g)); [done|done| |by intros ? ->].
    intros j g' Hj ->. by apply Hb.
  - unfold for_range. by replace (Z.to_nat (hi - lo)) with 0%nat by lia.
Qed.

(** The rule of the loop. *)
Lemma wp_loop {S R : Set} (J : S -> ghost -> Prop) (c : S -> proc (S + R)) x s g (Q : R -> ghost -> Prop) :
  J x g ->
  (forall x g, J x g -> twp s (c x) (fun y g' => match y with inl x => J x g' | inr r => Q r g' end) g) ->
  twp s (loop c x) Q g.
Proof. intros HJ Hc. by exists J. Qed.

(** The rule of the spin loop. *)
Lemma wp_while (J : ghost -> Prop) cond body s g (Q : () -> ghost -> Prop) :
  J g ->
  (forall g, J g -> twp s cond (fun b g' => if (b : bool) then twp s body (fun _ => J) g' else Q tt g') g) ->
  twp s (while cond body) Q g.
Proof.
  intros HJ Hc. exists (fun _ => J). split; [done|]. intros _ g' Hg'. apply wpt_bind.
  eapply wpt_mono; [by apply Hc|]. intros [] g'' Hw; simpl; [|done].
  apply wpt_bind. eapply wpt_mono; [done|]. by intros [] g''' HJ'.
Qed.

Lemma wp_delay n s w g (Q : Z -> ghost -> Prop) : (forall v, Q v (w, g)) -> twp s (delay n) Q (w, g).
Proof.
  intros HQ. unfold delay. apply wpt_bind, wp_for_quiet.
  - intros j Hj. assert (lib_cell (vals (j mod 512))) as Hl.
    { right. exists (j mod 512). split; [done|]. apply Z.mod_pos_bound. lia. }
    apply wp_lib_store; [done|]. apply wp_pause, wp_lib_load; [done|]. intros v.
    by apply wp_lib_store.
  - apply wp_lib_load; [right; exists 0; done|]. intros v. apply HQ.
Qed.

Lemma wp_delay_ n s w g (Q : () -> ghost -> Prop) : Q tt (w, g) -> twp s (delay_ n) Q (w, g).
Proof. intros HQ. unfold delay_. apply wpt_bind, wp_delay. done. Qed.

(** *** The functions of the library *)

Lemma sem_cell i : 0 <= i < 32 -> lib_cell (thread_semaphore i).
Proof. intros. left. eauto. Qed.
Hint Resolve sem_cell : core.

Lemma wp_spin_semaphore tid (p : Z -> bool) s g (Q : () -> ghost -> Prop) :
  0 <= tid < 32 -> Q tt g ->
  twp s (while (v ← load (thread_semaphore tid); mret (p v)) pause) Q g.
Proof.
  intros Ht HQ. apply (wp_while (fun g' => g' = g)); [done|]. intros g' ->.
  apply wp_lib_load; [auto|]. intros v. simpl. destruct (p v); [|done].
  destruct g as [w g]. by apply wp_pause.
Qed.

Lemma wp_wait_on_semaphore s w g (Q : () -> ghost -> Prop) :
  0 <= s.1 < 32 -> Q tt (w, g) -> twp s wait_on_semaphore Q (w, g).
Proof.
  intros Hs HQ. unfold wait_on_semaphore. apply wp_htid. simpl.
  apply wp_lib_store; [auto|]. by apply wp_spin_semaphore.
Qed.

Lemma wp_start_waiting_threads mask s w g (Q : () -> ghost -> Prop) :
  Q tt (w, g) -> twp s (start_waiting_threads mask) Q (w, g).
Proof.
  intros HQ. unfold start_waiting_threads. apply wpt_bind. unfold wait_semaphore_state, remove_myself.
  apply wp_htid. simpl. apply wp_for_quiet.
  - intros j Hj. destruct (in_mask _ j); [|done]. by apply wp_spin_semaphore.
  - unfold set_semaphore_state. apply wp_for_quiet; [|done].
    intros j Hj. destruct (in_mask mask j); [|done]. by apply wp_lib_store; [auto|].
Qed.

(** The thread [s] alone owns block [a]; the invariant of the library after a
    change to its ghost. *)
Lemma lib_inv_own σ γ s g a v0 v1 : lib_inv σ γ ->
  memory σ !! work_param a = Some v0 -> memory σ !! work_func a = Some v1 -> a ∈ live (heap σ) ->
  (forall s' v0 v1, owns γ s' a v0 v1 -> s' = s) ->
  lib_inv σ (<[s := (Some (a, v0, v1), g)]> γ).
Proof.
  intros [H1 H2 H3 H4] Hp Hf Ha Ho.
  assert (forall s' a' v v', owns (<[s := (Some (a, v0, v1), g)]> γ) s' a' v v' ->
    s' = s /\ a' = a /\ v = v0 /\ v' = v1 \/ s' <> s /\ owns γ s' a' v v') as Hown.
  { intros s' a' v v' [g' Hg']. destruct (decide (s' = s)) as [->|Hne].
    - rewrite lookup_insert_eq in Hg'. left. naive_solver.
    - rewrite lookup_insert_ne in Hg' by done. right. split; [done|]. by exists g'. }
  split; [done|done| |].
  - intros s' a' v v' [(-> & -> & -> & ->)|[_ Hg]]%Hown; eauto.
  - intros s1 s2 a' ? ? ? ? Hs1%Hown Hs2%Hown.
    destruct Hs1 as [(-> & -> & _)|[N1 G1]], Hs2 as [(-> & E2 & _)|[N2 G2]]; try done.
    + by rewrite (Ho _ _ _ G2) in N2.
    + subst a'. by rewrite (Ho _ _ _ G1) in N1.
    + eauto.
Qed.

(** A thread that owns no block. *)
Lemma lib_inv_none σ γ s g : lib_inv σ γ -> lib_inv σ (<[s := (None, g)]> γ).
Proof.
  intros Hl. eapply lib_inv_ext; [done| |done..].
  intros s' a v0 v1 [g' Hg']. destruct (decide (s' = s)) as [->|Hne].
  - by rewrite lookup_insert_eq in Hg'.
  - rewrite lookup_insert_ne in Hg' by done. by exists g'.
Qed.

Lemma owner_unique σ γ s a v0 v1 s' v0' v1' : lib_inv σ γ ->
  owns γ s a v0 v1 -> owns γ s' a v0' v1' -> s' = s.
Proof. intros Hl H1 H2. by eapply lib_distinct. Qed.

(** Writing a field of the block the thread owns. *)
Lemma wp_store_work {A : Type} (k : nat) v (f : Z -> proc A) s a v0 v1 g Q :
  (k < 2)%nat ->
  twp s (f 0) Q (Some (a, match k with O => v | _ => v0 end, match k with O => v1 | _ => v end), g) ->
  twp s (Do (Store (Heap a (Z.of_nat k)) v) f) Q (Some (a, v0, v1), g).
Proof.
  intros Hk Hw σ γ [Hl Hc] Hg _. assert (owns γ s a v0 v1) as Hown by (by exists g).
  destruct (lib_work _ _ Hl _ _ _ _ Hown) as (Hp & Hf & Ha).
  assert (exists x, memory σ !! Heap a (Z.of_nat k) = Some x) as [x Hx]
    by (destruct k as [|[|]]; [eauto|eauto|lia]).
  simpl. rewrite Hx. eexists. split; [|exact Hw]. split.
  - assert (forall a' j, a' <> a -> memory (write s.1 (Heap a (Z.of_nat k)) v σ) !! Heap a' j = memory σ !! Heap a' j) as Hne.
    { intros. apply memory_write_ne. congruence. }
    assert (lib_inv (write s.1 (Heap a (Z.of_nat k)) v σ) (<[s := (None, g)]> γ)) as Hn.
    { destruct Hl as [H1 H2 H3 H4]. split.
      - intros i Hi. by apply memory_write_is_Some, H1.
      - intros i Hi. by apply memory_write_is_Some, H2.
      - intros s' a' v' v'' [g' Hg']. destruct (decide (s' = s)) as [->|Hs']; [by rewrite lookup_insert_eq in Hg'|].
        rewrite lookup_insert_ne in Hg' by done.
        assert (owns γ s' a' v' v'') as Ho by (by exists g').
        assert (a' <> a) by (intros ->; by apply Hs', (H4 _ _ _ _ _ _ _ Ho Hown)).
        unfold work_param, work_func. rewrite !Hne by done. by apply (H3 _ _ _ _ Ho).
      - intros s1 s2 a' ? ? ? ? [g1 G1] [g2 G2].
        destruct (decide (s1 = s)) as [->|N1]; [by rewrite lookup_insert_eq in G1|].
        destruct (decide (s2 = s)) as [->|N2]; [by rewrite lookup_insert_eq in G2|].
        rewrite lookup_insert_ne in G1 by done. rewrite lookup_insert_ne in G2 by done.
        eapply H4; by eexists. }
    rewrite <- (insert_insert_eq γ s _ (None, g)).
    eapply lib_inv_own; [exact Hn|..|done|].
    + destruct k as [|[|]]; [apply memory_write_eq|by rewrite memory_write_ne|lia].
    + destruct k as [|[|]]; [by rewrite memory_write_ne|apply memory_write_eq|lia].
    + intros s' u u' [g' Hg']. destruct (decide (s' = s)) as [->|Hs']; [done|].
      rewrite lookup_insert_ne in Hg' by done. eapply (owner_unique _ _ _ _ _ _ _ u u' Hl Hown). by exists g'.
  - rewrite fmap_insert_ghost, insert_id by (by eapply client_lookup).
    eapply Hsame; [by apply lib_store_same|done].
Qed.

Lemma wp_load_work {A : Type} (k : nat) (f : Z -> proc A) s a v0 v1 g Q :
  (k < 2)%nat -> twp s (f match k with O => v0 | _ => v1 end) Q (Some (a, v0, v1), g) ->
  twp s (Do (Load (Heap a (Z.of_nat k))) f) Q (Some (a, v0, v1), g).
Proof.
  intros Hk Hw σ γ [Hl Hc] Hg _. assert (owns γ s a v0 v1) as Hown by (by exists g).
  destruct (lib_work _ _ Hl _ _ _ _ Hown) as (Hp & Hf & Ha).
  unfold work_param, work_func in Hp, Hf.
  destruct k as [|[|]]; [change (Z.of_nat 0) with 0|change (Z.of_nat 1) with 1|lia];
    simpl in *; rewrite ?Hp, ?Hf;
    exists (Some (a, v0, v1), g); by rewrite insert_id.
Qed.

Lemma wp_free {A : Type} (f : Z -> proc A) s a v0 v1 g Q :
  twp s (f 0) Q (None, g) -> twp s (Do (Free a) f) Q (Some (a, v0, v1), g).
Proof.
  intros Hw σ γ [Hl Hc] Hg _. assert (owns γ s a v0 v1) as Hown by (by exists g).
  destruct (lib_work _ _ Hl _ _ _ _ Hown) as (_ & _ & Ha). simpl.
  destruct (free_live a (heap σ) Ha) as (h & -> & Hh).
  exists (None, g). split; [|done]. split.
  - assert (forall x, not_in_block a x -> memory σ !! x.1 = Some x.2 ->
      filter (not_in_block a) (memory σ) !! x.1 = Some x.2) as Hf.
    { intros [l v] Hn Hx. by apply map_lookup_filter_Some. }
    assert (forall s' a' v v', owns (<[s := (None, g)]> γ) s' a' v v' -> a' <> a /\ owns γ s' a' v v') as Ho.
    { intros s' a' v v' [g' Hg']. destruct (decide (s' = s)) as [->|Hs']; [by rewrite lookup_insert_eq in Hg'|].
      rewrite lookup_insert_ne in Hg' by done. assert (owns γ s' a' v v') as Ho by (by exists g').
      split; [|done]. intros ->. by apply Hs', (owner_unique _ _ _ _ _ _ _ _ _ Hl Hown Ho). }
    destruct Hl as [H1 H2 H3 H4]. split.
    + intros i Hi. destruct (H1 i Hi) as [v Hv]. exists v. by apply (Hf (thread_semaphore i, v)).
    + intros i Hi. destruct (H2 i Hi) as [v Hv]. exists v. by apply (Hf (vals i, v)).
    + intros s' a' v v' [Hne Ho']%Ho. destruct (H3 _ _ _ _ Ho') as (P1 & P2 & P3).
      split_and!; [by apply (Hf (work_param a', v))|by apply (Hf (work_func a', v'))|].
      simpl. rewrite Hh. set_solver.
    + intros s1 s2 a' ? ? ? ? [_ O1]%Ho [_ O2]%Ho. by eapply H4.
  - rewrite fmap_insert_ghost, insert_id by (by eapply client_lookup).
    eapply Hsame; [|done]. split; [|done..].
    intros x i _. cbn [memory with_heap with_memory]. rewrite map_lookup_filter.
    destruct (memory σ !! Glob x i); cbn [mbind option_bind]; [|done]. by rewrite option_guard_True.
Qed.

Lemma wp_thread_wrapper p param func s g R :
  func <> thread_wrapper_fn -> 0 <= s.1 < 32 -> CSpec func param s g R ->
  twp s (thread_wrapper p) (fun _ g' => g'.1 = None /\ R g'.2) (Some (p, param, func), g).
Proof.
  intros Hf Hs HR. unfold thread_wrapper. apply wpt_bind, wp_wait_on_semaphore; [done|].
  apply (wp_load_work 1); [lia|]. apply (wp_load_work 0); [lia|]. simpl.
  eexists. split; [by apply spec_client|]. intros [w g'] [Hw HR']. simpl in *. subst w.
  by apply wp_free.
Qed.

(** The code of the library and of its client. *)
Definition lib_code (client : Z -> Z -> proc ()) (f a : Z) : proc () :=
  if f =? thread_wrapper_fn then thread_wrapper a else client f a.

Lemma lib_code_ok client :
  (forall f a s w g R, CSpec f a s g R -> twp s (client f a) (fun _ g' => g'.1 = w /\ R g'.2) (w, g)) ->
  forall f a s g R, Spec f a s g R -> twp s (lib_code client f a) (fun _ => R) g.
Proof.
  intros Hc f a s g R []; unfold lib_code.
  - rewrite (proj2 (Z.eqb_neq _ _)) by done. by apply Hc.
  - rewrite Z.eqb_refl. by apply wp_thread_wrapper.
Qed.

Lemma heap_cells_lookup n a k m l : heap_cells n a k m !! l =
  match l with
  | Heap b j => if decide (b = a /\ k <= j < k + Z.of_nat n) then Some 0 else m !! l
  | _ => m !! l
  end.
Proof.
  revert k. induction n as [|n IH]; intros k; cbn [heap_cells].
  - destruct l as [|b j]; [done|]. destruct (decide (b = a /\ k <= j < k + Z.of_nat 0)); [lia|done].
  - destruct l as [x i|b j]; [by rewrite lookup_insert_ne, IH|].
    destruct (decide (Heap b j = Heap a k)) as [E1|E1].
    + injection E1 as -> ->. rewrite lookup_insert_eq. by destruct (decide _); [|lia].
    + rewrite lookup_insert_ne, IH by congruence.
      destruct (decide (b = a /\ k + 1 <= j < k + 1 + Z.of_nat n)), (decide (b = a /\ k <= j < k + Z.of_nat (Datatypes.S n)));
        try done; [lia|]. exfalso. apply E1. f_equal; lia.
Qed.

#[local] Arguments heap_cells : simpl never.

(** The allocator can fail. *)
Definition out_of_memory : Prop := exists h, (malloc 8 h).1 = 0.

(** malloc either fails or gives the thread a block of its own. *)
Lemma wp_malloc {A : Type} (f : Z -> proc A) s g Q :
  (out_of_memory -> twp s (f 0) Q (None, g)) ->
  (forall a, a <> 0 -> twp s (f a) Q (Some (a, 0, 0), g)) ->
  twp s (Do (Malloc 8) f) Q (None, g).
Proof.
  intros H0 Ha σ γ [Hl Hc] Hg _. cbn [exec]. change (Z.to_nat (8 / 4)) with 2%nat.
  pose proof (malloc_live 8 (heap σ)) as Hm.
  destruct (malloc 8 (heap σ)) as [a h] eqn:Em. destruct Hm as [[-> Hh]|(Hn & Hn' & Hh)].
  - assert out_of_memory as Ho by (exists (heap σ); by rewrite Em).
    exists (None, g). rewrite insert_id by done. split; [|by apply H0]. split.
    + destruct Hl as [H1 H2 H3 H4]. split; try done.
      intros. simpl. rewrite Hh. eauto.
    + eapply Hsame; [|done]. by split.
  - exists (Some (a, 0, 0), g). split; [|by apply Ha]. rewrite (proj2 (Z.eqb_neq a 0)) by done. split.
    + assert (forall s' a' v v', owns γ s' a' v v' -> a' <> a) as Hne.
      { intros s' a' v v' Ho ->. by destruct (lib_work _ _ Hl _ _ _ _ Ho) as (_ & _ & ?). }
      eapply lib_inv_own.
      * destruct Hl as [H1 H2 H3 H4]. split; simpl.
        -- intros i Hi. rewrite heap_cells_lookup. by apply H1.
        -- intros i Hi. rewrite heap_cells_lookup. by apply H2.
        -- intros s' a' v v' Ho. destruct (H3 _ _ _ _ Ho) as (P1 & P2 & P3). pose proof (Hne _ _ _ _ Ho).
           unfold work_param, work_func. rewrite !heap_cells_lookup, Hh.
           rewrite !decide_False by lia. split_and!; [done..|set_solver].
        -- done.
      * cbn [memory with_heap with_memory]. unfold work_param. rewrite heap_cells_lookup. by rewrite decide_True by lia.
      * cbn [memory with_heap with_memory]. unfold work_func. rewrite heap_cells_lookup. by rewrite decide_True by lia.
      * simpl. rewrite Hh. set_solver.
      * intros s' v v' Ho. by destruct (Hne _ _ _ _ Ho).
    + rewrite fmap_insert_ghost, insert_id by (by eapply client_lookup).
      eapply Hsame; [|done]. split; [|done..]. intros x i _. simpl. by rewrite heap_cells_lookup.
Qed.

(** What a client owes for starting a thread [tid] with ghost [gc], and giving
    up its own ghost [g] for [g']. *)
Record may_create (tid : Z) (s : slot) (g g' gc : GC) : Prop := {
  create_other : tid <> s.1;
  create_new σ δ : CInv σ δ -> δ !! s = Some g -> δ !! (tid, false) = None;
  create_inv σ δ : CInv σ δ -> δ !! s = Some g -> δ !! (tid, false) = None -> δ !! (tid, true) = None ->
    CInv (unmask tid σ) (<[(tid, false) := gc]> (<[s := g']> δ))
}.

Lemma lookup_client_None γ s : (snd <$> γ : gmap slot GC) !! s = None -> γ !! s = None.
Proof. intros Hs. rewrite lookup_fmap in Hs. by destruct (γ !! s). Qed.

Lemma wp_create_waiting_thread func tid param s g g' gc (Q : () -> ghost -> Prop) :
  0 <= tid < 32 -> func <> thread_wrapper_fn ->
  (out_of_memory -> forall σ δ, CInv σ δ -> δ !! s = Some g -> E 1 σ) ->
  may_create tid s g g' gc ->
  CSpec func param (tid, false) gc (CFin tid) ->
  Q tt (None, g') ->
  twp s (create_waiting_thread func tid param) Q (None, g).
Proof.
  intros Ht Hf HE [Hts Hnew Hinv] Hspec HQ. unfold create_waiting_thread. apply wp_malloc.
  { intros Ho σ γ [_ Hc] Hg. eapply (HE Ho); [done|]. by eapply client_lookup. }
  intros a Ha. simpl. assert (truth a = true) as -> by (unfold truth; by rewrite (proj2 (Z.eqb_neq a 0))).
  apply (wp_store_work 0); [lia|]. apply (wp_store_work 1); [lia|].
  apply wp_lib_store; [auto|]. intros σ γ [Hl Hc] Hg.
  assert ((snd <$> γ) !! s = Some g) as Hgc by (by eapply client_lookup).
  assert (γ !! (tid, false) = None) as Hn by (eapply lookup_client_None, Hnew; done).
  split_and!; [done..|]. exists (None, g'), (Some (a, param, func), gc). split_and!; [| |done].
  - intros Hn'. split.
    + destruct (lib_work _ _ Hl s a param func) as (P1 & P2 & P3); [by exists g|].
      eapply lib_inv_own.
      * by eapply (lib_inv_ext σ); [apply (lib_inv_none _ _ s g' Hl)|auto..].
      * done.
      * done.
      * done.
      * intros s' v v' [h Hh]. destruct (decide (s' = (tid, false))) as [->|Hne]; [done|].
        destruct (decide (s' = s)) as [->|Hne']; [by rewrite lookup_insert_eq in Hh|].
        rewrite lookup_insert_ne in Hh by done.
        destruct Hne'. eapply owner_unique; [done| |]; by eexists.
    + rewrite !fmap_insert_ghost. apply Hinv; try done; rewrite lookup_fmap; [by rewrite Hn|by rewrite Hn'].
  - by apply (spec_wrapper a param func).
Qed.

Lemma filter_client γ m :
  (snd <$> filter (fun x => Z.testbit m x.1.1 = false) γ : gmap slot GC) =
  filter (fun x => Z.testbit m x.1.1 = false) (snd <$> γ).
Proof.
  apply map_eq. intros s. rewrite lookup_fmap, !map_lookup_filter, lookup_fmap.
  destruct (γ !! s) as [g|]; [|done]. cbn. by repeat case_guard.
Qed.

Lemma wp_thread_join mask s w g g' (Q : () -> ghost -> Prop) :
  (forall σ δ, CInv σ δ -> δ !! s = Some g ->
    (forall u b gu, Z.testbit mask u = true -> δ !! (u, b) = Some gu -> b = false /\ CFin u gu) ->
    CInv σ (<[s := g']> (filter (fun x => Z.testbit mask x.1.1 = false) δ))) ->
  Q tt (w, g') -> twp s (thread_join mask) Q (w, g).
Proof.
  intros Hj HQ σ γ [Hl Hc] Hg Hfin. exists (w, g'). split; [|done]. split.
  - eapply lib_inv_ext; [done| |done..].
    intros s' a v0 v1 [h Hh]. destruct (decide (s' = s)) as [->|Hne].
    + rewrite lookup_insert_eq in Hh. injection Hh as -> _. by exists g.
    + rewrite lookup_insert_ne in Hh by done. apply map_lookup_filter_Some in Hh as [Hh _]. by exists h.
  - rewrite fmap_insert_ghost, filter_client. apply Hj; [done|by eapply client_lookup|].
    intros u b gu Hm Hu. rewrite lookup_fmap in Hu.
    destruct (γ !! (u, b)) as [[w' h]|] eqn:E1; [|done]. injection Hu as <-.
    destruct (Hfin _ _ _ Hm E1) as [? [_ ?]]. done.
Qed.

Lemma wp_exit {A : Type} e s w g (Q : A -> ghost -> Prop) :
  (forall σ δ, CInv σ δ -> δ !! s = Some g -> E e σ) -> twp s (exit e) Q (w, g).
Proof. intros He σ γ [_ Hc] Hg. eapply He; [done|]. by eapply client_lookup. Qed.

(** *** From a verified client to every interleaving *)

Definition client_gone (t : Z) (g : GC) : Prop := forall σ δ,
  CInv σ δ -> δ !! (t, true) = Some g -> CInv σ (delete (t, true) δ).

(** What a client owes: its functions meet their specifications, and at any
    time an interrupt may be accepted, served and completed. *)
Record client_ok (client : Z -> Z -> proc ()) : Prop := {
  client_code f a s w g R : CSpec f a s g R ->
    twp s (client f a) (fun _ g' => g'.1 = w /\ R g'.2) (w, g);
  client_ciad m σ δ : CInv σ δ -> CInv (with_interrupts (ciad m (interrupts σ)) σ) δ;
  client_isr σ δ t n i : CInv σ δ -> is_Some (δ !! (t, false)) -> δ !! (t, true) = None ->
    accept t n (interrupts σ) = Some i ->
    exists gi R, CInv (with_interrupts i σ) (<[(t, true) := gi]> δ) /\
      match handlers σ !! n with
      | Some h => h <> thread_wrapper_fn /\ CSpec h n (t, true) gi R
      | None => R gi
      end /\ forall g, R g -> client_gone t g
}.

Lemma client_gone_lib t g : client_gone t g -> Gone Inv t (None, g).
Proof.
  intros Hgone σ γ [Hl Hc] Hg. split.
  - eapply lib_inv_ext; [done| |done..].
    intros s a v0 v1 [h Hh]. apply lookup_delete_Some in Hh as [_ Hh]. by exists h.
  - rewrite fmap_delete. apply Hgone; [done|]. by eapply client_lookup.
Qed.

Lemma handler_ok client σ γ t n i : client_ok client ->
  Inv σ γ -> is_Some (γ !! (t, false)) -> γ !! (t, true) = None ->
  accept t n (interrupts σ) = Some i ->
  exists gi, Inv (with_interrupts i σ) (<[(t, true) := gi]> γ) /\
    twp (t, true) (handler_code (lib_code client) n σ) (fun _ => Gone Inv t) gi.
Proof.
  intros Hok [Hl Hc] [g0 Hg0] Hn Ha.
  destruct (client_isr _ Hok σ (snd <$> γ) t n i Hc) as (gi & R & Hi & Hh & Hgone); [..|done|].
  - rewrite lookup_fmap, Hg0. eauto.
  - by rewrite lookup_fmap, Hn.
  - exists (None, gi). split.
    + split; [|by rewrite fmap_insert_ghost]. eapply (lib_inv_none _ _ _ gi) in Hl.
      by eapply (lib_inv_ext σ); [exact Hl|auto..].
    + assert (forall g, R g -> Gone Inv t (None, g)) as Hgone' by (intros; by apply client_gone_lib, Hgone).
      unfold handler_code. destruct (handlers σ !! n) as [h|]; [|by apply Hgone'].
      destruct Hh as [Hne Hs]. apply wpt_bind. unfold lib_code. rewrite (proj2 (Z.eqb_neq _ _)) by done.
      eapply wpt_mono; [by apply (client_code _ Hok _ _ _ None)|].
      intros [] [w g] [Hw HR]. simpl in Hw, HR. subst w. apply wp_client; [done|].
      intros σ' δ Hc' Hg _. exists g. rewrite insert_id by done. split; [|by apply Hgone'].
      by apply (client_ciad _ Hok).
Qed.

(** The machine before main starts: thread 0 alone. *)
Definition boot (p : proc ()) σ : config := Config _ σ {[0 := Thread p None]} None.

Lemma client_adequate client p σ g c : client_ok client ->
  (forall i, 0 <= i < 32 -> is_Some (memory σ !! thread_semaphore i)) ->
  (forall i, 0 <= i < 512 -> is_Some (memory σ !! vals i)) ->
  CInv σ {[(0, false) := g]} -> twp (0, false) p (fun _ => Fin 0) (None, g) ->
  reachable (lib_code client) (boot p σ) c ->
  (forall ev, step (lib_code client) ev c <> Wrong) /\
  (forall e, halted c = Some e -> E e (mach c)) /\
  exists γ, lib_inv (mach c) γ /\ CInv (mach c) (snd <$> γ).
Proof.
  intros Hok Hs Hv Hc Hw Hr.
  assert (config_ok Inv Spec Fin E (boot p σ)) as Hb.
  { split; [|done]. exists {[(0, false) := (None, g)]}. split_and!.
    - split.
      + split; [done|done| |].
        * intros s a v0 v1 [h Hh]. by apply lookup_singleton_Some in Hh as [_ ?].
        * intros s s' a v0 v1 v0' v1' [h Hh]. by apply lookup_singleton_Some in Hh as [_ ?].
      + by rewrite map_fmap_singleton.
    - intros t th Ht. unfold boot in Ht. simpl in Ht. apply lookup_singleton_Some in Ht as [<- <-]. exists (None, g). done.
    - intros t b Ht. unfold boot in Ht. simpl in Ht. apply lookup_singleton_None in Ht.
      apply lookup_singleton_None. congruence. }
  assert (forall f a s g R, Spec f a s g R -> twp s (lib_code client f a) (fun _ => R) g) as Hcode
    by (apply lib_code_ok, Hok).
  pose proof (fun ev => reachable_not_wrong Inv Spec Fin E (lib_code client) Hcode
    (fun σ γ t n i => handler_ok client σ γ t n i Hok) _ c ev Hb Hr) as Hstep.
  apply (reachable_ok Inv Spec Fin E (lib_code client) Hcode
    (fun σ γ t n i => handler_ok client σ γ t n i Hok)) in Hr as [(γ & [Hl Hi] & _) He]; [|done].
  split_and!; [done|done|]. by exists γ.
Qed.
End library.
