(* ===== verification/ThreadSim.v ===== *)
(** A processor on which the theorems about threads are evaluated: SYSCFG as a
    number, one reservation per thread, interrupt masks as numbers, a clock
    that counts its reads and an allocator that picks an unused address. *)

From S2P Require Import Prelude Threads ThreadCommon.

Open Scope string_scope.
Open Scope list_scope.
Open Scope Z_scope.

Module SimCpu.

Record ints := Ints { masks : gmap Z Z; assigned : gmap Z Z; pending : Z }.

Definition mask_of (i : ints) (t : Z) : Z := default 0 (masks i !! t).

#[export] Instance sim_cpu : Cpu := {
  lock_unit := Z;
  syscfg l := l;
  k0lock t l := if Z.testbit l SYSCFG_KL_BIT then None else Some (Z.setbit l SYSCFG_KL_BIT);
  k0unlock t l := Z.clearbit l SYSCFG_KL_BIT;
  tlblock t l := if Z.testbit l SYSCFG_TL_BIT then None else Some (Z.setbit l SYSCFG_TL_BIT);
  tlbunlock t l := Z.clearbit l SYSCFG_TL_BIT;
  monitor := gmap Z loc;
  load_locked t l r := <[t := l]> r;
  store_cond t l r :=
    if decide (r !! t = Some l) then (true, filter (fun x => x.2 <> l) r) else (false, delete t r);
  plain_store t l r := filter (fun x => x.1 = t \/ x.2 <> l) r;
  int_unit := ints;
  set_imask t m i := Ints (<[t := m]> (masks i)) (assigned i) (pending i);
  iassign r i := Ints (masks i) (<[Z.shiftr r 16 := Z.land r 0xff]> (assigned i)) (pending i);
  raise m i := Ints (masks i) (assigned i) (Z.lor (pending i) m);
  accept t n i :=
    if (0 <=? n) && (n <? 32) && Z.testbit (pending i) n && negb (Z.testbit (mask_of i t) n) &&
       negb (Z.testbit (default 0 (assigned i !! n)) t)
    then Some (Ints (masks i) (assigned i) (Z.clearbit (pending i) n)) else None;
  ciad m i := i;
  clock := Z;
  read_clock c := (c, c + 1);
  allocator := gset Z;
  malloc n h := let a := fresh ({[0]} ∪ h) in (a, {[a]} ∪ h);
  free a h := if decide (a ∈ h) then Some (h ∖ {[a]}) else None
}.

#[export] Program Instance sim_cpu_laws : CpuLaws := {
  reserved r t l := r !! t = Some l;
  imask i t := mask_of i t;
  live h := h
}.
Next Obligation. intros t l Hb. simpl in *. rewrite Hb. eauto. Qed.
Next Obligation. intros t l Hb. simpl in *. by rewrite Hb. Qed.
Next Obligation. done. Qed.
Next Obligation. intros t l Hb. simpl in *. rewrite Hb. eauto. Qed.
Next Obligation. intros t l Hb. simpl in *. by rewrite Hb. Qed.
Next Obligation. done. Qed.
Next Obligation.
  intros t l r u x Hr. simpl in Hr. case_decide as Hu.
  - subst u. rewrite lookup_insert_eq in Hr. by injection Hr.
  - by rewrite lookup_insert_ne in Hr.
Qed.
Next Obligation.
  intros t l r r' Hs. simpl in Hs. case_decide as Hd; [|done]. injection Hs as <-.
  split; [done|]. intros u x Hx. apply (map_lookup_filter_Some (M := gmap Z)) in Hx as [Hx Hn]. simpl in Hn.
  split_and!; [done| |done]. intros ->. congruence.
Qed.
Next Obligation.
  intros t l r r' Hs. simpl in Hs. case_decide as Hd; [done|]. injection Hs as <-.
  intros u x Hx. by apply (lookup_delete_Some (M := gmap Z)) in Hx as [_ Hx].
Qed.
Next Obligation.
  intros t l r u x Hx. simpl in Hx. apply (map_lookup_filter_Some (M := gmap Z)) in Hx as [Hx Hn]. simpl in Hn.
  split; [done|]. intros Hu. by destruct Hn.
Qed.
Next Obligation.
  intros t n i i' Ha. simpl in Ha. destruct (0 <=? n) eqn:E1, (n <? 32) eqn:E2; simpl in Ha; try done.
  destruct (Z.testbit (pending i) n); simpl in Ha; [|done].
  destruct (Z.testbit (mask_of i t) n) eqn:E3; simpl in Ha; [done|].
  destruct (Z.testbit _ t); simpl in Ha; [done|]. injection Ha as <-.
  split_and!; [lia|lia|done|done].
Qed.
Next Obligation.
  intros u m i t. simpl. unfold mask_of. simpl. case_decide as Ht.
  - subst t. by rewrite lookup_insert_eq.
  - by rewrite lookup_insert_ne.
Qed.
Next Obligation. done. Qed.
Next Obligation. done. Qed.
Next Obligation. done. Qed.
Next Obligation. intros c. simpl. lia. Qed.
Next Obligation.
  intros n h. simpl. right. pose proof (is_fresh ({[0]} ∪ h)) as Hf. set_solver.
Qed.
Next Obligation. intros a h Ha. simpl. rewrite decide_True by done. eauto. Qed.

(** A machine with the given variables, all zero, and no lock held. *)
Definition zeroed (l : list loc) : gmap loc Z := list_to_map ((fun x => (x, 0)) <$> l).

Definition array (x : string) (n : nat) : list loc := (fun i => Glob x (Z.of_nat i)) <$> seq 0 n.

(** The variables of the library. *)
Definition lib_vars : list loc := array "thread_semaphore" 32 ++ array "vals" 512.

Definition sim_machine (l : list loc) : machine :=
  Machine _ (zeroed l) 0 ∅ (Ints ∅ ∅ 0) 0 ∅ ∅ [].

Lemma zeroed_lookup l x : x ∈ l -> zeroed l !! x = Some 0.
Proof.
  unfold zeroed. induction l as [|y l IH]; [by rewrite elem_of_nil|].
  rewrite elem_of_cons. cbn [fmap list_fmap list_to_map foldr]. simpl.
  destruct (decide (x = y)) as [->|Hne]; [by rewrite lookup_insert_eq|].
  intros [?|?]; [done|]. rewrite lookup_insert_ne by done. by apply IH.
Qed.

Lemma elem_of_array x n i : 0 <= i < Z.of_nat n -> Glob x i ∈ array x n.
Proof.
  intros Hi. unfold array. apply list_elem_of_fmap. exists (Z.to_nat i). rewrite Z2Nat.id by lia.
  split; [done|]. apply elem_of_seq. lia.
Qed.

Lemma sim_lib l : (forall i, 0 <= i < 32 -> is_Some (memory (sim_machine (lib_vars ++ l)) !! thread_semaphore i)) /\
  (forall i, 0 <= i < 512 -> is_Some (memory (sim_machine (lib_vars ++ l)) !! vals i)).
Proof.
  split; intros i Hi; exists 0; apply zeroed_lookup, elem_of_app; left; apply elem_of_app; [left|right];
    by apply elem_of_array.
Qed.

(** The configuration a schedule leads to, if it meets nothing undefined. *)
Definition run_to (code : Z -> Z -> proc ()) (es : list event) (c : config) : config :=
  match run code es c with Moved c' => c' | _ => c end.

Lemma run_to_reachable code es c : reachable code c (run_to code es c).
Proof.
  unfold run_to. destruct (run code es c) as [c'| |] eqn:E; [by eapply run_reachable|apply reach_here..].
Qed.

(** Threads 0 to 3 in turn, [n] times. *)
Definition round_robin (n : nat) : list event := concat (replicate n [Run 0; Run 1; Run 2; Run 3]).
End SimCpu.
