(* ===== verification/Fairness.v ===== *)
(** Fair schedules and what happens under them.  A schedule is an infinite
    sequence of turns; it is fair to some threads if each of them gets a turn
    again and again.  [eventually G c]: under every fair schedule, the threads
    get from [c] to a configuration in [G], and do nothing undefined on the
    way. *)

From S2P Require Import Prelude Threads.

Open Scope list_scope.
Open Scope Z_scope.

Section fair.
Context `{Cpu} (code : Z -> Z -> proc ()) (threads : gset Z).
Implicit Types (c : config) (sched : nat -> Z) (G : config -> Prop).

Definition fair sched : Prop := forall t, t ∈ threads -> forall n, exists m, (n <= m)%nat /\ sched m = t.

(** The first [n] turns. *)
Definition turns sched (n : nat) : list event := (fun i => Run (sched i)) <$> seq 0 n.

Definition eventually G c : Prop := forall sched, fair sched ->
  exists n c', run code (turns sched n) c = Moved c' /\ G c'.

Lemma run_app es1 es2 c c' : run code es1 c = Moved c' -> run code (es1 ++ es2) c = run code es2 c'.
Proof.
  revert c. induction es1 as [|e es1 IH]; intros c; cbn [run app]; [by intros [= ->]|].
  destruct (step code e c) as [c1| |]; [by apply IH|by apply IH|done].
Qed.

Definition later sched (n : nat) : nat -> Z := fun k => sched (n + k)%nat.

Lemma fair_later sched n : fair sched -> fair (later sched n).
Proof.
  intros Hf t Ht k. destruct (Hf t Ht (n + k)%nat) as (m & Hm & Hs). exists (m - n)%nat. split; [lia|].
  unfold later. by replace (n + (m - n))%nat with m by lia.
Qed.

Lemma turns_add sched n m : turns sched (n + m) = turns sched n ++ turns (later sched n) m.
Proof.
  unfold turns. rewrite seq_app, fmap_app. f_equal. cbn [Nat.add].
  apply list_eq. intros i. rewrite !list_lookup_fmap. destruct (decide (i < m)%nat).
  - by rewrite !lookup_seq_lt by done.
  - by rewrite !lookup_seq_ge by lia.
Qed.

Lemma eventually_now G c : G c -> eventually G c.
Proof. intros Hg sched _. by exists O, c. Qed.

Lemma eventually_bind G G' c : eventually G c -> (forall c, G c -> eventually G' c) -> eventually G' c.
Proof.
  intros Hc Hg sched Hf. destruct (Hc sched Hf) as (n & c1 & Hr & H1).
  destruct (Hg c1 H1 _ (fair_later sched n Hf)) as (m & c2 & Hr' & H2).
  exists (n + m)%nat, c2. split; [|done]. by rewrite turns_add, (run_app _ _ _ _ Hr).
Qed.

(** The rule of the helpful thread.  [R n h c]: at distance [n] from the goal
    thread [h] is the one whose turn brings it closer; another thread's turn
    may bring it closer too, or changes nothing that counts. *)
Lemma eventually_helper (R : nat -> Z -> config -> Prop) G :
  (forall n h c, R n h c -> G c \/ h ∈ threads /\ forall t,
    match step code (Run t) c with
    | Moved c' => G c' \/ (exists n' h', (n' < n)%nat /\ R n' h' c') \/ t <> h /\ R n h c'
    | Blocked => t <> h
    | Wrong => False
    end) ->
  forall n h c, R n h c -> eventually G c.
Proof.
  intros HR n. induction (lt_wf n) as [n _ IH]. intros h c Hc sched Hf.
  destruct (HR n h c Hc) as [Hg|[Hh _]]; [by apply eventually_now|].
  destruct (Hf h Hh O) as (m & _ & Hm). revert sched c Hc Hf Hm.
  induction m as [|m IHm]; intros sched c Hc Hf Hm.
  - destruct (HR n h c Hc) as [Hg|[_ Ht]]; [by apply eventually_now|]. specialize (Ht h).
    destruct (step code (Run h) c) as [c'| |] eqn:E; [|done|done].
    assert (run code (turns sched 1) c = Moved c') as Hr by (cbn; by rewrite Hm, E).
    destruct Ht as [Hg|[(n' & h' & Hn & Hc')|[? _]]]; [by exists 1%nat, c'| |done].
    destruct (IH n' Hn h' c' Hc' _ (fair_later sched 1 Hf)) as (k & c'' & Hk & Hg).
    exists (1 + k)%nat, c''. split; [|done]. by rewrite turns_add, (run_app _ _ _ _ Hr).
  - destruct (HR n h c Hc) as [Hg|[_ Ht]]; [by apply eventually_now|]. specialize (Ht (sched O)).
    assert (forall c', run code (turns sched 1) c = Moved c' ->
      (exists k c'', run code (turns (later sched 1) k) c' = Moved c'' /\ G c'') ->
      exists n c', run code (turns sched n) c = Moved c' /\ G c') as Hgo.
    { intros c' Hr (k & c'' & Hk & Hg). exists (1 + k)%nat, c''. split; [|done]. by rewrite turns_add, (run_app _ _ _ _ Hr). }
    destruct (step code (Run (sched O)) c) as [c'| |] eqn:E; [| |done].
    + assert (run code (turns sched 1) c = Moved c') as Hr by (cbn; by rewrite E). apply (Hgo c' Hr).
      destruct Ht as [Hg|[(n' & h' & Hn & Hc')|[_ Hc']]].
      * by apply eventually_now; [done|apply fair_later].
      * by apply (IH n' Hn h' c' Hc'), fair_later.
      * by apply IHm; [done|apply fair_later|].
    + assert (run code (turns sched 1) c = Moved c) as Hr by (cbn; by rewrite E). apply (Hgo c Hr).
      by apply IHm; [done|apply fair_later|].
Qed.

(** A turn of the only thread that can move. *)
Lemma eventually_step h G c c' : h ∈ threads -> step code (Run h) c = Moved c' ->
  (forall t, t <> h -> step code (Run t) c = Blocked) -> eventually G c' -> eventually G c.
Proof.
  intros Hh Hs Hb Hg. apply (eventually_bind (fun c1 => c1 = c')); [|by intros ? ->].
  apply (eventually_helper (fun n h' c1 => h' = h /\ c1 = c) (fun c1 => c1 = c')) with (n := O) (h := h); [|done].
  intros n' h' c1 [-> ->]. right. split; [done|]. intros t. destruct (decide (t = h)) as [->|Hne].
  - rewrite Hs. by left.
  - by rewrite Hb.
Qed.
End fair.
