(* ===== verification/TwoThreads.v ===== *)
(** A thread that starts one other: the steps of the two of them, and of the
    one when it is alone. *)

From S2P Require Import Prelude Threads ThreadLogic Fairness.

Open Scope list_scope.
Open Scope Z_scope.

(** A thread other than the main one. *)
Class Worker (tid : Z) := worker_ne : tid <> 0.

Section pair.
Context `{Cpu} {code : Z -> Z -> proc ()} {tid : Z} `{!Worker tid}.
Implicit Types (σ : machine) (p q : proc ()).

Definition two σ p q : config := Config _ σ (<[0 := Thread p None]> {[tid := Thread q None]}) None.

Lemma two_main σ p q : pool (two σ p q) !! 0 = Some (Thread p None).
Proof. apply lookup_insert_eq. Qed.

Lemma two_worker σ p q : pool (two σ p q) !! tid = Some (Thread q None).
Proof. cbn [pool two]. rewrite lookup_insert_ne by (by intros ?; apply worker_ne). apply lookup_singleton_eq. Qed.

Lemma two_other σ p q t : t <> 0 -> t <> tid -> step code (Run t) (two σ p q) = Blocked.
Proof.
  intros H0 Ht. unfold step. cbn [halted pool two]. rewrite lookup_insert_ne, lookup_singleton_ne by done. done.
Qed.

Lemma two_set_main σ p q p' : set_thread 0 (Thread p' None) (two σ p q) = two σ p' q.
Proof. unfold two, set_thread, with_pool. cbn. by rewrite insert_insert_eq. Qed.

Lemma two_set_worker σ p q q' : set_thread tid (Thread q' None) (two σ p q) = two σ p q'.
Proof.
  unfold two, set_thread, with_pool. cbn [mach pool halted]. f_equal.
  rewrite insert_insert_ne by (by intros ?; apply worker_ne). by rewrite insert_singleton_eq.
Qed.

(** A turn of one of the two that changes the machine only. *)
Lemma main_turn σ p q p' σ' : step_proc code 0 p (two σ p q) = Moved (p', two σ' p q) ->
  step code (Run 0) (two σ p q) = Moved (two σ' p' q).
Proof.
  intros Hs. unfold step. change (halted (two σ p q)) with (@None Z). rewrite two_main. rewrite Hs. cbn [mach pool halted].
  by rewrite two_set_main.
Qed.

Lemma worker_turn σ p q q' σ' : step_proc code tid q (two σ p q) = Moved (q', two σ' p q) ->
  step code (Run tid) (two σ p q) = Moved (two σ' p q').
Proof.
  intros Hs. unfold step. change (halted (two σ p q)) with (@None Z). rewrite two_worker. rewrite Hs.
  by rewrite two_set_worker.
Qed.

Lemma main_do σ i k q r σ' : exec 0 i σ = Next r σ' -> step code (Run 0) (two σ (Do i k) q) = Moved (two σ' (k r) q).
Proof. intros He. apply main_turn. cbn [step_proc]. cbn [mach two]. by rewrite He. Qed.

Lemma worker_do σ i k p r σ' : exec tid i σ = Next r σ' -> step code (Run tid) (two σ p (Do i k)) = Moved (two σ' p (k r)).
Proof. intros He. apply worker_turn. cbn [step_proc]. cbn [mach two]. by rewrite He. Qed.

Definition one σ p : config := Config _ σ {[0 := Thread p None]} None.

Lemma one_other σ p t : t <> 0 -> step code (Run t) (one σ p) = Blocked.
Proof. intros Ht. unfold step. cbn [halted pool one]. by rewrite lookup_singleton_ne by done. Qed.

Lemma one_turn σ p p' c : step_proc code 0 p (one σ p) = Moved (p', c) ->
  step code (Run 0) (one σ p) = Moved (set_thread 0 (Thread p' None) c).
Proof.
  intros Hs. unfold step. change (halted (one σ p)) with (@None Z). change (pool (one σ p)) with ({[0 := Thread p None]} : gmap Z thread).
  rewrite lookup_singleton_eq. by rewrite Hs.
Qed.

Lemma one_do σ i k r σ' : exec 0 i σ = Next r σ' -> step code (Run 0) (one σ (Do i k)) = Moved (one σ' (k r)).
Proof.
  intros He. rewrite (one_turn σ _ (k r) (with_mach σ' (one σ (Do i k)))).
  - unfold set_thread, one, with_pool, with_mach. cbn [mach pool halted]. by rewrite insert_singleton_eq.
  - cbn [step_proc]. cbn [mach one]. by rewrite He.
Qed.

Lemma one_create σ f a k : step code (Run 0) (one σ (Create tid f a k)) = Moved (two (unmask tid σ) k (code f a)).
Proof.
  rewrite (one_turn σ _ k (start code tid f a (one σ (Create tid f a k)))).
  - unfold set_thread, start, two, with_pool, with_mach, unmask. cbn [mach pool halted one]. do 2 f_equal.
    rewrite insert_insert_ne, insert_singleton_eq by (by intros ?; apply worker_ne).
    unfold singletonM, map_singleton. by rewrite insert_insert_ne by apply worker_ne.
  - cbn [step_proc]. unfold Threads.stopped. change (pool (one σ (Create tid f a k))) with ({[0 := Thread (Create tid f a k) None]} : gmap Z thread).
    rewrite lookup_singleton_ne by (by intros ?; apply worker_ne). by rewrite (proj2 (Z.eqb_neq tid 0)) by apply worker_ne.
Qed.

(** Joining the other thread. *)
Lemma join_blocked m σ k q : Z.testbit m tid = true -> finished (Thread q None) = false ->
  step code (Run 0) (two σ (Join m k) q) = Blocked.
Proof.
  intros Hm Hq. unfold step. change (halted (two σ (Join m k) q)) with (@None Z). rewrite two_main.
  cbn [step_proc]. case_decide as Hs; [|done]. exfalso.
  pose proof (Hs tid (Thread q None) (two_worker _ _ _) Hm). congruence.
Qed.

Lemma join_turn m σ k : Z.testbit m tid = true -> Z.testbit m 0 = false ->
  step code (Run 0) (two σ (Join m k) (Ret tt)) = Moved (one σ k).
Proof.
  intros Hm H0. unfold step. change (halted (two σ (Join m k) (Ret tt))) with (@None Z). rewrite two_main.
  cbn [step_proc]. rewrite decide_True by (apply map_Forall_insert_2; [|by apply map_Forall_singleton]; intros; congruence).
  f_equal. unfold set_thread, with_pool, one. cbn [mach halted pool two]. f_equal.
  apply map_eq. intros j. destruct (decide (j = 0)) as [->|Hj]; [by rewrite lookup_insert_eq, lookup_singleton_eq|].
  rewrite lookup_insert_ne, lookup_singleton_ne by done. apply map_lookup_filter_None. right. intros th Hth.
  rewrite lookup_insert_ne in Hth by done. apply lookup_singleton_Some in Hth as [<- _].
  unfold outside. cbn [fst]. congruence.
Qed.

Lemma two_stopped σ p : step code (Run tid) (two σ p (Ret tt)) = Blocked.
Proof. unfold step. change (halted (two σ p (Ret tt))) with (@None Z). by rewrite two_worker. Qed.

(** A turn of the main thread alone. *)
Lemma eventually_turn threads σ p c (G : config -> Prop) : 0 ∈ threads ->
  step code (Run 0) (one σ p) = Moved c -> eventually code threads G c -> eventually code threads G (one σ p).
Proof.
  intros H0 Hs Hc. eapply (eventually_step code threads 0); [done|exact Hs|intros t Ht; by apply one_other|done].
Qed.

(** The other has stopped and the main thread joins it. *)
Lemma eventually_join threads m σ k (G : config -> Prop) : 0 ∈ threads ->
  Z.testbit m tid = true -> Z.testbit m 0 = false ->
  eventually code threads G (one σ k) -> eventually code threads G (two σ (Join m k) (Ret tt)).
Proof.
  intros H0 Hm Hm0 Hc. eapply (eventually_step code threads 0); [done|by apply join_turn| |done].
  intros t Ht. destruct (decide (t = tid)) as [->|Hne]; [apply two_stopped|by apply two_other].
Qed.
End pair.

#[global] Arguments two {_} tid σ p q.
