(* ===== verification/ThreadLive.v ===== *)
(** The thread helpers of src/thread_common.c make progress: a thread started
    with thread_run_blocked waits for its creator, runs and is joined, under
    every fair schedule. *)

From S2P Require Import Prelude Threads ThreadLogic ThreadCommon ThreadSim Fairness TwoThreads.

Open Scope string_scope.
Open Scope list_scope.
Open Scope Z_scope.

(** An instruction that cannot stall and stays within the variables [V]. *)
Definition harmless (V : gset loc) (i : instr) : Prop :=
  match i with
  | Load l | Store l _ | FetchAdd l _ | LoadLocked l | StoreCond l _ => l ∈ V
  | K0lock | Tlblock | Malloc _ | Free _ => False
  | _ => True
  end.

(** A program of at most [n] such instructions. *)
Inductive simple (V : gset loc) : nat -> proc () -> Prop :=
  | simple_ret n : simple V n (Ret tt)
  | simple_do n i k : harmless V i -> (forall r, simple V n (k r)) -> simple V (Datatypes.S n) (Do i k).

Definition plain_loc (l : loc) : Prop :=
  match l with Glob x _ => x <> "thread_semaphore" | Heap _ _ => False end.

Section spin.
Context `{Cpu}.

(** The three states of [while (thread_semaphore[u] != v) pause(); rest]. *)
Definition round (u v : Z) : proc (() + ()) :=
  b ← (x ← load (thread_semaphore u); mret (negb (x =? v)));
  if (b : bool) then pause;; mret (inl tt) else mret (inr tt).
Definition spin_head (u v : Z) (rest : proc ()) : proc () := Loop () () (fun _ => round u v) tt (fun _ => rest).
Definition spin_load (u v : Z) (rest : proc ()) : proc () :=
  pbind (round u v) (fun y => match y with inl s => Loop () () (fun _ => round u v) s (fun _ => rest) | inr _ => rest end).
Definition spin_pause (u v : Z) (rest : proc ()) : proc () := Do Pause (fun _ => spin_head u v rest).

(** How many instructions it is away from leaving, once the semaphore has the
    value. *)
Inductive spinning (u v : Z) (rest : proc ()) : nat -> proc () -> Prop :=
  | spinning_load : spinning u v rest 1 (spin_load u v rest)
  | spinning_head : spinning u v rest 2 (spin_head u v rest)
  | spinning_pause : spinning u v rest 3 (spin_pause u v rest).

Lemma spin_step code t u v rest n p (c : config) x : spinning u v rest n p ->
  memory (mach c) !! thread_semaphore u = Some x ->
  exists p', step_proc code t p c = Moved (p', c) /\
    if x =? v then p' = rest \/ exists n', (n' < n)%nat /\ spinning u v rest n' p'
    else exists n', spinning u v rest n' p'.
Proof.
  intros Hs Hx. assert (forall σ, with_mach σ c = Config _ σ (pool c) (halted c)) as Hc by done.
  destruct Hs; cbn [step_proc spin_load spin_head spin_pause round pbind mbind proc_bind load op exec mret proc_ret].
  - rewrite Hx. rewrite Hc. destruct (Z.eqb_spec x v) as [->|Hne].
    + exists rest. split; [by destruct c|by left].
    + exists (spin_pause u v rest). split; [by destruct c|]. exists 3%nat. constructor.
  - exists (spin_load u v rest). split; [done|]. destruct (x =? v); [right|]; exists 1%nat; [split; [lia|]|]; constructor.
  - exists (spin_head u v rest). rewrite Hc. split; [by destruct c|].
    destruct (x =? v); [right|]; exists 2%nat; [split; [lia|]|]; constructor.
Qed.

Lemma spinning_not_ret u v rest n p : spinning u v rest n p -> finished (Thread p None) = false.
Proof. by intros []. Qed.
End spin.

(** A loop over the threads of a mask that holds one of them. *)
Lemma up_none n i body : (forall j, i <= j < i + Z.of_nat n -> body j = Ret tt) -> up n i body = Ret tt.
Proof.
  revert i. induction n as [|n IH]; intros i Hb; cbn [up]; [done|].
  rewrite Hb by lia. cbn [mbind proc_bind pbind]. apply IH. intros j Hj. apply Hb. lia.
Qed.

Lemma up_one n i u body : i <= u < i + Z.of_nat n ->
  (forall j, i <= j < i + Z.of_nat n -> j <> u -> body j = Ret tt) ->
  up n i body = pbind (body u) (fun _ => Ret tt).
Proof.
  revert i. induction n as [|n IH]; intros i Hu Hb; [lia|]. cbn [up].
  destruct (decide (i = u)) as [->|Hne].
  - cbn [mbind proc_bind]. rewrite up_none; [done|]. intros j Hj. apply Hb; lia.
  - rewrite (Hb i) by lia. cbn [mbind proc_bind pbind]. apply IH; [lia|]. intros j Hj Hj'. apply Hb; lia.
Qed.

Lemma in_mask_single u j : 0 <= u < 32 -> 0 <= j < 32 -> in_mask (Z.shiftl 1 u) j = (j =? u).
Proof.
  intros Hu Hj. unfold in_mask, truth. destruct (Z.eqb_spec j u) as [->|Hne].
  - rewrite Z.land_diag. destruct (Z.eqb_spec (Z.shiftl 1 u) 0) as [E|]; [|done].
    rewrite Z.shiftl_1_l in E. pose proof (Z.pow_pos_nonneg 2 u). lia.
  - replace (Z.land _ _) with 0; [done|]. symmetry. apply Z.bits_inj'. intros i Hi.
    rewrite Z.land_spec, !Z.shiftl_spec, Z.bits_0 by lia.
    destruct (decide (i = u)) as [->|].
    + destruct (decide (u < j)); [rewrite (Z.testbit_neg_r 1 (u - j)), andb_false_r by lia; done|].
      rewrite (testbit_in_u 1 1 (u - j)), andb_false_r by (done || lia). done.
    + destruct (decide (i < u)); [rewrite (Z.testbit_neg_r 1 (i - u)) by lia; done|].
      rewrite (testbit_in_u 1 1 (i - u)) by (done || lia). done.
Qed.

Section live.
Context `{HL : CpuLaws} (client : Z -> Z -> proc ()) (func tid param : Z) (V : gset loc) (len : nat).
Context (Htid : 0 < tid < 32) (Hfunc : func <> thread_wrapper_fn).
Context (Hsimple : simple V len (client func param)) (HV : forall l, l ∈ V -> plain_loc l).
Implicit Types (σ : machine) (p q : proc ()).

Abbreviation code := (lib_code client).
Abbreviation both := ({[0; tid]} : gset Z).
Abbreviation eventually := (eventually code both).
Abbreviation sem := (thread_semaphore tid).
Abbreviation mask := (Z.shiftl 1 tid).

Abbreviation two := (TwoThreads.two tid).

#[local] Instance worker_tid : Worker tid.
Proof. unfold Worker. lia. Qed.

Lemma main_spin σ v rest n p q x : spinning tid v rest n p -> memory σ !! sem = Some x -> exists p',
  step code (Run 0) (two σ p q) = Moved (two σ p' q) /\
  if x =? v then p' = rest \/ exists n', (n' < n)%nat /\ spinning tid v rest n' p' else exists n', spinning tid v rest n' p'.
Proof.
  intros Hs Hx. destruct (spin_step code 0 _ _ _ _ _ (two σ p q) x Hs Hx) as (p' & Hp & Hc).
  exists p'. split; [by apply main_turn|done].
Qed.

Lemma worker_spin σ v rest n p q x : spinning tid v rest n q -> memory σ !! sem = Some x -> exists q',
  step code (Run tid) (two σ p q) = Moved (two σ p q') /\
  if x =? v then q' = rest \/ exists n', (n' < n)%nat /\ spinning tid v rest n' q' else exists n', spinning tid v rest n' q'.
Proof.
  intros Hs Hx. destruct (spin_step code tid _ _ _ _ _ (two σ p q) x Hs Hx) as (q' & Hq & Hc).
  exists q'. split; [by apply worker_turn|done].
Qed.

(** *** The two programs *)

Definition main_join : proc () := Join mask (Ret tt).
Definition main_go : proc () := Do (Store sem THREAD_SEMAPHORE_GO) (fun _ => main_join).

Definition worker_end (a : Z) : proc () := Do (Free a) (fun _ => Ret tt).
Definition worker_run (a : Z) : proc () :=
  Do (Load (work_func a)) (fun f => Do (Load (work_param a)) (fun b => Call f b (worker_end a))).

Definition main_wait : proc () := pbind (start_waiting_threads mask) (fun _ => thread_join mask).

Lemma mask_without_main : Z.land mask (unot 32 (Z.shiftl 1 0)) = mask.
Proof.
  apply Z.bits_inj'. intros i Hi. unfold unot. autorewrite with bits.
  destruct (decide (i = tid)) as [->|Hne].
  - rewrite Z.sub_diag. change (Z.testbit 1 0) with true. cbn [andb].
    rewrite Z.sub_0_r, (testbit_in_u 1 1 tid) by (done || lia). split_cmp; by simpl_bool.
  - assert (Z.testbit 1 (i - tid) = false) as ->; [|by rewrite andb_false_r].
    destruct (decide (i < tid)); [by apply Z.testbit_neg_r; lia|]. apply (testbit_in_u 1); [done|lia].
Qed.

Lemma wait_loop state : for_range 0 32 (fun u =>
    if in_mask (Z.land mask (unot 32 (Z.shiftl 1 0))) u then
      while (v ← load (thread_semaphore u); mret (negb (v =? state))) pause
    else mret tt) =
  pbind (while (v ← load sem; mret (negb (v =? state))) pause) (fun _ => Ret tt).
Proof.
  rewrite mask_without_main. unfold for_range. rewrite (up_one _ _ tid).
  - by rewrite in_mask_single, Z.eqb_refl by lia.
  - lia.
  - intros j Hj Hne. rewrite in_mask_single by lia. by rewrite (proj2 (Z.eqb_neq j tid)).
Qed.

Lemma set_loop state : set_semaphore_state mask state = pbind (store sem state) (fun _ => Ret tt).
Proof.
  unfold set_semaphore_state, for_range. rewrite (up_one _ _ tid).
  - by rewrite in_mask_single, Z.eqb_refl by lia.
  - lia.
  - intros j Hj Hne. rewrite in_mask_single by lia. by rewrite (proj2 (Z.eqb_neq j tid)).
Qed.

(** The wait for the new thread, once its own number is known. *)
Lemma main_waits : pbind (pbind (for_range 0 32 (fun u =>
    if in_mask (Z.land mask (unot 32 (Z.shiftl 1 0))) u then
      while (v ← load (thread_semaphore u); mret (negb (v =? THREAD_SEMAPHORE_ON_WAIT))) pause
    else mret tt)) (fun _ => set_semaphore_state mask THREAD_SEMAPHORE_GO)) (fun _ => thread_join mask) =
  spin_head tid THREAD_SEMAPHORE_ON_WAIT main_go.
Proof. rewrite wait_loop, set_loop. reflexivity. Qed.

Lemma main_wait_turn σ q : step code (Run 0) (two σ main_wait q) =
  Moved (two σ (spin_head tid THREAD_SEMAPHORE_ON_WAIT main_go) q).
Proof. rewrite <- main_waits. apply main_turn. reflexivity. Qed.

(** The worker up to its wait. *)
Definition worker_first (a : Z) : proc () := thread_wrapper a.
Definition worker_report (a : Z) : proc () :=
  Do (Store sem THREAD_SEMAPHORE_ON_WAIT) (fun _ => spin_head tid THREAD_SEMAPHORE_GO (worker_run a)).

Lemma worker_first_turn σ p a : step code (Run tid) (two σ p (worker_first a)) = Moved (two σ p (worker_report a)).
Proof. apply worker_turn. reflexivity. Qed.

(** *** What the machine looks like while they run *)

Record ready σ (a : Z) : Prop := {
  ready_vars l : l ∈ V -> is_Some (memory σ !! l);
  ready_work : memory σ !! work_func a = Some func /\ memory σ !! work_param a = Some param;
  ready_block : a ∈ live (heap σ)
}.

Lemma sem_not_var v t σ l : l ∈ V -> memory (write t sem v σ) !! l = memory σ !! l.
Proof. intros Hl. apply memory_write_ne. intros ->. exact (HV _ Hl eq_refl). Qed.

Lemma ready_sem t v σ a : ready σ a -> ready (write t sem v σ) a.
Proof. intros [H1 H2 H3]. split; [|by rewrite !memory_write_ne by done|done]. intros l Hl. rewrite sem_not_var by done. by apply H1. Qed.

Lemma store_sem t v σ x : memory σ !! sem = Some x -> exec t (Store sem v) σ = Next 0 (write t sem v σ).
Proof. intros Hx. cbn [exec]. by rewrite Hx. Qed.

(** First the worker says that it waits. *)
Definition main_waiting (p : proc ()) : Prop := p = main_wait \/ exists k, spinning tid THREAD_SEMAPHORE_ON_WAIT main_go k p.

Definition phase1 (a : Z) (n : nat) (h : Z) (c : config) : Prop := h = tid /\ exists σ p q,
  c = two σ p q /\ ready σ a /\ memory σ !! sem = Some THREAD_SEMAPHORE_OFF /\ main_waiting p /\
  (n = 1%nat /\ q = worker_first a \/ n = 0%nat /\ q = worker_report a).

Definition phase2 (a : Z) (n : nat) (h : Z) (c : config) : Prop := h = 0 /\ exists σ p q k,
  c = two σ p q /\ ready σ a /\ memory σ !! sem = Some THREAD_SEMAPHORE_ON_WAIT /\
  spinning tid THREAD_SEMAPHORE_GO (worker_run a) k q /\
  (n = 4%nat /\ p = main_wait \/ spinning tid THREAD_SEMAPHORE_ON_WAIT main_go n p \/ n = 0%nat /\ p = main_go).

Lemma main_waiting_turn σ p q : main_waiting p -> memory σ !! sem = Some THREAD_SEMAPHORE_OFF ->
  exists p', step code (Run 0) (two σ p q) = Moved (two σ p' q) /\ main_waiting p'.
Proof.
  intros [->|[k Hk]] Hs.
  - eexists. split; [apply main_wait_turn|]. right. eexists. constructor.
  - destruct (main_spin σ _ _ _ _ q _ Hk Hs) as (p' & Hp & [n' Hn]). exists p'. split; [done|]. right. by exists n'.
Qed.

Lemma phase1_ends a n h c : phase1 a n h c -> eventually (fun c => exists n h, phase2 a n h c) c.
Proof.
  apply eventually_helper. clear n h c. intros n h c (-> & σ & p & q & -> & Hr & Hs & Hp & Hq).
  right. split; [set_solver|]. intros t. destruct (decide (t = tid)) as [->|Ht].
  - destruct Hq as [[-> ->]|[-> ->]].
    + rewrite worker_first_turn. right. left. exists O, tid. split; [lia|]. split; [done|]. naive_solver.
    + unfold worker_report. rewrite (worker_do σ _ _ p 0 (write tid sem THREAD_SEMAPHORE_ON_WAIT σ)) by (by eapply store_sem).
      left. assert (exists n, n = 4%nat /\ p = main_wait \/ spinning tid THREAD_SEMAPHORE_ON_WAIT main_go n p \/ n = 0%nat /\ p = main_go)
        as [n Hn] by (destruct Hp as [->|[k Hk]]; eauto).
      exists n, 0. split; [done|]. eexists _, p, _, _. split_and!; [reflexivity|by apply ready_sem|apply memory_write_eq|constructor|done].
  - destruct (decide (t = 0)) as [->|Ht0]; [|by rewrite two_other].
    destruct (main_waiting_turn σ p q Hp Hs) as (p' & -> & Hp'). right. right. split; [lia|]. split; [done|]. naive_solver.
Qed.

(** Then the creator lets it go. *)
Definition running (a : Z) (n : nat) σ q : Prop :=
  ready σ a /\ memory σ !! sem = Some THREAD_SEMAPHORE_GO /\
    ((exists k, spinning tid THREAD_SEMAPHORE_GO (worker_run a) k q /\ n = (len + 6 + k)%nat) \/
     q = worker_run a /\ n = (len + 6)%nat \/
     q = Do (Load (work_param a)) (fun b => Call func b (worker_end a)) /\ n = (len + 5)%nat \/
     q = Call func param (worker_end a) /\ n = (len + 4)%nat) \/
  (forall l, l ∈ V -> is_Some (memory σ !! l)) /\ a ∈ live (heap σ) /\
    exists b k, simple V k b /\ q = pbind b (fun _ => worker_end a) /\ n = Datatypes.S k.

Definition phase3 (a : Z) (n : nat) (h : Z) (c : config) : Prop := h = tid /\ exists σ q,
  c = two σ main_join q /\ running a n σ q.

Lemma phase2_ends a n h c : phase2 a n h c -> eventually (fun c => exists n h, phase3 a n h c) c.
Proof.
  apply eventually_helper. clear n h c. intros n h c (-> & σ & p & q & k & -> & Hr & Hs & Hq & Hp).
  right. split; [set_solver|]. intros t. destruct (decide (t = 0)) as [->|Ht].
  - destruct Hp as [[-> ->]|[Hp|[-> ->]]].
    + rewrite main_wait_turn. right. left. exists 2%nat, 0. split; [lia|]. split; [done|].
      eexists _, _, q, k. split_and!; try done. right. left. constructor.
    + destruct (main_spin σ _ _ _ _ q _ Hp Hs) as (p' & -> & Hp'). rewrite Z.eqb_refl in Hp'. right. left.
      destruct Hp' as [->|(n' & Hn & Hp')].
      * exists O, 0. split; [destruct Hp; lia|]. split; [done|]. eexists _, _, q, k. split_and!; try done. right. by right.
      * exists n', 0. split; [done|]. split; [done|]. eexists _, _, q, k. split_and!; try done. right. by left.
    + unfold main_go. rewrite (main_do σ _ _ q 0 (write 0 sem THREAD_SEMAPHORE_GO σ)) by (by eapply store_sem).
      left. exists (len + 6 + k)%nat, tid. split; [done|]. eexists _, q. split; [reflexivity|].
      left. split_and!; [by apply ready_sem|apply memory_write_eq|]. left. by exists k.
  - destruct (decide (t = tid)) as [->|Ht0]; [|by rewrite two_other].
    destruct (worker_spin σ _ _ _ p _ _ Hq Hs) as (q' & -> & [k' Hk]).
    right. right. split; [done|]. split; [done|]. eexists _, p, q', k'. done.
Qed.

Lemma running_not_finished a n σ q : running a n σ q -> finished (Thread q None) = false.
Proof.
  intros [(_ & _ & [(k & Hk & _)|[[-> _]|[[-> _]|[-> _]]]])|(_ & _ & b & k & Hb & -> & _)]; try done.
  - by eapply spinning_not_ret.
  - by destruct Hb.
Qed.

(** An instruction of the worker's function. *)
Lemma harmless_exec σ i : harmless V i -> (forall l, l ∈ V -> is_Some (memory σ !! l)) -> exists r σ',
  exec tid i σ = Next r σ' /\ heap σ' = heap σ /\ forall l, l ∈ V -> is_Some (memory σ' !! l).
Proof.
  intros Hi Hm. destruct i; cbn [harmless] in Hi; try done; cbn [exec];
    try (destruct (Hm _ Hi) as [x ->]; eexists _, _; split_and!; [reflexivity|done|];
      intros l' Hl'; try (by apply memory_write_is_Some, Hm); by apply Hm);
    try (eexists _, _; split_and!; [reflexivity|done|done]).
  - destruct (Hm _ Hi) as [x ->]. destruct (store_cond _ _ _) as [ok r']. eexists _, _. split_and!; [reflexivity|done|].
    intros l' Hl'. destruct ok; [|by apply Hm]. apply lookup_insert_is_Some'. right. by apply Hm.
  - destruct (read_clock _) as [v c]. eexists _, _. split_and!; [reflexivity|done|done].
Qed.

Lemma free_turn σ p a : a ∈ live (heap σ) -> exists σ', step code (Run tid) (two σ p (worker_end a)) = Moved (two σ' p (Ret tt)).
Proof.
  intros Ha. destruct (free_live a (heap σ) Ha) as (h & Hf & _). eexists.
  unfold worker_end. apply (worker_do σ (Free a) (fun _ => Ret tt) p 0). cbn [exec]. by rewrite Hf.
Qed.

(** Last it runs its function. *)
Definition stopped_worker (c : config) : Prop := exists σ, c = two σ main_join (Ret tt).

Lemma mask_tid : Z.testbit mask tid = true.
Proof. by rewrite Z.shiftl_spec, Z.sub_diag by lia. Qed.

Lemma running_turn a n σ q : running a n σ q -> exists σ' q', step code (Run tid) (two σ main_join q) = Moved (two σ' main_join q') /\
  (q' = Ret tt \/ exists n', (n' < n)%nat /\ running a n' σ' q').
Proof.
  intros [(Hr & Hs & Hq)|(Hm & Ha & b & k & Hb & -> & ->)].
  - destruct (ready_work _ _ Hr) as [Hwf Hwp]. destruct Hq as [(k & Hk & ->)|[[-> ->]|[[-> ->]|[-> ->]]]].
    + destruct (worker_spin σ _ _ _ main_join _ _ Hk Hs) as (q' & Hq' & Hc). rewrite Z.eqb_refl in Hc.
      exists σ, q'. split; [done|]. right. destruct Hc as [->|(n' & Hn & Hq)].
      * exists (len + 6)%nat. split; [destruct Hk; lia|]. left. split_and!; [done..|]. right. by left.
      * exists (len + 6 + n')%nat. split; [lia|]. left. split_and!; [done..|]. left. eauto.
    + eexists σ, _. split; [apply worker_do; cbn [exec]; by rewrite Hwf|]. right.
      exists (len + 5)%nat. split; [lia|]. left. split_and!; [done..|]. right. right. by left.
    + eexists σ, _. split; [apply worker_do; cbn [exec]; by rewrite Hwp|]. right.
      exists (len + 4)%nat. split; [lia|]. left. split_and!; [done..|]. right. right. by right.
    + eexists σ, _. split; [by apply worker_turn|]. right. exists (Datatypes.S len). split; [lia|]. right.
      split_and!; [apply Hr|apply Hr|]. exists (client func param), len. split_and!; [done| |done].
      unfold lib_code. by rewrite (proj2 (Z.eqb_neq func thread_wrapper_fn)).
  - destruct Hb as [n|n i f Hi Hf]; cbn [pbind].
    + destruct (free_turn σ main_join a Ha) as [σ' Hf]. exists σ', (Ret tt). split; [done|by left].
    + destruct (harmless_exec σ i Hi Hm) as (r & σ' & He & Hh & Hm').
      eexists σ', _. split; [by apply worker_do|]. right. exists (Datatypes.S n). split; [lia|]. right.
      rewrite Hh. split_and!; [done..|]. exists (f r), n. split_and!; [apply Hf|done|done].
Qed.

Lemma phase3_ends a n h c : phase3 a n h c -> eventually stopped_worker c.
Proof.
  apply eventually_helper. clear n h c. intros n h c (-> & σ & q & -> & Hq).
  right. split; [set_solver|]. intros t. destruct (decide (t = tid)) as [->|Ht].
  - destruct (running_turn _ _ _ _ Hq) as (σ' & q' & -> & [->|(n' & Hn & Hq')]); [left; by eexists|].
    right. left. exists n', tid. split; [done|]. split; [done|]. by eexists _, _.
  - destruct (decide (t = 0)) as [->|Ht0]; [|by rewrite two_other].
    unfold main_join. rewrite join_blocked by (apply mask_tid || by eapply running_not_finished). lia.
Qed.

(** *** The creator alone *)

(** The creator is done, or it could not allocate the work. *)
Definition completed (c : config) : Prop :=
  halted c = None /\ pool c = {[0 := Thread (Ret tt) None]} \/ halted c = Some 1 /\ out_of_memory.

Lemma stopped_worker_ends c : stopped_worker c -> eventually completed c.
Proof.
  intros [σ ->]. apply eventually_join; [set_solver|apply mask_tid|by rewrite Z.shiftl_spec, Z.testbit_neg_r by lia|].
  apply eventually_now. by left.
Qed.

Lemma phase1_completes a n h c : phase1 a n h c -> eventually completed c.
Proof.
  intros Hc. eapply eventually_bind; [by eapply phase1_ends|]. intros c2 (n2 & h2 & H2).
  eapply eventually_bind; [by eapply phase2_ends|]. intros c3 (n3 & h3 & H3).
  eapply eventually_bind; [by eapply phase3_ends|]. apply stopped_worker_ends.
Qed.

Lemma store_turn σ l v k G : is_Some (memory σ !! l) ->
  eventually G (one (write 0 l v σ) (k 0)) -> eventually G (one σ (Do (Store l v) k)).
Proof. intros [x Hx] Hk. eapply eventually_turn; [set_solver| |exact Hk]. apply one_do. cbn [exec]. by rewrite Hx. Qed.

(** With the work allocated. *)
Lemma creates σ a : (forall l, l ∈ V -> is_Some (memory σ !! l)) -> is_Some (memory σ !! sem) ->
  is_Some (memory σ !! work_param a) -> is_Some (memory σ !! work_func a) -> a ∈ live (heap σ) ->
  eventually completed (one σ (Do (Store (work_param a) param) (fun _ => Do (Store (work_func a) func) (fun _ =>
    Do (Store sem THREAD_SEMAPHORE_OFF) (fun _ => Create tid thread_wrapper_fn a main_wait))))).
Proof.
  intros Hm Hs Hp Hf Ha.
  apply store_turn; [done|]. apply store_turn; [by apply memory_write_is_Some|].
  apply store_turn; [by apply memory_write_is_Some, memory_write_is_Some|].
  eapply eventually_turn; [set_solver|apply one_create|]. change (lib_code client thread_wrapper_fn a) with (worker_first a).
  apply (phase1_completes a 1 tid). split; [done|]. eexists _, main_wait, (worker_first a). split_and!; [reflexivity| | |by left|by left].
  - split; [|split|].
    + intros l Hl. apply memory_write_is_Some, memory_write_is_Some, memory_write_is_Some, Hm, Hl.
    + cbn [memory unmask with_interrupts]. by rewrite memory_write_ne, memory_write_eq.
    + cbn [memory unmask with_interrupts]. rewrite memory_write_ne, memory_write_ne by done. by rewrite memory_write_eq.
    + done.
  - apply memory_write_eq.
Qed.

Lemma thread_run_blocked_live σ : (forall l, l ∈ V -> is_Some (memory σ !! l)) -> is_Some (memory σ !! sem) ->
  eventually completed (boot (thread_run_blocked func tid param) σ).
Proof.
  intros Hm Hs. change (boot (thread_run_blocked func tid param) σ) with (one σ (thread_run_blocked func tid param)).
  pose proof (malloc_live 8 (heap σ)) as Hl.
  destruct (malloc 8 (heap σ)) as [a h] eqn:Ea.
  set (σ1 := with_heap h (with_memory (if a =? 0 then memory σ else heap_cells 2 a 0 (memory σ)) σ)).
  set (body a := pbind (pbind (pbind (assert (truth a)) (fun _ => store (work_param a) param;; store (work_func a) func;;
    store sem THREAD_SEMAPHORE_OFF;; Create tid thread_wrapper_fn a (mret tt)))
      (fun _ => start_waiting_threads mask)) (fun _ => thread_join mask)).
  apply (eventually_turn _ σ _ (one σ1 (body a))); [set_solver| |].
  { change (thread_run_blocked func tid param) with (Do (Malloc 8) body). apply one_do. cbn [exec]. by rewrite Ea. }
  destruct Hl as [[-> Hh]|(Hn & Hn' & Hh)].
  - change (body 0) with (Exit 1 : proc ()). eapply eventually_turn; [set_solver|by apply one_turn|].
    apply eventually_now. right. split; [done|]. exists (heap σ). by rewrite Ea.
  - assert (truth a = true) as Ht by (unfold truth; by rewrite (proj2 (Z.eqb_neq a 0))).
    unfold body. rewrite Ht. apply (creates σ1 a); cbn [memory heap σ1 with_heap with_memory];
      rewrite ?(proj2 (Z.eqb_neq a 0)) by done; unfold work_param, work_func; rewrite ?heap_cells_lookup.
    + intros l Hl. rewrite heap_cells_lookup. pose proof (HV l Hl). destruct l; [by apply Hm|done].
    + done.
    + by rewrite decide_True by lia.
    + by rewrite decide_True by lia.
    + rewrite Hh. set_solver.
Qed.
End live.


(* ------------------------------------------------------------------ *)
(** ** On the simulated processor *)

Import SimCpu.

(** A function that writes its argument twice as large. *)
Definition double (f a : Z) : proc () := store (var "x") a;; v ← load (var "x"); store (var "x") (v + a).

Definition live_machine : machine := sim_machine (lib_vars ++ [var "x"]).

Definition alternate (n : nat) : Z := if Nat.even n then 0 else 5.

Lemma alternate_fair t : t = 0 \/ t = 5 -> forall n, exists m, (n <= m)%nat /\ alternate m = t.
Proof.
  intros Ht n. destruct (Nat.even n) eqn:E; destruct Ht as [-> | ->].
  - exists n. unfold alternate. by rewrite E.
  - exists (Datatypes.S n). unfold alternate. rewrite Nat.even_succ, <- Nat.negb_even, E. split; [lia|done].
  - exists (Datatypes.S n). unfold alternate. rewrite Nat.even_succ, <- Nat.negb_even, E. split; [lia|done].
  - exists n. unfold alternate. by rewrite E.
Qed.

Lemma double_simple f a : simple {[var "x"]} 3 (double f a).
Proof.
  unfold double. apply simple_do; [cbn; set_solver|]. intros _. apply simple_do; [cbn; set_solver|]. intros v.
  apply simple_do; [cbn; set_solver|]. intros _. apply simple_ret.
Qed.

Lemma live_vars : (forall l, l ∈ ({[var "x"]} : gset loc) -> plain_loc l /\ is_Some (memory live_machine !! l)) /\
  is_Some (memory live_machine !! thread_semaphore 5).
Proof.
  split; [|apply (proj1 (sim_lib [var "x"])); lia].
  intros l ->%elem_of_singleton. split; [done|]. exists 0. apply zeroed_lookup, elem_of_app. right. by left.
Qed.


(** After 60 turns of this schedule the thread has run and is joined. *)
Example live_run :
  match run (lib_code double) (turns alternate 60) (boot (thread_run_blocked 7 5 21) live_machine) with
  | Moved c => (memory (mach c) !! var "x", size (pool c))
  | _ => (None, O)
  end = (Some 42, 1%nat).
Proof. vm_compute. reflexivity. Qed.
