(* ===== verification/LockTests.v ===== *)
(** The tests of the lock instructions: src/k0lock.c and src/tlblock.c, whose
    threads take a hardware lock and release it once too often, never
    deadlock; src/k0locklock.c and src/tlblocklock.c, which take a lock twice,
    never come back. *)

From S2P Require Import Prelude Threads ThreadLogic ThreadCommon ThreadSim Fairness.

Open Scope string_scope.
Open Scope list_scope.
Open Scope Z_scope.

Definition k0lock : proc () := exec_ K0lock.
Definition k0unlock : proc () := exec_ K0unlock.
Definition tlblock : proc () := exec_ Tlblock.
Definition tlbunlock : proc () := exec_ Tlbunlock.

Definition COMPUTE_THREADS : Z := 3.

(** The address of the [thread_func] of either program. *)
Definition thread_func_fn : Z := 2.

Definition k0lock_thread_func : proc () :=
  for_range 0 3 (fun _ => k0lock;; k0unlock;; k0unlock).

Definition k0lock_main : proc () :=
  let work := COMPUTE_THREADS * 3 in
  printf "Testing k0lock/k0unlock" [];;
  loop (fun j =>
    if j <? work then
      k0lock;;
      j ← loop (fun '(i, j) =>
        if (i <? COMPUTE_THREADS) && (j <? work) then
          Create (i + 1) thread_func_fn 0 (mret (inl (i + 1, j + 1)))
        else mret (inr j)) (0, j);
      k0unlock;;
      thread_join (Z.shiftl (Z.shiftl 1 COMPUTE_THREADS - 1) 1);;
      mret (inl j)
    else mret (inr ())) 0;;
  printf "PASS" [];;
  exit 0.

Definition tlblock_thread_func : proc () :=
  for_range 0 5 (fun _ => tlblock;; tlbunlock;; tlbunlock).

Definition tlblock_main : proc () :=
  let work := COMPUTE_THREADS * 3 in
  printf "Testing tlblock/tlbunlock" [];;
  loop (fun j =>
    if j <? work then
      tlblock;;
      j ← loop (fun '(i, j) =>
        if (i <? COMPUTE_THREADS) && (j <? work) then
          Create (i + 1) thread_func_fn 0 (mret (inl (i + 1, j + 1)))
        else mret (inr j)) (0, j);
      tlbunlock;;
      thread_join (Z.shiftl (Z.shiftl 1 COMPUTE_THREADS - 1) 1);;
      mret (inl j)
    else mret (inr ())) 0;;
  printf "PASS" [];;
  exit 0.

Definition k0locklock_main : proc () :=
  k0lock;;
  k0lock;;
  exit 1.

Definition tlblocklock_main : proc () :=
  tlblock;;
  tlblock;;
  exit 1.

(** The functions of the threads of a program. *)
Definition only (thread_func : proc ()) (f a : Z) : proc () :=
  if f =? thread_func_fn then thread_func else mret tt.

(* ------------------------------------------------------------------ *)
(** ** Scripts *)

(** What a program that neither loops nor branches on what it reads does, one
    action per step. *)
Inductive act := Take | Give | Print (s : string) | Tau | Spawn (u : Z) | Wait | Quit.

Section scripts.
Context (lock unlock : instr).

Inductive scripted : list act -> proc () -> Prop :=
  | sc_ret : scripted [] (Ret tt)
  | sc_take l k : (forall r, scripted l (k r)) -> scripted (Take :: l) (Do lock k)
  | sc_give l k : (forall r, scripted l (k r)) -> scripted (Give :: l) (Do unlock k)
  | sc_print s l k : (forall r, scripted l (k r)) -> scripted (Print s :: l) (Do (Printf s []) k)
  | sc_tau l (S R : Set) c (s : S) (k : R -> proc ()) :
      scripted l (pbind (c s) (fun x => match x with inl s => Loop S R c s k | inr r => k r end)) ->
      scripted (Tau :: l) (Loop S R c s k)
  | sc_spawn u l k : scripted l k -> scripted (Spawn u :: l) (Create u thread_func_fn 0 k)
  | sc_wait l k : scripted l k -> scripted (Wait :: l) (Join 14 k)
  | sc_quit : scripted [Quit] (Exit 0).

Lemma scripted_finished l p : scripted l p -> finished (Thread p None) = match l with [] => true | _ => false end.
Proof. by intros []. Qed.
End scripts.

(** One thread after another, [n] of them with their loop steps. *)
Definition batch_script : list act :=
  [Tau; Take; Tau; Spawn 1; Tau; Spawn 2; Tau; Spawn 3; Tau; Give; Wait].

Definition main_script (title : string) : list act :=
  Print title :: batch_script ++ batch_script ++ batch_script ++ [Tau; Print "PASS"; Quit].

Fixpoint worker_script (n : nat) : list act :=
  match n with O => [] | S n => [Take; Give; Give] ++ worker_script n end.

Ltac script :=
  repeat first [apply sc_ret | apply sc_quit | apply sc_tau | apply sc_spawn | apply sc_wait
               | apply sc_take; intros _ | apply sc_give; intros _ | apply sc_print; intros _].

Lemma k0lock_main_scripted : scripted K0lock K0unlock (main_script "Testing k0lock/k0unlock") k0lock_main.
Proof. unfold main_script, batch_script. cbn [app]. unfold k0lock_main. script. Qed.

Lemma tlblock_main_scripted : scripted Tlblock Tlbunlock (main_script "Testing tlblock/tlbunlock") tlblock_main.
Proof. unfold main_script, batch_script. cbn [app]. unfold tlblock_main. script. Qed.

Lemma k0lock_thread_scripted : scripted K0lock K0unlock (worker_script 3) k0lock_thread_func.
Proof. unfold worker_script. cbn [app]. unfold k0lock_thread_func. script. Qed.

Lemma tlblock_thread_scripted : scripted Tlblock Tlbunlock (worker_script 5) tlblock_thread_func.
Proof. unfold worker_script. cbn [app]. unfold tlblock_thread_func. script. Qed.

(** A worker releases the lock right after it has taken it. *)
Fixpoint worker_ok (l : list act) : Prop :=
  match l with
  | [] => True
  | Take :: l => head l = Some Give /\ worker_ok l
  | Give :: l => worker_ok l
  | _ => False
  end.

(** The main thread, while it holds the lock or not and while [n] workers
    exist: it takes the lock when there are none and waits when it has released
    it. *)
Fixpoint main_ok (held : bool) (n : nat) (l : list act) : Prop :=
  match l with
  | [Quit] => n = O
  | Take :: l => held = false /\ n = O /\ main_ok true n l
  | Give :: l => main_ok false n l
  | (Print _ | Tau) :: l => main_ok held n l
  | Spawn u :: l => u = Z.of_nat n + 1 /\ (n < 3)%nat /\ main_ok held (S n) l
  | Wait :: l => held = false /\ main_ok false O l
  | _ => False
  end.

Lemma main_script_ok title : main_ok false O (main_script title).
Proof. cbn. lia. Qed.

Lemma worker_script_ok n : worker_ok (worker_script n).
Proof. by induction n. Qed.

(** The lines a script prints. *)
Definition lines (l : list act) : list (string * list Z) :=
  omap (fun a => match a with Print s => Some (s, []) | _ => None end) l.

(** The workers, by what is left of their scripts. *)
Definition gives (l : list act) : Prop := head l = Some Give.

#[export] Instance gives_dec l : Decision (gives l).
Proof. unfold gives. destruct l as [|[] l]; cbn; solve [by left | by right]. Defined.

(* ------------------------------------------------------------------ *)
(** ** Every schedule comes to an end *)

(** A lock instruction and the bit of SYSCFG it works on. *)
Class LockPair `{Cpu} (lock unlock : instr) (bit : Z) : Prop := {
  lock_free t σ : Z.testbit (syscfg (locks σ)) bit = false ->
    exists lu, exec t lock σ = Next 0 (with_locks lu σ) /\ Z.testbit (syscfg lu) bit = true;
  lock_held t σ : Z.testbit (syscfg (locks σ)) bit = true -> exec t lock σ = Stall;
  unlock_frees t σ : exists lu, exec t unlock σ = Next 0 (with_locks lu σ) /\ Z.testbit (syscfg lu) bit = false
}.

#[export] Instance k0lock_pair `{CpuLaws} : LockPair K0lock K0unlock SYSCFG_KL_BIT.
Proof.
  split; intros t σ; cbn [exec take_lock].
  - intros Hb. destruct (k0lock_free t _ Hb) as (l & -> & Hl). exists l. split; [done|]. rewrite Hl. by apply Z.setbit_eq.
  - intros Hb. by rewrite (k0lock_held t _ Hb).
  - eexists. split; [done|]. rewrite k0unlock_syscfg. apply Z.clearbit_eq.
Qed.

#[export] Instance tlblock_pair `{CpuLaws} : LockPair Tlblock Tlbunlock SYSCFG_TL_BIT.
Proof.
  split; intros t σ; cbn [exec take_lock].
  - intros Hb. destruct (tlblock_free t _ Hb) as (l & -> & Hl). exists l. split; [done|]. rewrite Hl. by apply Z.setbit_eq.
  - intros Hb. by rewrite (tlblock_held t _ Hb).
  - eexists. split; [done|]. rewrite tlbunlock_syscfg. apply Z.clearbit_eq.
Qed.

(** The threads, by the scripts they still have to follow: main, and worker
    [i] as thread [i + 1]. *)
Record shape (lock unlock : instr) (P : gmap Z thread) (l : list act) (ws : list (list act)) : Prop := {
  shape_main : exists p, P !! 0 = Some (Thread p None) /\ scripted lock unlock l p;
  shape_worker i wl : ws !! i = Some wl ->
    exists q, P !! (Z.of_nat i + 1) = Some (Thread q None) /\ scripted lock unlock wl q;
  shape_dom t : is_Some (P !! t) -> t = 0 \/ exists i, (i < length ws)%nat /\ t = Z.of_nat i + 1
}.

Section shape.
Context (lock unlock : instr).
Abbreviation shape := (shape lock unlock).
Abbreviation scripted := (scripted lock unlock).

Lemma shape_set_main P l ws l' p : shape P l ws -> scripted l' p -> shape (<[0 := Thread p None]> P) l' ws.
Proof.
  intros [Hm Hw Hd] Hp. split.
  - exists p. by rewrite lookup_insert_eq.
  - intros i wl Hi. rewrite lookup_insert_ne by lia. by apply Hw.
  - intros t. destruct (decide (t = 0)) as [->|]; [by left|]. rewrite lookup_insert_ne by done. apply Hd.
Qed.

Lemma shape_set_worker P l ws i wl q : shape P l ws -> (i < length ws)%nat -> scripted wl q ->
  shape (<[Z.of_nat i + 1 := Thread q None]> P) l (<[i := wl]> ws).
Proof.
  intros [Hm Hw Hd] Hi Hq. split.
  - rewrite lookup_insert_ne by lia. done.
  - intros j wl'. destruct (decide (j = i)) as [->|Hne].
    + rewrite list_lookup_insert_eq by done. intros [= <-]. exists q. by rewrite lookup_insert_eq.
    + rewrite list_lookup_insert_ne by done. rewrite lookup_insert_ne by lia. apply Hw.
  - intros t. rewrite length_insert. destruct (decide (t = Z.of_nat i + 1)) as [->|]; [right; by exists i|].
    rewrite lookup_insert_ne by done. apply Hd.
Qed.

Lemma shape_spawn P l ws wl q : shape P l ws -> scripted wl q ->
  shape (<[Z.of_nat (length ws) + 1 := Thread q None]> P) l (ws ++ [wl]).
Proof.
  intros [Hm Hw Hd] Hq. split.
  - rewrite lookup_insert_ne by lia. done.
  - intros j wl' [Hj|[Hj Hl]]%lookup_app_Some.
    + pose proof (lookup_lt_Some _ _ _ Hj). rewrite lookup_insert_ne by lia. by apply Hw.
    + apply list_lookup_singleton_Some in Hl as [Hl <-]. exists q.
      replace j with (length ws) by lia. by rewrite lookup_insert_eq.
  - intros t. rewrite length_app. cbn [length].
    destruct (decide (t = Z.of_nat (length ws) + 1)) as [->|]; [right; exists (length ws); split; lia|].
    rewrite lookup_insert_ne by done. intros [->|(i & Hi & ->)]%Hd; [by left|]. right. exists i. split; lia.
Qed.

(** The mask 14 is that of threads 1, 2 and 3. *)
Lemma mask_worker i : (i < 3)%nat -> Z.testbit 14 (Z.of_nat i + 1) = true.
Proof. intros Hi. destruct i as [|[|[|]]]; [done..|lia]. Qed.

Lemma shape_join P l ws : shape P l ws -> (length ws <= 3)%nat -> shape (filter (outside 14) P) l [].
Proof.
  intros [Hm Hw Hd] Hn. split.
  - destruct Hm as (p & Hp & Hs). exists p. split; [|done]. by apply map_lookup_filter_Some.
  - by intros i wl Hi.
  - intros t [th Ht]. apply map_lookup_filter_Some in Ht as [Ht Ho].
    destruct (Hd t (mk_is_Some _ _ Ht)) as [->|(i & Hi & ->)]; [by left|]. exfalso.
    unfold outside in Ho. cbn [fst] in Ho. rewrite mask_worker in Ho by lia. done.
Qed.

Lemma shape_all_stopped `{Cpu} (c : config) l ws : shape (pool c) l ws -> (length ws <= 3)%nat ->
  all_stopped 14 c <-> Forall (fun wl => wl = []) ws.
Proof.
  intros Hs Hn. unfold all_stopped. split.
  - intros Ha. apply Forall_lookup. intros i wl Hi.
    destruct (shape_worker _ _ _ _ _ Hs i wl Hi) as (q & Hq & Hp).
    pose proof (lookup_lt_Some _ _ _ Hi). pose proof (Ha _ _ Hq (mask_worker i ltac:(lia))) as Hf.
    rewrite (scripted_finished _ _ _ _ Hp) in Hf. by destruct wl.
  - intros Hf t th Ht Hb. destruct (shape_dom _ _ _ _ _ Hs t (mk_is_Some _ _ Ht)) as [->|(i & Hi & ->)]; [done|].
    apply lookup_lt_is_Some in Hi as [wl Hi]. rewrite Forall_lookup in Hf. pose proof (Hf i wl Hi) as ->.
    destruct (shape_worker _ _ _ _ _ Hs i _ Hi) as (q & Hq & Hp). rewrite Hq in Ht. injection Ht as <-.
    by rewrite (scripted_finished _ _ _ _ Hp).
Qed.
End shape.

Section ends.
Context `{Cpu} (lock unlock : instr) (bit : Z) `{!LockPair lock unlock bit}.
Context (thread_func : proc ()) (rounds : nat).
Context (Hfunc : scripted lock unlock (worker_script rounds) thread_func).
Context (out : list (string * list Z)).
Implicit Types (c : config) (σ : machine) (l wl : list act) (ws : list (list act)).

Abbreviation step := (step (only thread_func)).

Definition locked σ : Prop := Z.testbit (syscfg (locks σ)) bit = true.

(** While the lock is held, somebody is about to release it. *)
Record inv c l ws (held : bool) : Prop := {
  inv_running : halted c = None;
  inv_shape : shape lock unlock (pool c) l ws;
  inv_main : main_ok held (length ws) l;
  inv_workers : Forall worker_ok ws;
  inv_count : (length ws <= 3)%nat;
  inv_lock : locked (mach c) -> held = true \/ Exists gives ws;
  inv_output : output (mach c) ++ lines l = out
}.

(** How many steps are left at most. *)
Definition act_weight (a : act) : nat := match a with Spawn _ => 1 + length (worker_script rounds) | _ => 1 end.
Definition total l ws : nat := sum_list_with act_weight l + sum_list_with length ws.

Lemma total_worker l ws i a wl : ws !! i = Some (a :: wl) -> (total l (<[i := wl]> ws) < total l ws)%nat.
Proof.
  unfold total. intros Hi. enough (sum_list_with length (<[i := wl]> ws) < sum_list_with length ws)%nat by lia.
  revert i Hi. induction ws as [|w ws IH]; intros [|i] Hi; cbn in *; [done|done| |].
  - injection Hi as ->. rewrite length_cons. lia.
  - apply Nat.add_lt_mono_l. by apply IH.
Qed.

Definition ended c : Prop := halted c = Some 0 /\ output (mach c) = out.

(** One turn of the main thread. *)
Lemma lock_main_turn c l ws held : inv c l ws held ->
  match step (Run 0) c with
  | Moved c' => ended c' \/ exists l' ws' held', inv c' l' ws' held' /\ (total l' ws' < total l ws)%nat
  | Blocked => held = false /\ Exists (fun wl => wl <> []) ws
  | Wrong => False
  end.
Proof.
  intros [Hr Hs Hm Hw Hn Hl Ho]. destruct (shape_main _ _ _ _ _ Hs) as (p & Hp & Hsc).
  unfold Threads.step. rewrite Hr, Hp.
  destruct Hsc as [|l k Hk|l k Hk|s l k Hk|l S R b s k Hk|u l k Hk|l k Hk|]; cbn [main_ok] in Hm; [done|..];
    cbn [step_proc].
  - destruct Hm as (-> & Hw0 & Hm). destruct ws; [|done].
    destruct (Z.testbit (syscfg (locks (mach c))) bit) eqn:Hb.
    { destruct (Hl Hb) as [?|He]; [done|]. by inversion He. }
    destruct (lock_free 0 (mach c) Hb) as (lu & -> & _). right. exists l, [], true. split; [|unfold total; cbn; lia].
    split; try done; [by eapply shape_set_main|by left].
  - destruct (unlock_frees 0 (mach c)) as (lu & -> & Hlu). right. exists l, ws, false. split; [|unfold total; cbn; lia].
    split; try done; [by eapply shape_set_main|]. unfold locked. cbn. by rewrite Hlu.
  - right. exists l, ws, held. split; [|unfold total; cbn; lia]. split; try done; [by eapply shape_set_main|].
    cbn. rewrite <- app_assoc. done.
  - right. exists l, ws, held. split; [|unfold total; cbn; lia]. split; try done. by eapply shape_set_main.
  - destruct Hm as (-> & Hn3 & Hm). assert (stopped c (Z.of_nat (length ws) + 1) = true) as ->.
    { unfold stopped. destruct (pool c !! (Z.of_nat (length ws) + 1)) eqn:E; [|done].
      destruct (shape_dom _ _ _ _ _ Hs _ (mk_is_Some _ _ E)) as [?|(i & ? & ?)]; lia. }
    rewrite (proj2 (Z.eqb_neq _ 0)) by lia. cbn [andb negb]. right. exists l, (ws ++ [worker_script rounds]), held.
    split; [|unfold total; rewrite sum_list_with_app; cbn; lia].
    split; cbn [pool halted mach set_thread start with_pool with_mach with_interrupts output locks]; try done.
    + eapply shape_set_main; [|done]. by eapply shape_spawn.
    + rewrite length_app. cbn. by rewrite Nat.add_1_r.
    + apply Forall_app. split; [done|]. constructor; [apply worker_script_ok|constructor].
    + rewrite length_app. cbn. lia.
    + intros Hb. destruct (Hl Hb) as [?|He]; [by left|]. right. apply Exists_app. by left.
  - destruct Hm as [-> Hm]. pose proof (shape_all_stopped _ _ _ _ _ Hs Hn) as Ha. case_decide as Hd.
    + right. exists l, [], false. split; [|unfold total; cbn; lia]. split; try done.
      * eapply shape_set_main; [|done]. by eapply shape_join.
      * cbn. lia.
      * intros Hb. destruct (Hl Hb) as [?|He]; [done|]. apply Exists_exists in He as (wl & Hin & Hg).
        apply Ha in Hd. rewrite Forall_forall in Hd. by rewrite (Hd wl Hin) in Hg.
    + split; [done|]. apply not_Forall_Exists; [|by rewrite <- Ha]. intros wl. destruct wl; [by left|by right].
  - left. split; [done|]. cbn in *. by rewrite <- Ho, app_nil_r.
Qed.

(** One turn of a worker. *)
Lemma lock_worker_turn c l ws held i wl : inv c l ws held -> ws !! i = Some wl ->
  match step (Run (Z.of_nat i + 1)) c with
  | Moved c' => exists ws', inv c' l ws' held /\ (total l ws' < total l ws)%nat
  | Blocked => wl = [] \/ locked (mach c) /\ ~ gives wl
  | Wrong => False
  end.
Proof.
  intros [Hr Hs Hm Hw Hn Hl Ho] Hi. destruct (shape_worker _ _ _ _ _ Hs i wl Hi) as (q & Hq & Hsc).
  pose proof (lookup_lt_Some _ _ _ Hi) as Hlt. pose proof Hw as Hok. rewrite Forall_lookup in Hok.
  specialize (Hok i wl Hi). unfold Threads.step. rewrite Hr, Hq.
  destruct Hsc as [|wl k Hk|wl k Hk| | | | |]; cbn [worker_ok] in Hok; [by left|..|done|done|done|done|done];
    cbn [step_proc].
  - destruct (Z.testbit (syscfg (locks (mach c))) bit) eqn:Hb.
    { rewrite lock_held by done. right. by split. }
    destruct (lock_free (Z.of_nat i + 1) (mach c) Hb) as (lu & -> & _). exists (<[i := wl]> ws).
    split; [|by eapply total_worker].
    split; try done; rewrite ?length_insert; [by eapply shape_set_worker|done|apply Forall_insert; [done|apply Hok]|done|].
    right. apply Exists_exists. exists wl. split; [|apply Hok]. apply (list_elem_of_lookup_2 _ i), list_lookup_insert_eq, Hlt.
  - destruct (unlock_frees (Z.of_nat i + 1) (mach c)) as (lu & -> & Hlu). exists (<[i := wl]> ws).
    split; [|by eapply total_worker].
    split; try done; rewrite ?length_insert; [by eapply shape_set_worker|done|apply Forall_insert; [done|apply Hok]|done|].
    unfold locked. cbn. by rewrite Hlu.
Qed.

(** Somebody can always move. *)
Lemma progress c l ws held : inv c l ws held ->
  exists t, 0 <= t <= 3 /\ step (Run t) c <> Blocked.
Proof.
  intros Hi. pose proof (lock_main_turn _ _ _ _ Hi) as Hm. destruct (step (Run 0) c) eqn:E0;
    [exists 0; rewrite E0; by split; [lia|]| |done].
  destruct Hm as [-> Hne].
  assert (exists i wl, ws !! i = Some wl /\ ~ (wl = [] \/ locked (mach c) /\ ~ gives wl)) as (i & wl & Hwl & Hn).
  { destruct (Z.testbit (syscfg (locks (mach c))) bit) eqn:Hb.
    - destruct (inv_lock _ _ _ _ Hi Hb) as [?|He]; [done|]. apply Exists_exists in He as (wl & Hin & Hg).
      apply list_elem_of_lookup in Hin as [i Hwl]. exists i, wl. split; [done|]. intros [-> |[_ Hng]]; done.
    - apply Exists_exists in Hne as (wl & Hin & Hg). apply list_elem_of_lookup in Hin as [i Hwl].
      exists i, wl. split; [done|]. unfold locked. rewrite Hb. intros [?|[? _]]; done. }
  pose proof (lookup_lt_Some _ _ _ Hwl). pose proof (inv_count _ _ _ _ Hi).
  exists (Z.of_nat i + 1). split; [lia|]. intros E. pose proof (lock_worker_turn _ _ _ _ _ _ Hi Hwl) as Hw.
  rewrite E in Hw. done.
Qed.

Lemma other_turn c l ws held t : inv c l ws held -> t <> 0 -> (forall i, (i < length ws)%nat -> t <> Z.of_nat i + 1) ->
  step (Run t) c = Blocked.
Proof.
  intros Hi Ht Hw. unfold Threads.step. rewrite (inv_running _ _ _ _ Hi).
  destruct (pool c !! t) eqn:E; [|done].
  destruct (shape_dom _ _ _ _ _ (inv_shape _ _ _ _ Hi) t (mk_is_Some _ _ E)) as [?|(i & Hlt & ->)]; [done|].
  by destruct (Hw i Hlt).
Qed.

Lemma any_turn c l ws held t : inv c l ws held ->
  match step (Run t) c with
  | Moved c' => ended c' \/ exists l' ws' held', inv c' l' ws' held' /\ (total l' ws' < total l ws)%nat
  | Blocked => True
  | Wrong => False
  end.
Proof.
  intros Hi. destruct (decide (t = 0)) as [->|Ht].
  - pose proof (lock_main_turn _ _ _ _ Hi). by destruct (step (Run 0) c).
  - destruct (decide (0 < t <= Z.of_nat (length ws))) as [Hr|Hr].
    + destruct (lookup_lt_is_Some_2 ws (Z.to_nat (t - 1)) ltac:(lia)) as [wl Hwl].
      pose proof (lock_worker_turn _ _ _ _ _ _ Hi Hwl) as Hw. replace (Z.of_nat (Z.to_nat (t - 1)) + 1) with t in Hw by lia.
      destruct (step (Run t) c); [|done..]. right. destruct Hw as (ws' & ? & ?). by exists l, ws', held.
    + rewrite (other_turn _ _ _ _ _ Hi Ht); [done|]. intros i ? ->. lia.
Qed.

Definition all_threads : gset Z := {[0; 1; 2; 3]}.

Lemma inv_ends c l ws held : inv c l ws held -> eventually (only thread_func) all_threads ended c.
Proof.
  intros Hi. destruct (progress _ _ _ _ Hi) as (h & Hh & Hb).
  eapply (eventually_helper _ _ (fun n h c => exists l ws held, inv c l ws held /\ total l ws = n /\
    0 <= h <= 3 /\ step (Run h) c <> Blocked)) with (n := total l ws) (h := h); [|by exists l, ws, held].
  clear c l ws held Hi h Hh Hb. intros n h c (l & ws & held & Hi & <- & Hh & Hb). right.
  split; [unfold all_threads; set_unfold; lia|]. intros t. pose proof (any_turn _ _ _ _ t Hi) as Ht.
  destruct (step (Run t) c) as [c'| |] eqn:E; [|by intros ->|done].
  destruct Ht as [He|(l' & ws' & held' & Hi' & Hlt)]; [by left|]. right. left.
  destruct (progress _ _ _ _ Hi') as (h' & Hh' & Hb'). by exists (total l' ws'), h'; split; [|exists l', ws', held'].
Qed.

Lemma lock_test_ends p title σ sched : scripted lock unlock (main_script title) p ->
  ~ locked σ -> output σ ++ [(title, []); ("PASS", [])] = out -> fair all_threads sched ->
  exists n c, run (only thread_func) (turns sched n) (boot p σ) = Moved c /\ ended c.
Proof.
  intros Hp Hl Ho Hf. eapply (inv_ends _ _ [] false); [|done]. split; cbn [boot mach pool halted length]; try done.
  - split; [by exists p|done|]. intros t [th Ht]. apply lookup_singleton_Some in Ht as [<- _]. by left.
  - apply main_script_ok.
  - lia.
  - by rewrite <- Ho.
Qed.
End ends.

(** *** Taking a lock twice *)

Section twice.
Context `{Cpu} (lock unlock : instr) (bit : Z) `{!LockPair lock unlock bit} (code : Z -> Z -> proc ()).
Implicit Types (c : config) (σ : machine).

Definition twice : proc () := exec_ lock;; exec_ lock;; exit 1.

(** The two places main can be at, serving an interrupt or not. *)
Record stuck c : Prop := {
  stuck_running : halted c = None;
  stuck_handlers : handlers (mach c) = ∅;
  stuck_pool : exists p q, pool c = {[0 := Thread p q]} /\ (q = None \/ q = Some (Ret tt)) /\
    (p = twice \/ p = (exec_ lock;; exit 1) /\ locked bit (mach c))
}.

Lemma stuck_config σ p q : handlers σ = ∅ -> q = None \/ q = Some (Ret tt) ->
  p = twice \/ p = (exec_ lock;; exit 1) /\ locked bit σ -> stuck (Config _ σ {[0 := Thread p q]} None).
Proof. intros Hh Hq Hp. split; [done..|]. by exists p, q. Qed.

Lemma stuck_step ev c : stuck c ->
  match step code ev c with Moved c' => stuck c' | Blocked => True | Wrong => False end.
Proof.
  destruct c as [σ P h]. intros [Hr Hh (p & q & Hp & Hq & Hat)]. cbn [halted mach pool] in *. subst h P.
  assert (forall p q p' q', set_thread 0 (Thread p' q') (Config _ σ {[0 := Thread p q]} None) =
    Config _ σ {[0 := Thread p' q']} None) as Hset.
  { intros. unfold set_thread, with_pool. cbn [pool mach halted]. by rewrite insert_singleton_eq. }
  unfold step. cbn [halted pool].
  destruct ev as [t|t n]; (destruct (decide (t = 0)) as [->|Ht]; [|by rewrite lookup_singleton_ne]);
    rewrite lookup_singleton_eq; destruct Hq as [-> | ->]; [| |..|done].
  - destruct Hat as [-> | [-> Hl]]; unfold twice; cbn [exec_ mbind proc_bind pbind step_proc mach];
      [|by rewrite lock_held].
    destruct (Z.testbit (syscfg (locks σ)) bit) eqn:Hb; [by rewrite lock_held|].
    destruct (lock_free 0 σ Hb) as (lu & -> & Hlu). unfold set_thread, with_pool, with_mach. cbn [pool mach halted].
    rewrite insert_singleton_eq. apply stuck_config; [done|by left|]. by right.
  - rewrite Hset. by apply stuck_config; [|left|].
  - destruct (_ || _); [done|]. cbn [mach]. destruct (accept _ _ _) as [i|]; [|done].
    unfold handler_code. rewrite Hh, lookup_empty. unfold set_thread, with_pool, with_mach. cbn [pool mach halted].
    rewrite insert_singleton_eq. by apply stuck_config; [|right|].
Qed.

Lemma twice_stuck σ c : handlers σ = ∅ -> reachable code (boot twice σ) c -> stuck c.
Proof.
  intros Hh Hr. induction Hr as [|ev c1 c2 _ IH Hs]; [by apply stuck_config; [|left|left]|].
  pose proof (stuck_step ev c1 IH) as Hc. by rewrite Hs in Hc.
Qed.

(** The first turn takes the lock, the second stalls. *)
Lemma twice_stalls σ : ~ locked bit σ ->
  exists c, run code [Run 0] (boot twice σ) = Moved c /\ step code (Run 0) c = Blocked.
Proof.
  intros Hl. apply not_true_is_false in Hl. destruct (lock_free 0 σ Hl) as (lu & He & Hlu).
  exists (set_thread 0 (Thread (exec_ lock;; exit 1) None) (with_mach (with_locks lu σ) (boot twice σ))). split.
  - cbn [run]. unfold step, boot. cbn [halted pool]. rewrite lookup_singleton_eq. unfold twice.
    cbn [exec_ mbind proc_bind pbind step_proc mach]. by rewrite He.
  - unfold step. cbn [halted boot set_thread with_pool with_mach pool]. rewrite lookup_insert_eq.
    cbn [exec_ mbind proc_bind pbind step_proc mach]. by rewrite lock_held.
Qed.

Lemma twice_hangs σ : handlers σ = ∅ -> ~ locked bit σ ->
  (forall c, reachable code (boot twice σ) c -> halted c = None /\ forall ev, step code ev c <> Wrong) /\
  exists c, run code [Run 0] (boot twice σ) = Moved c /\ step code (Run 0) c = Blocked.
Proof.
  intros Hh Hl. split; [|by apply twice_stalls]. intros c Hr. pose proof (twice_stuck σ c Hh Hr) as Hs.
  split; [apply Hs|]. intros ev Hev. pose proof (stuck_step ev c Hs) as Hc. by rewrite Hev in Hc.
Qed.
End twice.

(* ------------------------------------------------------------------ *)
(** ** The programs *)

(** C4: the lock tests never deadlock: started with the lock free, k0lock.c and
    tlblock.c come to their end under every schedule, without interrupts, in
    which their threads get their turns again and again, although every thread
    releases the lock once more than it takes it, so that it may release the
    lock of another; they print their two lines and return 0. *)
Theorem lock_tests_end `{CpuLaws} σ (sched : nat -> Z) :
  (forall t, 0 <= t <= 3 -> forall n, exists m, (n <= m)%nat /\ sched m = t) ->
  (Z.testbit (syscfg (locks σ)) SYSCFG_KL_BIT = false ->
    exists n c, run (only k0lock_thread_func) (turns sched n) (boot k0lock_main σ) = Moved c /\
      halted c = Some 0 /\ output (mach c) = output σ ++ [("Testing k0lock/k0unlock", []); ("PASS", [])]) /\
  (Z.testbit (syscfg (locks σ)) SYSCFG_TL_BIT = false ->
    exists n c, run (only tlblock_thread_func) (turns sched n) (boot tlblock_main σ) = Moved c /\
      halted c = Some 0 /\ output (mach c) = output σ ++ [("Testing tlblock/tlbunlock", []); ("PASS", [])]).
Proof.
  intros Hs. assert (fair all_threads sched) as Hf.
  { intros t Ht. apply Hs. unfold all_threads in Ht. set_unfold. lia. }
  split; intros Hb.
  - apply (lock_test_ends K0lock K0unlock SYSCFG_KL_BIT k0lock_thread_func 3 k0lock_thread_scripted _
      k0lock_main "Testing k0lock/k0unlock"); [apply k0lock_main_scripted|by apply not_true_iff_false|done|done].
  - apply (lock_test_ends Tlblock Tlbunlock SYSCFG_TL_BIT tlblock_thread_func 5 tlblock_thread_scripted _
      tlblock_main "Testing tlblock/tlbunlock"); [apply tlblock_main_scripted|by apply not_true_iff_false|done|done].
Qed.

(** C23: a thread that takes a lock it holds stalls for ever: k0locklock.c and
    tlblocklock.c never get to their return, in any interleaving with
    interrupts, and do nothing undefined; with the lock free at the start, main
    stalls after one turn. *)
Theorem lock_twice_never_returns `{CpuLaws} code σ : handlers σ = ∅ ->
  Z.testbit (syscfg (locks σ)) SYSCFG_KL_BIT = false -> Z.testbit (syscfg (locks σ)) SYSCFG_TL_BIT = false ->
  Forall (fun main =>
    (forall c, reachable code (boot main σ) c -> halted c = None /\ forall ev, step code ev c <> Wrong) /\
    exists c, run code [Run 0] (boot main σ) = Moved c /\ step code (Run 0) c = Blocked)
    [k0locklock_main; tlblocklock_main].
Proof.
  intros Hh Hk Ht. apply not_true_iff_false in Hk, Ht. apply Forall_cons. split; [|apply Forall_singleton].
  - by apply (twice_hangs K0lock K0unlock SYSCFG_KL_BIT).
  - by apply (twice_hangs Tlblock Tlbunlock SYSCFG_TL_BIT).
Qed.

(* ------------------------------------------------------------------ *)
(** ** On the simulated processor *)

Import SimCpu.

(** Threads 0 to 3 in turn. *)
Definition in_turn (n : nat) : Z := Z.of_nat n mod 4.

Lemma in_turn_fair t : 0 <= t <= 3 -> forall n, exists m, (n <= m)%nat /\ in_turn m = t.
Proof.
  intros Ht n. exists (4 * n + Z.to_nat t)%nat. split; [lia|]. unfold in_turn.
  rewrite Nat2Z.inj_add, Nat2Z.inj_mul, Z2Nat.id by lia. rewrite Z.add_comm, Z.mul_comm, Z.mod_add by lia.
  apply Z.mod_small. lia.
Qed.

Lemma lock_tests_end_witness :
  Z.testbit (syscfg (locks (sim_machine []))) SYSCFG_KL_BIT = false /\
  exists n c, run (only k0lock_thread_func) (turns in_turn n) (boot k0lock_main (sim_machine [])) = Moved c /\
    halted c = Some 0 /\ output (mach c) = [("Testing k0lock/k0unlock", []); ("PASS", [])].
Proof.
  split; [reflexivity|]. apply (lock_tests_end (sim_machine []) in_turn); [apply in_turn_fair|reflexivity].
Defined.

Lemma lock_twice_never_returns_witness :
  Forall (fun main =>
    (forall c, reachable (only (mret tt)) (boot main (sim_machine [])) c ->
      halted c = None /\ forall ev, step (only (mret tt)) ev c <> Wrong) /\
    exists c, run (only (mret tt)) [Run 0] (boot main (sim_machine [])) = Moved c /\
      step (only (mret tt)) (Run 0) c = Blocked)
    [k0locklock_main; tlblocklock_main].
Proof. apply lock_twice_never_returns; reflexivity. Defined.

(** After 400 turns k0lock.c has ended. *)
Example k0lock_run :
  match run (only k0lock_thread_func) (turns in_turn 400) (boot k0lock_main (sim_machine [])) with
  | Moved c => (halted c, length (output (mach c)))
  | _ => (None, O)
  end = (Some 0, 2%nat).
Proof. vm_compute. reflexivity. Qed.
