(* ===== verification/ThreadScheduling.v ===== *)
(** src/thread_scheduling.c: a thread loops until the main thread clears a
    variable; both get their turns, so the test comes to its end. *)

From S2P Require Import Prelude Threads ThreadLogic ThreadCommon ThreadSim Fairness TwoThreads.

Open Scope string_scope.
Open Scope list_scope.
Open Scope Z_scope.

Definition running : loc := var "running".

Definition thread_fn : proc () := while (v ← load running; mret (truth v)) (mret tt).

(** The address of [thread_fn]. *)
Definition thread_fn_addr : Z := 2.

(** The initialiser of [running] sets it to 1 before main starts. *)
Definition thread_scheduling_main : proc () :=
  Create 1 thread_fn_addr 0 (mret tt);;
  store running 0;;
  thread_join (Z.shiftl 1 1);;
  printf "PASS" [];;
  exit 0.

Definition scheduling_code (f a : Z) : proc () := if f =? thread_fn_addr then thread_fn else mret tt.

#[export] Instance worker_1 : Worker 1.
Proof. done. Qed.

Section scheduling.
Context `{Cpu}.
Implicit Types (σ : machine) (c : config).

Abbreviation step := (step scheduling_code).
Abbreviation both := ({[0; 1]} : gset Z).
Abbreviation eventually := (eventually scheduling_code both).

Definition main_report : proc () := printf "PASS" [];; exit 0.
Definition main_join : proc () := Join 2 main_report.
Definition main_store : proc () := Do (Store running 0) (fun _ => main_join).

(** One round of the worker's loop. *)
Definition worker_round (_ : ()) : proc (() + ()) :=
  b ← (v ← load running; mret (truth v));
  if (b : bool) then mret tt;; mret (inl tt) else mret (inr tt).

(** The worker before it reads [running]. *)
Definition worker_read : proc () :=
  pbind (worker_round tt) (fun x => match x with inl s => Loop () () worker_round s Ret | inr r => Ret r end).

Lemma worker_loops σ p : step (Run 1) (two 1 σ p thread_fn) = Moved (two 1 σ p worker_read).
Proof.
  apply worker_turn. cbn [step_proc thread_fn while loop]. reflexivity.
Qed.

Lemma worker_reads σ p v : memory σ !! running = Some v ->
  step (Run 1) (two 1 σ p worker_read) = Moved (two 1 σ p (if truth v then thread_fn else Ret tt)).
Proof.
  intros Hv. apply worker_turn. cbn [worker_read worker_round mbind proc_bind pbind load op step_proc exec mach two].
  rewrite Hv. by destruct (truth v).
Qed.

(** Where the worker is, by the steps to its end once [running] is 0. *)
Inductive looping : nat -> proc () -> Prop :=
  | looping_read : looping 1 worker_read
  | looping_head : looping 2 thread_fn.

Definition told (out : list (string * list Z)) c : Prop := halted c = Some 0 /\ output (mach c) = out ++ [("PASS", [])].

Lemma reports σ : eventually (told (output σ)) (one σ main_report).
Proof.
  eapply eventually_turn; [set_solver|by apply one_do|]. eapply eventually_turn; [set_solver|by apply one_turn|].
  by apply eventually_now.
Qed.

(** The main thread waits, and the worker sees that [running] is 0. *)
Definition waiting (out : list (string * list Z)) (n : nat) (h : Z) c : Prop := h = 1 /\
  exists σ q, c = two 1 σ main_join q /\ looping n q /\ memory σ !! running = Some 0 /\ output σ = out.

Lemma waiting_ends out n h c : waiting out n h c -> eventually (told out) c.
Proof.
  intros Hc. apply (eventually_bind _ _ (fun c => exists σ, c = two 1 σ main_join (Ret tt) /\ output σ = out)).
  - revert Hc. apply (eventually_helper _ _ (waiting out)). clear n h c.
    intros n h c (-> & σ & q & -> & Hl & Hr & Ho). right. split; [set_solver|]. intros t.
    destruct (decide (t = 1)) as [->|H1].
    + destruct Hl.
      * rewrite (worker_reads _ _ 0) by done. left. by exists σ.
      * rewrite worker_loops. right. left. exists 1%nat, 1. split; [lia|]. split; [done|].
        exists σ, worker_read. by split_and!; [|constructor|..].
    + destruct (decide (t = 0)) as [->|H0]; [|by rewrite two_other]. unfold main_join.
      by rewrite join_blocked by (done || by destruct Hl).
  - intros c' (σ & -> & <-). apply eventually_join; [set_solver|done|done|]. apply reports.
Qed.

(** The worker loops until the main thread clears [running]. *)
Definition clearing (out : list (string * list Z)) (n : nat) (h : Z) c : Prop := h = 0 /\
  exists σ q k v, c = two 1 σ main_store q /\ looping k q /\ memory σ !! running = Some v /\ truth v = true /\ output σ = out.

Lemma clearing_ends out n h c : clearing out n h c -> eventually (told out) c.
Proof.
  intros Hc. apply (eventually_bind _ _ (fun c => exists n, waiting out n 1 c)); [|intros c' [k Hk]; by eapply waiting_ends].
  revert Hc. apply (eventually_helper _ _ (clearing out)). clear n h c.
  intros n h c (-> & σ & q & k & v & -> & Hl & Hr & Hv & Ho). right. split; [set_solver|]. intros t.
  destruct (decide (t = 0)) as [->|H0].
  - unfold main_store. rewrite (main_do σ _ _ _ 0 (write 0 running 0 σ)) by (cbn [exec]; by rewrite Hr).
    left. exists k. split; [done|]. exists (write 0 running 0 σ), q. split_and!; [done..| |done]. apply lookup_insert_eq.
  - destruct (decide (t = 1)) as [->|H1]; [|by rewrite two_other]. destruct Hl.
    + rewrite (worker_reads _ _ v), Hv by done. right. right. split; [done|]. split; [done|].
      exists σ, thread_fn, 2%nat, v. by split_and!; [|constructor|..].
    + rewrite worker_loops. right. right. split; [done|]. split; [done|].
      exists σ, worker_read, 1%nat, v. by split_and!; [|constructor|..].
Qed.
End scheduling.

(** C22: the scheduling test ends: on every machine whose [running] is not zero,
    and under every schedule, without interrupts, in which both threads get
    their turns again and again, the looping thread sees that main has cleared
    [running], main joins it, prints PASS and returns 0. *)
Theorem thread_scheduling_ends `{CpuLaws} σ v (sched : nat -> Z) :
  memory σ !! running = Some v -> truth v = true ->
  (forall t, t = 0 \/ t = 1 -> forall n, exists m, (n <= m)%nat /\ sched m = t) ->
  exists n c, run scheduling_code (turns sched n) (boot thread_scheduling_main σ) = Moved c /\
    halted c = Some 0 /\ output (mach c) = output σ ++ [("PASS", [])].
Proof.
  intros Hm Hv Hs. assert (fair ({[0; 1]} : gset Z) sched) as Hf by (intros t Ht; apply Hs; set_solver).
  revert sched Hs Hf. enough (eventually scheduling_code {[0; 1]} (told (output σ)) (one σ thread_scheduling_main)) as He.
  { intros sched _ Hf. apply (He sched Hf). }
  eapply eventually_turn; [set_solver|apply one_create|]. apply (clearing_ends _ O 0). split; [done|].
  exists (unmask 1 σ), thread_fn, 2%nat, v. by split_and!; [|constructor|..].
Qed.

(* ------------------------------------------------------------------ *)
(** ** On the simulated processor *)

Import SimCpu.

(** The two threads by turns. *)
Definition by_turns (n : nat) : Z := if Nat.even n then 0 else 1.

Lemma by_turns_fair t : t = 0 \/ t = 1 -> forall n, exists m, (n <= m)%nat /\ by_turns m = t.
Proof.
  intros Ht n. exists (2 * n + Z.to_nat t)%nat. split; [lia|]. unfold by_turns.
  destruct Ht as [-> | ->]; [by rewrite Nat.add_0_r, Nat.even_mul|]. by rewrite Nat.even_add, Nat.even_mul.
Qed.

Definition scheduling_machine : machine := with_memory {[running := 1]} (sim_machine []).

Lemma thread_scheduling_ends_witness :
  memory scheduling_machine !! running = Some 1 /\
  exists n c, run scheduling_code (turns by_turns n) (boot thread_scheduling_main scheduling_machine) = Moved c /\
    halted c = Some 0 /\ output (mach c) = [("PASS", [])].
Proof.
  split; [reflexivity|].
  apply (thread_scheduling_ends scheduling_machine 1 by_turns); [reflexivity|reflexivity|apply by_turns_fair].
Defined.
