(* ===== verification/ThreadTest.v ===== *)
(** The check macros of include/hex_test.h in a program of threads: the error
    counter is a shared variable of the main thread, and a failed check prints
    a line. *)

From S2P Require Import Prelude Threads.

Open Scope string_scope.
Open Scope list_scope.
Open Scope Z_scope.

Definition err : loc := var "err".

(** The body of a failed check. *)
Definition fail_check (format : string) (args : list Z) : proc () :=
  printf format args;;
  e ← load err;
  store err (swrap 32 (e + 1)).

Definition check32_format : string := "ERROR at line %d: 0x%08x != 0x%08x".
Definition check32_ne_format : string := "ERROR at line %d: 0x%08x == 0x%08x".

Definition check32 (line val expect : Z) : proc () :=
  if negb (u32 val =? u32 expect) then fail_check check32_format [line; u32 val; u32 expect] else mret tt.

Definition check32_ne (line val expect : Z) : proc () :=
  if u32 val =? u32 expect then fail_check check32_ne_format [line; u32 val; u32 expect] else mret tt.

(** The lines of the checks that failed, in an output. *)
Definition failed_lines (out : list (string * list Z)) : list Z :=
  omap (fun '(f, args) =>
    if decide (f = check32_format \/ f = check32_ne_format) then head args else None) out.
