(* ===== verification/LockVerify.v ===== *)
(** src/lock_verify.c: the lock bits of SYSCFG, mutual exclusion of the
    hardware locks with and without interrupts, and threads stalled on a
    lock. *)

From S2P Require Import Prelude Threads ThreadLogic ThreadCommon ThreadTest.

Open Scope string_scope.
Open Scope list_scope.
Open Scope Z_scope.

Definition COMPUTE_THREADS : Z := 3.
Definition ITERATIONS : Z := 1000.
Definition STALL_SWIS : Z := 200.

Definition k0_shared_counter : loc := var "k0_shared_counter".
Definition tlb_shared_counter : loc := var "tlb_shared_counter".
Definition isr_count : loc := var "isr_count".
Definition isr_kl_set_count : loc := var "isr_kl_set_count".
Definition isr_tl_set_count : loc := var "isr_tl_set_count".
Definition holder_ready : loc := var "holder_ready".
Definition waiters_ready : loc := var "waiters_ready".
Definition swis_complete : loc := var "swis_complete".
Definition stall_phase : loc := var "stall_phase".
Definition isr_while_pended : loc := var "isr_while_pended".
Definition stall_isr_htid (tid : Z) : loc := Glob "stall_isr_htid" tid.

Definition do_k0lock : proc () := exec_ K0lock.
Definition do_k0unlock : proc () := exec_ K0unlock.
Definition do_tlblock : proc () := exec_ Tlblock.
Definition do_tlbunlock : proc () := exec_ Tlbunlock.
Definition get_syscfg : proc Z := op GetSyscfg.

(** [(syscfg >> b) & 1] *)
Definition bit_of (syscfg b : Z) : Z := Z.land (Z.shiftr syscfg b) 1.

(* ------------------------------------------------------------------ *)
(** ** The SYSCFG bits *)

Definition test_k0lock_syscfg_bit : proc () :=
  printf "k0lock/k0unlock SYSCFG.KL bit" [];;
  syscfg ← get_syscfg;
  check32 84 (bit_of syscfg SYSCFG_KL_BIT) 0;;
  do_k0lock;;
  syscfg ← get_syscfg;
  check32 88 (bit_of syscfg SYSCFG_KL_BIT) 1;;
  do_k0unlock;;
  syscfg ← get_syscfg;
  check32 92 (bit_of syscfg SYSCFG_KL_BIT) 0.

Definition test_tlblock_syscfg_bit : proc () :=
  printf "tlblock/tlbunlock SYSCFG.TL bit" [];;
  syscfg ← get_syscfg;
  check32 105 (bit_of syscfg SYSCFG_TL_BIT) 0;;
  do_tlblock;;
  syscfg ← get_syscfg;
  check32 109 (bit_of syscfg SYSCFG_TL_BIT) 1;;
  do_tlbunlock;;
  syscfg ← get_syscfg;
  check32 113 (bit_of syscfg SYSCFG_TL_BIT) 0.

Definition test_locks_independent : proc () :=
  printf "k0lock and tlblock are independent" [];;
  do_k0lock;;
  syscfg ← get_syscfg;
  check32 128 (bit_of syscfg SYSCFG_KL_BIT) 1;;
  check32 129 (bit_of syscfg SYSCFG_TL_BIT) 0;;
  do_tlblock;;
  syscfg ← get_syscfg;
  check32 133 (bit_of syscfg SYSCFG_KL_BIT) 1;;
  check32 134 (bit_of syscfg SYSCFG_TL_BIT) 1;;
  do_k0unlock;;
  syscfg ← get_syscfg;
  check32 138 (bit_of syscfg SYSCFG_KL_BIT) 0;;
  check32 139 (bit_of syscfg SYSCFG_TL_BIT) 1;;
  do_tlbunlock;;
  syscfg ← get_syscfg;
  check32 143 (bit_of syscfg SYSCFG_KL_BIT) 0;;
  check32 144 (bit_of syscfg SYSCFG_TL_BIT) 0.

(* ------------------------------------------------------------------ *)
(** ** Mutual exclusion *)

Definition k0lock_counter_thread (arg : Z) : proc () :=
  for_range 0 ITERATIONS (fun i =>
    do_k0lock;;
    temp ← load k0_shared_counter;
    delay_ 4;;
    store k0_shared_counter (swrap 32 (temp + 1));;
    do_k0unlock).

Definition tlblock_counter_thread (arg : Z) : proc () :=
  for_range 0 ITERATIONS (fun i =>
    do_tlblock;;
    temp ← load tlb_shared_counter;
    delay_ 4;;
    store tlb_shared_counter (swrap 32 (temp + 1));;
    do_tlbunlock).

Definition k0lock_counter_thread_long (arg : Z) : proc () :=
  for_range 0 ITERATIONS (fun i =>
    do_k0lock;;
    temp ← load k0_shared_counter;
    delay_ 1024;;
    store k0_shared_counter (swrap 32 (temp + 1));;
    do_k0unlock).

Definition tlblock_counter_thread_long (arg : Z) : proc () :=
  for_range 0 ITERATIONS (fun i =>
    do_tlblock;;
    temp ← load tlb_shared_counter;
    delay_ 1024;;
    store tlb_shared_counter (swrap 32 (temp + 1));;
    do_tlbunlock).

(** [x++] on a shared variable: a read and a write. *)
Definition incr (l : loc) : proc () := v ← load l; store l (swrap 32 (v + 1)).

Definition lock_interrupt_handler (intno : Z) : proc () :=
  syscfg ← get_syscfg;
  (if truth (bit_of syscfg SYSCFG_KL_BIT) then incr isr_kl_set_count else mret tt);;
  (if truth (bit_of syscfg SYSCFG_TL_BIT) then incr isr_tl_set_count else mret tt);;
  incr isr_count.

Definition stall_isr (intno : Z) : proc () :=
  tid ← get_htid;
  incr (stall_isr_htid tid);;
  p ← load stall_phase;
  if truth p then incr isr_while_pended else mret tt.

Definition k0lock_holder (arg : Z) : proc () :=
  set_thread_imask 0xffffffff;;
  do_k0lock;;
  store holder_ready 1;;
  while (v ← load swis_complete; mret (negb (truth v))) (delay_ 1);;
  do_k0unlock.

Definition k0lock_waiter (arg : Z) : proc () :=
  op (FetchAdd waiters_ready 1) ≫= fun _ =>
  do_k0lock;;
  delay_ 1024;;
  do_k0unlock.

Definition tlblock_holder (arg : Z) : proc () :=
  set_thread_imask 0xffffffff;;
  do_tlblock;;
  store holder_ready 1;;
  while (v ← load swis_complete; mret (negb (truth v))) (delay_ 1);;
  do_tlbunlock.

Definition tlblock_waiter (arg : Z) : proc () :=
  op (FetchAdd waiters_ready 1) ≫= fun _ =>
  do_tlblock;;
  delay_ 1024;;
  do_tlbunlock.

(** The addresses of the functions that are passed around. *)
Definition k0lock_counter_thread_fn : Z := 2.
Definition tlblock_counter_thread_fn : Z := 3.
Definition k0lock_counter_thread_long_fn : Z := 4.
Definition tlblock_counter_thread_long_fn : Z := 5.
Definition lock_interrupt_handler_fn : Z := 6.
Definition stall_isr_fn : Z := 7.
Definition k0lock_holder_fn : Z := 8.
Definition k0lock_waiter_fn : Z := 9.
Definition tlblock_holder_fn : Z := 10.
Definition tlblock_waiter_fn : Z := 11.

Definition functions : list (Z * (Z -> proc ())) :=
  [(k0lock_counter_thread_fn, k0lock_counter_thread);
   (tlblock_counter_thread_fn, tlblock_counter_thread);
   (k0lock_counter_thread_long_fn, k0lock_counter_thread_long);
   (tlblock_counter_thread_long_fn, tlblock_counter_thread_long);
   (lock_interrupt_handler_fn, lock_interrupt_handler);
   (stall_isr_fn, stall_isr);
   (k0lock_holder_fn, k0lock_holder);
   (k0lock_waiter_fn, k0lock_waiter);
   (tlblock_holder_fn, tlblock_holder);
   (tlblock_waiter_fn, tlblock_waiter)].

(** Calling anything else ends the machine. *)
Definition client (f arg : Z) : proc () :=
  match list_find (fun x => x.1 = f) functions with
  | Some (_, (_, p)) => p arg
  | None => exit 1
  end.

Definition register_interrupt (intno f : Z) : proc () := exec_ (RegisterInterrupt intno f).

Definition create_threads (func : Z) : proc () :=
  for_range 0 COMPUTE_THREADS (fun i => create_waiting_thread func (i + 1) 0).

Definition thread_mask : Z := Z.shiftl (Z.shiftl 1 COMPUTE_THREADS - 1) 1.

Definition test_k0lock_mutual_exclusion : proc () :=
  printf "k0lock mutual exclusion (%d threads x %d iterations)" [COMPUTE_THREADS; ITERATIONS];;
  store k0_shared_counter 0;;
  create_threads k0lock_counter_thread_fn;;
  start_waiting_threads thread_mask;;
  thread_join thread_mask;;
  v ← load k0_shared_counter;
  printf "  k0lock counter: %d (expected %d)" [v; COMPUTE_THREADS * ITERATIONS];;
  v ← load k0_shared_counter;
  check32 180 v (COMPUTE_THREADS * ITERATIONS).

Definition test_tlblock_mutual_exclusion : proc () :=
  printf "tlblock mutual exclusion (%d threads x %d iterations)" [COMPUTE_THREADS; ITERATIONS];;
  store tlb_shared_counter 0;;
  create_threads tlblock_counter_thread_fn;;
  start_waiting_threads thread_mask;;
  thread_join thread_mask;;
  v ← load tlb_shared_counter;
  printf "  tlblock counter: %d (expected %d)" [v; COMPUTE_THREADS * ITERATIONS];;
  v ← load tlb_shared_counter;
  check32 214 v (COMPUTE_THREADS * ITERATIONS).

(** Fires [n] software interrupts. *)
Definition fire_swis (n : Z) : proc () := for_range 0 n (fun i => swi 1;; delay_ 1).

Definition test_k0lock_with_interrupts : proc () :=
  printf "k0lock mutual exclusion with interrupts (%d threads x %d iterations)" [COMPUTE_THREADS; ITERATIONS];;
  store k0_shared_counter 0;;
  store isr_count 0;;
  store isr_kl_set_count 0;;
  store isr_tl_set_count 0;;
  register_interrupt 0 lock_interrupt_handler_fn;;
  set_thread_imask 0xffffffff;;
  iassignw 0 1;;
  create_threads k0lock_counter_thread_long_fn;;
  start_waiting_threads thread_mask;;
  fire_swis ITERATIONS;;
  thread_join thread_mask;;
  v ← load k0_shared_counter;
  printf "  k0lock counter: %d (expected %d)" [v; COMPUTE_THREADS * ITERATIONS];;
  v ← load k0_shared_counter;
  check32 314 v (COMPUTE_THREADS * ITERATIONS);;
  n ← load isr_count;
  m ← load isr_kl_set_count;
  printf "  Interrupts taken: %d (while KL held: %d)" [n; m];;
  n ← load isr_count;
  check32_ne 319 n 0;;
  m ← load isr_kl_set_count;
  check32_ne 321 m 0.

Definition test_tlblock_with_interrupts : proc () :=
  printf "tlblock mutual exclusion with interrupts (%d threads x %d iterations)" [COMPUTE_THREADS; ITERATIONS];;
  store tlb_shared_counter 0;;
  store isr_count 0;;
  store isr_kl_set_count 0;;
  store isr_tl_set_count 0;;
  register_interrupt 0 lock_interrupt_handler_fn;;
  set_thread_imask 0xffffffff;;
  iassignw 0 1;;
  create_threads tlblock_counter_thread_long_fn;;
  start_waiting_threads thread_mask;;
  fire_swis ITERATIONS;;
  thread_join thread_mask;;
  v ← load tlb_shared_counter;
  printf "  tlblock counter: %d (expected %d)" [v; COMPUTE_THREADS * ITERATIONS];;
  v ← load tlb_shared_counter;
  check32 358 v (COMPUTE_THREADS * ITERATIONS);;
  n ← load isr_count;
  m ← load isr_tl_set_count;
  printf "  Interrupts taken: %d (while TL held: %d)" [n; m];;
  n ← load isr_count;
  check32_ne 362 n 0;;
  m ← load isr_tl_set_count;
  check32_ne 363 m 0.

(* ------------------------------------------------------------------ *)
(** ** Stalled threads *)

Definition stall_test_setup : proc () :=
  store holder_ready 0;;
  store waiters_ready 0;;
  store swis_complete 0;;
  store stall_phase 0;;
  store isr_while_pended 0;;
  for_range 0 6 (fun i => store (stall_isr_htid i) 0);;
  register_interrupt 0 stall_isr_fn;;
  set_thread_imask 0xffffffff;;
  iassignw 0 1.

Definition stall_test_fire_swis : proc () :=
  while (v ← load waiters_ready; mret (v <? 2)) (delay_ 1);;
  delay_ 200;;
  store stall_phase 1;;
  fire_swis STALL_SWIS;;
  store stall_phase 0;;
  store swis_complete 1.

Definition stall_test_verify : proc () :=
  t2 ← load (stall_isr_htid 2);
  t3 ← load (stall_isr_htid 3);
  let waiter_total := swrap 32 (t2 + t3) in
  t0 ← load (stall_isr_htid 0);
  t1 ← load (stall_isr_htid 1);
  t2 ← load (stall_isr_htid 2);
  t3 ← load (stall_isr_htid 3);
  printf "  ISR by thread: T0=%d T1=%d T2=%d T3=%d" [t0; t1; t2; t3];;
  w ← load isr_while_pended;
  printf "  ISR while pended on lock: %d" [w];;
  t0 ← load (stall_isr_htid 0);
  check32 504 t0 0;;
  t1 ← load (stall_isr_htid 1);
  check32 506 t1 0;;
  check32_ne 514 waiter_total 0;;
  w ← load isr_while_pended;
  check32 521 w 0.

Definition join_mask : Z := Z.lor (Z.lor (Z.shiftl 1 1) (Z.shiftl 1 2)) (Z.shiftl 1 3).

Definition test_k0lock_stall_no_interrupt : proc () :=
  printf "stalled k0lock thread does not service interrupts" [];;
  stall_test_setup;;
  create_waiting_thread k0lock_holder_fn 1 0;;
  start_waiting_threads (Z.shiftl 1 1);;
  while (v ← load holder_ready; mret (negb (truth v))) (delay_ 1);;
  create_waiting_thread k0lock_waiter_fn 2 0;;
  create_waiting_thread k0lock_waiter_fn 3 0;;
  start_waiting_threads (Z.lor (Z.shiftl 1 2) (Z.shiftl 1 3));;
  stall_test_fire_swis;;
  thread_join join_mask;;
  stall_test_verify.

Definition test_tlblock_stall_no_interrupt : proc () :=
  printf "stalled tlblock thread does not service interrupts" [];;
  stall_test_setup;;
  create_waiting_thread tlblock_holder_fn 1 0;;
  start_waiting_threads (Z.shiftl 1 1);;
  while (v ← load holder_ready; mret (negb (truth v))) (delay_ 1);;
  create_waiting_thread tlblock_waiter_fn 2 0;;
  create_waiting_thread tlblock_waiter_fn 3 0;;
  start_waiting_threads (Z.lor (Z.shiftl 1 2) (Z.shiftl 1 3));;
  stall_test_fire_swis;;
  thread_join join_mask;;
  stall_test_verify.

Definition lock_verify_main : proc () :=
  test_k0lock_syscfg_bit;;
  test_tlblock_syscfg_bit;;
  test_locks_independent;;
  test_k0lock_mutual_exclusion;;
  test_tlblock_mutual_exclusion;;
  test_k0lock_with_interrupts;;
  test_tlblock_with_interrupts;;
  test_k0lock_stall_no_interrupt;;
  test_tlblock_stall_no_interrupt;;
  e ← load err;
  printf (if truth e then "FAIL" else "PASS") [];;
  e ← load err;
  exit (if truth e then 1 else 0).
