(* ===== verification/LockVerifyInv.v ===== *)
(** The invariant of the lock test: who holds which lock, who has contributed
    what to the shared counters, and which checks may have failed. *)

From S2P Require Import Prelude Threads ThreadLogic ThreadCommon ThreadTest LockVerify.

Open Scope string_scope.
Open Scope list_scope.
Open Scope Z_scope.

Inductive kind := K0 | TL.

#[export] Instance kind_eq_dec : EqDecision kind.
Proof. solve_decision. Defined.

Definition lock_bit (k : kind) : Z := match k with K0 => SYSCFG_KL_BIT | TL => SYSCFG_TL_BIT end.
Definition counter (k : kind) : loc := match k with K0 => k0_shared_counter | TL => tlb_shared_counter end.

Definition upd {A} (f : kind -> A) (k : kind) (a : A) : kind -> A := fun k' => if decide (k' = k) then a else f k'.

Lemma upd_eq {A} (f : kind -> A) k a : upd f k a k = a.
Proof. unfold upd. by rewrite decide_True. Qed.
Lemma upd_ne {A} (f : kind -> A) k k' a : k' <> k -> upd f k a k' = f k'.
Proof. intros. unfold upd. by rewrite decide_False. Qed.

(** The ghost of a thread: the locks it holds, what it has read of a counter in
    its critical section, what it has added to the counters and what it will
    have added when it stops.  For the main thread, [goal] is that of its
    children, [cnt] includes what the joined children added, and there are its
    children, the failed checks it has printed and those it has counted, whether
    it has masked its interrupts and whether [stall_isr_htid[0]] is known to be
    0. *)
Record gh := Gh {
  hold : kind -> bool;
  seen : kind -> option Z;
  cnt : kind -> Z;
  goal : kind -> Z;
  kids : gset Z;
  printed : Z;
  counted : Z;
  m0 : bool;
  z0 : bool
}.

Definition worker (goal : kind -> Z) : gh :=
  Gh (fun _ => false) (fun _ => None) (fun _ => 0) goal ∅ 0 0 false false.
Definition idle : gh := worker (fun _ => 0).

Definition set_hold k b g := Gh (upd (hold g) k b) (seen g) (cnt g) (goal g) (kids g) (printed g) (counted g) (m0 g) (z0 g).
Definition set_seen k v g := Gh (hold g) (upd (seen g) k v) (cnt g) (goal g) (kids g) (printed g) (counted g) (m0 g) (z0 g).
Definition set_cnt c g := Gh (hold g) (seen g) c (goal g) (kids g) (printed g) (counted g) (m0 g) (z0 g).
Definition set_goal c g := Gh (hold g) (seen g) (cnt g) c (kids g) (printed g) (counted g) (m0 g) (z0 g).
Definition set_kids x g := Gh (hold g) (seen g) (cnt g) (goal g) x (printed g) (counted g) (m0 g) (z0 g).
Definition set_printed n g := Gh (hold g) (seen g) (cnt g) (goal g) (kids g) n (counted g) (m0 g) (z0 g).
Definition set_counted n g := Gh (hold g) (seen g) (cnt g) (goal g) (kids g) (printed g) n (m0 g) (z0 g).
Definition set_m0 g := Gh (hold g) (seen g) (cnt g) (goal g) (kids g) (printed g) (counted g) true (z0 g).
Definition set_z0 b g := Gh (hold g) (seen g) (cnt g) (goal g) (kids g) (printed g) (counted g) (m0 g) b.

(** The checks that depend on the timing of interrupts, by line. *)
Definition timing_lines : list Z := [319; 321; 362; 363; 506; 514; 521].

(** The variables whose value does not matter to the invariant. *)
Definition misc_var (x : string) (i : Z) : bool :=
  ((i =? 0) && existsb (String.eqb x) (["isr_count"; "isr_kl_set_count"; "isr_tl_set_count"; "holder_ready";
     "waiters_ready"; "swis_complete"; "stall_phase"; "isr_while_pended"])) ||
  ((1 <=? i) && (i <? 6) && String.eqb x "stall_isr_htid").

(** The slot of the main thread. *)
Abbreviation main := (0, false).

Section inv.
Context `{HL : CpuLaws}.
Implicit Types (σ : machine) (δ : gmap slot gh) (s : slot) (g : gh).

Definition total k δ : Z :=
  foldr (fun t z => from_option (fun g => cnt g k) 0 (δ !! (t, false)) + z) 0 [0; 1; 2; 3].

Record inv σ δ : Prop := {
  i_misc x i : misc_var x i = true -> is_Some (memory σ !! Glob x i);
  i_htid0 : is_Some (memory σ !! stall_isr_htid 0);
  i_lock k : Z.testbit (syscfg (locks σ)) (lock_bit k) = true <->
    exists s g, δ !! s = Some g /\ hold g k = true;
  i_excl k s g s' g' : δ !! s = Some g -> δ !! s' = Some g' ->
    hold g k = true -> hold g' k = true -> s = s';
  i_seen k s g v : δ !! s = Some g -> seen g k = Some v ->
    hold g k = true /\ memory σ !! counter k = Some v;
  i_total k : memory σ !! counter k = Some (swrap 32 (total k δ));
  i_isr t g : δ !! (t, true) = Some g -> g = idle /\ is_Some (δ !! (t, false));
  i_handlers n h : handlers σ !! n = Some h -> h = lock_interrupt_handler_fn \/ h = stall_isr_fn;
  i_main : exists g, δ !! (0, false) = Some g /\
    (forall t, t ∈ kids g <-> t <> 0 /\ is_Some (δ !! (t, false))) /\ kids g ⊆ {[1; 2; 3]} /\
    (forall t g', t <> 0 -> δ !! (t, false) = Some g' -> goal g' = goal g) /\
    memory σ !! err = Some (swrap 32 (counted g)) /\
    Z.of_nat (length (failed_lines (output σ))) = printed g /\
    (m0 g = true -> imask (interrupts σ) 0 = 0xffffffff /\ δ !! (0, true) = None) /\
    (z0 g = true -> m0 g = true /\ memory σ !! stall_isr_htid 0 = Some 0);
  i_lines : Forall (fun l => l ∈ timing_lines) (failed_lines (output σ))
}.

(** The parts of the machine the invariant depends on. *)
Lemma inv_frame σ σ' δ : inv σ δ ->
  (forall x i, misc_var x i = true -> is_Some (memory σ' !! Glob x i)) ->
  (forall k, memory σ' !! counter k = memory σ !! counter k) ->
  memory σ' !! err = memory σ !! err ->
  memory σ' !! stall_isr_htid 0 = memory σ !! stall_isr_htid 0 ->
  locks σ' = locks σ -> handlers σ' = handlers σ -> output σ' = output σ ->
  imask (interrupts σ') 0 = imask (interrupts σ) 0 -> inv σ' δ.
Proof.
  intros [H1 H1' H2 H3 H4 H5 H6 H7 (g & G1 & G2 & G3 & G4 & G5 & G6 & G7 & G8) H9] Em Ec Ee Eh El Eha Eo Ei.
  split; try done.
  - by rewrite Eh.
  - intros k. by rewrite El.
  - intros k s g' v. rewrite Ec. apply H4.
  - intros k. by rewrite Ec.
  - by rewrite Eha.
  - exists g. rewrite Ee, Eo, Ei, Eh. by split_and!.
  - by rewrite Eo.
Qed.

Lemma inv_same σ σ' δ : same_client σ σ' -> inv σ δ -> inv σ' δ.
Proof.
  intros [E1 E2 E3 E4 E5 E6 E7] Hi. apply (inv_frame σ); try done.
  - intros x i Hx. rewrite E1; [by eapply i_misc|].
    unfold misc_var in Hx. unfold lib_var.
    destruct (bool_decide_reflect (x = "thread_semaphore")) as [->|]; [|destruct (bool_decide_reflect (x = "vals")) as [->|]; [|done]];
      exfalso; simpl in Hx; by rewrite !andb_false_r in Hx.
  - intros []; by apply E1.
  - by apply E1.
  - by apply E1.
  - by rewrite E3.
Qed.

Lemma total_insert k δ t g g' : δ !! (t, false) = Some g -> 0 <= t < 4 ->
  total k (<[(t, false) := g']> δ) = total k δ + cnt g' k - cnt g k.
Proof.
  intros Hg Ht. unfold total.
  assert (t = 0 \/ t = 1 \/ t = 2 \/ t = 3) as [-> |[-> |[-> | ->]]] by lia;
    cbn [foldr]; rewrite lookup_insert_eq, !lookup_insert_ne, Hg by congruence; cbn [from_option]; lia.
Qed.

Lemma total_same k δ s g g' : δ !! s = Some g -> cnt g' k = cnt g k ->
  total k (<[s := g']> δ) = total k δ.
Proof.
  intros Hg Hc. unfold total. induction [0; 1; 2; 3] as [|t l IH]; [done|]. cbn [foldr]. rewrite IH. f_equal.
  destruct (decide (s = (t, false))) as [->|Hne].
  - by rewrite lookup_insert_eq, Hg.
  - by rewrite lookup_insert_ne.
Qed.

(** A slot that is not tracked by the counters. *)
Lemma total_other k δ s g : (forall t, 0 <= t < 4 -> s <> (t, false)) -> total k (<[s := g]> δ) = total k δ.
Proof.
  intros Hs. unfold total.
  assert (forall t, In t [0; 1; 2; 3] -> 0 <= t < 4) as Hin by (simpl; lia).
  induction [0; 1; 2; 3] as [|t l IH]; [done|]. cbn [foldr].
  rewrite IH by (intros; apply Hin; by right). f_equal. rewrite lookup_insert_ne; [done|]. apply Hs, Hin. by left.
Qed.

(** The ghosts agree on what concerns the main thread. *)
Definition same_main g g' : Prop :=
  goal g' = goal g /\ kids g' = kids g /\ printed g' = printed g /\ counted g' = counted g /\
  m0 g' = m0 g /\ z0 g' = z0 g.

Definition bit_set σ k : bool := Z.testbit (syscfg (locks σ)) (lock_bit k).

(** A thread changes what it holds, has seen or has added. *)
Lemma inv_update σ σ' δ t g g' : inv σ δ -> δ !! (t, false) = Some g -> same_main g g' ->
  (forall x i, misc_var x i = true -> is_Some (memory σ' !! Glob x i)) ->
  memory σ' !! err = memory σ !! err ->
  memory σ' !! stall_isr_htid 0 = memory σ !! stall_isr_htid 0 ->
  handlers σ' = handlers σ -> output σ' = output σ -> interrupts σ' = interrupts σ ->
  (forall k, hold g' k = hold g k /\ bit_set σ' k = bit_set σ k \/
     hold g' k = true /\ bit_set σ k = false /\ bit_set σ' k = true \/
     hold g k = true /\ hold g' k = false /\ bit_set σ' k = false) ->
  (forall k v, seen g' k = Some v -> hold g' k = true /\ memory σ' !! counter k = Some v) ->
  (forall k, memory σ' !! counter k = memory σ !! counter k \/ hold g k = true \/
     forall s h, δ !! s = Some h -> s <> (t, false) -> seen h k = None) ->
  (forall k, memory σ' !! counter k = Some (swrap 32 (total k δ + cnt g' k - cnt g k))) ->
  (0 <= t < 4 \/ cnt g' = cnt g) ->
  inv σ' (<[(t, false) := g']> δ).
Proof.
  intros [H1 H1' H2 H3 H4 H5 H6 H7 (gm & G1 & G2 & G3 & G4 & G5 & G6 & G7 & G8) H9] Hg (S1 & S2 & S3 & S4 & S5 & S6)
    Em Ee Eh Eha Eo Ei Hl Hs Hw Hc Ht.
  assert (forall k, total k (<[(t, false) := g']> δ) = total k δ + cnt g' k - cnt g k) as Htot.
  { intros k. destruct Ht as [Ht|Ht]; [by apply total_insert|].
    rewrite (total_same k δ _ g) by (done || by rewrite Ht). rewrite Ht. lia. }
  split; try done.
  - by rewrite Eh.
  - intros k. fold (bit_set σ' k). fold (bit_set σ k) in H2. split.
    + intros Hb. destruct (Hl k) as [[E1 E2]|[(E1 & E2 & E3)|(E1 & E2 & E3)]]; [|by exists (t, false), g'; rewrite lookup_insert_eq|congruence].
      rewrite E2 in Hb. apply H2 in Hb as (s & h & Hh & Hhk). destruct (decide (s = (t, false))) as [->|Hne].
      * exists (t, false), g'. rewrite lookup_insert_eq. split; [done|]. congruence.
      * exists s, h. by rewrite lookup_insert_ne.
    + intros (s & h & Hh & Hhk). destruct (decide (s = (t, false))) as [->|Hne].
      * rewrite lookup_insert_eq in Hh. injection Hh as <-.
        destruct (Hl k) as [[E1 E2]|[(E1 & E2 & E3)|(E1 & E2 & E3)]]; [|done|congruence].
        rewrite E2. apply H2. exists (t, false), g. split; [done|congruence].
      * rewrite lookup_insert_ne in Hh by done.
        assert (bit_set σ k = true) as Hb by (apply H2; eauto).
        destruct (Hl k) as [[E1 E2]|[(E1 & E2 & E3)|(E1 & E2 & E3)]]; [congruence|congruence|].
        destruct Hne. by eapply H3.
  - intros k s1 g1 s2 g2 L1 L2 E1 E2.
    assert (forall s h, s <> (t, false) -> <[(t, false) := g']> δ !! s = Some h -> hold h k = true -> hold g' k = true -> False) as Hx.
    { intros s h Hne Hh Hhk Hk. rewrite lookup_insert_ne in Hh by done.
      assert (bit_set σ k = true) as Hb by (apply H2; eauto).
      destruct (Hl k) as [[F1 F2]|[(F1 & F2 & F3)|(F1 & F2 & F3)]]; [|congruence|congruence].
      destruct Hne. eapply H3; [done|exact Hg|done|congruence]. }
    destruct (decide (s1 = (t, false))) as [->|N1], (decide (s2 = (t, false))) as [->|N2]; [done| | |].
    + rewrite lookup_insert_eq in L1. injection L1 as <-. by edestruct Hx.
    + rewrite lookup_insert_eq in L2. injection L2 as <-. by edestruct Hx.
    + rewrite lookup_insert_ne in L1 by done. rewrite lookup_insert_ne in L2 by done. eauto.
  - intros k s h v Hh Hv. destruct (decide (s = (t, false))) as [->|Hne].
    + rewrite lookup_insert_eq in Hh. injection Hh as <-. by apply Hs.
    + rewrite lookup_insert_ne in Hh by done. destruct (H4 _ _ _ _ Hh Hv) as [E1 E2]. split; [done|].
      destruct (Hw k) as [Ew|[Ew|Ew]]; [congruence| |].
      * destruct Hne. by eapply H3.
      * by rewrite (Ew s h) in Hv.
  - intros k. by rewrite Htot.
  - intros u h Hh. rewrite lookup_insert_ne in Hh by congruence. destruct (H6 _ _ Hh) as [? Hu]. split; [done|].
    destruct (decide (u = t)) as [->|]; [by rewrite lookup_insert_eq|by rewrite lookup_insert_ne by congruence].
  - by rewrite Eha.
  - assert (forall u, is_Some (<[(t, false) := g']> δ !! (u, false)) <-> is_Some (δ !! (u, false))) as Hd.
    { intros u. destruct (decide (u = t)) as [->|]; [by rewrite lookup_insert_eq, Hg|by rewrite lookup_insert_ne by congruence]. }
    destruct (decide (t = 0)) as [->|Ht0].
    + assert (gm = g) as -> by congruence. exists g'. rewrite lookup_insert_eq, S1, S2, S3, S4, S5, S6, Ee, Eo, Ei, Eh.
      rewrite lookup_insert_ne by congruence. split_and!; try done.
      * intros u. by rewrite Hd.
      * intros u h Hu Hh. rewrite lookup_insert_ne in Hh by congruence. by apply (G4 u).
    + exists gm. rewrite lookup_insert_ne by congruence. rewrite Ee, Eo, Ei, Eh.
      rewrite lookup_insert_ne by congruence. split_and!; try done.
      * intros u. by rewrite Hd.
      * intros u h Hu Hh. destruct (decide (u = t)) as [->|].
        -- rewrite lookup_insert_eq in Hh. injection Hh as <-. rewrite S1. by apply (G4 t).
        -- rewrite lookup_insert_ne in Hh by congruence. by apply (G4 u).
  - by rewrite Eo.
Qed.
End inv.

(** Closes what a change of the main thread's ghost does not touch. *)
Ltac kept Hi :=
  first [done | exact (i_misc _ _ Hi) | exact (i_htid0 _ _ Hi) | exact (i_handlers _ _ Hi)
        | exact (i_lines _ _ Hi) | by left | by right].
