(* ===== verification/LockVerifyRules.v ===== *)
(** The rules of the lock test: what each kind of instruction does to the
    ghosts of its invariant. *)

From S2P Require Import Prelude Threads ThreadLogic ThreadCommon ThreadTest LockVerify LockVerifyInv.

Open Scope string_scope.
Open Scope list_scope.
Open Scope Z_scope.

Definition lock_instr (k : kind) : instr := match k with K0 => K0lock | TL => Tlblock end.
Definition unlock_instr (k : kind) : instr := match k with K0 => K0unlock | TL => Tlbunlock end.

(** What a worker adds to the counters, by its function. *)
Definition only (k : kind) (n : Z) : kind -> Z := upd (fun _ => 0) k n.

Definition worker_goal (f : Z) : option (kind -> Z) :=
  if bool_decide (f ∈ [k0lock_counter_thread_fn; k0lock_counter_thread_long_fn]) then Some (only K0 ITERATIONS)
  else if bool_decide (f ∈ [tlblock_counter_thread_fn; tlblock_counter_thread_long_fn]) then Some (only TL ITERATIONS)
  else if bool_decide (f ∈ [k0lock_holder_fn; k0lock_waiter_fn; tlblock_holder_fn; tlblock_waiter_fn])
  then Some (fun _ => 0) else None.

(** A worker that has done its work. *)
Definition stopped (g : gh) : Prop :=
  forall k, hold g k = false /\ seen g k = None /\ cnt g k = goal g k.

Definition CSpec (f a : Z) (s : slot) (g : gh) (R : gh -> Prop) : Prop :=
  (f = lock_interrupt_handler_fn \/ f = stall_isr_fn) /\ s.2 = true /\ g = idle /\ (forall g', g' = idle -> R g') \/
  exists c t, worker_goal f = Some c /\ s = (t, false) /\ 0 < t < 4 /\ g = worker c /\ (forall g', stopped g' -> R g').

Definition CFin (t : Z) (g : gh) : Prop := stopped g.

Section rules.
Context `{HL : CpuLaws}.
Implicit Types (σ : machine) (δ : gmap slot gh) (s : slot) (g : gh) (w : option (Z * Z * Z)).

(** The machine exits with 0 only when no check has failed, and only checks
    that depend on timing may have failed. *)
Definition exit_ok (e : Z) σ : Prop :=
  Forall (fun l => l ∈ timing_lines) (failed_lines (output σ)) /\
  (e = 0 /\ failed_lines (output σ) = [] \/ e = 1).

Abbreviation twp := (wpt (Inv inv) (Spec CSpec) (Fin CFin) exit_ok).

Lemma exec_lock k t σ :
  if bit_set σ k then exec t (lock_instr k) σ = Stall
  else exists l, exec t (lock_instr k) σ = Next 0 (with_locks l σ) /\
    forall k', bit_set (with_locks l σ) k' = if decide (k' = k) then true else bit_set σ k'.
Proof.
  unfold bit_set. destruct k; cbn [lock_bit lock_instr exec]; unfold take_lock.
  - destruct (Z.testbit _ _) eqn:E1; [by rewrite k0lock_held|].
    destruct (k0lock_free t _ E1) as (l & -> & El). exists l. split; [done|]. intros k'. cbn [locks with_locks]. rewrite El.
    destruct k'; cbn [lock_bit]; [by rewrite Z.setbit_eq|by rewrite Z.setbit_neq].
  - destruct (Z.testbit _ _) eqn:E1; [by rewrite tlblock_held|].
    destruct (tlblock_free t _ E1) as (l & -> & El). exists l. split; [done|]. intros k'. cbn [locks with_locks]. rewrite El.
    destruct k'; cbn [lock_bit]; [by rewrite Z.setbit_neq|by rewrite Z.setbit_eq].
Qed.

Lemma exec_unlock k t σ : exists l, exec t (unlock_instr k) σ = Next 0 (with_locks l σ) /\
  forall k', bit_set (with_locks l σ) k' = if decide (k' = k) then false else bit_set σ k'.
Proof.
  unfold bit_set. destruct k; cbn [unlock_instr exec]; eexists; (split; [done|]);
    intros k'; cbn [locks with_locks].
  - rewrite k0unlock_syscfg. destruct k'; cbn [lock_bit]; [by rewrite Z.clearbit_eq|by rewrite Z.clearbit_neq].
  - rewrite tlbunlock_syscfg. destruct k'; cbn [lock_bit]; [by rewrite Z.clearbit_neq|by rewrite Z.clearbit_eq].
Qed.

Lemma same_main_refl g : same_main g g.
Proof. done. Qed.

(** Taking a lock the thread does not hold. *)
Lemma wp_lock {A : Type} k (f : Z -> proc A) t w g Q : hold g k = false ->
  twp (t, false) (f 0) Q (w, set_hold k true g) -> twp (t, false) (Do (lock_instr k) f) Q (w, g).
Proof.
  intros Hk Hw. apply wp_client; [by destruct k|]. intros σ δ Hi Hg _. cbn [fst].
  pose proof (exec_lock k t σ) as He. destruct (bit_set σ k) eqn:Eb; [by rewrite He|].
  destruct He as (l & -> & Hl). exists (set_hold k true g). split; [|done].
  apply inv_update with σ g; try done.
  - apply (i_misc _ _ Hi).
  - intros k'. rewrite Hl. simpl. unfold upd. case_decide as Hd; [|by left]. subst k'. by right; left.
  - intros k' v Hv. simpl in *. destruct (i_seen _ _ Hi _ _ _ _ Hg Hv) as [Hh Hm].
    split; [|done]. unfold upd. by case_decide.
  - by left.
  - intros k'. simpl. rewrite (i_total _ _ Hi k'). do 2 f_equal. lia.
  - by right.
Qed.

(** Releasing a lock. *)
Lemma wp_unlock {A : Type} k (f : Z -> proc A) t w g Q : hold g k = true -> seen g k = None ->
  twp (t, false) (f 0) Q (w, set_hold k false g) -> twp (t, false) (Do (unlock_instr k) f) Q (w, g).
Proof.
  intros Hk Hs Hw. apply wp_client; [by destruct k|]. intros σ δ Hi Hg _. cbn [fst].
  destruct (exec_unlock k t σ) as (l & -> & Hl). exists (set_hold k false g). split; [|done].
  apply inv_update with σ g; try done.
  - apply (i_misc _ _ Hi).
  - intros k'. rewrite Hl. simpl. unfold upd. case_decide as Hd; [|by left]. subst k'. by right; right.
  - intros k' v Hv. simpl in *. destruct (i_seen _ _ Hi _ _ _ _ Hg Hv) as [Hh Hm].
    split; [|done]. unfold upd. case_decide; [|done]. congruence.
  - by left.
  - intros k'. simpl. rewrite (i_total _ _ Hi k'). do 2 f_equal. lia.
  - by right.
Qed.

(** Reading a counter in its critical section. *)
Lemma wp_see {A : Type} k (f : Z -> proc A) t w g Q : hold g k = true ->
  (forall v, twp (t, false) (f v) Q (w, set_seen k (Some v) g)) ->
  twp (t, false) (Do (Load (counter k)) f) Q (w, g).
Proof.
  intros Hk Hw. apply wp_client; [done|]. intros σ δ Hi Hg _. cbn [fst exec].
  rewrite (i_total _ _ Hi k). eexists. split; [|apply Hw].
  apply inv_update with σ g; try done.
  - apply (i_misc _ _ Hi).
  - by left.
  - intros k' v Hv. simpl in *. unfold upd in Hv. case_decide as Hd.
    + subst k'. injection Hv as <-. split; [done|]. apply (i_total _ _ Hi).
    + by apply (i_seen _ _ Hi _ _ _ _ Hg).
  - by left.
  - intros k'. simpl. rewrite (i_total _ _ Hi k'). do 2 f_equal. lia.
  - by right.
Qed.

Lemma counter_misc k x i : misc_var x i = true -> Glob x i <> counter k.
Proof.
  unfold misc_var. intros Hx He. destruct k; injection He as -> ->; done.
Qed.

Lemma counter_inj k k' : counter k = counter k' -> k = k'.
Proof. by destruct k, k'. Qed.

Lemma swrap_add_l n a b : 0 < n -> swrap n (swrap n a + b) = swrap n (a + b).
Proof.
  intros Hn. unfold swrap. f_equal.
  replace ((a + 2 ^ (n - 1)) mod 2 ^ n - 2 ^ (n - 1) + b + 2 ^ (n - 1))
    with ((a + 2 ^ (n - 1)) mod 2 ^ n + b) by lia.
  rewrite Zplus_mod_idemp_l. f_equal. lia.
Qed.

(** Writing back what was read, plus one. *)
Lemma wp_bump {A : Type} k (f : Z -> proc A) t w g v Q : 0 <= t < 4 -> hold g k = true -> seen g k = Some v ->
  twp (t, false) (f 0) Q (w, set_cnt (upd (cnt g) k (cnt g k + 1)) (set_seen k None g)) ->
  twp (t, false) (Do (Store (counter k) (swrap 32 (v + 1))) f) Q (w, g).
Proof.
  intros Ht Hk Hv Hw. apply wp_client; [by destruct k|]. intros σ δ Hi Hg _. cbn [fst exec].
  destruct (i_seen _ _ Hi _ _ _ _ Hg Hv) as [_ Hm]. pose proof (i_total _ _ Hi k) as Htot.
  rewrite Hm. eexists. split; [|exact Hw].
  apply inv_update with σ g; try done; try (destruct k; by apply memory_write_ne).
  - intros x i Hx. apply memory_write_is_Some, (i_misc _ _ Hi), Hx.
  - by left.
  - intros k' v' Hv'. simpl in Hv'. unfold upd in Hv'. case_decide as Hd; [done|].
    destruct (i_seen _ _ Hi _ _ _ _ Hg Hv') as [Hh Hm']. split; [done|].
    rewrite memory_write_ne; [done|]. intros Hc. by apply Hd, counter_inj.
  - intros k'. destruct (decide (k' = k)) as [->|Hne]; [by right; left|].
    left. apply memory_write_ne. intros Hc. by apply Hne, counter_inj.
  - intros k'. simpl. unfold upd. case_decide as Hd.
    + subst k'. rewrite lookup_insert_eq. f_equal. rewrite Hm in Htot. injection Htot as ->.
      rewrite swrap_add_l by lia. f_equal. lia.
    + rewrite lookup_insert_ne by (intros Hc; by apply Hd, counter_inj).
      rewrite (i_total _ _ Hi k'). do 2 f_equal. lia.
  - by left.
Qed.


(* ------------------------------------------------------------------ *)
(** ** Instructions that leave the ghosts alone *)

(** A machine that differs only in variables that do not matter. *)
Lemma inv_misc_store σ δ t x i v : misc_var x i = true -> inv σ δ -> inv (write t (Glob x i) v σ) δ.
Proof.
  intros Hx Hi. apply (inv_frame σ); try done.
  - intros y j Hy. by apply memory_write_is_Some, (i_misc _ _ Hi).
  - intros k. apply memory_write_ne. intros Hc. by eapply counter_misc.
  - apply memory_write_ne. intros [= <- <-]. done.
  - apply memory_write_ne. intros [= <- <-]. done.
Qed.

Lemma misc_lib x i : misc_var x i = true -> lib_var x = false.
Proof.
  unfold misc_var, lib_var. intros Hx.
  destruct (bool_decide_reflect (x = "thread_semaphore")) as [->|]; [|destruct (bool_decide_reflect (x = "vals")) as [->|]; [|done]];
    exfalso; simpl in Hx; by rewrite !andb_false_r in Hx.
Qed.

Lemma wp_misc_store {A : Type} x i v (f : Z -> proc A) s w g Q : misc_var x i = true ->
  twp s (f 0) Q (w, g) -> twp s (Do (Store (Glob x i) v) f) Q (w, g).
Proof.
  intros Hx Hw. apply wp_client; [by eapply misc_lib|]. intros σ δ Hi Hg _. cbn [exec].
  destruct (i_misc _ _ Hi _ _ Hx) as [v' ->]. exists g. rewrite (insert_id δ s g) by done.
  split; [by apply inv_misc_store|done].
Qed.

Lemma wp_misc_add {A : Type} x i v (f : Z -> proc A) s w g Q : misc_var x i = true ->
  (forall n, twp s (f n) Q (w, g)) -> twp s (Do (FetchAdd (Glob x i) v) f) Q (w, g).
Proof.
  intros Hx Hw. apply wp_client; [by eapply misc_lib|]. intros σ δ Hi Hg _. cbn [exec].
  destruct (i_misc _ _ Hi _ _ Hx) as [v' ->]. exists g. rewrite (insert_id δ s g) by done.
  split; [by apply inv_misc_store|done].
Qed.

Lemma wp_misc_load {A : Type} x i (f : Z -> proc A) s w g Q : misc_var x i = true ->
  (forall n, twp s (f n) Q (w, g)) -> twp s (Do (Load (Glob x i)) f) Q (w, g).
Proof.
  intros Hx Hw. apply wp_quiet; [done|]. intros σ δ Hi Hg. cbn [exec].
  destruct (i_misc _ _ Hi _ _ Hx) as [v' ->]. eauto.
Qed.

Lemma wp_incr x i s w g (Q : () -> work_ghost gh -> Prop) : misc_var x i = true ->
  Q tt (w, g) -> twp s (incr (Glob x i)) Q (w, g).
Proof. intros Hx HQ. apply wp_misc_load; [done|]. intros n. by apply wp_misc_store. Qed.

(** Printing a line that is not that of a failed check. *)
Definition plain (f : string) : Prop := f <> check32_format /\ f <> check32_ne_format.

Lemma failed_lines_app o1 o2 : failed_lines (o1 ++ o2) = failed_lines o1 ++ failed_lines o2.
Proof. unfold failed_lines. by rewrite omap_app. Qed.

Lemma failed_lines_plain f args : plain f -> failed_lines [(f, args)] = [].
Proof. intros [H1 H2]. unfold failed_lines. simpl. by rewrite decide_False by tauto. Qed.

Lemma wp_printf {A : Type} f args (k : Z -> proc A) s w g Q : plain f ->
  twp s (k 0) Q (w, g) -> twp s (Do (Printf f args) k) Q (w, g).
Proof.
  intros Hf Hw. apply wp_client; [done|]. intros σ δ Hi Hg _. cbn [exec].
  exists g. rewrite (insert_id δ s g) by done. split; [|done].
  destruct Hi as [H1 H1' H2 H3 H4 H5 H6 H7 (gm & G) H9].
  assert (failed_lines (output σ ++ [(f, args)]) = failed_lines (output σ)) as Eo
    by (by rewrite failed_lines_app, failed_lines_plain, app_nil_r).
  split; try done; simpl; rewrite ?Eo; [|done]. by exists gm.
Qed.

Lemma inv_interrupts σ δ i : imask i 0 = imask (interrupts σ) 0 -> inv σ δ -> inv (with_interrupts i σ) δ.
Proof. intros Hm Hi. apply (inv_frame σ); try done. apply (i_misc _ _ Hi). Qed.

Lemma wp_interrupt_instr {A : Type} i (k : Z -> proc A) s w g Q :
  match i with
  | Iassignw _ | Swi _ | Ciad _ => True
  | SetImask _ => s.1 <> 0
  | RegisterInterrupt _ f => f = lock_interrupt_handler_fn \/ f = stall_isr_fn
  | _ => False
  end ->
  twp s (k 0) Q (w, g) -> twp s (Do i k) Q (w, g).
Proof.
  intros Hc Hw. apply wp_client; [by destruct i|]. intros σ δ Hi Hg _.
  destruct i; try done; cbn [exec]; exists g; rewrite (insert_id δ s g) by done; (split; [|done]).
  - apply inv_interrupts; [|done]. by rewrite set_imask_imask, decide_False.
  - apply inv_interrupts; [|done]. apply iassign_imask.
  - apply inv_interrupts; [|done]. apply raise_imask.
  - apply inv_interrupts; [|done]. apply ciad_imask.
  - destruct Hi as [H1 H1' H2 H3 H4 H5 H6 H7 (gm & G) H9]. split; try done; [|by exists gm].
    simpl. intros m h. rewrite lookup_insert_Some. intros [[_ <-]|[_ Hh]]; [done|eauto].
Qed.

(** The state of the locks, as an interrupt handler sees it. *)
Lemma wp_get_syscfg {A : Type} (k : Z -> proc A) s w g Q :
  (forall v, twp s (k v) Q (w, g)) -> twp s (Do GetSyscfg k) Q (w, g).
Proof. intros Hw. apply wp_quiet; [done|]. intros σ δ Hi Hg. cbn [exec]. eauto. Qed.

(* ------------------------------------------------------------------ *)
(** ** Instructions of the main thread *)

(** With no child left, the main thread's ghost tells all. *)
Lemma alone_ghosts σ δ g s h : inv σ δ -> δ !! main = Some g -> kids g = ∅ -> δ !! s = Some h ->
  s = main \/ h = idle.
Proof.
  intros Hi Hg Hk Hh. destruct s as [t []]; [right; by apply (i_isr _ _ Hi t)|left].
  destruct (decide (t = 0)) as [->|Ht]; [done|].
  destruct (i_main _ _ Hi) as (gm & G1 & G2 & _). assert (gm = g) as -> by congruence.
  assert (t ∈ kids g) as Hin by (apply G2; eauto). set_solver.
Qed.

Lemma alone_lock σ δ g k : inv σ δ -> δ !! main = Some g -> kids g = ∅ -> bit_set σ k = hold g k.
Proof.
  intros Hi Hg Hk. apply eq_bool_prop_intro. rewrite !Is_true_true. unfold bit_set. rewrite (i_lock _ _ Hi). split.
  - intros (s & h & Hh & Hhk). destruct (alone_ghosts _ _ _ _ _ Hi Hg Hk Hh) as [->| ->]; [congruence|done].
  - intros Hhk. by exists main, g.
Qed.

Lemma alone_total σ δ g k : inv σ δ -> δ !! main = Some g -> kids g = ∅ -> total k δ = cnt g k.
Proof.
  intros Hi Hg Hk. unfold total. cbn [foldr]. rewrite Hg.
  assert (forall t, t <> 0 -> δ !! (t, false) = None) as Hn.
  { intros t Ht. destruct (δ !! (t, false)) as [h|] eqn:E1; [|done].
    destruct (i_main _ _ Hi) as (gm & G1 & G2 & _). assert (gm = g) as -> by congruence.
    assert (t ∈ kids g) as Hin by (apply G2; eauto). set_solver. }
  rewrite !Hn by done. cbn [from_option]. lia.
Qed.

Lemma bit_of_testbit v b : 0 <= b -> bit_of v b = if Z.testbit v b then 1 else 0.
Proof.
  intros Hb. unfold bit_of. change 1 with (Z.ones 1) at 1. rewrite Z.land_ones by lia. change (2 ^ 1) with 2.
  rewrite Zmod_odd, <- Z.bit0_odd, Z.shiftr_spec, Z.add_0_l by lia. done.
Qed.

Lemma wp_alone_syscfg {A : Type} (f : Z -> proc A) w g Q : kids g = ∅ ->
  (forall v, bit_of v SYSCFG_KL_BIT = (if hold g K0 then 1 else 0) ->
     bit_of v SYSCFG_TL_BIT = (if hold g TL then 1 else 0) -> twp main (f v) Q (w, g)) ->
  twp main (Do GetSyscfg f) Q (w, g).
Proof.
  intros Hk Hw. apply wp_quiet; [done|]. intros σ δ Hi Hg. cbn [exec]. eexists. split; [done|].
  apply Hw; rewrite bit_of_testbit by done.
  - by rewrite <- (alone_lock _ _ _ K0 Hi Hg Hk).
  - by rewrite <- (alone_lock _ _ _ TL Hi Hg Hk).
Qed.

(** Setting a counter to 0 before the threads start. *)
Lemma wp_reset {A : Type} k (f : Z -> proc A) w g Q : kids g = ∅ -> (forall k, seen g k = None) ->
  twp main (f 0) Q (w, set_cnt (upd (cnt g) k 0) g) ->
  twp main (Do (Store (counter k) 0) f) Q (w, g).
Proof.
  intros Hk Hs Hw. apply wp_client; [by destruct k|]. intros σ δ Hi Hg _. cbn [exec].
  rewrite (i_total _ _ Hi k). eexists. split; [|exact Hw].
  apply inv_update with σ g; try done; try (destruct k; by apply memory_write_ne).
  - intros x i Hx. apply memory_write_is_Some, (i_misc _ _ Hi), Hx.
  - by left.
  - intros k' v Hv. simpl in Hv. by rewrite Hs in Hv.
  - intros k'. right; right. intros s h Hh Hne.
    by destruct (alone_ghosts _ _ _ _ _ Hi Hg Hk Hh) as [->| ->].
  - intros k'. rewrite (alone_total _ _ _ _ Hi Hg Hk). simpl. unfold upd. case_decide as Hd.
    + subst k'. rewrite lookup_insert_eq. by replace (cnt g k + 0 - cnt g k) with 0 by lia.
    + rewrite lookup_insert_ne by (intros Hc; by apply Hd, counter_inj).
      rewrite (i_total _ _ Hi k'), (alone_total _ _ _ _ Hi Hg Hk). do 2 f_equal. lia.
  - by left.
Qed.

(** Reading a counter after the threads have been joined. *)
Lemma wp_read_total {A : Type} k (f : Z -> proc A) w g Q : kids g = ∅ ->
  twp main (f (swrap 32 (cnt g k))) Q (w, g) -> twp main (Do (Load (counter k)) f) Q (w, g).
Proof.
  intros Hk Hw. apply wp_quiet; [done|]. intros σ δ Hi Hg. cbn [exec].
  rewrite (i_total _ _ Hi k), (alone_total _ _ _ _ Hi Hg Hk). eauto.
Qed.

(** Changes of what the main thread knows. *)
Definition same_locks_ghost g g' : Prop := hold g' = hold g /\ seen g' = seen g /\ cnt g' = cnt g.

Lemma inv_main_update σ σ' δ g g' : inv σ δ -> δ !! main = Some g -> same_locks_ghost g g' ->
  (forall x i, misc_var x i = true -> is_Some (memory σ' !! Glob x i)) ->
  is_Some (memory σ' !! stall_isr_htid 0) ->
  (forall k, memory σ' !! counter k = memory σ !! counter k) ->
  locks σ' = locks σ ->
  (forall n h, handlers σ' !! n = Some h -> h = lock_interrupt_handler_fn \/ h = stall_isr_fn) ->
  Forall (fun l => l ∈ timing_lines) (failed_lines (output σ')) ->
  kids g' = kids g ->
  (goal g' = goal g \/ kids g = ∅) ->
  memory σ' !! err = Some (swrap 32 (counted g')) ->
  Z.of_nat (length (failed_lines (output σ'))) = printed g' ->
  (m0 g' = true -> imask (interrupts σ') 0 = 0xffffffff /\ δ !! (0, true) = None) ->
  (z0 g' = true -> m0 g' = true /\ memory σ' !! stall_isr_htid 0 = Some 0) ->
  inv σ' (<[main := g']> δ).
Proof.
  intros [H1 H1' H2 H3 H4 H5 H6 H7 (gm & G1 & G2 & G3 & G4 & _) H9] Hg (S1 & S2 & S3) Em Eh Ec El Eha Eo Ek Egoal Ee Ep Emask Ez.
  assert (gm = g) as -> by congruence.
  assert (forall s h, <[main := g']> δ !! s = Some h -> exists h0, δ !! s = Some h0 /\ hold h0 = hold h /\ seen h0 = seen h) as Hs.
  { intros s h Hh. destruct (decide (s = main)) as [->|Hne].
    - rewrite lookup_insert_eq in Hh. injection Hh as <-. by exists g.
    - rewrite lookup_insert_ne in Hh by done. by exists h. }
  assert (forall s h, δ !! s = Some h -> exists h0, <[main := g']> δ !! s = Some h0 /\ hold h0 = hold h) as Hs'.
  { intros s h Hh. destruct (decide (s = main)) as [->|Hne].
    - exists g'. rewrite lookup_insert_eq. split; [done|congruence].
    - exists h. by rewrite lookup_insert_ne. }
  assert (forall u, is_Some (<[main := g']> δ !! (u, false)) <-> is_Some (δ !! (u, false))) as Hd.
  { intros u. destruct (decide (u = 0)) as [->|]; [by rewrite lookup_insert_eq, Hg|by rewrite lookup_insert_ne by congruence]. }
  split; try done.
  - intros k. rewrite El, H2. split; intros (s & h & Hh & Hk).
    + destruct (Hs' _ _ Hh) as (h0 & E1 & E2). exists s, h0. by rewrite E2.
    + destruct (Hs _ _ Hh) as (h0 & E1 & E2 & _). exists s, h0. by rewrite E2.
  - intros k s1 g1 s2 g2 L1 L2 E1 E2. destruct (Hs _ _ L1) as (h1 & F1 & F2 & _), (Hs _ _ L2) as (h2 & F3 & F4 & _).
    eapply H3; [exact F1|exact F3|by rewrite F2|by rewrite F4].
  - intros k s h v Hh Hv. destruct (Hs _ _ Hh) as (h0 & F1 & F2 & F3). rewrite <- F2, Ec.
    eapply H4; [done|]. by rewrite F3.
  - intros k. rewrite Ec, H5. by rewrite (total_same k δ main g g' Hg) by (by rewrite S3).
  - intros t h Hh. rewrite lookup_insert_ne in Hh by congruence. rewrite Hd. eauto.
  - exists g'. rewrite lookup_insert_eq, Ek, lookup_insert_ne by congruence. split_and!; try done.
    + intros t. by rewrite Hd.
    + intros t h Ht Hh. rewrite lookup_insert_ne in Hh by congruence.
      destruct Egoal as [->|Hk]; [by apply (G4 t)|].
      assert (t ∈ kids g) as Hin by (apply G2; eauto). set_solver.
Qed.

(** What the invariant says of the main thread, in one piece. *)
Lemma main_facts σ δ g : inv σ δ -> δ !! main = Some g ->
  (forall t, t ∈ kids g <-> t <> 0 /\ is_Some (δ !! (t, false))) /\ kids g ⊆ {[1; 2; 3]} /\
  (forall t g', t <> 0 -> δ !! (t, false) = Some g' -> goal g' = goal g) /\
  memory σ !! err = Some (swrap 32 (counted g)) /\
  Z.of_nat (length (failed_lines (output σ))) = printed g /\
  (m0 g = true -> imask (interrupts σ) 0 = 0xffffffff /\ δ !! (0, true) = None) /\
  (z0 g = true -> m0 g = true /\ memory σ !! stall_isr_htid 0 = Some 0).
Proof. intros Hi Hg. destruct (i_main _ _ Hi) as (gm & G1 & G). by assert (gm = g) as -> by congruence. Qed.

(** Printing, and choosing what the next children will add. *)
Lemma wp_choose_goal {A : Type} c f args (k : Z -> proc A) w g Q : plain f -> kids g = ∅ ->
  twp main (k 0) Q (w, set_goal c g) -> twp main (Do (Printf f args) k) Q (w, g).
Proof.
  intros Hf Hk Hw. apply wp_client; [done|]. intros σ δ Hi Hg _. cbn [exec].
  exists (set_goal c g). split; [|done].
  assert (failed_lines (output σ ++ [(f, args)]) = failed_lines (output σ)) as Eo
    by (by rewrite failed_lines_app, failed_lines_plain, app_nil_r).
  pose proof (main_facts _ _ _ Hi Hg) as (F1 & F2 & F3 & F4 & F5 & F6 & F7).
  apply (inv_main_update σ _ _ g); simpl; rewrite ?Eo; try kept Hi.
Qed.

(** Masking all interrupts of the main thread. *)
Lemma wp_mask_main {A : Type} (k : Z -> proc A) w g Q :
  twp main (k 0) Q (w, set_m0 g) -> twp main (Do (SetImask 0xffffffff) k) Q (w, g).
Proof.
  intros Hw. apply wp_client; [done|]. intros σ δ Hi Hg Hal. cbn [exec fst].
  exists (set_m0 g). split; [|done].
  pose proof (main_facts _ _ _ Hi Hg) as (F1 & F2 & F3 & F4 & F5 & F6 & F7).
  apply (inv_main_update σ _ _ g); simpl; try kept Hi.
  - intros _. rewrite set_imask_imask, decide_True by done. split; [done|]. by apply Hal.
  - intros Hz. split; [done|]. by apply F7.
Qed.

(** Clearing [stall_isr_htid[0]], masked. *)
Lemma wp_clear_htid0 {A : Type} (k : Z -> proc A) w g Q : m0 g = true ->
  twp main (k 0) Q (w, set_z0 true g) -> twp main (Do (Store (stall_isr_htid 0) 0) k) Q (w, g).
Proof.
  intros Hm Hw. apply wp_client; [done|]. intros σ δ Hi Hg Hal. cbn [exec fst].
  destruct (i_htid0 _ _ Hi) as [v ->].
  exists (set_z0 true g). split; [|done].
  pose proof (main_facts _ _ _ Hi Hg) as (F1 & F2 & F3 & F4 & F5 & F6 & F7).
  apply (inv_main_update σ _ _ g); try kept Hi.
  - intros x i Hx. apply memory_write_is_Some, (i_misc _ _ Hi), Hx.
  - rewrite memory_write_eq. eauto.
  - intros k'. apply memory_write_ne. by destruct k'.
  - by rewrite memory_write_ne.
  - intros _. split; [done|]. apply memory_write_eq.
Qed.

(** A check that fails prints its line and counts it. *)
Lemma wp_fail_check f line args w g (Q : () -> work_ghost gh -> Prop) :
  f = check32_format \/ f = check32_ne_format -> line ∈ timing_lines -> counted g = printed g ->
  Q tt (w, set_counted (printed g + 1) (set_printed (printed g + 1) g)) ->
  twp main (fail_check f (line :: args)) Q (w, g).
Proof.
  intros Hf Hline Hc HQ. unfold fail_check. apply wp_client; [done|]. intros σ δ Hi Hg _. cbn [exec].
  exists (set_printed (printed g + 1) g). split.
  - assert (failed_lines [(f, line :: args)] = [line]) as Eo.
    { unfold failed_lines. simpl. by rewrite decide_True. }
    pose proof (main_facts _ _ _ Hi Hg) as (F1 & F2 & F3 & F4 & F5 & F6 & F7).
    apply (inv_main_update σ _ _ g); simpl; rewrite ?failed_lines_app, ?Eo; try kept Hi.
    + apply Forall_app. split; [apply (i_lines _ _ Hi)|]. by apply Forall_singleton.
    + rewrite length_app. simpl. lia.
  - apply wp_client; [done|]. clear σ δ Hi Hg. intros σ δ Hi Hg _. cbn [exec].
    rewrite (proj1 (proj2 (proj2 (proj2 (main_facts _ _ _ Hi Hg))))). eexists. rewrite insert_id by done. split; [done|].
    apply wp_client; [done|]. clear σ δ Hi Hg. intros σ δ Hi Hg _. cbn [exec].
    pose proof (main_facts _ _ _ Hi Hg) as (F1 & F2 & F3 & F4 & F5 & F6 & F7). rewrite F4.
    eexists. split; [|exact HQ]. simpl counted in *. rewrite Hc.
    apply (inv_main_update σ _ _ (set_printed (printed g + 1) g)); try kept Hi.
    + intros x i Hx. apply memory_write_is_Some, (i_misc _ _ Hi), Hx.
    + rewrite memory_write_ne by done. apply (i_htid0 _ _ Hi).
    + intros k'. apply memory_write_ne. by destruct k'.
    + rewrite memory_write_eq. simpl. by rewrite swrap_add_l by lia.
    + intros Hz. rewrite memory_write_ne by done. by apply F7.
Qed.

(** The rule of a check: it holds, or it depends on timing. *)
Lemma wp_check32 line v e w g (Q : () -> work_ghost gh -> Prop) :
  u32 v = u32 e \/ line ∈ timing_lines -> counted g = printed g ->
  (forall n, printed g <= n <= printed g + 1 -> Q tt (w, set_counted n (set_printed n g))) ->
  twp main (check32 line v e) Q (w, g).
Proof.
  intros Hor Hc HQ. unfold check32. destruct (Z.eqb_spec (u32 v) (u32 e)) as [He|He]; simpl.
  - specialize (HQ (printed g) ltac:(lia)). destruct g; simpl in *; subst. exact HQ.
  - destruct Hor as [Hor|Hor]; [done|]. apply wp_fail_check; [by left|done|done|]. apply HQ. lia.
Qed.

Lemma wp_check32_ne line v e w g (Q : () -> work_ghost gh -> Prop) :
  line ∈ timing_lines -> counted g = printed g ->
  (forall n, printed g <= n <= printed g + 1 -> Q tt (w, set_counted n (set_printed n g))) ->
  twp main (check32_ne line v e) Q (w, g).
Proof.
  intros Hor Hc HQ. unfold check32_ne. destruct (Z.eqb_spec (u32 v) (u32 e)) as [He|He]; simpl.
  - apply wp_fail_check; [by right|done|done|]. apply HQ. lia.
  - specialize (HQ (printed g) ltac:(lia)). destruct g; simpl in *; subst. exact HQ.
Qed.

(* ------------------------------------------------------------------ *)
(** ** Starting and joining threads *)

Lemma kid_may_create t g : t ∈ ({[1; 2; 3]} : gset Z) -> t ∉ kids g ->
  may_create inv t main g (set_kids ({[t]} ∪ kids g) g) (worker (goal g)).
Proof.
  intros Ht Hk. assert (t <> 0) as Ht0 by set_solver. split; [done| |].
  - intros σ δ Hi Hg. destruct (δ !! (t, false)) as [h|] eqn:E1; [|done].
    destruct Hk. apply (main_facts _ _ _ Hi Hg). eauto.
  - intros σ δ Hi Hg Hn Hn'. pose proof (main_facts _ _ _ Hi Hg) as (F1 & F2 & F3 & F4 & F5 & F6 & F7).
    set (g' := set_kids ({[t]} ∪ kids g) g).
    assert (forall s h, <[(t, false) := worker (goal g)]> (<[main := g']> δ) !! s = Some h ->
      s = (t, false) /\ h = worker (goal g) \/ exists h0, δ !! s = Some h0 /\ hold h = hold h0 /\ seen h = seen h0) as Hs.
    { intros s h. rewrite lookup_insert_Some. intros [[<- <-]|[Hne Hh]]; [by left|right].
      rewrite lookup_insert_Some in Hh. destruct Hh as [[<- <-]|[Hne' Hh]]; [by exists g|by exists h]. }
    assert (forall s h, δ !! s = Some h -> exists h0, <[(t, false) := worker (goal g)]> (<[main := g']> δ) !! s = Some h0 /\ hold h0 = hold h) as Hs'.
    { intros s h Hh. rewrite lookup_insert_ne by congruence. destruct (decide (s = main)) as [->|Hne].
      - exists g'. rewrite lookup_insert_eq. split; [done|]. by replace h with g by congruence.
      - exists h. by rewrite lookup_insert_ne. }
    split; try (exact (i_misc _ _ Hi) || exact (i_htid0 _ _ Hi) || exact (i_handlers _ _ Hi) || exact (i_lines _ _ Hi)).
    + intros k. change (locks (unmask t σ)) with (locks σ). rewrite (i_lock _ _ Hi k). split; intros (s & h & Hh & Hk').
      * destruct (Hs' _ _ Hh) as (h0 & E1 & E2). exists s, h0. by rewrite E2.
      * destruct (Hs _ _ Hh) as [[-> ->]|(h0 & E1 & E2 & _)]; [done|]. exists s, h0. by rewrite <- E2.
    + intros k s1 g1 s2 g2 L1 L2 E1 E2.
      destruct (Hs _ _ L1) as [[-> ->]|(h1 & P1 & P2 & _)]; [done|].
      destruct (Hs _ _ L2) as [[-> ->]|(h2 & Q1 & Q2 & _)]; [done|].
      eapply (i_excl _ _ Hi k _ h1 _ h2); congruence.
    + intros k s h v Hh Hv. destruct (Hs _ _ Hh) as [[-> ->]|(h1 & P1 & P2 & P3)]; [done|].
      rewrite P2. apply (i_seen _ _ Hi _ _ _ _ P1). congruence.
    + intros k. assert (total k (<[(t, false) := worker (goal g)]> (<[main := g']> δ)) = total k δ) as ->; [|apply (i_total _ _ Hi)].
      rewrite <- (total_same k δ main g g' Hg eq_refl).
      assert (<[main := g']> δ !! (t, false) = None) as Hn2 by (by rewrite lookup_insert_ne by congruence).
      generalize dependent (<[main := g']> δ). intros δ' _ _ Hn2. unfold total.
      induction [0; 1; 2; 3] as [|u l IH]; [done|]. cbn [foldr]. rewrite IH. f_equal.
      destruct (decide (u = t)) as [->|Hut]; [by rewrite lookup_insert_eq, Hn2|by rewrite lookup_insert_ne by congruence].
    + intros u h Hh. rewrite !lookup_insert_ne in Hh by congruence. destruct (i_isr _ _ Hi _ _ Hh) as [? [h' Hh']].
      split; [done|]. rewrite !lookup_insert_is_Some'. eauto.
    + exists g'. rewrite lookup_insert_ne, lookup_insert_eq by congruence. split_and!; try done.
      * intros u. simpl. rewrite elem_of_union, elem_of_singleton, F1, !lookup_insert_is_Some'.
        split; [intros [->|[? ?]]; eauto|]. intros [Hu [[= ->]|[[= <-]|Hh]]]; eauto.
      * simpl. set_solver.
      * intros u h Hu Hh. rewrite lookup_insert_Some in Hh. destruct Hh as [[_ <-]|[Hne Hh]]; [done|].
        rewrite lookup_insert_ne in Hh by congruence. by apply (F3 u).
      * intros Hm. destruct (F6 Hm) as [E1 E2]. rewrite !lookup_insert_ne by congruence. split; [|done].
        simpl. by rewrite set_imask_imask, decide_False by congruence.
Qed.

Lemma wp_create func t w g (Q : () -> work_ghost gh -> Prop) :
  w = None -> t ∈ ({[1; 2; 3]} : gset Z) -> t ∉ kids g -> worker_goal func = Some (goal g) ->
  Q tt (None, set_kids ({[t]} ∪ kids g) g) ->
  twp main (create_waiting_thread func t 0) Q (w, g).
Proof.
  intros -> Ht Hk Hf HQ.
  assert (0 < t < 4) as Ht' by (rewrite !elem_of_union, !elem_of_singleton in Ht; lia).
  apply (wp_create_waiting_thread inv inv_same) with (g' := set_kids ({[t]} ∪ kids g) g) (gc := worker (goal g)); [lia| | | | |done].
  - intros ->. done.
  - intros _ σ δ Hi _. split; [apply (i_lines _ _ Hi)|by right].
  - by apply kid_may_create.
  - right. exists (goal g), t. split_and!; [done|done|lia|lia|done|done].
Qed.

(** What the main thread's ghost is once its children have stopped. *)
Definition joined g : gh :=
  set_kids ∅ (set_cnt (fun k => cnt g k + Z.of_nat (size (kids g)) * goal g k) g).

Lemma total_joined σ δ g k : inv σ δ -> δ !! main = Some g ->
  (forall t h, t <> 0 -> δ !! (t, false) = Some h -> stopped h) -> total k δ = cnt (joined g) k.
Proof.
  intros Hi Hg Hst. pose proof (main_facts _ _ _ Hi Hg) as (F1 & F2 & F3 & _).
  unfold total, joined. cbn [foldr set_kids set_cnt cnt]. rewrite Hg. cbn [from_option].
  set (d t := if decide (t ∈ kids g) then goal g k else 0).
  assert (forall t, t <> 0 -> from_option (fun h => cnt h k) 0 (δ !! (t, false)) = d t) as Hd.
  { intros t Ht. unfold d. destruct (δ !! (t, false)) as [h|] eqn:E1; simpl.
    - rewrite decide_True by (apply F1; eauto). rewrite <- (F3 t h Ht E1). by apply (Hst t).
    - rewrite decide_False; [done|]. rewrite F1, E1. intros [_ Hc]. by apply is_Some_None in Hc. }
  rewrite !Hd by done. clear Hd.
  assert (d 1 + (d 2 + d 3) = Z.of_nat (size (kids g)) * goal g k) as Hs; [|lia].
  unfold d. clear d F1 F3 Hst. generalize (goal g k). intros n.
  assert (size (kids g) = (if decide (1%Z ∈ kids g) then 1 else 0) + (if decide (2%Z ∈ kids g) then 1 else 0) +
    (if decide (3%Z ∈ kids g) then 1 else 0))%nat as ->; [|repeat case_decide; lia].
  revert F2. generalize (kids g). intros K HK.
  assert (K = (if decide (1 ∈ K) then {[1]} else ∅) ∪ ((if decide (2 ∈ K) then {[2]} else ∅) ∪
    (if decide (3 ∈ K) then {[3]} else ∅))) as E1.
  { apply set_eq. intros t. rewrite !elem_of_union. split.
    - intros Ht. pose proof (HK t Ht) as Ht'. rewrite !elem_of_union, !elem_of_singleton in Ht'.
      destruct Ht' as [[-> | ->] | ->]; [left|right; left|right; right]; rewrite decide_True by done; by apply elem_of_singleton.
    - intros [Ht|[Ht|Ht]]; (case_decide; [by apply elem_of_singleton in Ht as ->|by apply elem_of_empty in Ht]). }
  rewrite E1 at 1. rewrite !size_union; [repeat case_decide; by rewrite ?size_singleton, ?size_empty|..];
    repeat case_decide; set_solver.
Qed.

Lemma join_inv σ δ g mask : inv σ δ -> δ !! main = Some g -> hold g K0 = false -> hold g TL = false ->
  seen g K0 = None -> seen g TL = None ->
  Z.testbit mask 0 = false -> (forall t, t ∈ ({[1; 2; 3]} : gset Z) -> Z.testbit mask t = true) ->
  (forall u b gu, Z.testbit mask u = true -> δ !! (u, b) = Some gu -> b = false /\ stopped gu) ->
  inv σ (<[main := joined g]> (filter (fun x => Z.testbit mask x.1.1 = false) δ)).
Proof.
  intros Hi Hg Hh0 Hh1 Hs0 Hs1 Hm0 Hm Hst. pose proof (main_facts _ _ _ Hi Hg) as (F1 & F2 & F3 & F4 & F5 & F6 & F7).
  set (δ' := <[main := joined g]> (filter (fun x => Z.testbit mask x.1.1 = false) δ)).
  assert (forall t, t <> 0 -> is_Some (δ !! (t, false)) -> Z.testbit mask t = true) as Hkid.
  { intros t Ht Hh. apply Hm, F2, F1. done. }
  assert (forall s h, δ' !! s = Some h -> s = main /\ h = joined g \/ h = idle /\ s = (0, true) /\ δ !! s = Some h) as Hd.
  { intros s h. unfold δ'. rewrite lookup_insert_Some. intros [[<- <-]|[Hne Hh]]; [by left|right].
    apply map_lookup_filter_Some in Hh as [Hh Hf]. destruct s as [t []]; simpl in Hf.
    - destruct (i_isr _ _ Hi _ _ Hh) as [-> Hb]. destruct (decide (t = 0)) as [->|Ht]; [done|].
      rewrite (Hkid t Ht Hb) in Hf. done.
    - rewrite (Hkid t) in Hf; [done|congruence|eauto]. }
  assert (forall k, hold (joined g) k = false /\ seen (joined g) k = None) as Hj by (by intros []).
  assert (forall t h, t <> 0 -> δ !! (t, false) = Some h -> stopped h) as Hst'.
  { intros t h Ht Hh. apply (Hst t false h); [|done]. apply Hkid; eauto. }
  assert (forall k s h, δ !! s = Some h -> hold h k = false) as Hfree.
  { intros k [t []] h Hh; [by destruct (i_isr _ _ Hi _ _ Hh) as [-> _]|].
    destruct (decide (t = 0)) as [->|Ht]; [replace h with g by congruence; by destruct k|by apply (Hst' t)]. }
  split; try (exact (i_misc _ _ Hi) || exact (i_htid0 _ _ Hi) || exact (i_handlers _ _ Hi) || exact (i_lines _ _ Hi)).
  - intros k. rewrite (i_lock _ _ Hi k). split; intros (s & h & Hh & Hk); exfalso.
    + by rewrite (Hfree k s h Hh) in Hk.
    + destruct (Hd _ _ Hh) as [[-> ->]|(-> & _)]; [by rewrite (proj1 (Hj k)) in Hk|done].
  - intros k s1 g1 s2 g2 L1 L2 E1 E2.
    destruct (Hd _ _ L1) as [[-> ->]|(-> & _)]; [by rewrite (proj1 (Hj k)) in E1|done].
  - intros k s h v Hh Hv. destruct (Hd _ _ Hh) as [[-> ->]|(-> & _)]; [by rewrite (proj2 (Hj k)) in Hv|done].
  - intros k. rewrite (i_total _ _ Hi k), (total_joined _ _ _ _ Hi Hg Hst'). do 2 f_equal.
    unfold total. cbn [foldr]. unfold δ' at 1. rewrite lookup_insert_eq. cbn [from_option].
    assert (forall t, t <> 0 -> δ' !! (t, false) = None) as Hn.
    { intros t Ht. destruct (δ' !! (t, false)) as [h|] eqn:E1; [|done].
      destruct (Hd _ _ E1) as [[E2 _]|(_ & E2 & _)]; congruence. }
    rewrite !Hn by done. cbn [from_option]. lia.
  - intros t h Hh. destruct (Hd _ _ Hh) as [[E2 _]|(-> & E2 & _)]; [done|]. injection E2 as ->.
    split; [done|]. unfold δ'. rewrite lookup_insert_eq. eauto.
  - exists (joined g). unfold δ' at 1. rewrite lookup_insert_eq. split_and!; try done.
    + intros t. simpl. split; [set_solver|]. intros [Ht [h Hh]].
      destruct (Hd _ _ Hh) as [[E2 _]|(_ & E2 & _)]; congruence.
    + intros t h Ht Hh. destruct (Hd _ _ Hh) as [[E2 _]|(_ & E2 & _)]; congruence.
    + intros Hm'. destruct (F6 Hm') as [E1 E2]. split; [done|]. unfold δ'. rewrite lookup_insert_ne by done.
      rewrite map_lookup_filter, E2. done.
Qed.
End rules.
