(* ===== verification/LockVerifyMain.v ===== *)
(** The lock test, verified: each function against its specification, and the
    whole program. *)

From S2P Require Import Prelude Threads ThreadLogic ThreadCommon ThreadTest LockVerify LockVerifyInv LockVerifyRules.

Open Scope string_scope.
Open Scope list_scope.
Open Scope Z_scope.

Section functions.
Context `{HL : CpuLaws}.
Implicit Types (σ : machine) (δ : gmap slot gh) (s : slot) (g : gh) (w : option (Z * Z * Z)).

Abbreviation twp := (wpt (Inv inv) (Spec CSpec) (Fin CFin) exit_ok).

(** *** Workers *)

(** A counting thread before its round [j]. *)
Definition counting (k : kind) w (j : Z) (g' : work_ghost gh) : Prop :=
  g'.1 = w /\ goal g'.2 = only k ITERATIONS /\
  forall k', hold g'.2 k' = false /\ seen g'.2 k' = None /\ cnt g'.2 k' = only k j k'.

Lemma counting_start k w : counting k w 0 (w, worker (only k ITERATIONS)).
Proof. split_and!; [done..|]. intros k'. split_and!; [done..|]. simpl. unfold only, upd. by case_decide. Qed.

Lemma counting_step k w j g v : counting k w j (w, g) ->
  counting k w (j + 1) (w, set_hold k false (set_cnt (upd (cnt g) k (cnt g k + 1))
    (set_seen k None (set_seen k (Some v) (set_hold k true g))))).
Proof.
  intros (_ & Hg & Hk). simpl in *. split_and!; [done..|]. intros k'. simpl.
  destruct (Hk k') as (E1 & E2 & E3). unfold only, upd in *. simpl.
  case_decide as Hd; [|done]. subst k'. split_and!; [done|done|]. rewrite E3. repeat case_decide; (done || lia).
Qed.

(** The counting threads, which differ in their lock and in their delay. *)
Ltac counting_thread k Ht :=
  lazymatch goal with |- wpt _ _ _ _ _ _ _ (?w, _) => apply wp_for_range with (I := counting k w) end;
  [done|apply counting_start| |];
  [intros j [w' g] Hj Hc; pose proof Hc as (Hw & Hg & Hk); simpl in Hw; subst w';
   apply (wp_lock k); [apply Hk|];
   apply (wp_see k); [apply upd_eq|]; intros v;
   apply wpt_bind, wp_delay_; [exact inv_same|]; simpl;
   apply (wp_bump k); [lia|apply upd_eq|apply upd_eq|];
   apply (wp_unlock k); [apply upd_eq|apply upd_eq|]; apply wpt_ret; exact (counting_step _ _ _ _ _ Hc)
  |intros [w' g] (Hw & Hg & Hk); simpl in *; split; [done|]; intros k'; rewrite Hg; apply Hk].

Definition finishes (p : proc ()) (c : kind -> Z) : Prop := forall t w, 0 < t < 4 ->
  twp (t, false) p (fun _ (g' : work_ghost gh) => g'.1 = w /\ stopped g'.2) (w, worker c).

Lemma wp_k0lock_counter_thread a : finishes (k0lock_counter_thread a) (only K0 ITERATIONS).
Proof. intros t w Ht. unfold k0lock_counter_thread. counting_thread K0 Ht. Qed.
Lemma wp_tlblock_counter_thread a : finishes (tlblock_counter_thread a) (only TL ITERATIONS).
Proof. intros t w Ht. unfold tlblock_counter_thread. counting_thread TL Ht. Qed.
Lemma wp_k0lock_counter_thread_long a : finishes (k0lock_counter_thread_long a) (only K0 ITERATIONS).
Proof. intros t w Ht. unfold k0lock_counter_thread_long. counting_thread K0 Ht. Qed.
Lemma wp_tlblock_counter_thread_long a : finishes (tlblock_counter_thread_long a) (only TL ITERATIONS).
Proof. intros t w Ht. unfold tlblock_counter_thread_long. counting_thread TL Ht. Qed.

Lemma wp_spin x i (body : proc ()) (p : Z -> bool) s w g (Q : () -> work_ghost gh -> Prop) :
  misc_var x i = true -> Q tt (w, g) -> twp s body (fun _ (g' : work_ghost gh) => g' = (w, g)) (w, g) ->
  twp s (while (v ← load (Glob x i); mret (p v)) body) Q (w, g).
Proof.
  intros Hx HQ Hb. apply wp_while with (J := fun (g' : work_ghost gh) => g' = (w, g)); [done|]. intros g' ->.
  apply wp_misc_load; [done|]. intros v. simpl. by destruct (p v).
Qed.

Lemma unlocked_stopped k : stopped (set_hold k false (set_hold k true idle)).
Proof. intros k'. simpl. unfold upd. split_and!; [|done..]. by case_decide. Qed.

Ltac holder k Ht :=
  apply wp_interrupt_instr; [simpl; lia|]; apply (wp_lock k); [done|];
  apply wp_misc_store; [done|]; apply wpt_bind, wp_spin;
  [done|apply (wp_unlock k); [apply upd_eq|done|]; split; [done|]; apply unlocked_stopped
  |by apply wp_delay_; [exact inv_same|]].

Ltac waiter k Ht :=
  apply wp_misc_add; [done|]; intros _; apply (wp_lock k); [done|];
  apply wpt_bind, wp_delay_; [exact inv_same|];
  apply (wp_unlock k); [apply upd_eq|done|]; split; [done|]; apply unlocked_stopped.

Lemma wp_k0lock_holder a : finishes (k0lock_holder a) (fun _ => 0).
Proof. intros t w Ht. unfold k0lock_holder. holder K0 Ht. Qed.
Lemma wp_k0lock_waiter a : finishes (k0lock_waiter a) (fun _ => 0).
Proof. intros t w Ht. unfold k0lock_waiter. waiter K0 Ht. Qed.
Lemma wp_tlblock_holder a : finishes (tlblock_holder a) (fun _ => 0).
Proof. intros t w Ht. unfold tlblock_holder. holder TL Ht. Qed.
Lemma wp_tlblock_waiter a : finishes (tlblock_waiter a) (fun _ => 0).
Proof. intros t w Ht. unfold tlblock_waiter. waiter TL Ht. Qed.

(** *** Interrupt handlers *)

Lemma wp_lock_interrupt_handler n s w g (Q : () -> work_ghost gh -> Prop) :
  Q tt (w, g) -> twp s (lock_interrupt_handler n) Q (w, g).
Proof.
  intros HQ. unfold lock_interrupt_handler. apply wp_get_syscfg. intros v.
  apply wpt_bind. assert (forall b x, misc_var x 0 = true ->
    twp s (if truth b then incr (Glob x 0) else mret tt) (fun _ (g' : work_ghost gh) => g' = (w, g)) (w, g)) as Hb.
  { intros b x Hx. destruct (truth b); [|done]. by apply wp_incr. }
  simpl. eapply wpt_mono; [by apply Hb|]. intros [] _ ->. apply wpt_bind.
  eapply wpt_mono; [by apply Hb|]. intros [] _ ->. by apply wp_incr.
Qed.

(** An access to [stall_isr_htid] by the handler of a thread of the test. *)
Lemma handler_thread σ δ t g : inv σ δ -> δ !! (t, true) = Some g -> 0 <= t < 4.
Proof.
  intros Hi Hg. destruct (i_isr _ _ Hi _ _ Hg) as [_ Hs].
  destruct (i_main _ _ Hi) as (gm & G1 & G2 & G3 & _).
  destruct (decide (t = 0)) as [->|Ht]; [lia|].
  assert (t ∈ kids gm) as Hin%G3 by (by apply G2). rewrite !elem_of_union, !elem_of_singleton in Hin. lia.
Qed.

Lemma htid_misc t : 0 < t < 4 -> misc_var "stall_isr_htid" t = true.
Proof.
  intros Ht. unfold misc_var. rewrite (proj2 (Z.leb_le 1 t)), (proj2 (Z.ltb_lt t 6)) by lia.
  by rewrite orb_true_r.
Qed.

Lemma wp_htid_load {A : Type} t (f : Z -> proc A) w g Q :
  (forall n, twp (t, true) (f n) Q (w, g)) -> twp (t, true) (Do (Load (stall_isr_htid t)) f) Q (w, g).
Proof.
  intros Hw. apply wp_quiet; [done|]. intros σ δ Hi Hg. cbn [exec].
  pose proof (handler_thread _ _ _ _ Hi Hg) as Ht.
  assert (is_Some (memory σ !! stall_isr_htid t)) as [v ->]; [|eauto].
  destruct (decide (t = 0)) as [->|]; [apply (i_htid0 _ _ Hi)|]. apply (i_misc _ _ Hi), htid_misc. lia.
Qed.

Lemma wp_htid_store {A : Type} t v (f : Z -> proc A) w g Q :
  twp (t, true) (f 0) Q (w, g) -> twp (t, true) (Do (Store (stall_isr_htid t) v) f) Q (w, g).
Proof.
  intros Hw. apply wp_client; [done|]. intros σ δ Hi Hg _. cbn [exec fst].
  pose proof (handler_thread _ _ _ _ Hi Hg) as Ht.
  destruct (decide (t = 0)) as [->|Ht0].
  - destruct (i_htid0 _ _ Hi) as [v' ->]. exists g. rewrite insert_id by done. split; [|done].
    destruct (i_main _ _ Hi) as (gm & G1 & _). pose proof (main_facts _ _ _ Hi G1) as (F1 & F2 & F3 & F4 & F5 & F6 & F7).
    rewrite <- (insert_id δ main gm) by done.
    apply (inv_main_update σ _ _ gm); try kept Hi.
    + intros x i Hx. apply memory_write_is_Some, (i_misc _ _ Hi), Hx.
    + rewrite memory_write_eq. eauto.
    + intros k. apply memory_write_ne. by destruct k.
    + by rewrite memory_write_ne.
    + intros Hz. destruct (F7 Hz) as [Hm _]. destruct (F6 Hm) as [_ Hn]. congruence.
  - assert (misc_var "stall_isr_htid" t = true) as Hx by (apply htid_misc; lia).
    unfold stall_isr_htid. destruct (i_misc _ _ Hi _ _ Hx) as [v' ->]. exists g. rewrite insert_id by done.
    split; [by apply inv_misc_store|done].
Qed.

Lemma wp_stall_isr n t w g (Q : () -> work_ghost gh -> Prop) :
  Q tt (w, g) -> twp (t, true) (stall_isr n) Q (w, g).
Proof.
  intros HQ. unfold stall_isr. apply wp_htid. cbn [fst].
  apply wp_htid_load. intros v. apply wp_htid_store.
  apply wp_misc_load; [done|]. intros p. simpl. destruct (truth p); [|done]. by apply wp_incr.
Qed.

End functions.
