(* ===== verification/LockVerifyTests.v ===== *)
(** The tests of src/lock_verify.c, run by its main thread, and the whole
    program. *)

From S2P Require Import Prelude Threads ThreadLogic ThreadCommon ThreadTest LockVerify LockVerifyInv LockVerifyRules LockVerifyMain.

Open Scope string_scope.
Open Scope list_scope.
Open Scope Z_scope.

#[local] Arguments start_waiting_threads : simpl never.
#[local] Arguments create_waiting_thread : simpl never.
#[local] Arguments create_threads : simpl never.
#[local] Arguments thread_join : simpl never.
#[local] Arguments fire_swis : simpl never.
#[local] Arguments delay_ : simpl never.
#[local] Arguments for_range : simpl never.
#[local] Arguments while : simpl never.
#[local] Arguments check32 : simpl never.
#[local] Arguments check32_ne : simpl never.
#[local] Arguments Z.mul : simpl never.
#[local] Arguments swrap : simpl never.
#[local] Arguments uwrap : simpl never.

Section tests.
Context `{HL : CpuLaws}.
Implicit Types (σ : machine) (δ : gmap slot gh) (s : slot) (g : gh) (w : option (Z * Z * Z)).

Abbreviation twp := (wpt (Inv inv) (Spec CSpec) (Fin CFin) exit_ok).

(** *** The main thread *)

(** Between two tests: no lock is held, no thread is left, and the failed
    checks are counted. *)
Record clean (g : gh) : Prop := {
  clean_locks k : hold g k = false /\ seen g k = None;
  clean_kids : kids g = ∅;
  clean_counted : counted g = printed g;
  clean_printed : 0 <= printed g
}.

(** A part of main that may fail [n] checks; from [m] to [m'] it masks the
    interrupts of the main thread. *)
Definition test_ok (m m' : bool) (n : Z) (p : proc ()) : Prop := forall g,
  clean g -> m0 g = m ->
  twp main p (fun _ (g' : work_ghost gh) => g'.1 = None /\ clean g'.2 /\ printed g'.2 <= printed g + n /\
    m0 g'.2 = m') (None, g).

Lemma wp_test m m' n p g (Q : () -> work_ghost gh -> Prop) : test_ok m m' n p -> clean g -> m0 g = m ->
  (forall g', clean g' -> printed g' <= printed g + n -> m0 g' = m' -> Q tt (None, g')) ->
  twp main p Q (None, g).
Proof.
  intros Hp Hg Hm HQ. eapply wpt_mono; [by apply Hp|]. intros [] [w g'] (Hw & Hc & Hn & Hm'). simpl in *. subst w.
  by apply HQ.
Qed.

Lemma wp_check_pass line v e s (g' : work_ghost gh) (Q : () -> work_ghost gh -> Prop) :
  v = e -> Q tt g' -> twp s (check32 line v e) Q g'.
Proof. intros -> HQ. unfold check32. by rewrite Z.eqb_refl. Qed.

(** A side condition on a ghost. *)
Ltac ghost :=
  simpl; unfold upd; simpl;
  repeat match goal with H : hold _ _ = _ |- context [hold _ _] => rewrite H end;
  first [done | congruence].

(** Exposes the next instruction of the program. *)
Ltac expose :=
  cbv beta zeta delta [iassignw store load exec_ op];
  cbn [mbind proc_bind pbind mret proc_ret op exec_ load store printf get_syscfg do_k0lock do_k0unlock
    do_tlblock do_tlbunlock register_interrupt set_thread_imask iassignw swi].

(** One instruction of the main thread. *)
Ltac main_step :=
  expose;
  lazymatch goal with
  | |- wpt _ _ _ _ _ (Ret _) _ _ => apply wpt_ret
  | |- wpt _ _ _ _ _ (mbind _ _) _ _ => apply wpt_bind
  | |- wpt _ _ _ _ _ (pbind _ _) _ _ => apply wpt_bind
  | |- wpt _ _ _ _ _ (proc_bind _ _ _ _) _ _ => apply wpt_bind
  | |- wpt _ _ _ _ _ (Do (Printf _ _) _) _ _ => apply wp_printf; [done|]
  | |- wpt _ _ _ _ _ (Do K0lock _) _ _ => apply (wp_lock K0); [ghost|]
  | |- wpt _ _ _ _ _ (Do Tlblock _) _ _ => apply (wp_lock TL); [ghost|]
  | |- wpt _ _ _ _ _ (Do K0unlock _) _ _ => apply (wp_unlock K0); [ghost|ghost|]
  | |- wpt _ _ _ _ _ (Do Tlbunlock _) _ _ => apply (wp_unlock TL); [ghost|ghost|]
  | |- wpt _ _ _ _ _ (Do GetSyscfg _) _ _ =>
      apply wp_alone_syscfg; [ghost|let v := fresh "v" in intros v ? ?]
  | Hv : bit_of ?v ?b = _ |- wpt _ _ _ _ _ (check32 _ (bit_of ?v ?b) _) _ _ =>
      apply wp_check_pass; [etransitivity; [exact Hv|]; ghost|]
  end.

(** What a clean ghost says, as equations. *)
Ltac clean_facts Hg :=
  pose proof (proj1 (clean_locks _ Hg K0)); pose proof (proj1 (clean_locks _ Hg TL));
  pose proof (proj2 (clean_locks _ Hg K0)); pose proof (proj2 (clean_locks _ Hg TL));
  pose proof (clean_kids _ Hg); pose proof (clean_counted _ Hg); pose proof (clean_printed _ Hg).

Lemma clean_set_hold g g' : clean g -> (forall k, hold g' k = false) -> seen g' = seen g -> kids g' = kids g ->
  counted g' = counted g -> printed g' = printed g -> clean g'.
Proof.
  intros [H1 H2 H3 H4] Hh Hs Hk Hc Hp. split; rewrite ?Hs, ?Hk, ?Hc, ?Hp; try done.
  intros k. split; [done|apply H1].
Qed.

Lemma test_k0lock_syscfg_bit_ok : test_ok false false 0 test_k0lock_syscfg_bit.
Proof.
  intros g Hg Hm. clean_facts Hg. unfold test_k0lock_syscfg_bit. repeat main_step.
  simpl. split_and!; [done| |lia|done]. apply (clean_set_hold g); try done. intros []; ghost.
Qed.

Lemma test_tlblock_syscfg_bit_ok : test_ok false false 0 test_tlblock_syscfg_bit.
Proof.
  intros g Hg Hm. clean_facts Hg. unfold test_tlblock_syscfg_bit. repeat main_step.
  simpl. split_and!; [done| |lia|done]. apply (clean_set_hold g); try done. intros []; ghost.
Qed.

Lemma test_locks_independent_ok : test_ok false false 0 test_locks_independent.
Proof.
  intros g Hg Hm. clean_facts Hg. unfold test_locks_independent. repeat main_step.
  simpl. split_and!; [done| |lia|done]. apply (clean_set_hold g); try done. intros []; ghost.
Qed.

(** *** Starting, joining and adding up *)

Lemma wp_start mask s w g (Q : () -> work_ghost gh -> Prop) : Q tt (w, g) -> twp s (start_waiting_threads mask) Q (w, g).
Proof. apply wp_start_waiting_threads, inv_same. Qed.

Definition all_kids g : gh := set_kids ({[3]} ∪ ({[2]} ∪ ({[1]} ∪ kids g))) g.

Lemma wp_create_threads f g (Q : () -> work_ghost gh -> Prop) : kids g = ∅ -> worker_goal f = Some (goal g) ->
  Q tt (None, all_kids g) -> twp main (create_threads f) Q (None, g).
Proof.
  intros Hk Hf HQ. unfold create_threads. change (for_range 0 COMPUTE_THREADS ?b) with (up 3 0 b). cbn [up].
  apply wpt_bind, wp_create; [done|set_solver|rewrite Hk; set_solver|done|].
  apply wpt_bind, wp_create; [done|set_solver|simpl; rewrite Hk; set_solver|done|].
  by apply wpt_bind, wp_create; [done|set_solver|simpl; rewrite Hk; set_solver|done|].
Qed.

Lemma wp_join w g mask (Q : () -> work_ghost gh -> Prop) :
  (forall k, hold g k = false /\ seen g k = None) ->
  Z.testbit mask 0 = false -> (forall t, t ∈ ({[1; 2; 3]} : gset Z) -> Z.testbit mask t = true) ->
  Q tt (w, joined g) -> twp main (thread_join mask) Q (w, g).
Proof.
  intros Hl H0 Hm HQ. apply wp_thread_join with (g' := joined g); [|done].
  intros σ δ Hi Hg Hst. apply join_inv; try done; apply Hl.
Qed.

Lemma three_bits mask : Z.testbit mask 1 = true -> Z.testbit mask 2 = true -> Z.testbit mask 3 = true ->
  forall t, t ∈ ({[1; 2; 3]} : gset Z) -> Z.testbit mask t = true.
Proof. intros H1 H2 H3 t. rewrite !elem_of_union, !elem_of_singleton. by intros [[-> | ->] | ->]. Qed.

(** Three threads have each added their goal to a counter that was 0. *)
Lemma joined_total k g : kids g = ∅ -> cnt g k = 0 -> cnt (joined (all_kids g)) k = COMPUTE_THREADS * goal g k.
Proof.
  intros Hk Hc. unfold joined, all_kids. simpl. rewrite Hk, Hc.
  change (Z.of_nat (size ({[3]} ∪ ({[2]} ∪ ({[1]} ∪ (∅ : gset Z)))))) with COMPUTE_THREADS. lia.
Qed.

Lemma wp_join_all g mask (Q : () -> work_ghost gh -> Prop) :
  (forall k, hold g k = false) -> (forall k, seen g k = None) ->
  Z.testbit mask 0 = false -> Z.testbit mask 1 = true -> Z.testbit mask 2 = true -> Z.testbit mask 3 = true ->
  Q tt (None, joined g) -> twp main (thread_join mask) Q (None, g).
Proof. intros Hh Hs H0 H1 H2 H3 HQ. apply wp_join; [by intros k|done|by apply three_bits|done]. Qed.

Lemma wp_fire_swis n s w g (Q : () -> work_ghost gh -> Prop) : Q tt (w, g) -> twp s (fire_swis n) Q (w, g).
Proof.
  intros HQ. unfold fire_swis. apply wp_for_quiet; [|done]. intros j Hj.
  apply wp_interrupt_instr; [done|]. by apply wp_delay_; [exact inv_same|].
Qed.


Ltac timing := apply (bool_decide_eq_true_1 _); vm_compute; reflexivity.

(** The end of a test: the ghost is clean again. *)
Ltac clean_end :=
  simpl in *; split_and!; [done|split; [intros []; ghost|ghost|ghost|simpl; lia]|lia|try done].

(** More instructions of the main thread, once the counters are in play. *)
Ltac count_step :=
  expose;
  lazymatch goal with
  | |- wpt _ _ _ _ _ (Do (Store k0_shared_counter 0) _) _ _ => apply (wp_reset K0); [ghost|intros []; ghost|]
  | |- wpt _ _ _ _ _ (Do (Store tlb_shared_counter 0) _) _ _ => apply (wp_reset TL); [ghost|intros []; ghost|]
  | |- wpt _ _ _ _ _ (Do (Load k0_shared_counter) _) _ _ => apply (wp_read_total K0); [ghost|]
  | |- wpt _ _ _ _ _ (Do (Load tlb_shared_counter) _) _ _ => apply (wp_read_total TL); [ghost|]
  | |- wpt _ _ _ _ _ (create_threads _) _ _ => apply wp_create_threads; [ghost|reflexivity|]
  | |- wpt _ _ _ _ _ (start_waiting_threads _) _ _ => apply wp_start
  | |- wpt _ _ _ _ _ (thread_join _) _ _ =>
      apply wp_join_all; [intros []; ghost|intros []; ghost|reflexivity|reflexivity|reflexivity|reflexivity|]
  | |- wpt _ _ _ _ _ (fire_swis _) _ _ => apply wp_fire_swis
  | |- wpt _ _ _ _ _ (check32 _ (swrap 32 (cnt (joined (all_kids _)) _)) _) _ _ =>
      apply wp_check_pass; [rewrite joined_total; [reflexivity|ghost|apply upd_eq]|]
  | |- wpt _ _ _ _ _ (check32 _ _ _) _ _ => apply wp_check32; [right; timing|ghost|intros ? ?]
  | |- wpt _ _ _ _ _ (check32_ne _ _ _) _ _ => apply wp_check32_ne; [timing|ghost|intros ? ?]
  | |- wpt _ _ _ _ _ (Do (Store _ _) _) _ _ => apply wp_misc_store; [reflexivity|]
  | |- wpt _ _ _ _ _ (Do (Load _) _) _ _ => apply wp_misc_load; [reflexivity|]; intros ?
  | |- wpt _ _ _ _ _ (Do (RegisterInterrupt _ _) _) _ _ => apply wp_interrupt_instr; [by (left + right)|]
  | |- wpt _ _ _ _ _ (Do (Iassignw _) _) _ _ => apply wp_interrupt_instr; [exact I|]
  | |- wpt _ _ _ _ _ (Do (SetImask _) _) _ _ => apply wp_mask_main
  | |- wpt _ _ _ _ _ (delay_ _) _ _ => apply wp_delay_; [exact inv_same|]
  | _ => main_step
  end.

Lemma test_k0lock_mutual_exclusion_ok : test_ok false false 0 test_k0lock_mutual_exclusion.
Proof.
  intros g Hg Hm. clean_facts Hg. unfold test_k0lock_mutual_exclusion.
  expose. apply (wp_choose_goal (only K0 ITERATIONS)); [done|done|]. repeat count_step. clean_end.
Qed.

Lemma test_tlblock_mutual_exclusion_ok : test_ok false false 0 test_tlblock_mutual_exclusion.
Proof.
  intros g Hg Hm. clean_facts Hg. unfold test_tlblock_mutual_exclusion.
  expose. apply (wp_choose_goal (only TL ITERATIONS)); [done|done|]. repeat count_step. clean_end.
Qed.

Lemma test_k0lock_with_interrupts_ok : test_ok false true 2 test_k0lock_with_interrupts.
Proof.
  intros g Hg Hm. clean_facts Hg. unfold test_k0lock_with_interrupts.
  expose. apply (wp_choose_goal (only K0 ITERATIONS)); [done|done|]. repeat count_step. clean_end.
Qed.

Lemma test_tlblock_with_interrupts_ok : test_ok true true 2 test_tlblock_with_interrupts.
Proof.
  intros g Hg Hm. clean_facts Hg. unfold test_tlblock_with_interrupts.
  expose. apply (wp_choose_goal (only TL ITERATIONS)); [done|done|]. repeat count_step. clean_end.
Qed.

(** *** The stall tests *)

Lemma wp_clear_htids g (Q : () -> work_ghost gh -> Prop) : m0 g = true -> Q tt (None, set_z0 true g) ->
  twp main (for_range 0 6 (fun i => store (stall_isr_htid i) 0)) Q (None, g).
Proof.
  intros Hm HQ. change (for_range 0 6 ?b) with (up 6 0 b). cbn [up Z.add Pos.add Pos.succ]. expose.
  apply wp_clear_htid0; [done|]. repeat (apply wp_misc_store; [reflexivity|]). done.
Qed.

(** [stall_isr_htid[0]] is still 0. *)
Lemma wp_load_htid0 {A : Type} (k : Z -> proc A) w g Q : z0 g = true ->
  twp main (k 0) Q (w, g) -> twp main (Do (Load (stall_isr_htid 0)) k) Q (w, g).
Proof.
  intros Hz Hw. apply wp_quiet; [done|]. intros σ δ Hi Hg. cbn [exec].
  destruct (main_facts _ _ _ Hi Hg) as (_ & _ & _ & _ & _ & _ & F). destruct (F Hz) as [_ ->]. eauto.
Qed.

(** A spin loop on a flag, as [expose] shows it. *)
Lemma wp_spin_flag x i (p : Z -> bool) s w g (Q : () -> work_ghost gh -> Prop) :
  misc_var x i = true -> Q tt (w, g) ->
  twp s (while (Do (Load (Glob x i)) (fun v => Ret (p v))) (delay_ 1)) Q (w, g).
Proof. intros Hx HQ. apply (wp_spin x i (delay_ 1) p); [done|done|]. by apply wp_delay_; [exact inv_same|]. Qed.

Ltac stall_step :=
  expose;
  lazymatch goal with
  | |- wpt _ _ _ _ _ (for_range 0 6 _) _ _ => apply wp_clear_htids; [ghost|]
  | |- wpt _ _ _ _ _ (Do (Load (stall_isr_htid 0)) _) _ _ => apply wp_load_htid0; [ghost|]
  | |- wpt _ _ _ _ _ (while _ _) _ _ => apply wp_spin_flag; [reflexivity|]
  | |- wpt _ _ _ _ _ (check32 _ 0 0) _ _ => apply wp_check_pass; [reflexivity|]
  | |- wpt _ _ _ _ _ (create_waiting_thread _ _ 0) _ _ =>
      apply wp_create; [reflexivity|set_solver|simpl; set_solver|reflexivity|]
  | _ => count_step
  end.

Lemma test_k0lock_stall_no_interrupt_ok : test_ok true true 3 test_k0lock_stall_no_interrupt.
Proof.
  intros g Hg Hm. clean_facts Hg.
  unfold test_k0lock_stall_no_interrupt, stall_test_setup, stall_test_fire_swis, stall_test_verify.
  expose. apply (wp_choose_goal (fun _ => 0)); [done|done|]. repeat stall_step. clean_end.
Qed.

Lemma test_tlblock_stall_no_interrupt_ok : test_ok true true 3 test_tlblock_stall_no_interrupt.
Proof.
  intros g Hg Hm. clean_facts Hg.
  unfold test_tlblock_stall_no_interrupt, stall_test_setup, stall_test_fire_swis, stall_test_verify.
  expose. apply (wp_choose_goal (fun _ => 0)); [done|done|]. repeat stall_step. clean_end.
Qed.

(** *** The whole program *)

Lemma wp_load_err {A : Type} (k : Z -> proc A) w g Q :
  twp main (k (swrap 32 (counted g))) Q (w, g) -> twp main (Do (Load err) k) Q (w, g).
Proof.
  intros Hw. apply wp_quiet; [done|]. intros σ δ Hi Hg. cbn [exec].
  destruct (main_facts _ _ _ Hi Hg) as (_ & _ & _ & -> & _). eauto.
Qed.

Lemma wp_return n g (Q : () -> work_ghost gh -> Prop) :
  clean g -> printed g < 2 ^ 31 -> n = (if truth (swrap 32 (counted g)) then 1 else 0) ->
  twp main (exit n) Q (None, g).
Proof.
  intros Hg Hp ->. clean_facts Hg. apply wp_exit. intros σ δ Hi Hd.
  split; [apply (i_lines _ _ Hi)|].
  destruct (main_facts _ _ _ Hi Hd) as (_ & _ & _ & _ & F & _).
  replace (counted g) with (printed g) by done. rewrite swrap_id by lia.
  unfold truth. destruct (Z.eqb_spec (printed g) 0) as [Hz|Hz]; simpl; [left|by right].
  split; [done|]. apply nil_length_inv. lia.
Qed.

Definition boot_ghost : gh := idle.

Lemma lock_verify_main_ok :
  twp main lock_verify_main (fun _ => Fin CFin 0) (None, boot_ghost).
Proof.
  assert (clean boot_ghost) as Hg by (by split).
  unfold lock_verify_main.
  apply wpt_bind, (wp_test _ _ _ _ _ _ test_k0lock_syscfg_bit_ok); [done|done|]. intros g1 C1 P1 M1.
  apply wpt_bind, (wp_test _ _ _ _ _ _ test_tlblock_syscfg_bit_ok); [done|done|]. intros g2 C2 P2 M2.
  apply wpt_bind, (wp_test _ _ _ _ _ _ test_locks_independent_ok); [done|done|]. intros g3 C3 P3 M3.
  apply wpt_bind, (wp_test _ _ _ _ _ _ test_k0lock_mutual_exclusion_ok); [done|done|]. intros g4 C4 P4 M4.
  apply wpt_bind, (wp_test _ _ _ _ _ _ test_tlblock_mutual_exclusion_ok); [done|done|]. intros g5 C5 P5 M5.
  apply wpt_bind, (wp_test _ _ _ _ _ _ test_k0lock_with_interrupts_ok); [done|done|]. intros g6 C6 P6 M6.
  apply wpt_bind, (wp_test _ _ _ _ _ _ test_tlblock_with_interrupts_ok); [done|done|]. intros g7 C7 P7 M7.
  apply wpt_bind, (wp_test _ _ _ _ _ _ test_k0lock_stall_no_interrupt_ok); [done|done|]. intros g8 C8 P8 M8.
  apply wpt_bind, (wp_test _ _ _ _ _ _ test_tlblock_stall_no_interrupt_ok); [done|done|]. intros g9 C9 P9 M9.
  simpl in P1. expose. apply wp_load_err. expose. apply wp_printf; [by case_match|].
  apply wp_load_err. apply wp_return; [done|simpl in *; lia|done].
Qed.
End tests.
