(* ===== verification/LockVerifySafe.v ===== *)
(** The lock test is safe in every interleaving, with interrupts taken at any
    point. *)

From S2P Require Import Prelude Threads ThreadLogic ThreadCommon ThreadSim ThreadTest LockVerify LockVerifyInv LockVerifyRules LockVerifyMain LockVerifyTests.

Open Scope string_scope.
Open Scope list_scope.
Open Scope Z_scope.

(** The machine main starts on: the variables are zero, no lock is held, no
    handler is registered and nothing is printed. *)
Record lock_verify_boot `{Cpu} (σ : machine) : Prop := {
  boot_semaphores i : 0 <= i < 32 -> is_Some (memory σ !! thread_semaphore i);
  boot_vals i : 0 <= i < 512 -> is_Some (memory σ !! vals i);
  boot_misc x i : misc_var x i = true -> is_Some (memory σ !! Glob x i);
  boot_htid : is_Some (memory σ !! stall_isr_htid 0);
  boot_counters : memory σ !! k0_shared_counter = Some 0 /\ memory σ !! tlb_shared_counter = Some 0;
  boot_err : memory σ !! err = Some 0;
  boot_locks : Z.testbit (syscfg (locks σ)) SYSCFG_KL_BIT = false /\ Z.testbit (syscfg (locks σ)) SYSCFG_TL_BIT = false;
  boot_handlers : handlers σ = ∅;
  boot_output : output σ = []
}.

Section safe.
Context `{HL : CpuLaws}.
Implicit Types (σ : machine) (δ : gmap slot gh) (s : slot) (g : gh).

Abbreviation twp := (wpt (Inv inv) (Spec CSpec) (Fin CFin) exit_ok).

Lemma boot_inv σ : lock_verify_boot σ -> inv σ {[main := boot_ghost]}.
Proof.
  intros [_ _ H3 H4 [H5 H5'] H6 [H7 H7'] H8 H9].
  assert (forall s g, ({[main := boot_ghost]} : gmap slot gh) !! s = Some g -> s = main /\ g = idle) as Hs.
  { intros s g Hg. apply lookup_singleton_Some in Hg as [<- <-]. done. }
  split; try done.
  - intros k. split.
    + destruct k; cbn [lock_bit]; congruence.
    + intros (s & g & Hg & Hk). by destruct (Hs _ _ Hg) as [_ ->].
  - intros k s g s' g' Hg _ Hk. by destruct (Hs _ _ Hg) as [_ ->].
  - intros k s g v Hg Hk. by destruct (Hs _ _ Hg) as [_ ->].
  - intros k. assert (total k {[main := boot_ghost]} = 0) as -> by done. by destruct k.
  - intros t g Hg. by destruct (Hs _ _ Hg).
  - intros n h. by rewrite H8.
  - exists boot_ghost. rewrite lookup_singleton_eq, H9. split_and!; try done.
    + intros t. simpl. rewrite elem_of_empty. split; [done|]. intros [Ht [g Hg]]. destruct (Hs _ _ Hg) as [E _]. congruence.
    + intros t g Ht Hg. destruct (Hs _ _ Hg) as [E _]. congruence.
  - by rewrite H9.
Qed.

(** *** The functions *)

Lemma client_functions f a s w g R : CSpec f a s g R ->
  twp s (client f a) (fun _ (g' : work_ghost gh) => g'.1 = w /\ R g'.2) (w, g).
Proof.
  intros [(Hf & Hs & -> & HR)|(c & t & Hf & -> & Ht & -> & HR)].
  - destruct s as [t b]. simpl in Hs. subst b. destruct Hf as [-> | ->].
    + change (client lock_interrupt_handler_fn a) with (lock_interrupt_handler a).
      apply wp_lock_interrupt_handler. split; [done|]. by apply HR.
    + change (client stall_isr_fn a) with (stall_isr a). apply wp_stall_isr. split; [done|]. by apply HR.
  - unfold worker_goal in Hf.
    assert (forall p : proc (), twp (t, false) p (fun _ (g' : work_ghost gh) => g'.1 = w /\ stopped g'.2) (w, worker c) ->
      twp (t, false) p (fun _ (g' : work_ghost gh) => g'.1 = w /\ R g'.2) (w, worker c)) as Hm.
    { intros p Hp. eapply wpt_mono; [done|]. intros [] g' [H1 H2]. auto. }
    repeat case_bool_decide; simplify_eq.
    + apply Hm. rewrite elem_of_cons, list_elem_of_singleton in *. destruct_or!; subst f.
      * change (client k0lock_counter_thread_fn a) with (k0lock_counter_thread a). by apply wp_k0lock_counter_thread.
      * change (client k0lock_counter_thread_long_fn a) with (k0lock_counter_thread_long a). by apply wp_k0lock_counter_thread_long.
    + apply Hm. rewrite elem_of_cons, list_elem_of_singleton in *. destruct_or!; subst f.
      * change (client tlblock_counter_thread_fn a) with (tlblock_counter_thread a). by apply wp_tlblock_counter_thread.
      * change (client tlblock_counter_thread_long_fn a) with (tlblock_counter_thread_long a). by apply wp_tlblock_counter_thread_long.
    + apply Hm. rewrite !elem_of_cons, elem_of_nil in *. destruct_or!; try done; subst f.
      * change (client k0lock_holder_fn a) with (k0lock_holder a). by apply wp_k0lock_holder.
      * change (client k0lock_waiter_fn a) with (k0lock_waiter a). by apply wp_k0lock_waiter.
      * change (client tlblock_holder_fn a) with (tlblock_holder a). by apply wp_tlblock_holder.
      * change (client tlblock_waiter_fn a) with (tlblock_waiter a). by apply wp_tlblock_waiter.
Qed.

(** *** Interrupts *)

(** A handler's slot may be added or removed: it holds and adds nothing. *)
Lemma inv_handler_slot σ δ δ' t : inv σ δ -> is_Some (δ !! (t, false)) ->
  (forall s, s <> (t, true) -> δ' !! s = δ !! s) ->
  (forall g, δ !! (t, true) = Some g -> g = idle) -> (forall g, δ' !! (t, true) = Some g -> g = idle) ->
  (t = 0 -> is_Some (δ' !! (0, true)) -> forall g, δ !! main = Some g -> m0 g = false) ->
  inv σ δ'.
Proof.
  intros [H1 H1' H2 H3 H4 H5 H6 H7 (gm & G1 & G2 & G3 & G4 & G5 & G6 & G7 & G8) H9] Ht Hd Hi Hi' Hm.
  assert (forall s g k, δ' !! s = Some g -> hold g k = true \/ is_Some (seen g k) -> δ !! s = Some g) as Hs.
  { intros s g k Hg Hor. destruct (decide (s = (t, true))) as [->|Hne]; [|by rewrite <- Hd].
    apply Hi' in Hg as ->. destruct Hor as [Hor|[? Hor]]; done. }
  assert (forall u, δ' !! (u, false) = δ !! (u, false)) as Hf by (intros u; apply Hd; congruence).
  split; try done.
  - intros k. rewrite H2. split; intros (s & g & Hg & Hk).
    + exists s, g. split; [|done]. rewrite Hd; [done|]. intros ->. by rewrite (Hi _ Hg) in Hk.
    + exists s, g. eauto.
  - intros k s g s' g' Hg Hg' E1 E2. eapply (H3 k); eauto.
  - intros k s g v Hg Hv. eapply H4; [|done]. eapply Hs; [done|]. right. by rewrite Hv.
  - intros k. rewrite H5. do 2 f_equal. unfold total. induction [0; 1; 2; 3] as [|u l IH]; [done|].
    cbn [foldr]. by rewrite IH, Hf.
  - intros u g Hg. rewrite Hf. destruct (decide (u = t)) as [->|Hne]; [by split; [apply Hi'|]|].
    rewrite Hd in Hg by congruence. by apply H6.
  - exists gm. rewrite Hf. split_and!; try done.
    + intros u. by rewrite Hf.
    + intros u g Hu. rewrite Hf. by apply G4.
    + intros Hmt. destruct (G7 Hmt) as [E1 E2]. split; [done|].
      destruct (δ' !! (0, true)) as [g|] eqn:Eg; [|done].
      destruct (decide (t = 0)) as [->|Hne]; [|rewrite Hd in Eg by congruence; congruence].
      specialize (Hm eq_refl ltac:(eauto) gm G1). congruence.
Qed.

Lemma lock_verify_client_ok : client_ok inv CSpec CFin exit_ok client.
Proof.
  split.
  - apply client_functions.
  - intros m σ δ Hi. apply inv_interrupts; [apply ciad_imask|done].
  - intros σ δ t n i Hi Ht Hn Ha. destruct (accept_imask _ _ _ _ Ha) as (Hr & Hb & Hu).
    exists idle, (fun g => g = idle). split_and!.
    + apply inv_interrupts; [apply Hu|].
      apply (inv_handler_slot σ δ _ t); [done|done|..].
      * intros s Hs. by rewrite lookup_insert_ne.
      * congruence.
      * intros g Hg. rewrite lookup_insert_eq in Hg. congruence.
      * intros -> _ g Hg. destruct (m0 g) eqn:Em; [|done].
        destruct (main_facts _ _ _ Hi Hg) as (_ & _ & _ & _ & _ & F & _). destruct (F Em) as [Eim _].
        rewrite Eim in Hb. change 0xffffffff with (Z.ones 32) in Hb. rewrite Z.ones_spec_low in Hb by lia. done.
    + destruct (handlers σ !! n) as [h|] eqn:Eh; [|done].
      pose proof (i_handlers _ _ Hi _ _ Eh) as Hh. split; [by destruct Hh as [-> | ->]|]. by left.
    + intros g -> σ' δ' Hi' Hg'. destruct (i_isr _ _ Hi' _ _ Hg') as [_ Ht'].
      apply (inv_handler_slot σ' δ' _ t); [done|done|..].
      * intros s Hs. by rewrite lookup_delete_ne.
      * congruence.
      * intros g Hg. by rewrite lookup_delete_eq in Hg.
      * intros -> [g Hg]. by rewrite lookup_delete_eq in Hg.
Qed.
End safe.

(** C1: the lock test in every interleaving of its threads and interrupts, on
    every machine with lawful lock instructions, allocator and interrupt masks:
    nothing undefined happens (no access out of bounds, no use of a freed
    block, no thread started twice); every check on the SYSCFG bits, the shared
    counters (3000 after each of the four counting tests) and the interrupts of
    thread 0 holds, so that only the checks that depend on the timing of
    interrupts can fail; and main returns 0 only if no check failed. *)
Theorem lock_verify_safe `{CpuLaws} σ c :
  lock_verify_boot σ ->
  reachable (lib_code client) (boot lock_verify_main σ) c ->
  (forall ev, step (lib_code client) ev c <> Wrong) /\
  Forall (fun l => l ∈ timing_lines) (failed_lines (output (mach c))) /\
  (forall e, halted c = Some e -> e = 0 /\ failed_lines (output (mach c)) = [] \/ e = 1).
Proof.
  intros Hb Hr.
  destruct (client_adequate inv inv_same CSpec CFin exit_ok client lock_verify_main σ boot_ghost c)
    as (Hw & He & γ & Hl & Hi); try done.
  - apply lock_verify_client_ok.
  - apply Hb.
  - apply Hb.
  - by apply boot_inv.
  - apply lock_verify_main_ok.
  - split_and!; [done|apply (i_lines _ _ Hi)|]. intros e Ee. by apply He.
Qed.

(* ------------------------------------------------------------------ *)
(** ** On the simulated processor *)

Import SimCpu.

Definition lock_vars : list loc :=
  [err; k0_shared_counter; tlb_shared_counter; isr_count; isr_kl_set_count; isr_tl_set_count; holder_ready;
   waiters_ready; swis_complete; stall_phase; isr_while_pended] ++ array "stall_isr_htid" 6.

Definition lock_machine : machine := sim_machine (lib_vars ++ lock_vars).

Lemma lock_var_zero x : x ∈ lock_vars -> memory lock_machine !! x = Some 0.
Proof. intros Hx. apply zeroed_lookup, elem_of_app. by right. Qed.

Lemma misc_in_vars x i : misc_var x i = true -> Glob x i ∈ lock_vars.
Proof.
  unfold misc_var, lock_vars. rewrite elem_of_app, orb_true_iff, !andb_true_iff. intros [[Hi Hx]|[Hi Hx]].
  - left. apply Z.eqb_eq in Hi as ->. apply existsb_exists in Hx as (y & Hin & Hy). apply String.eqb_eq in Hy as <-.
    apply (bool_decide_eq_true_1 _). simpl in Hin. repeat (destruct Hin as [<-|Hin]; [vm_compute; reflexivity|]). done.
  - right. apply String.eqb_eq in Hx as ->. apply elem_of_array. lia.
Qed.

Lemma listed_zero x : bool_decide (x ∈ lock_vars) = true -> memory lock_machine !! x = Some 0.
Proof. intros Hx. by apply lock_var_zero, (bool_decide_eq_true_1 _). Qed.

Lemma lock_machine_boot : lock_verify_boot lock_machine.
Proof.
  split.
  - apply sim_lib.
  - apply sim_lib.
  - intros x i Hx. exists 0. by apply lock_var_zero, misc_in_vars.
  - exists 0. by apply listed_zero.
  - split; by apply listed_zero.
  - by apply listed_zero.
  - by split.
  - reflexivity.
  - reflexivity.
Qed.

(** The test after 2000 rounds of the scheduler, in the first counting test. *)
Definition lock_run : config :=
  run_to (lib_code client) (round_robin 2000) (boot lock_verify_main lock_machine).

Example lock_run_output : (fst <$> output (mach lock_run)) =
  ["k0lock/k0unlock SYSCFG.KL bit"; "tlblock/tlbunlock SYSCFG.TL bit"; "k0lock and tlblock are independent";
   "k0lock mutual exclusion (%d threads x %d iterations)"] /\ memory (mach lock_run) !! k0_shared_counter = Some 96.
Proof. vm_compute. split; reflexivity. Qed.

Lemma lock_verify_safe_witness :
  lock_verify_boot lock_machine /\
  (forall ev, step (lib_code client) ev lock_run <> Wrong) /\
  Forall (fun l => l ∈ timing_lines) (failed_lines (output (mach lock_run))) /\
  (forall e, halted lock_run = Some e -> e = 0 /\ failed_lines (output (mach lock_run)) = [] \/ e = 1).
Proof.
  split; [exact lock_machine_boot|].
  exact (lock_verify_safe lock_machine lock_run lock_machine_boot (run_to_reachable _ _ _)).
Defined.
