(* ===== verification/Atomics.v ===== *)
(** src/sys_atomics.c: two threads increment two shared counters with
    load-locked and store-conditional, while the main thread watches that the
    counters only grow. *)

From S2P Require Import Prelude Threads ThreadLogic ThreadCommon.

Open Scope string_scope.
Open Scope list_scope.
Open Scope Z_scope.

Definition NUM_THREADS : Z := 2.
Definition LOOP_CNT : Z := 10000.
Definition EXPECTED_IGNORED : Z := 99.
Definition RETRY : Z := -1.
Definition NUM_RETRIES : Z := 4.

(** The SIZE of the DECLARE macros, and its TYPE. *)
Inductive size := S32 | S64.

#[export] Instance size_eq_dec : EqDecision size.
Proof. solve_decision. Defined.

Definition SIZE (k : size) : Z := match k with S32 => 32 | S64 => 64 end.

Definition tick (k : size) : loc := match k with S32 => var "tick32" | S64 => var "tick64" end.
Definition id (i : Z) : loc := Glob "id" i.
Definition done (i : Z) : loc := Glob "done" i.
Definition contention (i : Z) : loc := Glob "contention" i.

(** The variables [ignored32] and [ignored64] of the frame of [thread_body] on
    the stack of a thread. *)
Definition ignored (k : size) (id : Z) : loc :=
  match k with S32 => Glob "ignored32" id | S64 => Glob "ignored64" id end.

(** DECLARE_ATOMIC_INC *)
Definition atomic_inc (k : size) (x : loc) (increment : Z) : proc Z :=
  loop (fun iters : Z =>
    old ← op (LoadLocked x);
    let dummy := uwrap (SIZE k) (old + increment) in
    let iters := u32 (iters + 1) in
    pause;;
    p0 ← op (StoreCond x dummy);
    mret (if truth p0 then inr (uwrap (SIZE k) iters) else inl iters)) 0.

(** DECLARE_ATOMIC_INC_MISMATCH: the load-locked and the store-conditional name
    different addresses. *)
Definition atomic_inc_mismatch (x y : loc) : proc Z :=
  let dummy := 0 in
  _ ← op (LoadLocked x);
  op (StoreCond y dummy).

(** DECLARE_SAT_ADD: the value it leaves in [*a]. *)
Definition sat_add (k : size) (a b : Z) : Z :=
  let result := uwrap (SIZE k) (a + b) in
  if (result <? a) || (result <? b) then 2 ^ SIZE k - 1 else result.

(** The two mismatches of one round, with their assertions. *)
Definition check_mismatch (k : size) (id : Z) : proc () :=
  pred_true ← atomic_inc_mismatch (tick k) (ignored k id);
  assert (negb (truth pred_true));;
  v ← load (ignored k id);
  assert (v =? EXPECTED_IGNORED).

Definition thread_body (id : Z) : proc Z :=
  store (ignored S32 id) EXPECTED_IGNORED;;
  store (ignored S64 id) EXPECTED_IGNORED;;
  loop (fun '(i, tick32_iters, tick64_iters) =>
    if i <? LOOP_CNT then
      let inc := u32 (id * (i mod 5)) in
      n32 ← atomic_inc S32 (tick S32) inc;
      let tick32_iters := sat_add S32 tick32_iters n32 in
      n64 ← atomic_inc S64 (tick S64) inc;
      let tick64_iters := sat_add S64 tick64_iters n64 in
      check_mismatch S32 id;;
      check_mismatch S64 id;;
      mret (inl (i + 1, tick32_iters, tick64_iters))
    else mret (inr (swrap 32 (u64 (u32 (tick32_iters - LOOP_CNT) + u64 (tick64_iters - LOOP_CNT))))))
    (0, 0, 0).

(** The argument [&id[i]] is given by its index. *)
Definition my_thread (y : Z) : proc () :=
  id ← load (id y);
  c ← thread_body id;
  store (contention id) c;;
  store (done id) 1.

Definition all_done : proc bool :=
  loop (fun i =>
    if i <=? NUM_THREADS then
      v ← load (done i);
      mret (if truth v then inl (i + 1) else inr false)
    else mret (inr true)) 1.

(** The address of [my_thread]. *)
Definition my_thread_fn : Z := 2.

Definition assert_grows (k : size) (prev : Z) : proc () :=
  v ← load (tick k);
  assert (prev <=? v).

(** The count the increments of all threads add up to. *)
Definition expected_tick_count : Z :=
  foldl (fun e tid => foldl (fun e i => u32 (e + tid * (i mod 5))) e (seqZ 0 LOOP_CNT)) 1 (seqZ 1 NUM_THREADS).

Definition thread_mask : Z :=
  foldl (fun m i => Z.lor m (Z.shiftl 1 i)) 0 (seqZ 1 NUM_THREADS).

Definition check_tick (k : size) (format : string) (err : Z) : proc Z :=
  v ← load (tick k);
  if negb (v =? expected_tick_count) then
    v ← load (tick k);
    printf format [v; expected_tick_count];;
    mret (err + 1)
  else mret err.

Definition error32 : string := "ERROR: tick32 %u != %u".
Definition error64 : string := "ERROR: tick64 %llu != %u".

Definition run_test : proc Z :=
  let err := 0 in
  store (tick S32) 1;;
  store (tick S64) 1;;
  for_range 1 (NUM_THREADS + 1) (fun i =>
    store (id i) i;;
    store (done i) 0;;
    create_waiting_thread my_thread_fn i i);;
  start_waiting_threads thread_mask;;
  prev_tick32 ← load (tick S32);
  prev_tick64 ← load (tick S64);
  loop (fun '(prev_tick32, prev_tick64) =>
    d ← all_done;
    if negb d then
      assert_grows S32 prev_tick32;;
      assert_grows S64 prev_tick64;;
      prev_tick32 ← load (tick S32);
      prev_tick64 ← load (tick S64);
      pause;;
      mret (inl (prev_tick32, prev_tick64))
    else mret (inr ())) (prev_tick32, prev_tick64);;
  thread_join thread_mask;;
  retry ← loop (fun i =>
    if i <=? NUM_THREADS then
      c ← load (contention i);
      mret (if c =? 0 then inr true else inl (i + 1))
    else mret (inr false)) 1;
  if retry : bool then mret RETRY
  else
    err ← check_tick S32 error32 err;
    check_tick S64 error64 err.

Definition sys_atomics_main : proc () :=
  printf "Hexagon atomics test" [];;
  err ← loop (fun '(i, err) =>
    if i <=? NUM_RETRIES then
      printf "%d try" [i];;
      err ← run_test;
      mret (if negb (err =? RETRY) then inr err else inl (i + 1, err))
    else mret (inr err)) (1, 0);
  printf (if truth err then "FAIL" else "PASS") [];;
  exit err.

(** The functions threads start with. *)
Definition client (f a : Z) : proc () := if f =? my_thread_fn then my_thread a else mret tt.
