(* ===== verification/AtomicsInv.v ===== *)
(** The invariant of the atomics test: what each thread has added to the
    counters, under which reservation it is about to add more, and how far the
    main thread has seen them grow. *)

From S2P Require Import Prelude Threads ThreadLogic ThreadCommon Atomics.

Open Scope string_scope.
Open Scope list_scope.
Open Scope Z_scope.

(** The ghost of a thread: what it has added to each counter, the counter and
    the value of its last load-locked, and which of its ignored variables it
    has set.  For the main thread, [acnt] is what the joined threads added, and
    there are a lower bound of each counter, the elements of [id] it has set and
    the threads it has started. *)
Record ag := Ag {
  acnt : size -> Z;
  link : option (size * Z);
  warm : size -> bool;
  low : size -> Z;
  ids : gset Z;
  kids : gset Z
}.

Definition fresh_ag : ag := Ag (fun _ => 0) None (fun _ => false) (fun _ => 0) ∅ ∅.

Definition supd {A} (f : size -> A) (k : size) (a : A) : size -> A := fun k' => if decide (k' = k) then a else f k'.

Definition set_acnt k n g := Ag (supd (acnt g) k n) (link g) (warm g) (low g) (ids g) (kids g).
Definition set_link l g := Ag (acnt g) l (warm g) (low g) (ids g) (kids g).
Definition set_warm k g := Ag (acnt g) (link g) (supd (warm g) k true) (low g) (ids g) (kids g).
Definition set_low k v g := Ag (acnt g) (link g) (warm g) (supd (low g) k v) (ids g) (kids g).
Definition set_id i g := Ag (acnt g) (link g) (warm g) (low g) ({[i]} ∪ ids g) (kids g).
Definition set_kids x g := Ag (acnt g) (link g) (warm g) (low g) (ids g) x.

(** What the first [i] rounds of thread 1 add to each counter. *)
Fixpoint inc_sum (i : nat) : Z :=
  match i with O => 0 | Datatypes.S i => inc_sum i + Z.of_nat i mod 5 end.

Lemma inc_sum_mono i j : (i <= j)%nat -> inc_sum i <= inc_sum j.
Proof.
  induction 1 as [|j Hle IH]; [done|]. cbn [inc_sum]. pose proof (Z.mod_pos_bound (Z.of_nat j) 5). lia.
Qed.

(** What one thread adds in all: its number times this. *)
Definition ROUND_SUM : Z := 20000.

Lemma inc_sum_rounds n : inc_sum (n * 5) = 10 * Z.of_nat n.
Proof.
  induction n as [|n IH]; [done|]. change (Datatypes.S n * 5)%nat with (5 + n * 5)%nat.
  cbn [Nat.add inc_sum]. rewrite IH.
  assert (forall j, 0 <= j < 5 -> (Z.of_nat (n * 5) + j) mod 5 = j) as Hm.
  { intros j Hj. rewrite Nat2Z.inj_mul. change (Z.of_nat 5) with 5.
    rewrite Z.add_comm, Z.mod_add by lia. apply Z.mod_small. lia. }
  replace (Z.of_nat (n * 5)) with (Z.of_nat (n * 5) + 0) by lia.
  replace (Z.of_nat (Datatypes.S (n * 5))) with (Z.of_nat (n * 5) + 1) by lia.
  replace (Z.of_nat (Datatypes.S (Datatypes.S (n * 5)))) with (Z.of_nat (n * 5) + 2) by lia.
  replace (Z.of_nat (Datatypes.S (Datatypes.S (Datatypes.S (n * 5))))) with (Z.of_nat (n * 5) + 3) by lia.
  replace (Z.of_nat (Datatypes.S (Datatypes.S (Datatypes.S (Datatypes.S (n * 5)))))) with (Z.of_nat (n * 5) + 4) by lia.
  rewrite !Hm by lia. lia.
Qed.

Lemma inc_sum_all : inc_sum (Z.to_nat LOOP_CNT) = ROUND_SUM.
Proof. replace (Z.to_nat LOOP_CNT) with (2000 * 5)%nat by (unfold LOOP_CNT; lia). by rewrite inc_sum_rounds. Qed.

Lemma inc_sum_nonneg i : 0 <= inc_sum i.
Proof. apply (inc_sum_mono 0). lia. Qed.

(** The sum the main thread computes for one thread. *)
Lemma expected_rounds tid n e : 0 <= tid -> 0 <= e -> e + tid * inc_sum n < 2 ^ 32 ->
  foldl (fun e i => u32 (e + tid * (i mod 5))) e (seqZ 0 (Z.of_nat n)) = e + tid * inc_sum n.
Proof.
  intros Ht He. induction n as [|n IH]; intros Hs; [change (e = e + tid * 0); lia|].
  rewrite seqZ_S, foldl_snoc. cbn [inc_sum] in *. pose proof (Z.mod_pos_bound (Z.of_nat n) 5).
  pose proof (inc_sum_nonneg n). rewrite IH by nia. rewrite Z.add_0_l, uwrap_id by (split; nia). lia.
Qed.

Lemma expected_value : expected_tick_count = 1 + 3 * ROUND_SUM.
Proof.
  unfold expected_tick_count. change (seqZ 1 NUM_THREADS) with [1; 2]. cbn [foldl].
  replace LOOP_CNT with (Z.of_nat (Z.to_nat LOOP_CNT)) by (unfold LOOP_CNT; lia).
  rewrite (expected_rounds 1), (expected_rounds 2); rewrite ?inc_sum_all; unfold ROUND_SUM; lia.
Qed.

(** The slot of the main thread. *)
Abbreviation main := (0, false).

Definition good_line (l : string * list Z) : Prop := l.1 <> error32 /\ l.1 <> error64.

Section inv.
Context `{HL : CpuLaws}.
Implicit Types (σ : machine) (δ : gmap slot ag) (s : slot) (g : ag).

Definition total k δ : Z :=
  foldr (fun t z => from_option (fun g => acnt g k) 0 (δ !! (t, false)) + z) 0 [0; 1; 2].

(** A started thread. *)
Record worker_ok σ (t : Z) g : Prop := {
  w_range : 1 <= t <= 2;
  w_id : memory σ !! id t = Some t;
  w_cnt k : 0 <= acnt g k <= t * ROUND_SUM;
  w_warm k : warm g k = true -> memory σ !! ignored k t = Some EXPECTED_IGNORED;
  w_link k v : link g = Some (k, v) ->
    (forall x, reserved (reservations σ) t x -> x = tick k) /\
    (reserved (reservations σ) t (tick k) -> memory σ !! tick k = Some v)
}.

Record main_ok σ δ g : Prop := {
  m_kids t : t <> 0 -> (is_Some (δ !! (t, false)) <-> t ∈ kids g);
  m_cnt : (kids g = ∅ /\ forall k, -1 <= acnt g k <= 3 * ROUND_SUM) \/ (forall k, acnt g k = 0);
  m_low k : low g k <= 1 + total k δ;
  m_ids i : i ∈ ids g -> 1 <= i <= 2 /\ memory σ !! id i = Some i
}.

Record inv σ δ : Prop := {
  i_tick k : memory σ !! tick k = Some (1 + total k δ);
  i_cells i : 1 <= i <= 2 -> is_Some (memory σ !! id i) /\ is_Some (memory σ !! done i) /\
    is_Some (memory σ !! contention i) /\ forall k, is_Some (memory σ !! ignored k i);
  i_worker t g : δ !! (t, false) = Some g -> t <> 0 -> worker_ok σ t g;
  i_main : exists g, δ !! main = Some g /\ main_ok σ δ g;
  i_handlers : handlers σ = ∅;
  i_lines : Forall good_line (output σ)
}.

(** The value of a counter: no thread can make it wrap around. *)
Lemma total_bounds σ δ k : inv σ δ -> -1 <= total k δ <= 3 * ROUND_SUM.
Proof.
  intros Hi. destruct (i_main _ _ Hi) as (g & Hg & [Hk Hc _ _]).
  assert (forall t, t <> 0 -> 0 <= from_option (fun g => acnt g k) 0 (δ !! (t, false)) <= t * ROUND_SUM \/
    δ !! (t, false) = None) as Hw.
  { intros t Ht. destruct (δ !! (t, false)) as [h|] eqn:Eh; [left|by right]. cbn [from_option].
    apply (w_cnt _ _ _ (i_worker _ _ Hi _ _ Eh Ht)). }
  unfold total. cbn [foldr]. rewrite Hg. cbn [from_option].
  destruct Hc as [[He Hc]|Hc].
  - assert (forall t, t <> 0 -> δ !! (t, false) = None) as Hn.
    { intros t Ht. destruct (δ !! (t, false)) as [h|] eqn:Eh; [|done].
      assert (t ∈ kids g) as Hin by (apply Hk; [done|by rewrite Eh]). rewrite He in Hin. set_solver. }
    rewrite !Hn by done. cbn [from_option]. specialize (Hc k). lia.
  - rewrite Hc. unfold ROUND_SUM in *.
    destruct (Hw 1 ltac:(done)) as [H1| ->], (Hw 2 ltac:(done)) as [H2| ->]; cbn [from_option]; lia.
Qed.

(** A step that keeps the ghosts: it leaves the cells with a known value alone,
    and gives no reservation to a thread under a load-locked. *)
Lemma ag_inv_frame σ σ' δ : inv σ δ ->
  (forall k, memory σ' !! tick k = memory σ !! tick k) ->
  (forall i, 1 <= i <= 2 -> memory σ' !! id i = memory σ !! id i /\
     (forall k, memory σ' !! ignored k i = memory σ !! ignored k i \/ memory σ' !! ignored k i = Some EXPECTED_IGNORED) /\
     (is_Some (memory σ !! done i) -> is_Some (memory σ' !! done i)) /\
     (is_Some (memory σ !! contention i) -> is_Some (memory σ' !! contention i))) ->
  (forall t g x, δ !! (t, false) = Some g -> link g <> None ->
     reserved (reservations σ') t x -> reserved (reservations σ) t x) ->
  handlers σ' = handlers σ -> Forall good_line (output σ') -> inv σ' δ.
Proof.
  intros [H1 H2 H3 H4 H5 H6] Et Ec Er Eh Ho. split; [| | | |congruence|done].
  - intros k. by rewrite Et.
  - intros i Hi. destruct (H2 i Hi) as (A & B & C & D), (Ec i Hi) as (E1 & E2 & E3 & E4).
    rewrite E1. split_and!; [done|by apply E3|by apply E4|]. intros k. destruct (E2 k) as [-> | ->]; eauto.
  - intros t g Hg Ht. destruct (H3 t g Hg Ht) as [W1 W2 W3 W4 W5]. destruct (Ec t W1) as (E1 & E2 & _).
    split; [done|by rewrite E1|done|intros k Hk; destruct (E2 k) as [-> | ->]; auto|].
    intros k v Hl. destruct (W5 k v Hl) as [L1 L2]. assert (link g <> None) as Hne by congruence. split.
    + intros x Hx. apply L1. by apply (Er t g).
    + intros Hx. rewrite Et. apply L2. by apply (Er t g).
  - destruct H4 as (g & Hg & [M1 M2 M3 M4]). exists g. split; [done|]. split; [done..|].
    intros i Hi. destruct (M4 i Hi) as [Hr Hm]. split; [done|]. by destruct (Ec i Hr) as [-> _].
Qed.

(** A step that changes reservations only. *)
Lemma inv_reserve σ σ' δ : inv σ δ -> memory σ' = memory σ ->
  (forall t g x, δ !! (t, false) = Some g -> link g <> None ->
     reserved (reservations σ') t x -> reserved (reservations σ) t x) ->
  handlers σ' = handlers σ -> output σ' = output σ -> inv σ' δ.
Proof.
  intros Hi Em Er Eh Eo. apply (ag_inv_frame σ); try done; rewrite ?Em; try done; [|rewrite Eo; apply (i_lines _ _ Hi)].
  intros i _. split_and!; try done. by left.
Qed.

Lemma ag_inv_same σ σ' δ : same_client σ σ' -> inv σ δ -> inv σ' δ.
Proof.
  intros [E1 E2 E3 E4 E5 E6 E7] Hi. apply (ag_inv_frame σ); try done.
  - intros []; by apply E1.
  - intros i _. unfold done, contention, id. rewrite !E1 by done. split_and!; try done.
    intros []; unfold ignored; left; by rewrite E1.
  - intros t g x _ _. apply E7.
  - rewrite E6. apply (i_lines _ _ Hi).
Qed.

Lemma ticks_insert k δ t g g' : δ !! (t, false) = Some g -> 0 <= t < 3 ->
  total k (<[(t, false) := g']> δ) = total k δ + acnt g' k - acnt g k.
Proof.
  intros Hg Ht. unfold total. assert (t = 0 \/ t = 1 \/ t = 2) as [-> |[-> | ->]] by lia;
    cbn [foldr]; rewrite lookup_insert_eq, !lookup_insert_ne, Hg by congruence; cbn [from_option]; lia.
Qed.
End inv.
