(* ===== verification/AtomicsRules.v ===== *)
(** The rules of the atomics test: what each kind of instruction does to the
    ghosts of its invariant. *)

From S2P Require Import Prelude Threads ThreadLogic ThreadCommon Atomics AtomicsInv.

Open Scope string_scope.
Open Scope list_scope.
Open Scope Z_scope.

(** A thread that has added its share to both counters. *)
Definition stopped (t : Z) (g : ag) : Prop := forall k, acnt g k = t * ROUND_SUM.

Definition CSpec (f a : Z) (s : slot) (g : ag) (R : ag -> Prop) : Prop :=
  exists t, f = my_thread_fn /\ a = t /\ s = (t, false) /\ 1 <= t <= 2 /\ g = fresh_ag /\
    forall g', stopped t g' -> R g'.

Definition CFin (t : Z) (g : ag) : Prop := stopped t g.

Lemma supd_eq {A} (f : size -> A) k a : supd f k a k = a.
Proof. unfold supd. by rewrite decide_True. Qed.
Lemma supd_ne {A} (f : size -> A) k k' a : k' <> k -> supd f k a k' = f k'.
Proof. intros. unfold supd. by rewrite decide_False. Qed.

Section rules.
Context `{HL : CpuLaws}.
Implicit Types (σ : machine) (δ : gmap slot ag) (s : slot) (g : ag) (w : option (Z * Z * Z)).

(** The machine exits with 0, after the last retry with RETRY, or because an
    allocation failed. *)
Definition exit_ok (e : Z) σ : Prop := e = 0 \/ e = RETRY \/ e = 1 /\ out_of_memory.

Abbreviation twp := (wpt (Inv inv) (Spec CSpec) (Fin CFin) exit_ok).

(** *** Changes of one ghost *)

Lemma started_insert δ t g g' u : δ !! (t, false) = Some g ->
  is_Some (<[(t, false) := g']> δ !! (u, false)) <-> is_Some (δ !! (u, false)).
Proof.
  intros Hg. destruct (decide (u = t)) as [->|]; [by rewrite lookup_insert_eq, Hg|].
  by rewrite lookup_insert_ne by congruence.
Qed.

Lemma ticks_same δ t g g' k : δ !! (t, false) = Some g -> acnt g' k = acnt g k ->
  total k (<[(t, false) := g']> δ) = total k δ.
Proof.
  intros Hg Hc. unfold total. induction [0; 1; 2] as [|u l IH]; [done|]. cbn [foldr]. rewrite IH. f_equal.
  destruct (decide (u = t)) as [->|]; [by rewrite lookup_insert_eq, Hg|by rewrite lookup_insert_ne by congruence].
Qed.

(** The counters' part of a thread's ghost stays. *)
Lemma inv_ghost σ δ t g g' : inv σ δ -> δ !! (t, false) = Some g -> t <> 0 ->
  acnt g' = acnt g -> worker_ok σ t g' -> inv σ (<[(t, false) := g']> δ).
Proof.
  intros [H1 H2 H3 (gm & Hm & [M1 M2 M3 M4]) H5 H6] Hg Ht Hc Hw.
  assert (forall k, total k (<[(t, false) := g']> δ) = total k δ) as Htot
    by (intros k; apply (ticks_same δ t g); [done|by rewrite Hc]).
  split; [|done| | |done|done].
  - intros k. by rewrite Htot.
  - intros u h Hu Hu0. destruct (decide (u = t)) as [->|].
    + rewrite lookup_insert_eq in Hu. by injection Hu as <-.
    + rewrite lookup_insert_ne in Hu by congruence. by apply H3.
  - exists gm. rewrite lookup_insert_ne by congruence. split; [done|]. split; [|done|intros k; by rewrite Htot|done].
    intros u Hu. rewrite (started_insert δ t g) by done. by apply M1.
Qed.

(** A thread adds [n] to a counter by a store-conditional that succeeds. *)
Lemma inv_bump σ σ' δ t g k n v : inv σ δ -> δ !! (t, false) = Some g -> t <> 0 ->
  memory σ !! tick k = Some v -> memory σ' = <[tick k := v + n]> (memory σ) ->
  (forall u x, reserved (reservations σ') u x -> reserved (reservations σ) u x /\ x <> tick k) ->
  handlers σ' = handlers σ -> output σ' = output σ ->
  0 <= n -> acnt g k + n <= t * ROUND_SUM ->
  inv σ' (<[(t, false) := set_link None (set_acnt k (acnt g k + n) g)]> δ).
Proof.
  intros Hi Hg Ht Hv Hm Hr Hh Ho Hn Hb. set (g' := set_link None _).
  destruct (i_worker _ _ Hi _ _ Hg Ht) as [W1 W2 W3 W4 W5].
  assert (forall k', total k' (<[(t, false) := g']> δ) = total k' δ + if decide (k' = k) then n else 0) as Htot.
  { intros k'. rewrite (ticks_insert k' δ t g) by (done || lia). unfold g'. cbn [acnt set_link set_acnt].
    unfold supd. case_decide; subst; lia. }
  assert (forall l, (forall k', l <> tick k') -> memory σ' !! l = memory σ !! l) as Hother.
  { intros l Hl. rewrite Hm. apply lookup_insert_ne. intros Hx. by apply (Hl k). }
  assert (forall u k' h v', δ !! (u, false) = Some h -> u <> 0 -> link h = Some (k', v') ->
    (forall x, reserved (reservations σ') u x -> x = tick k') /\
    (reserved (reservations σ') u (tick k') -> memory σ' !! tick k' = Some v')) as Hlink.
  { intros u k' h v' Hu Hu0 Hl. destruct (i_worker _ _ Hi _ _ Hu Hu0) as [_ _ _ _ L].
    destruct (L k' v' Hl) as [L1 L2]. split.
    - intros x Hx. apply L1, Hr, Hx.
    - intros Hx. destruct (Hr _ _ Hx) as [Hx' Hne]. rewrite Hm, lookup_insert_ne by congruence. by apply L2. }
  destruct Hi as [H1 H2 H3 (gm & Hgm & [M1 M2 M3 M4]) H5 H6].
  split; [| | | |congruence|by rewrite Ho].
  - intros k'. rewrite Htot, Hm. destruct (decide (k' = k)) as [->|Hne].
    + rewrite lookup_insert_eq. rewrite H1 in Hv. injection Hv as <-. f_equal. lia.
    + rewrite lookup_insert_ne by (by destruct k, k'). rewrite H1. f_equal. lia.
  - intros i Hi'. destruct (H2 i Hi') as (A & B & C & D).
    rewrite !Hother by (by intros []). split_and!; [done..|]. intros k'. rewrite Hother; [done|by intros []; destruct k'].
  - intros u h Hu Hu0. destruct (decide (u = t)) as [->|Hne].
    + rewrite lookup_insert_eq in Hu. injection Hu as <-. split; [done|by rewrite Hother by (by intros [])| | |done].
      * intros k'. unfold g'. cbn [acnt set_link set_acnt]. unfold supd. case_decide as Hd; [subst k'|apply W3].
        specialize (W3 k). lia.
      * intros k' Hk'. rewrite Hother by (by intros []; destruct k'). by apply W4.
    + rewrite lookup_insert_ne in Hu by congruence. destruct (H3 u h Hu Hu0) as [V1 V2 V3 V4 V5].
      split; [done|by rewrite Hother by (by intros [])|done| |].
      * intros k' Hk'. rewrite Hother by (by intros []; destruct k'). by apply V4.
      * intros k' v' Hl. by apply (Hlink u k' h v').
  - exists gm. rewrite lookup_insert_ne by congruence. split; [done|]. split; [|done| |].
    + intros u Hu. rewrite (started_insert δ t g) by done. by apply M1.
    + intros k'. rewrite Htot. specialize (M3 k'). case_decide; lia.
    + intros i Hi. rewrite Hother by (by intros []). by apply M4.
Qed.

(** *** Instructions of a started thread *)

Section thread.
Context (t : Z) (Ht : 1 <= t <= 2).

Lemma wp_load_locked {A : Type} k (f : Z -> proc A) w g Q :
  (forall v, 0 <= v <= 1 + 3 * ROUND_SUM -> twp (t, false) (f v) Q (w, set_link (Some (k, v)) g)) ->
  twp (t, false) (Do (LoadLocked (tick k)) f) Q (w, g).
Proof.
  intros Hw. apply wp_client; [done|]. intros σ δ Hi Hg _. cbn [fst exec].
  pose proof (total_bounds _ _ k Hi) as Hb. rewrite (i_tick _ _ Hi k). eexists. split; [|apply Hw; lia].
  destruct (i_worker _ _ Hi _ _ Hg ltac:(lia)) as [W1 W2 W3 W4 W5].
  set (r' := load_locked t (tick k) (reservations σ)).
  assert (inv σ (<[(t, false) := set_link None g]> δ)) as Hi1 by (by apply (inv_ghost _ _ _ g); [..|lia| |split]).
  assert (inv (with_reservations r' σ) (<[(t, false) := set_link None g]> δ)) as Hi2.
  { apply (inv_reserve σ); try done. intros u h x Hu Hl Hr.
    apply load_locked_reserves in Hr. case_decide; [|done]. subst u. rewrite lookup_insert_eq in Hu. by injection Hu as <-. }
  rewrite <- (insert_insert_eq δ (t, false) _ (set_link None g)).
  apply (inv_ghost _ _ _ (set_link None g)); [done|by apply lookup_insert_eq|lia|done|].
  split; [done..|]. intros k' v [= <- <-]. split.
  - intros x Hx. apply load_locked_reserves in Hx. by rewrite decide_True in Hx.
  - intros _. cbn. apply (i_tick _ _ Hi).
Qed.

(** A store-conditional that can only fail, or one that adds [n]. *)
Lemma wp_store_cond {A : Type} k v n (f : Z -> proc A) w g Q :
  link g = Some (k, v) -> 0 <= n -> acnt g k + n <= t * ROUND_SUM ->
  twp (t, false) (f 1) Q (w, set_link None (set_acnt k (acnt g k + n) g)) ->
  twp (t, false) (f 0) Q (w, set_link None g) ->
  twp (t, false) (Do (StoreCond (tick k) (v + n)) f) Q (w, g).
Proof.
  intros Hl Hn Hb H1 H0. apply wp_client; [by destruct k|]. intros σ δ Hi Hg _. cbn [fst exec].
  rewrite (i_tick _ _ Hi k). destruct (i_worker _ _ Hi _ _ Hg ltac:(lia)) as [W1 W2 W3 W4 W5].
  destruct (W5 k v Hl) as [L1 L2]. destruct (store_cond t (tick k) (reservations σ)) as [ok r'] eqn:Es. destruct ok.
  - destruct (store_cond_success _ _ _ _ Es) as [Hr Hr'].
    exists (set_link None (set_acnt k (acnt g k + n) g)). split; [|done].
    apply (inv_bump σ _ δ t g k n v); try done; [lia|by apply L2|]. intros u x Hx. by apply Hr' in Hx as (? & _ & ?).
  - exists (set_link None g). split; [|done].
    apply (inv_ghost _ _ _ g); [|done|lia|done|by split].
    apply (inv_reserve σ); try done.
    intros u h x _ _. apply (store_cond_failure _ _ _ _ Es).
Qed.

Lemma wp_store_cond_mismatch {A : Type} k v k' x (f : Z -> proc A) w g Q :
  link g = Some (k, v) -> twp (t, false) (f 0) Q (w, set_link None g) ->
  twp (t, false) (Do (StoreCond (ignored k' t) x) f) Q (w, g).
Proof.
  intros Hl H0. apply wp_client; [by destruct k'|]. intros σ δ Hi Hg _. cbn [fst exec].
  destruct (i_cells _ _ Hi t Ht) as (_ & _ & _ & Hc). destruct (Hc k') as [y ->].
  destruct (i_worker _ _ Hi _ _ Hg ltac:(lia)) as [W1 W2 W3 W4 W5]. destruct (W5 k v Hl) as [L1 L2].
  destruct (store_cond t (ignored k' t) (reservations σ)) as [ok r'] eqn:Es. destruct ok.
  - destruct (store_cond_success _ _ _ _ Es) as [Hr _]. apply L1 in Hr. by destruct k, k'.
  - exists (set_link None g). split; [|done].
    apply (inv_ghost _ _ _ g); [|done|lia|done|by split].
    apply (inv_reserve σ); try done.
    intros u h z _ _. apply (store_cond_failure _ _ _ _ Es).
Qed.

(** A store by the thread that the invariant does not track. *)
Lemma inv_store σ δ u l v : inv σ δ -> (forall k, l <> tick k) -> (forall i, l <> id i) ->
  (forall k i, l <> ignored k i \/ v = EXPECTED_IGNORED) -> is_Some (memory σ !! l) -> inv (write u l v σ) δ.
Proof.
  intros Hi Ht' Hid Hig Hl. apply (ag_inv_frame σ); try done.
  - intros k. apply memory_write_ne. congruence.
  - intros i _. rewrite (memory_write_ne u l v σ (id i)) by congruence. split_and!; [done| | |].
    + intros k. destruct (decide (l = ignored k i)) as [->|Hne]; [|left; apply memory_write_ne; congruence].
      right. destruct (Hig k i) as [?| ->]; [done|]. apply memory_write_eq.
    + intros. by apply memory_write_is_Some.
    + intros. by apply memory_write_is_Some.
  - intros u' h x _ _ Hx. by apply plain_store_reserved in Hx as [Hx _].
  - apply (i_lines _ _ Hi).
Qed.

Lemma wp_store_ignored {A : Type} k (f : Z -> proc A) w g Q :
  twp (t, false) (f 0) Q (w, set_warm k g) ->
  twp (t, false) (Do (Store (ignored k t) EXPECTED_IGNORED) f) Q (w, g).
Proof.
  intros Hw. apply wp_client; [by destruct k|]. intros σ δ Hi Hg _. cbn [fst exec].
  destruct (i_cells _ _ Hi t Ht) as (_ & _ & _ & Hc). destruct (Hc k) as [y Hy]. rewrite Hy.
  exists (set_warm k g). split; [|done].
  assert (inv (write t (ignored k t) EXPECTED_IGNORED σ) δ) as Hi'.
  { apply inv_store; [done|by destruct k; intros []|by destruct k|by right|by rewrite Hy]. }
  apply (inv_ghost _ _ _ g); [done..|lia|done|].
  destruct (i_worker _ _ Hi' _ _ Hg ltac:(lia)) as [W1 W2 W3 W4 W5]. split; [done..| |done].
  intros k' Hk'. cbn [warm set_warm] in Hk'. unfold supd in Hk'. case_decide as Hd; [|by apply W4].
  subst k'. apply memory_write_eq.
Qed.

Lemma wp_load_ignored {A : Type} k (f : Z -> proc A) w g Q :
  warm g k = true -> twp (t, false) (f EXPECTED_IGNORED) Q (w, g) ->
  twp (t, false) (Do (Load (ignored k t)) f) Q (w, g).
Proof.
  intros Hk Hw. apply wp_quiet; [done|]. intros σ δ Hi Hg.
  exists EXPECTED_IGNORED. split; [|done]. cbn [fst exec].
  by rewrite (w_warm _ _ _ (i_worker _ _ Hi _ _ Hg ltac:(lia)) k Hk).
Qed.

Lemma wp_load_id {A : Type} (f : Z -> proc A) w g Q :
  twp (t, false) (f t) Q (w, g) -> twp (t, false) (Do (Load (id t)) f) Q (w, g).
Proof.
  intros Hw. apply wp_quiet; [done|]. intros σ δ Hi Hg.
  exists t. split; [|done]. cbn [fst exec].
  by rewrite (w_id _ _ _ (i_worker _ _ Hi _ _ Hg ltac:(lia))).
Qed.

Lemma wp_store_flag {A : Type} l v (f : Z -> proc A) u w g Q :
  l = done t \/ l = contention t ->
  twp (u, false) (f 0) Q (w, g) -> twp (u, false) (Do (Store l v) f) Q (w, g).
Proof.
  intros Hl Hw. apply wp_client; [by destruct Hl as [-> | ->]|]. intros σ δ Hi Hg _. cbn [fst exec].
  assert (is_Some (memory σ !! l)) as [y Hy].
  { destruct (i_cells _ _ Hi t Ht) as (_ & H1 & H2 & _). by destruct Hl as [-> | ->]. }
  rewrite Hy. exists g. rewrite insert_id by done. split; [|done].
  apply inv_store; [done|..|by rewrite Hy]; destruct Hl as [-> | ->]; try (intros []; done); try done.
  all: intros [] i; by left.
Qed.

(** *** The functions of a started thread *)

(** One atomic increment adds its amount exactly once. *)
Lemma wp_atomic_inc k n w g (Q : Z -> _ -> Prop) :
  0 <= n -> 0 <= acnt g k -> acnt g k + n <= t * ROUND_SUM ->
  (forall r, Q r (w, set_link None (set_acnt k (acnt g k + n) g))) ->
  twp (t, false) (atomic_inc k (tick k) n) Q (w, g).
Proof.
  intros Hn Hc Hb HQ. unfold atomic_inc.
  apply wp_loop with (J := fun (_ : Z) (g' : work_ghost ag) => g' = (w, g) \/ g' = (w, set_link None g)); [by left|].
  intros iters g' Hg'.
  assert (exists l, g' = (w, set_link l g)) as [l ->].
  { destruct Hg' as [-> | ->]; [exists (link g); by destruct g|by exists None]. }
  apply wp_load_locked. intros v Hv. simpl. rewrite uwrap_id.
  2:{ split; [lia|]. unfold ROUND_SUM in *. destruct k; cbn [SIZE]; lia. }
  apply wp_pause.
  apply (wp_store_cond k v n); [done|done|done|by apply HQ|by right].
Qed.

Lemma wp_check_mismatch k w g (Q : () -> _ -> Prop) :
  warm g k = true -> Q tt (w, set_link None g) ->
  twp (t, false) (check_mismatch k t) Q (w, g).
Proof.
  intros Hk HQ. unfold check_mismatch, atomic_inc_mismatch. apply wp_load_locked. intros v _. simpl.
  apply (wp_store_cond_mismatch k v); [done|]. simpl.
  apply wp_load_ignored; [done|]. done.
Qed.

(** The state of a thread between two rounds. *)
Definition round (w : option (Z * Z * Z)) (i : Z) (g' : work_ghost ag) : Prop :=
  exists g, g' = (w, g) /\ 0 <= i <= LOOP_CNT /\ (forall k, acnt g k = t * inc_sum (Z.to_nat i)) /\
    forall k, warm g k = true.

Lemma wp_thread_body w (Q : Z -> _ -> Prop) :
  (forall r g, stopped t g -> Q r (w, g)) ->
  twp (t, false) (thread_body t) Q (w, fresh_ag).
Proof.
  intros HQ. unfold thread_body. apply wp_store_ignored, wp_store_ignored.
  apply wp_loop with (J := fun (x : Z * Z * Z) (g' : work_ghost ag) => round w x.1.1 g').
  { eexists. split_and!; [reflexivity|done|done| |]; [|intros []; done]. intros k. change (0 = t * 0). lia. }
  intros [[i t32] t64] g' (g & -> & Hi & Hc & Hw). cbn [fst] in Hi, Hc.
  destruct (Z.ltb_spec i LOOP_CNT).
  2:{ apply HQ. intros k. rewrite Hc. replace i with LOOP_CNT by lia. by rewrite inc_sum_all. }
  assert (Z.to_nat (i + 1) = Datatypes.S (Z.to_nat i)) as Hnext by lia.
  assert (inc_sum (Z.to_nat (i + 1)) = inc_sum (Z.to_nat i) + i mod 5) as Hsum
    by (rewrite Hnext; cbn [inc_sum]; by rewrite Z2Nat.id by lia).
  assert (inc_sum (Z.to_nat (i + 1)) <= ROUND_SUM) as Hle
    by (rewrite <- inc_sum_all; apply inc_sum_mono; lia).
  pose proof (inc_sum_nonneg (Z.to_nat i)). pose proof (Z.mod_pos_bound i 5).
  rewrite uwrap_id by (split; nia).
  apply wpt_bind, wp_atomic_inc; [nia|rewrite Hc; nia|rewrite Hc; nia|]. intros r32.
  apply wpt_bind, wp_atomic_inc; [nia|cbn [acnt set_link set_acnt]; rewrite supd_ne, Hc by done; nia..|]. intros r64.
  apply wpt_bind, wp_check_mismatch; [by apply Hw|]. apply wpt_bind, wp_check_mismatch; [by apply Hw|].
  apply wpt_ret. eexists. split_and!; [reflexivity|cbn; lia|cbn; lia| |done].
  intros k. cbn [acnt set_link set_acnt fst]. rewrite Hsum. destruct k.
  - rewrite supd_ne, supd_eq, Hc by done. lia.
  - rewrite supd_eq, supd_ne, Hc by done. lia.
Qed.
End thread.
End rules.
