(* ===== verification/AtomicsMain.v ===== *)
(** The atomics test, verified: its thread function and its main thread. *)

From S2P Require Import Prelude Threads ThreadLogic ThreadCommon Atomics AtomicsInv AtomicsRules.

Open Scope string_scope.
Open Scope list_scope.
Open Scope Z_scope.

(** What a thread has to have added when it is joined. *)
Definition joined_ag g : ag := set_kids ∅ (Ag (fun _ => 3 * ROUND_SUM) (link g) (warm g) (low g) (ids g) (kids g)).

Section functions.
Context `{HL : CpuLaws}.
Implicit Types (σ : machine) (δ : gmap slot ag) (s : slot) (g : ag) (w : option (Z * Z * Z)).

Abbreviation twp := (wpt (Inv inv) (Spec CSpec) (Fin CFin) exit_ok).

Lemma wp_my_thread t w (Q : () -> _ -> Prop) : 1 <= t <= 2 ->
  (forall g, stopped t g -> Q tt (w, g)) -> twp (t, false) (my_thread t) Q (w, fresh_ag).
Proof.
  intros Ht HQ. unfold my_thread. apply wp_load_id; [done|].
  apply wpt_bind, wp_thread_body; [done|]. intros c g Hg.
  apply (wp_store_flag t); [done|by right|]. apply (wp_store_flag t); [done|by left|]. by apply HQ.
Qed.

(** *** Instructions of the main thread *)

Lemma ag_main_facts σ δ g : inv σ δ -> δ !! main = Some g -> main_ok σ δ g.
Proof. intros Hi Hg. destruct (i_main _ _ Hi) as (g' & Hg' & Hm). congruence. Qed.

(** The main thread's ghost changes, and its counts stay. *)
Lemma inv_main σ δ g g' : inv σ δ -> δ !! main = Some g -> acnt g' = acnt g -> kids g' = kids g ->
  (forall k, low g' k <= 1 + total k δ) ->
  (forall i, i ∈ ids g' -> 1 <= i <= 2 /\ memory σ !! id i = Some i) -> inv σ (<[main := g']> δ).
Proof.
  intros Hi Hg Hc Hk Hlo Hids. destruct (ag_main_facts _ _ _ Hi Hg) as [M1 M2 M3 M4].
  assert (forall k, total k (<[main := g']> δ) = total k δ) as Htot
    by (intros k; apply (ticks_same δ 0 g); [done|by rewrite Hc]).
  destruct Hi as [H1 H2 H3 H4 H5 H6]. split; [|done| | |done|done].
  - intros k. by rewrite Htot.
  - intros t h Ht Ht0. rewrite lookup_insert_ne in Ht by congruence. by apply H3.
  - exists g'. rewrite lookup_insert_eq. split; [done|]. split.
    + intros t Ht. rewrite lookup_insert_ne, Hk by congruence. by apply M1.
    + by rewrite Hc, Hk.
    + intros k. by rewrite Htot.
    + done.
Qed.

Lemma no_threads σ δ g t : inv σ δ -> δ !! main = Some g -> kids g = ∅ -> t <> 0 -> δ !! (t, false) = None.
Proof.
  intros Hi Hg Hk Ht. destruct (ag_main_facts _ _ _ Hi Hg) as [M1 _ _ _].
  destruct (δ !! (t, false)) eqn:E; [|done]. assert (t ∈ kids g) as Hin by (apply M1; [done|by rewrite E]).
  rewrite Hk in Hin. set_solver.
Qed.

Lemma total_alone σ δ g k : inv σ δ -> δ !! main = Some g -> kids g = ∅ -> total k δ = acnt g k.
Proof.
  intros Hi Hg Hk. unfold total. cbn [foldr]. rewrite Hg, !(no_threads σ δ g) by done. cbn [from_option]. lia.
Qed.

Lemma wp_reset_tick {A : Type} k (f : Z -> proc A) w g Q : kids g = ∅ ->
  twp main (f 0) Q (w, set_low k 0 (set_acnt k 0 g)) -> twp main (Do (Store (tick k) 1) f) Q (w, g).
Proof.
  intros Hk Hw. apply wp_client; [by destruct k|]. intros σ δ Hi Hg _. cbn [fst exec]. rewrite (i_tick _ _ Hi k).
  set (g' := set_low k 0 (set_acnt k 0 g)). exists g'. split; [|done].
  pose proof (fun t => no_threads σ δ g t Hi Hg Hk) as Hno. pose proof (ag_main_facts _ _ _ Hi Hg) as [M1 M2 M3 M4].
  pose proof (fun k => total_alone σ δ g k Hi Hg Hk) as Hal.
  assert (forall k', total k' (<[main := g']> δ) = acnt g' k') as Htot
    by (intros k'; rewrite (ticks_insert k' δ 0 g) by done; rewrite Hal; lia).
  assert (forall l, (forall k', l <> tick k') -> memory (write 0 (tick k) 1 σ) !! l = memory σ !! l) as Hother
    by (intros l Hl; apply memory_write_ne, Hl).
  destruct Hi as [H1 H2 H3 H4 H5 H6]. split; [| | | |done|done].
  - intros k'. rewrite Htot. unfold g'. cbn [acnt set_acnt set_low]. destruct (decide (k' = k)) as [->|Hne].
    + by rewrite memory_write_eq, supd_eq.
    + rewrite memory_write_ne, supd_ne by (by destruct k, k'). by rewrite H1, Hal.
  - intros i Hi. rewrite !Hother by (by intros []). destruct (H2 i Hi) as (A1 & A2 & A3 & A4). split_and!; [done..|].
    intros k'. rewrite Hother; [done|intros []; by destruct k'].
  - intros t h Ht Ht0. rewrite lookup_insert_ne, Hno in Ht by congruence. done.
  - exists g'. rewrite lookup_insert_eq. split; [done|]. split.
    + intros t Ht. rewrite lookup_insert_ne by congruence. by apply M1.
    + left. split; [done|]. intros k'. unfold g'. cbn [acnt set_acnt set_low]. unfold supd. case_decide; [unfold ROUND_SUM; lia|].
      destruct M2 as [[_ M2]|M2]; [done|]. rewrite M2. unfold ROUND_SUM; lia.
    + intros k'. rewrite Htot. unfold g'. cbn [acnt low set_acnt set_low]. unfold supd. case_decide; [lia|].
      by rewrite <- Hal.
    + intros i Hi. rewrite Hother by (by intros []). by apply M4.
Qed.

Lemma wp_store_id {A : Type} i (f : Z -> proc A) w g Q : 1 <= i <= 2 -> i ∉ kids g ->
  twp main (f 0) Q (w, set_id i g) -> twp main (Do (Store (id i) i) f) Q (w, g).
Proof.
  intros Hi12 Hk Hw. apply wp_client; [done|]. intros σ δ Hi Hg _. cbn [fst exec].
  destruct (i_cells _ _ Hi i Hi12) as ([y Hy] & _). rewrite Hy. exists (set_id i g). split; [|done].
  pose proof (ag_main_facts _ _ _ Hi Hg) as [M1 M2 M3 M4].
  assert (forall l, l <> id i -> memory (write 0 (id i) i σ) !! l = memory σ !! l) as Hother
    by (intros l Hl; by apply memory_write_ne).
  assert (inv (write 0 (id i) i σ) δ) as Hi'.
  { destruct Hi as [H1 H2 H3 H4 H5 H6]. split; [| | | |done|done].
    - intros k. rewrite Hother by (by destruct k). apply H1.
    - intros j Hj. destruct (H2 j Hj) as (A1 & A2 & A3 & A4).
      split_and!; [..|intros k']; apply memory_write_is_Some; auto.
    - intros t h Ht Ht0. destruct (H3 t h Ht Ht0) as [W1 W2 W3 W4 W5].
      assert (id t <> id i) as Hne by (intros [= ->]; apply Hk, M1; [done|by rewrite Ht]).
      split; [done|by rewrite Hother|done|intros k' Hw'; rewrite Hother by (by destruct k'); by apply W4|].
      intros k v Hl. destruct (W5 k v Hl) as [L1 L2]. rewrite Hother by (by destruct k).
      split; [|intros Hr]; [intros x Hr; apply L1|apply L2]; by apply plain_store_reserved in Hr as [Hr _].
    - exists g. split; [done|]. split; [done..|]. intros j Hj. destruct (M4 j Hj) as [J1 J2]. split; [done|].
      destruct (decide (j = i)) as [->|Hne]; [apply memory_write_eq|rewrite Hother by (by intros [= ->]); done]. }
  apply (inv_main _ _ g); [done..|].
  intros j [->%elem_of_singleton|Hj]%elem_of_union; [split; [done|apply memory_write_eq]|].
  by apply (ag_main_facts _ _ _ Hi' Hg).
Qed.

(** The main thread reads a counter no lower than it saw it before. *)
Lemma wp_load_tick {A : Type} k (f : Z -> proc A) w g Q :
  (forall v, low g k <= v -> twp main (f v) Q (w, set_low k v g)) ->
  twp main (Do (Load (tick k)) f) Q (w, g).
Proof.
  intros Hw. apply wp_client; [done|]. intros σ δ Hi Hg _. cbn [fst exec]. rewrite (i_tick _ _ Hi k).
  pose proof (ag_main_facts _ _ _ Hi Hg) as [M1 M2 M3 M4]. eexists. split; [|by apply Hw].
  apply (inv_main _ _ g); [done..| |done]. intros k'. cbn [low set_low]. unfold supd. case_decide; [by subst|done].
Qed.

(** And the exact count once no other thread runs. *)
Lemma wp_load_tick_alone {A : Type} k (f : Z -> proc A) w g Q :
  kids g = ∅ -> twp main (f (1 + acnt g k)) Q (w, g) -> twp main (Do (Load (tick k)) f) Q (w, g).
Proof.
  intros Hk Hw. apply wp_quiet; [done|]. intros σ δ Hi Hg. cbn [fst exec]. rewrite (i_tick _ _ Hi k).
  rewrite (total_alone σ δ g) by done. eauto.
Qed.

Lemma wp_load_flag {A : Type} i l (f : Z -> proc A) s w g Q :
  1 <= i <= 2 -> l = done i \/ l = contention i ->
  (forall v, twp s (f v) Q (w, g)) -> twp s (Do (Load l) f) Q (w, g).
Proof.
  intros Hi12 Hl Hw. apply wp_quiet; [done|]. intros σ δ Hi Hg. cbn [fst exec].
  destruct (i_cells _ _ Hi i Hi12) as (_ & [x Hx] & [y Hy] & _).
  destruct Hl as [-> | ->]; rewrite ?Hx, ?Hy; eauto.
Qed.

Lemma wp_tick_printf {A : Type} f args (k : Z -> proc A) s w g Q : good_line (f, args) ->
  twp s (k 0) Q (w, g) -> twp s (Do (Printf f args) k) Q (w, g).
Proof.
  intros Hf Hw. apply wp_client; [done|]. intros σ δ Hi Hg _. cbn [exec].
  exists g. rewrite (insert_id δ s g) by done. split; [|done].
  apply (ag_inv_frame σ); try done.
  - intros i _. split_and!; try done. by left.
  - cbn. apply Forall_app. split; [apply (i_lines _ _ Hi)|by apply Forall_singleton].
Qed.

Lemma total_kid k δ t g gk : δ !! (t, false) = None -> 1 <= t <= 2 -> acnt gk k = 0 ->
  total k (<[(t, false) := gk]> δ) = total k δ.
Proof.
  intros Hn Ht Hz. unfold total. assert (t = 1 \/ t = 2) as [-> | ->] by lia;
    cbn [foldr]; rewrite lookup_insert_eq, !lookup_insert_ne, Hn by congruence; cbn [from_option]; lia.
Qed.

Lemma ag_kid_may_create t g : 1 <= t <= 2 -> t ∈ ids g -> t ∉ kids g -> (forall k, acnt g k = 0) ->
  may_create inv t main g (set_kids ({[t]} ∪ kids g) g) fresh_ag.
Proof.
  intros Hr Hid Hk Hz. split; [cbn [fst]; lia|..].
  - intros σ δ Hi Hg. pose proof (ag_main_facts _ _ _ Hi Hg) as [M1 M2 M3 M4].
    destruct (δ !! (t, false)) eqn:E; [|done]. destruct Hk. apply M1; [lia|by rewrite E].
  - intros σ δ Hi Hg Hn _. pose proof (ag_main_facts _ _ _ Hi Hg) as [M1 M2 M3 M4]. destruct (M4 t Hid) as [_ Hm].
    set (g' := set_kids _ g).
    assert (forall k, total k (<[(t, false) := fresh_ag]> (<[main := g']> δ)) = total k δ) as Htot.
    { intros k. rewrite (total_kid k _ t g'), (ticks_same δ 0 g) by (done || by rewrite lookup_insert_ne by congruence). done. }
    destruct Hi as [H1 H2 H3 H4 H5 H6]. split; [| | | |done|done].
    + intros k. by rewrite Htot.
    + done.
    + intros u h Hu Hu0. destruct (decide (u = t)) as [->|Hne].
      * rewrite lookup_insert_eq in Hu. injection Hu as <-. split; [done|done| |done|done].
        intros k. cbn. unfold ROUND_SUM. lia.
      * rewrite !lookup_insert_ne in Hu by congruence. by destruct (H3 u h Hu Hu0).
    + exists g'. rewrite lookup_insert_ne, lookup_insert_eq by (injection; lia). split; [done|]. split.
      * intros u Hu. cbn [kids g' set_kids]. destruct (decide (u = t)) as [->|Hne].
        -- rewrite lookup_insert_eq. set_solver.
        -- rewrite !lookup_insert_ne, M1 by congruence. set_solver.
      * by right.
      * intros k. rewrite Htot. apply M3.
      * done.
Qed.

Lemma wp_tick_create t g (Q : () -> _ -> Prop) : 1 <= t <= 2 -> t ∈ ids g -> t ∉ kids g -> (forall k, acnt g k = 0) ->
  Q tt (None, set_kids ({[t]} ∪ kids g) g) -> twp main (create_waiting_thread my_thread_fn t t) Q (None, g).
Proof.
  intros Ht Hid Hk Hz HQ. apply (wp_create_waiting_thread inv ag_inv_same) with
    (g' := set_kids ({[t]} ∪ kids g) g) (gc := fresh_ag); [lia|done| | | |done].
  - intros Ho σ δ _ _. right. by right.
  - by apply ag_kid_may_create.
  - exists t. done.
Qed.

Lemma thread_mask_bits : thread_mask = 6.
Proof. reflexivity. Qed.

Lemma ag_join_inv σ δ g : inv σ δ -> δ !! main = Some g -> kids g = {[1; 2]} -> (forall k, acnt g k = 0) ->
  (forall t h, Z.testbit thread_mask t = true -> δ !! (t, false) = Some h -> stopped t h) ->
  inv σ (<[main := joined_ag g]> (filter (fun x => Z.testbit thread_mask x.1.1 = false) δ)).
Proof.
  intros Hi Hg Hk Hz Hst. pose proof (ag_main_facts _ _ _ Hi Hg) as [M1 M2 M3 M4].
  set (δ' := <[main := joined_ag g]> _).
  assert (forall t, t <> 0 -> δ' !! (t, false) = None) as Hno.
  { intros t Ht. unfold δ'. rewrite lookup_insert_ne by congruence.
    rewrite map_lookup_filter. destruct (δ !! (t, false)) eqn:E; [|done].
    assert (t ∈ kids g) as Hin by (apply M1; [done|by rewrite E]). rewrite Hk in Hin. cbn.
    assert (t = 1 \/ t = 2) as [-> | ->] by set_solver; by rewrite option_guard_False. }
  assert (forall t, t = 1 \/ t = 2 -> exists h, δ !! (t, false) = Some h /\ stopped t h) as Hkid.
  { intros t Ht. assert (is_Some (δ !! (t, false))) as [h Hh]
      by (apply M1; [lia|rewrite Hk; destruct Ht as [-> | ->]; set_solver]).
    exists h. split; [done|]. apply (Hst t); [|done]. by destruct Ht as [-> | ->]. }
  assert (forall k, total k δ = 3 * ROUND_SUM) as Htot.
  { intros k. unfold total. cbn [foldr]. rewrite Hg. destruct (Hkid 1 (or_introl eq_refl)) as (h1 & -> & S1), (Hkid 2 (or_intror eq_refl)) as (h2 & -> & S2).
    cbn [from_option]. rewrite Hz, S1, S2. unfold ROUND_SUM. lia. }
  assert (forall k, total k δ' = 3 * ROUND_SUM) as Htot'.
  { intros k. unfold total. cbn [foldr]. rewrite (Hno 1), (Hno 2) by done. unfold δ'. rewrite lookup_insert_eq.
    cbn [from_option joined_ag set_kids acnt]. lia. }
  destruct Hi as [H1 H2 H3 H4 H5 H6]. split; [|done| | |done|done].
  - intros k. by rewrite Htot', H1, Htot.
  - intros t h Ht Ht0. by rewrite Hno in Ht.
  - exists (joined_ag g). unfold δ' at 1. rewrite lookup_insert_eq. split; [done|]. split.
    + intros t Ht. rewrite Hno by done. cbn. split; [by intros [? ?]|set_solver].
    + left. split; [done|]. intros k. cbn. unfold ROUND_SUM. lia.
    + intros k. rewrite Htot'. cbn [low joined_ag set_kids]. specialize (M3 k). by rewrite Htot in M3.
    + done.
Qed.

Lemma wp_tick_join w g (Q : () -> _ -> Prop) : kids g = {[1; 2]} -> (forall k, acnt g k = 0) ->
  Q tt (w, joined_ag g) -> twp main (thread_join thread_mask) Q (w, g).
Proof.
  intros Hk Hz HQ. apply wp_thread_join with (g' := joined_ag g); [|done].
  intros σ δ Hi Hg Hst. apply ag_join_inv; [done..|]. intros t h Ht Hh. by destruct (Hst t false h Ht Hh).
Qed.

End functions.
