(* ===== verification/AtomicsSafe.v ===== *)
(** The atomics test is safe in every interleaving: no increment is lost or
    made twice. *)

From S2P Require Import Prelude Threads ThreadLogic ThreadCommon ThreadSim Atomics AtomicsInv AtomicsRules AtomicsMain.

Open Scope string_scope.
Open Scope list_scope.
Open Scope Z_scope.

(** The machine main starts on: every variable exists, the counters and the
    variables main sets are zero, no handler is registered and nothing is
    printed. *)
Record atomics_boot `{Cpu} (σ : machine) : Prop := {
  boot_semaphores i : 0 <= i < 32 -> is_Some (memory σ !! thread_semaphore i);
  boot_vals i : 0 <= i < 512 -> is_Some (memory σ !! vals i);
  boot_ticks k : memory σ !! tick k = Some 0;
  boot_cells i : 1 <= i <= 2 -> is_Some (memory σ !! id i) /\ is_Some (memory σ !! done i) /\
    is_Some (memory σ !! contention i) /\ forall k, is_Some (memory σ !! ignored k i);
  boot_handlers : handlers σ = ∅;
  boot_output : output σ = []
}.

(** The counters are 0 before main sets them to 1. *)
Definition boot_ag : ag := Ag (fun _ => -1) None (fun _ => false) (fun _ => 0) ∅ ∅.

Section safe.
Context `{HL : CpuLaws}.
Implicit Types (σ : machine) (δ : gmap slot ag) (s : slot) (g : ag) (w : option (Z * Z * Z)).

Abbreviation twp := (wpt (Inv inv) (Spec CSpec) (Fin CFin) exit_ok).

Lemma ag_boot_inv σ : atomics_boot σ -> inv σ {[main := boot_ag]}.
Proof.
  intros [_ _ H3 H4 H5 H6].
  assert (forall s g, ({[main := boot_ag]} : gmap slot ag) !! s = Some g -> s = main /\ g = boot_ag) as Hs.
  { intros s g Hg. by apply lookup_singleton_Some in Hg as [<- <-]. }
  assert (forall k, total k {[main := boot_ag]} = -1) as Htot by done.
  split; [| done| | |done|].
  - intros k. by rewrite H3, Htot.
  - intros t g Hg Ht. destruct (Hs _ _ Hg) as [E _]. congruence.
  - exists boot_ag. rewrite lookup_singleton_eq. split; [done|]. split.
    + intros t Ht. split; [intros [g Hg]; destruct (Hs _ _ Hg); congruence|cbn; set_solver].
    + left. split; [done|]. intros k. cbn. unfold ROUND_SUM. lia.
    + intros k. by rewrite Htot.
    + cbn. set_solver.
  - rewrite H6. apply Forall_nil_2.
Qed.

(** *** The main thread *)

Lemma wp_all_done s w g (Q : bool -> work_ghost ag -> Prop) :
  (forall b, Q b (w, g)) -> twp s all_done Q (w, g).
Proof.
  intros HQ. unfold all_done.
  apply wp_loop with (J := fun i (g' : work_ghost ag) => g' = (w, g) /\ 1 <= i); [done|]. intros i g' [-> Hi].
  destruct (Z.leb_spec i NUM_THREADS) as [Hn|]; [|apply HQ]. unfold NUM_THREADS in Hn.
  apply (wp_load_flag i); [lia|by left|]. intros v. simpl. destruct (truth v); simpl; [split; [done|lia]|apply HQ].
Qed.

Lemma wp_assert_grows k prev w g (Q : () -> work_ghost ag -> Prop) : prev <= low g k ->
  (forall v, low g k <= v -> Q tt (w, set_low k v g)) -> twp main (assert_grows k prev) Q (w, g).
Proof.
  intros Hp HQ. unfold assert_grows. apply wp_load_tick. intros v Hv. simpl.
  rewrite (proj2 (Z.leb_le prev v)) by lia. by apply HQ.
Qed.

(** Both threads run, and main has not yet seen more of a counter than its
    lower bound. *)
Definition watching (x : Z * Z) (g' : work_ghost ag) : Prop :=
  exists g, g' = (None, g) /\ kids g = {[1; 2]} /\ (forall k, acnt g k = 0) /\
    x.1 <= low g S32 /\ x.2 <= low g S64.

Lemma wp_tick_create_threads g (Q : () -> work_ghost ag -> Prop) : kids g = ∅ -> (forall k, acnt g k = 0) ->
  (forall g', kids g' = {[1; 2]} -> (forall k, acnt g' k = 0) -> Q tt (None, g')) ->
  twp main (for_range 1 (NUM_THREADS + 1) (fun i =>
    store (id i) i;; store (done i) 0;; create_waiting_thread my_thread_fn i i)) Q (None, g).
Proof.
  intros Hk Hz HQ. change (for_range 1 (NUM_THREADS + 1) ?b) with (up 2 1 b). cbn [up].
  apply wpt_bind, wp_store_id; [done|rewrite Hk; set_solver|].
  apply (wp_store_flag 1); [done|by left|]. apply wp_tick_create; [done|cbn [kids ids set_id set_kids]; set_solver|cbn [kids ids set_id set_kids]; rewrite Hk; set_solver|done|].
  apply wpt_bind, wp_store_id; [done|cbn [kids ids set_id set_kids]; rewrite Hk; set_solver|].
  apply (wp_store_flag 2); [done|by left|]. apply wp_tick_create; [done|cbn [kids ids set_id set_kids]; set_solver|cbn [kids ids set_id set_kids]; rewrite Hk; set_solver|done|].
  apply HQ; [|done]. cbn [kids ids set_id set_kids]. rewrite Hk. set_solver.
Qed.

Lemma wp_check_tick k f err w g (Q : Z -> work_ghost ag -> Prop) : kids g = ∅ -> acnt g k = 3 * ROUND_SUM ->
  Q err (w, g) -> twp main (check_tick k f err) Q (w, g).
Proof.
  intros Hk Hc HQ. unfold check_tick. rewrite expected_value.
  apply wp_load_tick_alone; [done|]. by rewrite Hc.
Qed.

(** One try: with the increments of all threads in the counters, or without
    contention. *)
Lemma wp_run_test g (Q : Z -> work_ghost ag -> Prop) : kids g = ∅ ->
  (forall e g', kids g' = ∅ -> e = 0 \/ e = RETRY -> Q e (None, g')) -> twp main run_test Q (None, g).
Proof.
  intros Hk HQ. unfold run_test. apply wp_reset_tick; [done|]. apply wp_reset_tick; [done|].
  apply wpt_bind, wp_tick_create_threads; [done|by intros []|]. intros g1 K1 Z1.
  apply wpt_bind, wp_start_waiting_threads; [exact ag_inv_same|].
  apply wp_load_tick. intros v32 _. apply wp_load_tick. intros v64 _.
  apply wpt_bind, wp_loop with (J := watching).
  { eexists. split_and!; [reflexivity|done|done|..]; cbn [fst snd low set_low]; rewrite ?supd_eq, ?supd_ne, ?supd_eq by done; lia. }
  intros [p32 p64] g' (g2 & -> & K2 & Z2 & L32 & L64). cbn [fst snd] in *.
  apply wpt_bind, wp_all_done. intros []; cbn [negb]; [apply wpt_ret|].
  - apply wpt_bind, wp_tick_join; [done..|].
    apply wpt_bind, wp_loop with (J := fun i (g' : work_ghost ag) => g' = (None, joined_ag g2) /\ 1 <= i); [done|].
    intros i g' [-> Hi]. destruct (Z.leb_spec i NUM_THREADS) as [Hn|]; unfold NUM_THREADS in *.
    + apply (wp_load_flag i); [lia|by right|]. intros c. simpl. destruct (c =? 0); [|split; [done|lia]].
      apply HQ; [done|by right].
    + apply wpt_ret, wpt_bind, wp_check_tick; [done|done|]. apply wp_check_tick; [done|done|]. apply HQ; [done|by left].
  - apply wpt_bind, wp_assert_grows; [done|]. intros v Hv. apply wpt_bind, wp_assert_grows; [by rewrite ?supd_ne|].
    intros v' Hv'. apply wp_load_tick. intros v1 H1. apply wp_load_tick. intros v2 H2. apply wp_pause. simpl.
    eexists. split_and!; [reflexivity|done|done|..]; cbn [fst snd low set_low]; rewrite ?supd_eq, ?supd_ne, ?supd_eq by done; lia.
Qed.

Lemma sys_atomics_main_ok : twp main sys_atomics_main (fun _ => Fin CFin 0) (None, boot_ag).
Proof.
  unfold sys_atomics_main. apply wp_tick_printf; [done|].
  apply wpt_bind, wp_loop with (J := fun (x : Z * Z) (g' : work_ghost ag) => (x.2 = 0 \/ x.2 = RETRY) /\
    exists g, g' = (None, g) /\ kids g = ∅); [split; [by left|]; by eexists|].
  intros [i e] g' (He & g & -> & Hk). cbn [snd] in He.
  assert (forall e g, kids g = ∅ -> e = 0 \/ e = RETRY ->
    twp main (printf (if truth e then "FAIL" else "PASS") [];; exit e : proc ()) (fun _ => Fin CFin 0) (None, g)) as Hend.
  { intros e' g' Hk' He'. apply wp_tick_printf; [by destruct (truth e')|]. apply wp_exit.
    intros σ δ _ _. destruct He' as [-> | ->]; [by left|by right; left]. }
  destruct (Z.leb_spec i NUM_RETRIES); [|by apply Hend].
  apply wp_tick_printf; [done|]. apply wpt_bind, wp_run_test; [done|]. intros e' g' Hk' He'. simpl.
  destruct (negb (e' =? RETRY)); simpl; [by apply Hend|]. split; [done|]. by eexists.
Qed.

(** *** Functions and interrupts *)

Lemma inv_slot σ δ δ' : inv σ δ -> (forall t, δ' !! (t, false) = δ !! (t, false)) -> inv σ δ'.
Proof.
  intros [H1 H2 H3 (g & Hg & [M1 M2 M3 M4]) H5 H6] Hf.
  assert (forall k, total k δ' = total k δ) as Htot
    by (intros k; unfold total; induction [0; 1; 2] as [|u l IH]; [done|]; cbn [foldr]; by rewrite IH, Hf).
  split; [|done| | |done|done].
  - intros k. by rewrite Htot.
  - intros t h. rewrite Hf. apply H3.
  - exists g. rewrite Hf. split; [done|]. split; [|done| |done].
    + intros t. rewrite Hf. apply M1.
    + intros k. by rewrite Htot.
Qed.

Lemma ag_inv_interrupts σ δ i : inv σ δ -> inv (with_interrupts i σ) δ.
Proof.
  intros Hi. apply (ag_inv_frame σ); try done; [|apply (i_lines _ _ Hi)].
  intros j _. split_and!; try done. by left.
Qed.

Lemma atomics_client_ok : client_ok inv CSpec CFin exit_ok client.
Proof.
  split.
  - intros f a s w g R (t & -> & -> & -> & Ht & -> & HR). change (client my_thread_fn t) with (my_thread t).
    apply wp_my_thread; [done|]. intros g' Hg'. split; [done|]. by apply HR.
  - intros. by apply ag_inv_interrupts.
  - intros σ δ t n i Hi _ _ _. exists fresh_ag, (fun _ => True). split_and!.
    + apply (inv_slot _ δ); [by apply ag_inv_interrupts|]. intros u. by rewrite lookup_insert_ne by congruence.
    + by rewrite (i_handlers _ _ Hi), lookup_empty.
    + intros g _ σ' δ' Hi' _. apply (inv_slot _ δ'); [done|]. intros u. by rewrite lookup_delete_ne by congruence.
Qed.
End safe.


(* ------------------------------------------------------------------ *)
(** ** On the simulated processor *)

Import SimCpu.

Definition atomics_vars : list loc :=
  [tick S32; tick S64] ++ array "id" 3 ++ array "done" 3 ++ array "contention" 3 ++
  array "ignored32" 3 ++ array "ignored64" 3.

Definition atomics_machine : machine := sim_machine (lib_vars ++ atomics_vars).

Lemma atomics_machine_boot : atomics_boot atomics_machine.
Proof.
  assert (forall x, bool_decide (x ∈ atomics_vars) = true -> memory atomics_machine !! x = Some 0) as Hz.
  { intros x Hx. apply zeroed_lookup, elem_of_app. right. by apply (bool_decide_eq_true_1 _). }
  split.
  - apply sim_lib.
  - apply sim_lib.
  - intros []; by apply Hz.
  - intros i Hi. assert (i = 1 \/ i = 2) as Hi' by lia.
    split_and!; [..|intros []]; exists 0; apply Hz; destruct Hi' as [-> | ->]; reflexivity.
  - reflexivity.
  - reflexivity.
Qed.

(** The test after 1000 rounds of the scheduler. *)
Definition atomics_run : config :=
  run_to (lib_code client) (round_robin 1000) (boot sys_atomics_main atomics_machine).

Example atomics_run_counts : memory (mach atomics_run) !! tick S32 = Some 383.
Proof. vm_compute. reflexivity. Qed.

