(* ===== verification/FileMem.v ===== *)
(** src/util.c and include/util.h: files kept in memory, over a table of four
    descriptors, and the wait on the cycle counter. *)

From S2P Require Import Prelude ByteMem.
From Stdlib Require Ascii String.

Open Scope string_scope.
Open Scope list_scope.
Open Scope Z_scope.

Definition MAX_DESC : Z := 4.
Definition READ_OK : Z := 0x1.
Definition WRITE_OK : Z := 0x2.
Definition DO_READ : Z := 1.
Definition DO_WRITE : Z := 2.

Record FILE_MEM := FileMem {
  is_open : Z;
  buf_allocated : Z;
  buf : Z;
  mode : Z;
  buf_maxsize : Z;
  crnt_filesize : Z;
  pos : Z
}.

Definition set_buf (allocated a max : Z) (f : FILE_MEM) : FILE_MEM :=
  FileMem 1 allocated a (mode f) max (crnt_filesize f) (pos f).
Definition set_mode (m : Z) (f : FILE_MEM) : FILE_MEM :=
  FileMem (is_open f) (buf_allocated f) (buf f) m (buf_maxsize f) (crnt_filesize f) (pos f).
Definition set_size (n : Z) (f : FILE_MEM) : FILE_MEM :=
  FileMem (is_open f) (buf_allocated f) (buf f) (mode f) (buf_maxsize f) n (pos f).
Definition set_pos (n : Z) (f : FILE_MEM) : FILE_MEM :=
  FileMem (is_open f) (buf_allocated f) (buf f) (mode f) (buf_maxsize f) (crnt_filesize f) n.

(** What memset leaves. *)
Definition zero_file : FILE_MEM := FileMem 0 0 0 0 0 0 0.

(** A [FILE_MEM *]: NULL, or the address of [desc[i]], also past the ends of
    the table. *)
Inductive file_ptr := NULL | At (i : Z).

#[export] Instance file_ptr_eq_dec : EqDecision file_ptr.
Proof. solve_decision. Defined.

(** The allocator of the C library, given by what it returns: an address (0 when
    it fails), what the new bytes happen to hold, and its next state.  [free] is
    undefined on an address that is not a block's. *)
Class Allocator := {
  heap_state : Type;
  malloc : Z -> heap_state -> Z * list Z * heap_state;
  free : Z -> heap_state -> option heap_state;
  blocks : heap_state -> gmap Z Z
}.

(** Its documented behaviour: a new block is not at 0, does not meet the live
    ones nor the memory outside the heap, and is live until it is freed. *)
Class AllocatorLaws `{Allocator} := {
  in_heap : Z -> Prop;
  malloc_block n h : 0 <= n -> let '(a, l, h') := malloc n h in
    a = 0 /\ blocks h' = blocks h \/
    a <> 0 /\ blocks h' = <[a := n]> (blocks h) /\ blocks h !! a = None /\ Z.of_nat (length l) = n /\
    (forall i, a <= i < a + n -> in_heap i) /\
    (forall b k i, blocks h !! b = Some k -> a <= i < a + n -> ~ b <= i < b + k);
  free_block a n h : blocks h !! a = Some n ->
    exists h', free a h = Some h' /\ blocks h' = delete a (blocks h)
}.

Section file_mem.
Context `{Allocator}.

(** The table, the memory (a byte is present while it may be accessed) and the
    heap. *)
Record fstate := FState { desc : list FILE_MEM; fmem : mem; heap : heap_state }.

Definition set_desc d (s : fstate) : fstate := FState d (fmem s) (heap s).
Definition set_fmem m (s : fstate) : fstate := FState (desc s) m (heap s).
Definition set_heap h (s : fstate) : fstate := FState (desc s) (fmem s) h.

Abbreviation io := (prog fstate).

(** A signed 32-bit result: overflow is undefined. *)
Definition int_arith (x : Z) : io Z :=
  if (- 2 ^ 31 <=? x) && (x <? 2 ^ 31) then mret x else undef.

(** [*fp], and an assignment to a member. *)
Definition deref (fp : file_ptr) : io FILE_MEM :=
  match fp with NULL => undef | At i => d ← gets desc; of_option (lookupZ d i) end.
Definition update (fp : file_ptr) (u : FILE_MEM -> FILE_MEM) : io () :=
  match fp with
  | NULL => undef
  | At i =>
    f ← deref fp;
    d ← gets desc;
    d ← of_option (insertZ d i (u f));
    modify (set_desc d)
  end.

(** The [n] bytes at [a]. *)
Definition read_bytes (m : mem) (a : Z) (n : nat) : option (list Z) :=
  mapM (fun i => m !! (a + Z.of_nat i)) (seq 0 n).

(** [memcpy]: undefined when the objects overlap. *)
Definition memcpy (dst src n : Z) : io () :=
  m ← gets fmem;
  l ← of_option (read_bytes m src (Z.to_nat n));
  _ ← of_option (read_bytes m dst (Z.to_nat n));
  if (dst <? src + n) && (src <? dst + n) && (0 <? n) then undef
  else modify (set_fmem (write_bytes m dst l)).

Definition do_malloc (n : Z) : io Z := fun s =>
  let '(a, l, h) := malloc n (heap s) in
  Done a (FState (desc s) (if a =? 0 then fmem s else write_bytes (fmem s) a l) h).

Definition do_free (a : Z) : io () := fun s =>
  match free a (heap s), blocks (heap s) !! a with
  | Some h, Some n =>
    Done tt (FState (desc s) (filter (fun x => ~ a <= x.1 < a + n) (fmem s)) h)
  | _, _ => Undef
  end.

Definition VALID_FP (fp : file_ptr) : bool :=
  match fp with NULL => false | At i => (0 <=? i) && (i <? MAX_DESC) end.
Definition FILE_OPEN (fp : file_ptr) : io bool := f ← deref fp; mret (truth (is_open f)).

(** [VALID_FP(fp) && FILE_OPEN(fp)] *)
Definition usable (fp : file_ptr) : io bool := if VALID_FP fp then FILE_OPEN fp else mret false.

Definition find_free : io Z :=
  iter (Datatypes.S (Z.to_nat MAX_DESC)) (fun i =>
    if i <? MAX_DESC then
      f ← deref (At i);
      mret (if negb (truth (is_open f)) then inr i else inl (i + 1))
    else mret (inr (-1))) 0.

Definition tolower (c : Z) : Z := if (65 <=? c) && (c <=? 90) then c + 32 else c.

Definition chars (s : string) : list Z :=
  (fun c => Z.of_nat (Ascii.nat_of_ascii c)) <$> String.list_ascii_of_string s.

(** One character of the mode. *)
Definition parse_char (max c : Z) (f : FILE_MEM) : FILE_MEM :=
  if c =? 43 then set_mode (Z.lor READ_OK WRITE_OK) f
  else if tolower c =? 114 then set_size max (set_mode (Z.lor (mode f) READ_OK) f)
  else if tolower c =? 119 then set_size 0 (set_mode (Z.lor (mode f) WRITE_OK) f)
  else f.

Definition parse_mode (fp : file_ptr) (max : Z) (mode : string) : io () :=
  update fp (set_mode 0x0);;
  let l := chars mode in
  for_ 0 (Z.of_nat (length l)) (fun i =>
    c ← of_option (lookupZ l i);
    update fp (parse_char max c)).

Definition fmemopen_mem (buf max : Z) (mode : string) : io file_ptr :=
  entry ← find_free;
  if entry <? 0 then mret NULL
  else
    (if truth buf then update (At entry) (set_buf 0 buf max)
     else a ← do_malloc (u32 max); update (At entry) (set_buf 1 a max));;
    parse_mode (At entry) max mode;;
    update (At entry) (set_pos 0);;
    mret (At entry).

Definition fclose_mem (fp : file_ptr) : io Z :=
  ok ← usable fp;
  if negb ok then mret (-1)
  else
    f ← deref fp;
    (if truth (buf_allocated f) && truth (buf f) then do_free (buf f) else mret tt);;
    update fp (fun _ => zero_file);;
    mret 0.

Definition do_xfer (dst src xferbytes : Z) (fp : file_ptr) (type : Z) : io Z :=
  f ← deref fp;
  let checkmax := if type =? DO_READ then crnt_filesize f else buf_maxsize f in
  e ← int_arith (pos f + xferbytes);
  xferbytes ← (if checkmax <? e then int_arith (checkmax - pos f) else mret xferbytes);
  if 0 <? xferbytes then
    memcpy dst src xferbytes;;
    update fp (fun f => set_pos (pos f + xferbytes) f);;
    mret xferbytes
  else mret 0.

Definition fgetc_mem (fp : file_ptr) : io Z :=
  ok ← usable fp;
  if negb ok then mret 0
  else
    f ← deref fp;
    if negb (truth (Z.land (mode f) READ_OK)) then mret 0
    else if pos f <? crnt_filesize f then
      m ← gets fmem;
      c ← of_option (m !! (buf f + pos f));
      update fp (fun f => set_pos (pos f + 1) f);;
      mret c
    else mret (-1).

Definition fread_mem (ptr max nmemb : Z) (fp : file_ptr) : io Z :=
  ok ← usable fp;
  if negb ok then mret 0
  else
    f ← deref fp;
    if negb (truth (Z.land (mode f) READ_OK)) then mret 0
    else
      n ← int_arith (max * nmemb);
      do_xfer ptr (buf f + pos f) n fp DO_READ.

Definition fwrite_mem (ptr max nmemb : Z) (fp : file_ptr) : io Z :=
  ok ← usable fp;
  if negb ok then mret 0
  else
    f ← deref fp;
    if negb (truth (Z.land (mode f) WRITE_OK)) then mret 0
    else
      n ← int_arith (max * nmemb);
      rval ← do_xfer (buf f + pos f) ptr n fp DO_WRITE;
      f ← deref fp;
      (if crnt_filesize f <? pos f then update fp (set_size (pos f)) else mret tt);;
      mret rval.

Definition frewind_mem (fp : file_ptr) : io Z :=
  ok ← usable fp;
  if negb ok then mret (-1) else update fp (set_pos 0);; mret 0.

Definition fsize_mem (fp : file_ptr) : io Z :=
  ok ← usable fp;
  if negb ok then mret (-1) else f ← deref fp; mret (crnt_filesize f).
End file_mem.

(* ------------------------------------------------------------------ *)
(** ** Waiting for the cycle counter *)

Section pcycle.
(** What the counter holds at each time it is read; the state is the number of
    reads so far. *)
Context (pcycle_at : nat -> Z).

Definition read_pcycle : prog nat Z := fun n => Done (pcycle_at n) (Datatypes.S n).

Definition pcycle_pause (fuel : nat) (pcycle_wait : Z) : prog nat () :=
  pcycle_start ← read_pcycle;
  iter fuel (fun _ =>
    pcycle ← read_pcycle;
    mret (if pcycle <? u64 (pcycle_start + pcycle_wait) then inl tt else inr tt)) tt.
End pcycle.
