(* ===== verification/FileSpec.v ===== *)
(** What the in-memory files of src/util.c promise: a file is a string of bytes
    with a capacity and a position; and the relation between such files and the
    descriptors, buffers and heap of the implementation. *)

From S2P Require Import Prelude ByteMem FileMem.
From Stdlib Require String.

Open Scope string_scope.
Open Scope list_scope.
Open Scope Z_scope.

(** *** Files *)

Record file := File {
  can_read : bool;
  can_write : bool;
  capacity : nat;
  contents : list Z;
  position : nat
}.

Definition seek (p : nat) (f : file) : file := File (can_read f) (can_write f) (capacity f) (contents f) p.

Definition file_getc (f : file) : Z * file :=
  if can_read f then
    match contents f !! position f with
    | Some c => (c, seek (Datatypes.S (position f)) f)
    | None => (-1, f)
    end
  else (0, f).

Definition file_read (n : nat) (f : file) : list Z * file :=
  if can_read f then
    let l := take n (drop (position f) (contents f)) in (l, seek (position f + length l) f)
  else ([], f).

Definition file_write (l : list Z) (f : file) : Z * file :=
  if can_write f then
    let l := take (capacity f - position f) l in
    let c := take (position f) (contents f) ++ l ++ drop (position f + length l) (contents f) in
    (Z.of_nat (length l), File (can_read f) (can_write f) (capacity f) c (position f + length l))
  else (0, f).

(** The mode: which transfers it allows, and whether the file starts with the
    bytes of the buffer (the last letter counts). *)
Definition allows (letter : Z) (mode : string) : bool :=
  existsb (fun c => (c =? 43) || (tolower c =? letter)) (chars mode).
Definition starts_full (mode : string) : bool :=
  foldl (fun b c => if c =? 43 then b else if tolower c =? 114 then true else if tolower c =? 119 then false else b)
    false (chars mode).

Definition new_file (max : Z) (mode : string) (l : list Z) : file :=
  File (allows 114 mode) (allows 119 mode) (Z.to_nat max) (if starts_full mode then l else []) 0.

(** *** Calls *)

Inductive call :=
  | Open (buf max : Z) (mode : string)
  | Close (fp : file_ptr)
  | Getc (fp : file_ptr)
  | Read (ptr max nmemb : Z) (fp : file_ptr)
  | Write (ptr max nmemb : Z) (fp : file_ptr)
  | Rewind (fp : file_ptr)
  | Fsize (fp : file_ptr).

Inductive ret := RPtr (fp : file_ptr) | RInt (n : Z).

Abbreviation table := (list (option file)).

Definition lookup_file (fp : file_ptr) (t : table) : option (nat * file) :=
  match fp with
  | NULL => None
  | At i => if 0 <=? i then o ← t !! Z.to_nat i; f ← o; Some (Z.to_nat i, f) else None
  end.

Fixpoint first_free (t : table) : option nat :=
  match t with
  | [] => None
  | None :: _ => Some O
  | Some _ :: t => Datatypes.S <$> first_free t
  end.

(** What a call returns, the bytes it delivers and the table it leaves; [l] is
    the bytes it is given: those to write, or those of the new buffer. *)
Definition spec_call (l : list Z) (c : call) (t : table) : ret * list Z * table :=
  let on (fp : file_ptr) (err : Z) (k : nat -> file -> ret * list Z * table) :=
    match lookup_file fp t with Some (i, f) => k i f | None => (RInt err, [], t) end in
  match c with
  | Open _ max mode =>
    match first_free t with
    | Some i => (RPtr (At (Z.of_nat i)), [], <[i := Some (new_file max mode l)]> t)
    | None => (RPtr NULL, [], t)
    end
  | Close fp => on fp (-1) (fun i _ => (RInt 0, [], <[i := None]> t))
  | Getc fp => on fp 0 (fun i f => let '(r, f) := file_getc f in (RInt r, [], <[i := Some f]> t))
  | Read _ max nmemb fp => on fp 0 (fun i f =>
      let '(l, f) := file_read (Z.to_nat (max * nmemb)) f in
      (RInt (Z.of_nat (length l)), l, <[i := Some f]> t))
  | Write _ _ _ fp => on fp 0 (fun i f => let '(r, f) := file_write l f in (RInt r, [], <[i := Some f]> t))
  | Rewind fp => on fp (-1) (fun i f => (RInt 0, [], <[i := Some (seek 0 f)]> t))
  | Fsize fp => on fp (-1) (fun i f => (RInt (Z.of_nat (length (contents f))), [], t))
  end.

(** A file that is written and rewound reads back what was written, as far as
    it fits; the rest of the file is as before. *)
Lemma file_write_read l f : can_read f = true -> can_write f = true ->
  (position f <= length (contents f))%nat -> (position f + length l <= capacity f)%nat ->
  file_read (length l) (seek (position f) (file_write l f).2) =
    (l, seek (position f + length l) (file_write l f).2).
Proof.
  intros Hr Hw Hp Hl. unfold file_read, file_write. rewrite Hw. cbn [snd seek can_read contents position]. rewrite Hr.
  rewrite (take_ge l) by lia. rewrite drop_app_length' by (rewrite length_take; lia). by rewrite take_app_length.
Qed.

(* ------------------------------------------------------------------ *)
(** ** The implementation's state *)

Section rep.
Context `{HA : AllocatorLaws}.
Implicit Types (s : fstate) (t : table) (c : FILE_MEM).

Definition run_call (c : call) : prog fstate ret :=
  match c with
  | Open buf max mode => r ← fmemopen_mem buf max mode; mret (RPtr r)
  | Close fp => r ← fclose_mem fp; mret (RInt r)
  | Getc fp => r ← fgetc_mem fp; mret (RInt r)
  | Read ptr max nmemb fp => r ← fread_mem ptr max nmemb fp; mret (RInt r)
  | Write ptr max nmemb fp => r ← fwrite_mem ptr max nmemb fp; mret (RInt r)
  | Rewind fp => r ← frewind_mem fp; mret (RInt r)
  | Fsize fp => r ← fsize_mem fp; mret (RInt r)
  end.

(** The buffer of a descriptor. *)
Definition in_buffer c (a : Z) : Prop := is_open c <> 0 /\ buf c <= a < buf c + buf_maxsize c.

Record file_rep (m : mem) (h : heap_state) c (f : file) : Prop := {
  rep_open : is_open c = 1;
  rep_mode : mode c = Z.lor (if can_read f then READ_OK else 0) (if can_write f then WRITE_OK else 0);
  rep_max : buf_maxsize c = Z.of_nat (capacity f);
  rep_size : crnt_filesize c = Z.of_nat (length (contents f));
  rep_pos : pos c = Z.of_nat (position f);
  rep_bounds : (position f <= length (contents f) <= capacity f)%nat /\ Z.of_nat (capacity f) < 2 ^ 31;
  rep_buffer i : (i < capacity f)%nat -> is_Some (m !! (buf c + Z.of_nat i));
  rep_bytes i : (i < length (contents f))%nat -> m !! (buf c + Z.of_nat i) = contents f !! i;
  rep_owned : buf c <> 0 /\ (buf_allocated c = 0 \/ buf_allocated c = 1 /\ blocks h !! buf c = Some (buf_maxsize c))
}.

Definition entry_rep m h c (o : option file) : Prop :=
  match o with None => c = zero_file | Some f => file_rep m h c f end.

(** Every descriptor is free and zero, or open and represents its file; no two
    open files share a byte or a block; the accessible bytes of the heap are in blocks. *)
Record table_rep s t : Prop := {
  tab_entries : Forall2 (entry_rep (fmem s) (heap s)) (desc s) t;
  tab_length : Z.of_nat (length t) = MAX_DESC;
  tab_disjoint i j c d a : desc s !! i = Some c -> desc s !! j = Some d -> i <> j -> in_buffer c a -> ~ in_buffer d a;
  tab_owned i j c d : desc s !! i = Some c -> desc s !! j = Some d -> i <> j ->
    buf_allocated c <> 0 -> buf_allocated d <> 0 -> buf c <> buf d;
  tab_heap a : is_Some (fmem s !! a) -> in_heap a -> exists b n, blocks (heap s) !! b = Some n /\ b <= a < b + n
}.

Definition accessible s (a n : Z) : Prop := forall i, a <= i < a + n -> is_Some (fmem s !! i).
Definition off_buffers s (a n : Z) : Prop := forall i c, c ∈ desc s -> a <= i < a + n -> ~ in_buffer c i.

(** What a caller owes: a buffer or a destination of its own, sizes whose sums
    stay in an int, and memory left for a buffer it does not bring.  The bytes a
    call is given. *)
Definition call_ok (c : call) s : Prop :=
  match c with
  | Open buf max _ =>
    0 <= max < 2 ^ 31 /\
    if buf =? 0 then (malloc max (heap s)).1.1 <> 0 else accessible s buf max /\ off_buffers s buf max
  | Read ptr max nmemb (At i) =>
    forall d, lookupZ (desc s) i = Some d -> is_open d <> 0 -> - 2 ^ 31 <= max * nmemb /\ pos d + max * nmemb < 2 ^ 31 /\
      let n := Z.min (max * nmemb) (crnt_filesize d - pos d) in accessible s ptr n /\ off_buffers s ptr n
  | Write ptr max nmemb (At i) =>
    forall d, lookupZ (desc s) i = Some d -> is_open d <> 0 -> - 2 ^ 31 <= max * nmemb /\ pos d + max * nmemb < 2 ^ 31 /\
      accessible s ptr (max * nmemb) /\ forall a, ptr <= a < ptr + max * nmemb -> ~ in_buffer d a
  | _ => True
  end.

Definition given (c : call) s : list Z :=
  match c with
  | Open buf max _ =>
    if buf =? 0 then (malloc max (heap s)).1.2 else default [] (read_bytes (fmem s) buf (Z.to_nat max))
  | Write ptr max nmemb _ => default [] (read_bytes (fmem s) ptr (Z.to_nat (max * nmemb)))
  | _ => []
  end.
End rep.
