(* ===== verification/FileRefine.v ===== *)
(** The in-memory files of src/util.c implement their specification. *)

From S2P Require Import Prelude ByteMem FileMem FileSpec.

Open Scope string_scope.
Open Scope list_scope.
Open Scope Z_scope.

Section refine.
Context `{HA : AllocatorLaws}.
Implicit Types (s : fstate) (t : table) (c d : FILE_MEM) (f : file) (m : mem) (i j : nat).

(** *** Bytes *)

Lemma read_bytes_Some m a n l : read_bytes m a n = Some l <->
  length l = n /\ forall i, (i < n)%nat -> m !! (a + Z.of_nat i) = l !! i.
Proof.
  unfold read_bytes. rewrite mapM_Some. split.
  - intros Hl. pose proof (Forall2_length _ _ _ Hl) as Hn. rewrite length_seq in Hn. split; [done|]. intros i Hi.
    destruct (lookup_lt_is_Some_2 l i) as [x Hx]; [lia|]. rewrite Hx.
    destruct (Forall2_lookup_r _ _ _ _ _ Hl Hx) as (k & [-> _]%lookup_seq & Hk). exact Hk.
  - intros [Hn Hl]. apply Forall2_same_length_lookup_2; [by rewrite length_seq|].
    intros i k x [-> Hi]%lookup_seq Hx. rewrite Nat.add_0_l in *. rewrite Hl by done. exact Hx.
Qed.

Lemma read_accessible s a n : accessible s a n -> exists l, read_bytes (fmem s) a (Z.to_nat n) = Some l.
Proof.
  intros Ha. exists (fmap (fun i => mget (fmem s) (a + Z.of_nat i)) (seq 0 (Z.to_nat n))).
  apply read_bytes_Some. split; [by rewrite length_fmap, length_seq|]. intros i Hi.
  rewrite list_lookup_fmap, lookup_seq_lt by done. cbn [fmap option_fmap option_map]. unfold mget.
  rewrite Nat.add_0_l. by destruct (Ha (a + Z.of_nat i)) as [x ->]; [lia|].
Qed.

Lemma lookup_write_bytes_off m a l b : b < a \/ a + Z.of_nat (length l) <= b -> write_bytes m a l !! b = m !! b.
Proof. intros Hb. rewrite lookup_write_bytes. by split_cmp. Qed.

Lemma lookup_write_bytes_in m a l i : (i < length l)%nat -> write_bytes m a l !! (a + Z.of_nat i) = l !! i.
Proof.
  intros Hi. rewrite lookup_write_bytes. split_cmp; cbn [andb]; try lia. f_equal. lia.
Qed.

Lemma write_bytes_is_Some m a l b : is_Some (m !! b) -> is_Some (write_bytes m a l !! b).
Proof.
  intros Hb. rewrite lookup_write_bytes. split_cmp; cbn [andb]; try done.
  apply lookup_lt_is_Some_2. lia.
Qed.

Lemma write_bytes_is_Some_inv s a l b : accessible s a (Z.of_nat (length l)) ->
  is_Some (write_bytes (fmem s) a l !! b) -> is_Some (fmem s !! b).
Proof.
  intros Ha Hb. rewrite lookup_write_bytes in Hb. destruct (Z.leb_spec a b), (Z.ltb_spec b (a + Z.of_nat (length l)));
    cbn [andb] in Hb; try done. apply Ha. lia.
Qed.

(** *** Instructions *)

Lemma deref_ok s i c : desc s !! i = Some c -> deref (At (Z.of_nat i)) s = Done c s.
Proof.
  intros Hi. unfold deref. cbv [mbind prog_bind gets]. rewrite lookupZ_spec, Nat2Z.id, Hi by lia. done.
Qed.

Lemma update_ok s i c u : desc s !! i = Some c ->
  update (At (Z.of_nat i)) u s = Done tt (set_desc (<[i := u c]> (desc s)) s).
Proof.
  intros Hi. unfold update. rewrite (bind_done _ _ _ _ _ (deref_ok s i c Hi)).
  cbv [mbind prog_bind gets]. rewrite insertZ_spec, Nat2Z.id; [done|]. apply lookup_lt_Some in Hi. lia.
Qed.

Lemma int_arith_ok s x : - 2 ^ 31 <= x < 2 ^ 31 -> int_arith x s = Done x s.
Proof.
  intros Hx. unfold int_arith. rewrite (proj2 (Z.leb_le _ _)), (proj2 (Z.ltb_lt _ _)) by lia. done.
Qed.

Lemma memcpy_ok s dst src n l : read_bytes (fmem s) src (Z.to_nat n) = Some l -> accessible s dst n ->
  dst + n <= src \/ src + n <= dst \/ n <= 0 ->
  memcpy dst src n s = Done tt (set_fmem (write_bytes (fmem s) dst l) s).
Proof.
  intros Hl Hd Ho. unfold memcpy. cbv [mbind prog_bind gets]. rewrite Hl. cbn.
  destruct (read_accessible _ _ _ Hd) as [l' ->]. cbn.
  replace (_ && _) with false; [done|]. split_cmp; cbn [andb]; try done; lia.
Qed.

(** *** Descriptors *)

Lemma lookup_file_Some fp t i f : lookup_file fp t = Some (i, f) <-> fp = At (Z.of_nat i) /\ t !! i = Some (Some f).
Proof.
  destruct fp as [|z]; cbn [lookup_file]; [split; [done|by intros [? _]]|].
  destruct (Z.leb_spec 0 z) as [Hz|Hz].
  - destruct (t !! Z.to_nat z) as [[g|]|] eqn:E; cbn [mbind option_bind]; split.
    + intros [= <- <-]. rewrite Z2Nat.id by done. done.
    + intros [[= ->] E']. rewrite Nat2Z.id in *. congruence.
    + done.
    + intros [[= ->] E']. rewrite Nat2Z.id in *. congruence.
    + done.
    + intros [[= ->] E']. rewrite Nat2Z.id in *. congruence.
  - split; [done|]. intros [[= ->] _]. lia.
Qed.

Lemma table_entry s t i o : table_rep s t -> t !! i = Some o ->
  exists c, desc s !! i = Some c /\ entry_rep (fmem s) (heap s) c o.
Proof.
  intros Ht Hi. destruct (Forall2_lookup_r _ _ _ _ _ (tab_entries _ _ Ht) Hi) as (c & Hc & Hr). by exists c.
Qed.

Lemma entry_open m h c o : entry_rep m h c o -> truth (is_open c) = bool_decide (is_Some o).
Proof. destruct o as [f|]; cbn [entry_rep]; [intros Hr; by rewrite (rep_open _ _ _ _ Hr)|by intros ->]. Qed.

Lemma usable_ok fp s t : table_rep s t ->
  usable fp s = Done (bool_decide (is_Some (lookup_file fp t))) s.
Proof.
  intros Ht. unfold usable, VALID_FP. destruct fp as [|z]; [done|].
  pose proof (tab_length _ _ Ht) as Hl. unfold MAX_DESC in *. cbn [lookup_file].
  destruct (Z.leb_spec 0 z) as [Hz|Hz]; cbn [andb]; [|done].
  destruct (Z.ltb_spec z 4) as [Hz'|Hz'].
  - destruct (lookup_lt_is_Some_2 t (Z.to_nat z)) as [o Ho]; [lia|].
    destruct (table_entry _ _ _ _ Ht Ho) as (c & Hc & Hr).
    unfold FILE_OPEN. replace z with (Z.of_nat (Z.to_nat z)) at 1 by lia.
    rewrite (bind_done _ _ _ _ _ (deref_ok _ _ _ Hc)), (entry_open _ _ _ _ Hr), Ho.
    by destruct o.
  - rewrite lookup_ge_None_2 by lia. done.
Qed.

Lemma in_buffer_open m h c f a : file_rep m h c f -> in_buffer c a <-> buf c <= a < buf c + Z.of_nat (capacity f).
Proof. intros [H1 _ H3 _ _ _ _ _]. unfold in_buffer. rewrite H1, H3. naive_solver lia. Qed.

Lemma file_rep_mem m m' h c f : file_rep m h c f -> (forall a, in_buffer c a -> m' !! a = m !! a) -> file_rep m' h c f.
Proof.
  intros Hf He. destruct Hf as [H1 H2 H3 H4 H5 H6 H7 H8] eqn:E. clear E. split; try done.
  - intros i Hi. rewrite He; [by apply H7|]. apply (in_buffer_open _ _ _ _ _ Hf). lia.
  - intros i Hi. rewrite He; [by apply H8|]. apply (in_buffer_open _ _ _ _ _ Hf). lia.
Qed.

Lemma entry_rep_mem m m' h c o : entry_rep m h c o -> (forall a, in_buffer c a -> m' !! a = m !! a) -> entry_rep m' h c o.
Proof. destruct o; [apply file_rep_mem|done]. Qed.

(** A change of the memory off the buffers. *)
Lemma table_rep_mem s t m' : table_rep s t ->
  (forall c a, c ∈ desc s -> in_buffer c a -> m' !! a = fmem s !! a) ->
  (forall a, is_Some (m' !! a) -> is_Some (fmem s !! a)) -> table_rep (set_fmem m' s) t.
Proof.
  intros [H1 H2 H3 H4 H5] He Hd. split; try done.
  - apply Forall2_same_length_lookup_2; [by eapply Forall2_length|]. intros i c o Hc Ho.
    eapply entry_rep_mem; [by eapply Forall2_lookup_lr|]. intros a. apply He. by eapply list_elem_of_lookup_2.
  - intros a Ha. apply H5. by apply Hd.
Qed.

(** A descriptor changes, and the memory and the heap change elsewhere than in
    the other files. *)
Lemma table_rep_put s t i m' h' c' o' : table_rep s t -> (i < length t)%nat -> entry_rep m' h' c' o' ->
  (forall j d, desc s !! j = Some d -> j <> i ->
    (forall a, in_buffer d a -> m' !! a = fmem s !! a /\ ~ in_buffer c' a) /\
    (buf_allocated d <> 0 -> blocks h' !! buf d = blocks (heap s) !! buf d) /\
    (buf_allocated d <> 0 -> buf_allocated c' <> 0 -> buf c' <> buf d)) ->
  (forall a, is_Some (m' !! a) -> in_heap a -> exists b n, blocks h' !! b = Some n /\ b <= a < b + n) ->
  table_rep (FState (<[i := c']> (desc s)) m' h') (<[i := o']> t).
Proof.
  intros [H1 H2 H3 H4 H5] Hi Hr Ho Hh. pose proof (Forall2_length _ _ _ H1) as Hlen.
  assert (forall j d, <[i := c']> (desc s) !! j = Some d -> j = i /\ d = c' \/ j <> i /\ desc s !! j = Some d) as Hj.
  { intros j d. destruct (decide (j = i)) as [->|Hne].
    - rewrite list_lookup_insert_eq by lia. intros [= <-]. by left.
    - rewrite list_lookup_insert_ne by done. by right. }
  split; [|by rewrite length_insert| | |done].
  - apply Forall2_same_length_lookup_2; [cbn [desc]; by rewrite !length_insert|]. intros j d o Hd Hoj.
    destruct (Hj _ _ Hd) as [[-> ->]|[Hne Hd']].
    + rewrite list_lookup_insert_eq in Hoj by done. by injection Hoj as <-.
    + rewrite list_lookup_insert_ne in Hoj by done. destruct (Ho _ _ Hd' Hne) as (Hb & Hbl & _).
      pose proof (Forall2_lookup_lr _ _ _ _ _ _ H1 Hd' Hoj) as Hrd.
      destruct o as [f|]; cbn [entry_rep] in *; [|done].
      apply (file_rep_mem (fmem s)); [|intros a Ha; by apply Hb].
      destruct Hrd as [R1 R2 R3 R4 R5 R6 R7 R8 [R9 R10]]. split; try done. split; [done|].
      destruct R10 as [R10|[R10 R11]]; [by left|right]. split; [done|]. rewrite <- R11. apply Hbl. lia.
  - intros j k d e a Hd He Hne Ha Hb.
    destruct (Hj _ _ Hd) as [[-> ->]|[Hne1 Hd']], (Hj _ _ He) as [[-> ->]|[Hne2 He']]; [done|..].
    + by apply (proj1 (Ho _ _ He' Hne2) a).
    + by apply (proj1 (Ho _ _ Hd' Hne1) a).
    + by apply (H3 j k d e a).
  - intros j k d e Hd He Hne Ha Hb.
    destruct (Hj _ _ Hd) as [[-> ->]|[Hne1 Hd']], (Hj _ _ He) as [[-> ->]|[Hne2 He']]; [done|..].
    + by apply (Ho _ _ He' Hne2).
    + apply not_eq_sym. by apply (Ho _ _ Hd' Hne1).
    + by apply (H4 j k).
Qed.

(** A descriptor that keeps its buffer represents another file. *)
Lemma table_rep_update s t i c c' f' : table_rep s t -> desc s !! i = Some c ->
  buf c' = buf c -> buf_maxsize c' = buf_maxsize c -> buf_allocated c' = buf_allocated c -> is_open c <> 0 ->
  file_rep (fmem s) (heap s) c' f' -> table_rep (set_desc (<[i := c']> (desc s)) s) (<[i := Some f']> t).
Proof.
  intros Ht Hc Eb Em Ea Ho Hf. apply table_rep_put; [done| |done| |apply (tab_heap _ _ Ht)].
  - apply lookup_lt_Some in Hc. by rewrite <- (Forall2_length _ _ _ (tab_entries _ _ Ht)).
  - intros j d Hd Hne. split_and!; [|done|].
    + intros a Ha. split; [done|]. intros Hb. apply (tab_disjoint _ _ Ht j i d c a Hd Hc Hne Ha).
      unfold in_buffer in *. rewrite Eb, Em in Hb. tauto.
    + intros Ha Hb. rewrite Eb. rewrite Ea in Hb. apply (tab_owned _ _ Ht i j); auto.
Qed.

(** *** Opening *)

Lemma find_free_ok s t : table_rep s t ->
  find_free s = Done (match first_free t with Some i => Z.of_nat i | None => -1 end) s.
Proof.
  intros Ht. pose proof (tab_entries _ _ Ht) as He. pose proof (tab_length _ _ Ht) as Hl. clear Ht.
  destruct s as [d m h]. cbn [desc fmem heap] in *. unfold MAX_DESC in Hl.
  do 4 (destruct t as [|?o t]; [cbn in Hl; lia|]). destruct t; [|cbn in Hl; lia].
  repeat match goal with H : Forall2 _ _ (_ :: _) |- _ => apply Forall2_cons_inv_r in H as (?c & ? & ?Hc & H & ->) end.
  apply Forall2_nil_inv_r in He as ->.
  apply entry_open in Hc, Hc0, Hc1, Hc2.
  unfold find_free. cbv [iter mbind prog_bind deref gets lookupZ mret prog_ret of_option]. simpl.
  rewrite Hc. destruct o; simpl; [|done]. rewrite Hc0. destruct o0; simpl; [|done].
  rewrite Hc1. destruct o1; simpl; [|done]. rewrite Hc2. by destruct o2.
Qed.

Lemma first_free_Some t i : first_free t = Some i -> t !! i = Some None.
Proof.
  revert i. induction t as [|[f|] t IH]; intros i; cbn [first_free]; [done| |by intros [= <-]].
  destruct (first_free t) as [j|]; [|done]. intros [= <-]. by apply IH.
Qed.

Lemma parse_mode_ok s i c max md : desc s !! i = Some c ->
  parse_mode (At (Z.of_nat i)) max md s =
    Done tt (set_desc (<[i := foldl (fun d x => parse_char max x d) (set_mode 0 c) (chars md)]> (desc s)) s).
Proof.
  intros Hi. unfold parse_mode. rewrite (bind_done _ _ _ _ _ (update_ok s i c _ Hi)). cbv zeta.
  set (l := chars md). unfold for_. rewrite Z.sub_0_r, Nat2Z.id.
  assert (forall (n k : nat) c s, (k + n = length l)%nat -> desc s !! i = Some c ->
    for_up n (Z.of_nat k) (fun z => x ← of_option (lookupZ l z); update (At (Z.of_nat i)) (parse_char max x)) s =
    Done tt (set_desc (<[i := foldl (fun d x => parse_char max x d) c (drop k l)]> (desc s)) s)) as Hloop.
  { clear. induction n as [|n IH]; intros k c s Hk Hi; cbn [for_up].
    - rewrite drop_ge by lia. cbn [foldl]. rewrite list_insert_id by done. by destruct s.
    - destruct (lookup_lt_is_Some_2 l k) as [x Hx]; [lia|].
      rewrite (drop_S _ _ _ Hx). cbn [foldl].
      pose proof (update_ok s i c (parse_char max x) Hi) as Hu.
      assert ((x ← of_option (lookupZ l (Z.of_nat k)); update (At (Z.of_nat i)) (parse_char max x)) s =
        Done tt (set_desc (<[i := parse_char max x c]> (desc s)) s)) as Hb
        by (cbv [mbind prog_bind]; rewrite lookupZ_spec, Nat2Z.id, Hx by lia; exact Hu).
      rewrite (bind_done _ _ _ _ _ Hb). replace (Z.of_nat k + 1) with (Z.of_nat (Datatypes.S k)) by lia.
      rewrite (IH _ (parse_char max x c)); [|lia|cbn; apply list_lookup_insert_eq; by eapply lookup_lt_Some].
      cbn. by rewrite list_insert_insert_eq. }
  rewrite (Hloop _ O (set_mode 0 c)); [|lia|cbn; apply list_lookup_insert_eq; by eapply lookup_lt_Some].
  cbn. by rewrite list_insert_insert_eq, drop_0.
Qed.
End refine.
