(* ===== verification/FileCalls.v ===== *)
(** Every call on the in-memory files of src/util.c, and sequences of calls,
    against their specification; and the wait on the cycle counter. *)

From S2P Require Import Prelude ByteMem FileMem FileSpec FileRefine.
From Stdlib Require String.

Open Scope string_scope.
Open Scope list_scope.
Open Scope Z_scope.

Section calls.
Context `{HA : AllocatorLaws}.
Implicit Types (s : fstate) (t : table) (d : FILE_MEM) (f : file) (m : mem) (i j : nat).

(** What a call leaves alone: a read fills its destination and nothing else;
    the others keep every accessible byte that is in no file. *)
Definition effect (c : call) s s' (out : list Z) : Prop :=
  match c with
  | Read ptr _ _ _ => fmem s' = write_bytes (fmem s) ptr out
  | _ => forall a, is_Some (fmem s !! a) -> (forall d, d ∈ desc s -> ~ in_buffer d a) -> fmem s' !! a = fmem s !! a
  end.

Definition refines (c : call) s t : Prop :=
  let '(r, out, t') := spec_call (given c s) c t in
  exists s', run_call c s = Done r s' /\ table_rep s' t' /\ effect c s s' out.

(** *** Opening and closing *)

Lemma parse_foldl max l d (r w b : bool) :
  mode d = Z.lor (if r then READ_OK else 0) (if w then WRITE_OK else 0) -> crnt_filesize d = (if b then max else 0) ->
  foldl (fun d x => parse_char max x d) d l =
  FileMem (is_open d) (buf_allocated d) (buf d)
    (Z.lor (if r || existsb (fun c => (c =? 43) || (tolower c =? 114)) l then READ_OK else 0)
           (if w || existsb (fun c => (c =? 43) || (tolower c =? 119)) l then WRITE_OK else 0))
    (buf_maxsize d)
    (if foldl (fun b c => if c =? 43 then b else if tolower c =? 114 then true else if tolower c =? 119 then false else b) b l
     then max else 0) (pos d).
Proof.
  revert d r w b. induction l as [|c l IH]; intros d r w b Hm Hs; cbn [foldl existsb].
  - rewrite !orb_false_r, <- Hm, <- Hs. by destruct d.
  - unfold parse_char at 2. destruct (Z.eqb_spec c 43) as [->|Hc]; cbn [orb].
    + rewrite (IH _ true true b) by done. by rewrite !orb_true_r.
    + destruct (Z.eqb_spec (tolower c) 114) as [E|Hr].
      * rewrite (IH _ true w true) by (done || (cbn; rewrite Hm; by destruct r, w)).
        by rewrite E, !orb_true_r.
      * destruct (Z.eqb_spec (tolower c) 119) as [E|Hw]; cbn [orb].
        -- rewrite (IH _ r true false) by (done || (cbn; rewrite Hm; by destruct r, w)). by rewrite !orb_true_r.
        -- by rewrite (IH _ r w b).
Qed.

Definition opened (al a max : Z) (md : string) : FILE_MEM :=
  FileMem 1 al a (Z.lor (if allows 114 md then READ_OK else 0) (if allows 119 md then WRITE_OK else 0)) max
    (if starts_full md then max else 0) 0.

(** Setting up a free descriptor. *)
Lemma setup_ok s i al a max md : desc s !! i = Some zero_file ->
  (update (At (Z.of_nat i)) (set_buf al a max);; parse_mode (At (Z.of_nat i)) max md;;
   update (At (Z.of_nat i)) (set_pos 0);; mret (At (Z.of_nat i))) s =
  Done (At (Z.of_nat i)) (set_desc (<[i := opened al a max md]> (desc s)) s).
Proof.
  intros Hi. pose proof (lookup_lt_Some _ _ _ Hi) as Hlt.
  assert (forall d, <[i := d]> (desc s) !! i = Some d) as Hin by (intros d; by apply list_lookup_insert_eq).
  erewrite bind_done by (by apply update_ok). erewrite bind_done by (apply parse_mode_ok, Hin).
  cbn [desc set_desc fmem heap]. rewrite list_insert_insert_eq, (parse_foldl max _ _ false false false) by done.
  erewrite bind_done by (apply update_ok, Hin). cbn [desc set_desc fmem heap].
  by rewrite list_insert_insert_eq.
Qed.

Lemma opened_rep m h al a max md l : 0 <= max < 2 ^ 31 -> Z.of_nat (length l) = max ->
  (forall i, (i < length l)%nat -> m !! (a + Z.of_nat i) = l !! i) -> a <> 0 ->
  (al = 0 \/ al = 1 /\ blocks h !! a = Some max) ->
  file_rep m h (opened al a max md) (new_file max md l).
Proof.
  intros Hmax Hl Hb Ha Hal. split; try done; cbn.
  - lia.
  - destruct (starts_full md); [done|]. done.
  - destruct (starts_full md); cbn [length]; lia.
  - intros i Hi. rewrite Hb by lia. apply lookup_lt_is_Some_2. lia.
  - intros i Hi. destruct (starts_full md); [by apply Hb|cbn in Hi; lia].
Qed.

Lemma in_buffer_accessible s t d a : table_rep s t -> d ∈ desc s -> in_buffer d a -> is_Some (fmem s !! a).
Proof.
  intros Ht [k Hk]%list_elem_of_lookup Ha.
  destruct (Forall2_lookup_l _ _ _ _ _ (tab_entries _ _ Ht) Hk) as ([f|] & _ & Hr); [|by rewrite Hr in Ha; destruct Ha].
  apply (in_buffer_open _ _ _ _ _ Hr) in Ha. replace a with (buf d + Z.of_nat (Z.to_nat (a - buf d))) by lia.
  apply (rep_buffer _ _ _ _ Hr). lia.
Qed.

Lemma allocated_block s t d : table_rep s t -> d ∈ desc s -> buf_allocated d <> 0 -> blocks (heap s) !! buf d = Some (buf_maxsize d).
Proof.
  intros Ht [k Hk]%list_elem_of_lookup Ha.
  destruct (Forall2_lookup_l _ _ _ _ _ (tab_entries _ _ Ht) Hk) as ([f|] & _ & Hr); [|by rewrite Hr in Ha].
  by destruct (rep_owned _ _ _ _ Hr) as [_ [?|[_ ?]]].
Qed.

Lemma fmemopen_full buf max md s t : table_rep s t -> first_free t = None -> fmemopen_mem buf max md s = Done NULL s.
Proof. intros Ht Hf. unfold fmemopen_mem. erewrite bind_done by (by apply find_free_ok). by rewrite Hf. Qed.

Lemma fmemopen_user buf max md s t i : table_rep s t -> first_free t = Some i -> buf <> 0 ->
  fmemopen_mem buf max md s = Done (At (Z.of_nat i)) (set_desc (<[i := opened 0 buf max md]> (desc s)) s).
Proof.
  intros Ht Hf Hb. unfold fmemopen_mem. erewrite bind_done by (by apply find_free_ok). rewrite Hf.
  destruct (table_entry _ _ _ _ Ht (first_free_Some _ _ Hf)) as (d & Hd & ->).
  rewrite (proj2 (Z.ltb_ge _ _)) by lia. unfold truth. rewrite (proj2 (Z.eqb_neq buf 0)) by done.
  by apply setup_ok.
Qed.

Lemma fmemopen_own max md s t i a l h : table_rep s t -> first_free t = Some i -> 0 <= max < 2 ^ 31 ->
  malloc max (heap s) = (a, l, h) -> a <> 0 ->
  fmemopen_mem 0 max md s =
    Done (At (Z.of_nat i)) (FState (<[i := opened 1 a max md]> (desc s)) (write_bytes (fmem s) a l) h).
Proof.
  intros Ht Hf Hmax Hm Ha. unfold fmemopen_mem. erewrite bind_done by (by apply find_free_ok). rewrite Hf.
  destruct (table_entry _ _ _ _ Ht (first_free_Some _ _ Hf)) as (d & Hd & ->).
  rewrite (proj2 (Z.ltb_ge _ _)) by lia. change (truth 0) with false. cbv iota.
  rewrite prog_bind_assoc. erewrite bind_done.
  2:{ unfold do_malloc. rewrite uwrap_id, Hm, (proj2 (Z.eqb_neq a 0)) by (done || (split; lia)). reflexivity. }
  by rewrite setup_ok.
Qed.

Lemma free_slot_lt s t i : table_rep s t -> first_free t = Some i -> (i < length t)%nat.
Proof. intros _ Hf. by eapply lookup_lt_Some, first_free_Some. Qed.

(** The new block is apart from every accessible byte. *)
Lemma fresh_block s t n a l h : table_rep s t -> 0 <= n -> malloc n (heap s) = (a, l, h) -> a <> 0 ->
  Z.of_nat (length l) = n /\ blocks h = <[a := n]> (blocks (heap s)) /\ blocks (heap s) !! a = None /\
  forall x, a <= x < a + n -> fmem s !! x = None.
Proof.
  intros Ht Hn Hm Ha. pose proof (malloc_block n (heap s) Hn) as Hb. rewrite Hm in Hb.
  destruct Hb as [[? _]|(_ & B1 & B2 & B3 & B4 & B5)]; [done|]. split_and!; [done..|].
  intros x Hx. destruct (fmem s !! x) eqn:E; [|done]. exfalso.
  destruct (tab_heap _ _ Ht x) as (b & k & Hb & Hbx); [by rewrite E|by apply B4|]. by apply (B5 b k x).
Qed.

Lemma open_refines buf max md s t : table_rep s t -> call_ok (Open buf max md) s -> refines (Open buf max md) s t.
Proof.
  intros Ht [Hmax Hbuf]. unfold refines. cbn [spec_call run_call given].
  destruct (first_free t) as [i|] eqn:Hf.
  2:{ exists s. erewrite bind_done by (by eapply fmemopen_full). done. }
  pose proof (free_slot_lt s t i Ht Hf) as Hlt.
  destruct (Z.eqb_spec buf 0) as [->|Hb].
  - destruct (malloc max (heap s)) as [[a l] h] eqn:Em. cbn [fst snd] in *.
    destruct (fresh_block s t max a l h Ht) as (Hl & Hbl & Hfr & Hno); [lia|done..|].
    eexists. erewrite bind_done by (by eapply fmemopen_own). split_and!; [reflexivity| |].
    + apply table_rep_put; [done..| | |].
      * apply opened_rep; [done|done|by intros k Hk; apply lookup_write_bytes_in|done|].
        right. by rewrite Hbl, lookup_insert_eq.
      * intros j d Hd Hne. apply list_elem_of_lookup_2 in Hd. split_and!.
        -- intros x Hx. assert (~ a <= x < a + max) as Hout.
           { intros Hin. destruct (in_buffer_accessible s t d x Ht Hd Hx) as [y Hy]. by rewrite Hno in Hy. }
           split; [apply lookup_write_bytes_off; lia|]. intros [_ Hin]. by apply Hout.
        -- intros Hal. rewrite Hbl. apply lookup_insert_ne. intros ->.
           pose proof (allocated_block s t d Ht Hd Hal). congruence.
        -- intros Hal _ E. cbn in E. pose proof (allocated_block s t d Ht Hd Hal) as Hc. by rewrite <- E, Hfr in Hc.
      * intros x Hx Hh. rewrite Hbl. destruct (decide (a <= x < a + max)) as [Hin|Hout].
        -- exists a, max. by rewrite lookup_insert_eq.
        -- rewrite lookup_write_bytes_off in Hx by lia. destruct (tab_heap _ _ Ht x Hx Hh) as (b & k & Hb & Hbx).
           exists b, k. rewrite lookup_insert_ne; [done|]. intros ->. congruence.
    + intros x [y Hy] _. apply lookup_write_bytes_off.
      destruct (decide (a <= x < a + max)) as [Hin|Hout]; [by rewrite Hno in Hy|lia].
  - destruct Hbuf as [Hacc Hoff]. destruct (read_accessible _ _ _ Hacc) as [l Hl]. rewrite Hl. change (default [] (Some l)) with l.
    apply read_bytes_Some in Hl as [Hlen Hbytes].
    eexists. erewrite bind_done by (by eapply fmemopen_user). split_and!; [reflexivity| |done].
    apply table_rep_put; [done..| | |apply (tab_heap _ _ Ht)].
    + apply opened_rep; [done|lia|intros k Hk; apply Hbytes; lia|done|by left].
    + intros j d Hd Hne. apply list_elem_of_lookup_2 in Hd. split_and!; [|done|done].
      intros x Hx. split; [done|]. intros [_ Hin]. by apply (Hoff x d Hd).
Qed.

(** An open file and its descriptor. *)
Lemma open_file fp s t i f : table_rep s t -> lookup_file fp t = Some (i, f) -> exists d,
  fp = At (Z.of_nat i) /\ (i < length t)%nat /\ desc s !! i = Some d /\ file_rep (fmem s) (heap s) d f /\
  usable fp s = Done true s /\ deref fp s = Done d s.
Proof.
  intros Ht Hf. pose proof (usable_ok fp s t Ht) as Hu. rewrite Hf in Hu.
  apply lookup_file_Some in Hf as [-> Hi]. destruct (table_entry _ _ _ _ Ht Hi) as (d & Hd & Hr).
  exists d. split_and!; [done|by eapply lookup_lt_Some|done|done|done|by apply deref_ok].
Qed.

(** What a call that is given no file does. *)
Ltac no_file Ht Hf :=
  eexists; split_and!;
    [erewrite bind_done; [reflexivity|]; erewrite bind_done by (by apply usable_ok); rewrite Hf; reflexivity|exact Ht|done].

Lemma fclose_ok s t i d f : table_rep s t -> desc s !! i = Some d -> file_rep (fmem s) (heap s) d f ->
  usable (At (Z.of_nat i)) s = Done true s ->
  exists m h, fclose_mem (At (Z.of_nat i)) s = Done 0 (FState (<[i := zero_file]> (desc s)) m h) /\
    (forall a, m !! a = fmem s !! a \/ in_buffer d a /\ m !! a = None) /\
    (forall b, b <> buf d \/ buf_allocated d = 0 -> blocks h !! b = blocks (heap s) !! b) /\
    (forall a, buf_allocated d <> 0 -> in_buffer d a -> m !! a = None).
Proof.
  intros Ht Hd Hr Hu. unfold fclose_mem. erewrite bind_done by done. cbn [negb].
  erewrite bind_done by (by apply deref_ok). pose proof (rep_owned _ _ _ _ Hr) as [Hb Hal].
  destruct Hal as [Hal|[Hal Hbl]]; rewrite Hal.
  - change (truth 0) with false. cbn [andb]. exists (fmem s), (heap s). split_and!; [|by left|done|done].
    erewrite bind_done by reflexivity. by erewrite bind_done by (by apply update_ok).
  - change (truth 1) with true. unfold truth. rewrite (proj2 (Z.eqb_neq (buf d) 0)) by done. cbn [negb andb].
    destruct (free_block _ _ _ Hbl) as (h & Hfree & Hh).
    eexists (filter _ (fmem s)), h. split_and!.
    + erewrite bind_done by (unfold do_free; rewrite Hfree, Hbl; reflexivity).
      erewrite bind_done by (by apply update_ok). reflexivity.
    + intros a. rewrite map_lookup_filter. destruct (fmem s !! a) as [x|]; [|by left]. cbn.
      case_guard as Hg; cbn; [by left|]. right. split; [|done]. split; [by rewrite (rep_open _ _ _ _ Hr)|].
      lia.
    + intros b [Hb'|?]; [|lia]. rewrite Hh. by apply lookup_delete_ne.
    + intros a _ [_ Ha]. apply map_lookup_filter_None. right. intros x _ Hn. by apply Hn.
Qed.

Lemma close_refines fp s t : table_rep s t -> refines (Close fp) s t.
Proof.
  intros Ht. unfold refines. cbn [spec_call run_call given].
  destruct (lookup_file fp t) as [[i f]|] eqn:Hf; [|unfold fclose_mem; no_file Ht Hf].
  destruct (open_file fp s t i f Ht Hf) as (d & -> & Hlt & Hd & Hr & Hu & _).
  destruct (fclose_ok s t i d f Ht Hd Hr Hu) as (m & h & Hrun & Hm & Hh & Hgone).
  pose proof (list_elem_of_lookup_2 _ _ _ Hd) as Hin.
  eexists. erewrite bind_done by exact Hrun. split_and!; [reflexivity| |].
  - apply table_rep_put; [done..| |].
    + intros j e He Hne. split_and!; [|intros Hal; apply Hh|by intros _ []].
      * intros a Ha. split; [|by intros []]. destruct (Hm a) as [?|[Hb _]]; [done|].
        by destruct (tab_disjoint _ _ Ht j i e d a He Hd Hne Ha).
      * destruct (decide (buf_allocated d = 0)); [by right|left]. by apply (tab_owned _ _ Ht j i).
    + intros a Ha Hhp. cbn [fmem] in Ha. destruct (Hm a) as [E|[_ E]]; [|rewrite E in Ha; by destruct Ha].
      destruct (tab_heap _ _ Ht a) as (b & n & Hb & Hab); [by rewrite <- E|done|]. exists b, n. split; [|done].
      rewrite Hh; [done|]. destruct (decide (buf_allocated d = 0)) as [|Hal]; [by right|left]. intros ->.
      rewrite (allocated_block s t d Ht Hin Hal) in Hb. injection Hb as <-.
      rewrite Hgone in Ha; [by destruct Ha|done|]. split; [by rewrite (rep_open _ _ _ _ Hr)|done].
  - intros a _ Hn. cbn. destruct (Hm a) as [?|[Hb _]]; [done|]. by destruct (Hn d Hin).
Qed.

(** *** Transfers *)

Lemma file_rep_seek m h d f p : file_rep m h d f -> (p <= length (contents f))%nat ->
  file_rep m h (set_pos (Z.of_nat p) d) (seek p f).
Proof. intros [R1 R2 R3 R4 R5 R6 R7 R8 R9] Hp. split; try done. cbn. lia. Qed.

(** A file whose position alone changes. *)
Lemma table_rep_seek s t i d f p : table_rep s t -> desc s !! i = Some d -> file_rep (fmem s) (heap s) d f ->
  (p <= length (contents f))%nat ->
  table_rep (set_desc (<[i := set_pos (Z.of_nat p) d]> (desc s)) s) (<[i := Some (seek p f)]> t).
Proof.
  intros Ht Hd Hr Hp. apply (table_rep_update s t i d); try done; [by rewrite (rep_open _ _ _ _ Hr)|].
  by apply file_rep_seek.
Qed.

Lemma table_rep_same s t i f : table_rep s t -> t !! i = Some (Some f) -> table_rep s (<[i := Some f]> t).
Proof. intros Ht Hi. by rewrite list_insert_id. Qed.

Lemma mode_bits m h d f : file_rep m h d f ->
  truth (Z.land (mode d) READ_OK) = can_read f /\ truth (Z.land (mode d) WRITE_OK) = can_write f.
Proof. intros Hr. rewrite (rep_mode _ _ _ _ Hr). by destruct (can_read f), (can_write f). Qed.

Lemma getc_refines fp s t : table_rep s t -> refines (Getc fp) s t.
Proof.
  intros Ht. unfold refines. cbn [spec_call run_call given].
  destruct (lookup_file fp t) as [[i f]|] eqn:Hf; [|unfold fgetc_mem; no_file Ht Hf].
  destruct (open_file fp s t i f Ht Hf) as (d & Efp & Hlt & Hd & Hr & Hu & Hde).
  apply lookup_file_Some in Hf as [_ Hi]. destruct (mode_bits _ _ _ _ Hr) as [Hmr _].
  destruct Hr as [R1 R2 R3 R4 R5 [R6 R6'] R7 R8 R9] eqn:E. clear E.
  unfold file_getc, fgetc_mem. destruct (can_read f).
  - destruct (contents f !! position f) as [x|] eqn:Ex.
    + pose proof (lookup_lt_Some _ _ _ Ex) as Hlt'. eexists. split_and!.
      * erewrite bind_done; [reflexivity|]. erewrite bind_done by exact Hu. cbn [negb].
        erewrite bind_done by exact Hde. rewrite Hmr. cbn [negb].
        rewrite (proj2 (Z.ltb_lt _ _)) by lia. erewrite bind_done by reflexivity.
        erewrite bind_done by (rewrite R5, R8, Ex by lia; reflexivity).
        rewrite Efp. erewrite bind_done by (by apply update_ok). reflexivity.
      * rewrite R5. replace (Z.of_nat (position f) + 1) with (Z.of_nat (Datatypes.S (position f))) by lia.
        apply table_rep_seek; (done || lia).
      * done.
    + pose proof (lookup_ge_None_1 _ _ Ex) as Hge. exists s. split_and!; [|by apply table_rep_same|done].
      erewrite bind_done; [reflexivity|]. erewrite bind_done by exact Hu. cbn [negb].
      erewrite bind_done by exact Hde. rewrite Hmr. cbn [negb].
      rewrite (proj2 (Z.ltb_ge _ _)) by lia. reflexivity.
  - exists s. split_and!; [|by apply table_rep_same|done].
    erewrite bind_done; [reflexivity|]. erewrite bind_done by exact Hu. cbn [negb].
    erewrite bind_done by exact Hde. rewrite Hmr. reflexivity.
Qed.

Lemma rewind_refines fp s t : table_rep s t -> refines (Rewind fp) s t.
Proof.
  intros Ht. unfold refines. cbn [spec_call run_call given].
  destruct (lookup_file fp t) as [[i f]|] eqn:Hf; [|unfold frewind_mem; no_file Ht Hf].
  destruct (open_file fp s t i f Ht Hf) as (d & Efp & Hlt & Hd & Hr & Hu & Hde).
  eexists. split_and!.
  - unfold frewind_mem. erewrite bind_done; [reflexivity|]. erewrite bind_done by exact Hu. cbn [negb].
    rewrite Efp. erewrite bind_done by (by apply update_ok). reflexivity.
  - apply (table_rep_seek s t i d f O); (done || lia).
  - done.
Qed.

Lemma fsize_refines fp s t : table_rep s t -> refines (Fsize fp) s t.
Proof.
  intros Ht. unfold refines. cbn [spec_call run_call given].
  destruct (lookup_file fp t) as [[i f]|] eqn:Hf; [|unfold fsize_mem; no_file Ht Hf].
  destruct (open_file fp s t i f Ht Hf) as (d & Efp & Hlt & Hd & Hr & Hu & Hde).
  exists s. split_and!; [|done|done]. unfold fsize_mem. erewrite bind_done; [reflexivity|].
  erewrite bind_done by exact Hu. cbn [negb]. erewrite bind_done by exact Hde. by rewrite (rep_size _ _ _ _ Hr).
Qed.

(** [do_xfer] moves as much as fits, by one copy. *)
Lemma do_xfer_ok s i d dst src n type l :
  let checkmax := if type =? DO_READ then crnt_filesize d else buf_maxsize d in
  let k := Z.max 0 (Z.min n (checkmax - pos d)) in
  desc s !! i = Some d -> 0 <= pos d <= checkmax -> checkmax < 2 ^ 31 -> - 2 ^ 31 <= n -> pos d + n < 2 ^ 31 ->
  read_bytes (fmem s) src (Z.to_nat k) = Some l -> accessible s dst k ->
  dst + k <= src \/ src + k <= dst \/ k <= 0 ->
  do_xfer dst src n (At (Z.of_nat i)) type s =
    Done k (FState (<[i := set_pos (pos d + k) d]> (desc s)) (write_bytes (fmem s) dst l) (heap s)).
Proof.
  intros checkmax k Hd Hp Hc Hn Hs Hl Ha Ho. unfold do_xfer.
  erewrite bind_done by (by apply deref_ok). cbv zeta. fold checkmax.
  erewrite bind_done by (apply int_arith_ok; lia).
  erewrite (bind_done _ _ _ (Z.min n (checkmax - pos d))).
  2:{ destruct (Z.ltb_spec checkmax (pos d + n)); [rewrite int_arith_ok by lia|]; cbv [mret prog_ret]; f_equal; lia. }
  destruct (Z.ltb_spec 0 (Z.min n (checkmax - pos d))) as [Hk|Hk].
  - replace (Z.min n (checkmax - pos d)) with k by lia.
    erewrite bind_done by (by apply memcpy_ok).
    erewrite bind_done by (by apply update_ok). reflexivity.
  - assert (k = 0) as -> by lia. apply read_bytes_Some in Hl as [Hl _]. destruct l; [|done]. cbn [write_bytes].
    rewrite Z.add_0_r, list_insert_id; [by destruct s|]. rewrite Hd. by destruct d.
Qed.

(** A count the sum overflows with is undefined, also where it only asks for
    all there is. *)
Lemma do_xfer_overflow s i d dst src n type : desc s !! i = Some d -> 2 ^ 31 <= pos d + n ->
  do_xfer dst src n (At (Z.of_nat i)) type s = Undef.
Proof.
  intros Hd Ho. unfold do_xfer. erewrite bind_done by (by apply deref_ok). cbv zeta.
  cbv [mbind prog_bind]. unfold int_arith at 1. by rewrite (proj2 (Z.ltb_ge _ _)), andb_false_r by done.
Qed.

Lemma read_refines ptr max nmemb fp s t : table_rep s t -> call_ok (Read ptr max nmemb fp) s ->
  refines (Read ptr max nmemb fp) s t.
Proof.
  intros Ht Hok. unfold refines. cbn [spec_call run_call given].
  destruct (lookup_file fp t) as [[i f]|] eqn:Hf; [|unfold fread_mem; no_file Ht Hf].
  destruct (open_file fp s t i f Ht Hf) as (d & -> & Hlt & Hd & Hr & Hu & Hde).
  apply lookup_file_Some in Hf as [_ Hi]. destruct (mode_bits _ _ _ _ Hr) as [Hmr _].
  destruct (Hok d) as (Hn & Hs & Hacc & Hoff); [by rewrite lookupZ_spec, Nat2Z.id by lia|by rewrite (rep_open _ _ _ _ Hr)|].
  pose proof Hr as [R1 R2 R3 R4 R5 [R6 R6'] R7 R8 R9].
  unfold file_read, fread_mem. destruct (can_read f).
  2:{ exists s. split_and!; [|by apply table_rep_same|done]. erewrite bind_done; [reflexivity|].
      erewrite bind_done by exact Hu. cbn [negb]. erewrite bind_done by exact Hde. rewrite Hmr. reflexivity. }
  set (n := max * nmemb) in *. set (l := take (Z.to_nat n) (drop (position f) (contents f))).
  assert (Z.of_nat (length l) = Z.max 0 (Z.min n (crnt_filesize d - pos d))) as Hl
    by (unfold l; rewrite length_take, length_drop; lia).
  eexists. split_and!.
  - erewrite bind_done; [reflexivity|]. erewrite bind_done by exact Hu. cbn [negb].
    erewrite bind_done by exact Hde. rewrite Hmr. cbn [negb].
    erewrite bind_done by (apply int_arith_ok; fold n; lia). fold n.
    rewrite (do_xfer_ok s i d ptr (buf d + pos d) n DO_READ l);
      change (DO_READ =? DO_READ) with true; cbv iota zeta; try done; try lia.
    + by rewrite <- Hl.
    + apply read_bytes_Some. split; [lia|]. intros k Hk. unfold l.
      rewrite lookup_take_lt, lookup_drop, <- R8 by lia. f_equal. lia.
    + intros x Hx. apply Hacc. lia.
    + destruct (decide (Z.of_nat (length l) = 0)) as [|Hne]; [lia|].
      destruct (decide (ptr + Z.of_nat (length l) <= buf d + pos d)); [lia|].
      destruct (decide (buf d + pos d + Z.of_nat (length l) <= ptr)); [lia|]. exfalso.
      apply (Hoff (Z.max ptr (buf d + pos d)) d); [by eapply list_elem_of_lookup_2|lia|].
      apply (in_buffer_open _ _ _ _ _ Hr). lia.
  - rewrite R5. replace (Z.of_nat (position f) + Z.of_nat (length l)) with (Z.of_nat (position f + length l)) by lia.
    apply (table_rep_seek (set_fmem (write_bytes (fmem s) ptr l) s) t i d f); [|done| |lia].
    + apply table_rep_mem; [done| |].
      * intros e a He Ha. apply lookup_write_bytes_off.
        destruct (decide (ptr <= a < ptr + Z.of_nat (length l))); [|lia]. by destruct (Hoff a e He ltac:(lia)).
      * intros a. apply (write_bytes_is_Some_inv s). intros x Hx. apply Hacc. lia.
    + apply (file_rep_mem (fmem s)); [done|]. intros a Ha. apply lookup_write_bytes_off.
      destruct (decide (ptr <= a < ptr + Z.of_nat (length l))); [|lia].
      by destruct (Hoff a d (list_elem_of_lookup_2 _ _ _ Hd) ltac:(lia)).
  - done.
Qed.

(** Writing [l] into the buffer from the position on. *)
Lemma file_rep_write m h d f l : file_rep m h d f -> (position f + length l <= capacity f)%nat ->
  file_rep (write_bytes m (buf d + pos d) l) h
    (set_size (Z.max (crnt_filesize d) (pos d + Z.of_nat (length l))) (set_pos (pos d + Z.of_nat (length l)) d))
    (File (can_read f) (can_write f) (capacity f)
       (take (position f) (contents f) ++ l ++ drop (position f + length l) (contents f)) (position f + length l)).
Proof.
  intros [R1 R2 R3 R4 R5 [R6 R6'] R7 R8 R9] Hl. split; try done; cbn.
  - rewrite !length_app, length_take, length_drop. lia.
  - lia.
  - rewrite !length_app, length_take, length_drop. lia.
  - intros i Hi. apply write_bytes_is_Some, R7, Hi.
  - intros i Hi. rewrite !length_app, length_take, length_drop in Hi.
    destruct (decide (i < position f)%nat).
    { rewrite lookup_write_bytes_off by lia. rewrite lookup_app_l by (rewrite length_take; lia).
      by rewrite lookup_take_lt, R8 by lia. }
    rewrite lookup_app_r by (rewrite length_take; lia). rewrite length_take, Nat.min_l by lia.
    destruct (decide (i < position f + length l)%nat).
    + rewrite lookup_app_l by lia. rewrite <- (lookup_write_bytes_in m (buf d + pos d)) by lia. f_equal. lia.
    + rewrite lookup_write_bytes_off by lia. rewrite lookup_app_r, lookup_drop, R8 by lia. f_equal. lia.
Qed.

Lemma write_refines ptr max nmemb fp s t : table_rep s t -> call_ok (Write ptr max nmemb fp) s ->
  refines (Write ptr max nmemb fp) s t.
Proof.
  intros Ht Hok. unfold refines. cbn [spec_call run_call given].
  destruct (lookup_file fp t) as [[i f]|] eqn:Hf; [|unfold fwrite_mem; no_file Ht Hf].
  destruct (open_file fp s t i f Ht Hf) as (d & -> & Hlt & Hd & Hr & Hu & Hde).
  apply lookup_file_Some in Hf as [_ Hi]. destruct (mode_bits _ _ _ _ Hr) as [_ Hmw].
  destruct (Hok d) as (Hn & Hs & Hacc & Hoff); [by rewrite lookupZ_spec, Nat2Z.id by lia|by rewrite (rep_open _ _ _ _ Hr)|].
  pose proof Hr as [R1 R2 R3 R4 R5 [R6 R6'] R7 R8 R9].
  destruct (read_accessible _ _ _ Hacc) as [l Hl]. rewrite Hl. change (default [] (Some l)) with l.
  unfold file_write, fwrite_mem. destruct (can_write f) eqn:Ew.
  2:{ exists s. split_and!; [|by apply table_rep_same|done]. erewrite bind_done; [reflexivity|].
      erewrite bind_done by exact Hu. cbn [negb]. erewrite bind_done by exact Hde. rewrite Hmw. reflexivity. }
  set (n := max * nmemb) in *. set (l' := take (capacity f - position f) l).
  apply read_bytes_Some in Hl as [Hlen Hbytes].
  assert (Z.of_nat (length l') = Z.max 0 (Z.min n (buf_maxsize d - pos d))) as Hl'
    by (unfold l'; rewrite length_take; lia).
  set (k := Z.of_nat (length l')) in *.
  pose proof (file_rep_write _ _ _ _ l' Hr) as Hw. fold k in Hw. rewrite Ew in Hw.
  set (m' := write_bytes (fmem s) (buf d + pos d) l') in *.
  set (d1 := set_pos (pos d + k) d). set (d2 := set_size (Z.max (crnt_filesize d) (pos d + k)) d1).
  exists (FState (<[i := d2]> (desc s)) m' (heap s)). split_and!.
  - erewrite bind_done; [reflexivity|]. erewrite bind_done by exact Hu. cbn [negb].
    erewrite bind_done by exact Hde. rewrite Hmw. cbn [negb].
    erewrite bind_done by (apply int_arith_ok; fold n; lia). fold n.
    erewrite (bind_done _ _ _ k (FState (<[i := d1]> (desc s)) m' (heap s))).
    2:{ rewrite (do_xfer_ok s i d (buf d + pos d) ptr n DO_WRITE l');
          change (DO_WRITE =? DO_READ) with false; cbv iota zeta; rewrite <- ?Hl'; try done; try lia.
        - apply read_bytes_Some. unfold k. rewrite Nat2Z.id. split; [done|]. intros j Hj. unfold l' in *.
          rewrite length_take in Hj. rewrite lookup_take_lt by lia. apply Hbytes. lia.
        - intros x Hx. replace x with (buf d + Z.of_nat (Z.to_nat (x - buf d))) by lia. apply R7. lia.
        - destruct (decide (k = 0)) as [|Hne]; [lia|].
          destruct (decide (ptr + k <= buf d + pos d)); [lia|].
          destruct (decide (buf d + pos d + k <= ptr)); [lia|]. exfalso.
          apply (Hoff (Z.max ptr (buf d + pos d))); [lia|]. apply (in_buffer_open _ _ _ _ _ Hr). lia. }
    assert (<[i := d1]> (desc s) !! i = Some d1) as Hd1
      by (apply list_lookup_insert_eq; by eapply lookup_lt_Some).
    erewrite bind_done by (by apply deref_ok).
    erewrite (bind_done _ _ _ tt (FState (<[i := d2]> (desc s)) m' (heap s))); [reflexivity|].
    destruct (Z.ltb_spec (crnt_filesize d1) (pos d1)) as [Hc|Hc]; cbn in Hc.
    + assert (d2 = set_size (pos d1) d1) as -> by (unfold d2, d1; cbn; f_equal; lia).
      erewrite update_ok by exact Hd1. cbn. by rewrite list_insert_insert_eq.
    + assert (d2 = d1) as -> by (unfold d2; rewrite Z.max_l by lia; unfold d1; by destruct d). reflexivity.
  - apply table_rep_put; [done..|apply Hw; unfold k in *; lia| |].
    + intros j e He Hne. split_and!; [|done|].
      * intros a Ha. assert (~ in_buffer d a) as Hna by (intros Hda; by apply (tab_disjoint _ _ Ht j i e d a)).
        split; [|done]. apply lookup_write_bytes_off. fold k. rewrite (in_buffer_open _ _ _ _ _ Hr) in Hna. lia.
      * intros Ha Hb. apply (tab_owned _ _ Ht i j d e); auto.
    + intros a Ha Hh. apply (tab_heap _ _ Ht); [|done]. apply (write_bytes_is_Some_inv s (buf d + pos d) l'); [|done]. fold k.
      intros x Hx. replace x with (buf d + Z.of_nat (Z.to_nat (x - buf d))) by lia. apply R7. lia.
  - intros a _ Hno. apply lookup_write_bytes_off. fold k.
    pose proof (Hno d (list_elem_of_lookup_2 _ _ _ Hd)) as Hna. rewrite (in_buffer_open _ _ _ _ _ Hr) in Hna. lia.
Qed.

(** C12: the calls on in-memory files implement their specification: whatever
    the descriptor table holds, every call on it (on a file that is open or not,
    readable or not, at its end or full) is defined, returns what the
    specification returns, leaves descriptors, buffers and heap that represent
    the specification's table, delivers the bytes the specification delivers and
    touches no other memory. *)
Theorem file_calls_refine (c : call) s t : table_rep s t -> call_ok c s ->
  let '(r, out, t') := spec_call (given c s) c t in
  exists s', run_call c s = Done r s' /\ table_rep s' t' /\ effect c s s' out.
Proof.
  intros Ht Hok. change (refines c s t). destruct c.
  - by apply open_refines.
  - by apply close_refines.
  - by apply getc_refines.
  - by apply read_refines.
  - by apply write_refines.
  - by apply rewind_refines.
  - by apply fsize_refines.
Qed.
End calls.

(* ------------------------------------------------------------------ *)
(** ** Waiting for the cycle counter *)

(** C40: the wait returns, within as many rounds as the cycles waited for and
    not before they have passed, while the counter goes up between two reads
    until then and the sum does not wrap around. *)
Theorem pcycle_pause_waits (pcycle_at : nat -> Z) (n : nat) (wait : Z) :
  0 <= wait -> 0 <= pcycle_at n -> pcycle_at n + wait < 2 ^ 64 ->
  (forall k, (n <= k)%nat -> pcycle_at k <= pcycle_at n + wait -> pcycle_at k < pcycle_at (Datatypes.S k)) ->
  exists k, pcycle_pause pcycle_at (Datatypes.S (Z.to_nat wait)) wait n = Done tt (Datatypes.S k) /\
    pcycle_at n + wait <= pcycle_at k /\
    forall j, (n < j < k)%nat -> pcycle_at j < pcycle_at n + wait.
Proof.
  intros Hw H0 Hs Hup. unfold pcycle_pause. rewrite (bind_done _ _ n (pcycle_at n) (Datatypes.S n)) by done.
  rewrite uwrap_id by (split; lia). set (target := pcycle_at n + wait) in *.
  assert (forall fuel k, (n <= k)%nat -> pcycle_at k <= target -> target - pcycle_at k <= Z.of_nat fuel ->
    exists k', iter (Datatypes.S fuel) (fun _ => pcycle ← read_pcycle pcycle_at;
      mret (if pcycle <? target then inl tt else inr tt)) tt (Datatypes.S k) = Done tt (Datatypes.S k') /\
      target <= pcycle_at k' /\ forall j, (k < j < k')%nat -> pcycle_at j < target) as Hloop.
  { induction fuel as [|fuel IH]; intros k Hk Hle Hf; specialize (Hup k Hk Hle); cbn [iter];
      cbv [mbind prog_bind read_pcycle mret prog_ret];
      destruct (Z.ltb_spec (pcycle_at (Datatypes.S k)) target) as [Hlt|Hge]; [lia| | |].
    1,3: exists (Datatypes.S k); split_and!; [done|done|lia].
    destruct (IH (Datatypes.S k)) as (k' & Hrun & Hk' & Hj); [lia..|]. exists k'. split_and!; [done|done|].
    intros j Hj'. destruct (decide (j = Datatypes.S k)) as [->|]; [done|]. apply Hj. lia. }
  destruct (Hloop (Z.to_nat wait) n) as (k & Hrun & Hk & Hj); [lia..|]. by exists k.
Qed.

Lemma pcycle_pause_waits_witness : exists k,
  pcycle_pause (fun n => 7 * Z.of_nat n) 101 100 3%nat = Done tt (Datatypes.S k) /\ 121 <= 7 * Z.of_nat k /\
  forall j : nat, (3 < j < k)%nat -> 7 * Z.of_nat j < 121.
Proof. apply (pcycle_pause_waits (fun n => 7 * Z.of_nat n) 3 100); lia. Defined.

(* ------------------------------------------------------------------ *)
(** ** Files over a simple allocator *)

Module SimFiles.

(** The end of the last block. *)
Definition top (h : gmap Z Z) : Z := foldr (fun x e => Z.max e (Z.max x.1 (x.1 + x.2) + 1)) 0x10000 (map_to_list h).

(** Blocks one after the other; nothing larger than 64 kB. *)
#[export] Instance sim_allocator : Allocator := {
  heap_state := gmap Z Z;
  malloc n h := if n <? 0x10000 then (top h, replicate (Z.to_nat n) 0xaa, <[top h := n]> h) else (0, [], h);
  free a h := match h !! a with Some _ => Some (delete a h) | None => None end;
  blocks h := h
}.

Lemma top_le h b n : h !! b = Some n -> b < top h /\ b + n < top h.
Proof.
  intros Hb%elem_of_map_to_list. unfold top. induction (map_to_list h) as [|x l IH]; [by apply elem_of_nil in Hb|].
  cbn [foldr]. apply elem_of_cons in Hb as [<-|Hb]; [cbn [fst snd]; lia|]. specialize (IH Hb). lia.
Qed.

Lemma top_heap h : 0x10000 <= top h.
Proof. unfold top. induction (map_to_list h) as [|x l IH]; [done|]. cbn [foldr]. lia. Qed.

#[export, refine] Instance sim_allocator_laws : AllocatorLaws := { in_heap a := 0x10000 <= a }.
Proof.
  - intros n h Hn. cbn [malloc sim_allocator]. destruct (n <? 0x10000); [right|by left].
    pose proof (top_heap h). split_and!; [lia|done| |rewrite length_replicate; lia|cbn; lia|].
    + destruct (h !! top h) eqn:E; [|done]. apply top_le in E. lia.
    + intros b k i Hb Hi Hbi. apply (top_le h) in Hb. lia.
  - intros a n h Ha. cbn in *. rewrite Ha. eauto.
Defined.

(** Eight bytes at 0x100 and a buffer of sixteen at 0x200. *)
Definition machine : fstate :=
  FState (replicate 4 zero_file) (write_bytes (write_bytes ∅ 0x100 [1; 2; 3; 4; 5; 6; 7; 8]) 0x200 (replicate 16 0)) (∅ : gmap Z Z).

Definition empty_table : table := replicate 4 None.

Lemma machine_rep : table_rep machine empty_table.
Proof.
  split; try done.
  - cbn. repeat constructor.
  - intros i j c d a Hc%list_elem_of_lookup_2 _ _ [Ho _] _. apply elem_of_replicate in Hc as [-> _]. done.
  - intros i j c d Hc%list_elem_of_lookup_2 _ _ Ha. apply elem_of_replicate in Hc as [-> _]. done.
  - intros a Ha Hh. cbn [in_heap sim_allocator_laws] in Hh. cbn [fmem machine] in Ha.
    rewrite !lookup_write_bytes_off in Ha by (cbn; lia). by destruct Ha.
Qed.

(** The first of the two opened for reading and writing. *)
Definition opened_machine : fstate :=
  match run_call (Open 0x100 8 "r+") machine with Done _ s => s | _ => machine end.
Definition opened_table : table := <[0%nat := Some (new_file 8 "r+" [1; 2; 3; 4; 5; 6; 7; 8])]> empty_table.

Lemma opened_machine_rep : table_rep opened_machine opened_table.
Proof.
  pose proof (open_refines 0x100 8 "r+" machine empty_table machine_rep) as Ho.
  destruct Ho as (s & Hrun & Hr & _).
  - split; [done|]. split.
    + intros i Hi. change (fmem machine) with (write_bytes (write_bytes ∅ 0x100 [1; 2; 3; 4; 5; 6; 7; 8]) 0x200 (replicate 16 0)).
      rewrite lookup_write_bytes_off by lia.
      replace i with (0x100 + Z.of_nat (Z.to_nat (i - 0x100))) by lia.
      rewrite lookup_write_bytes_in by (cbn; lia). apply lookup_lt_is_Some_2. cbn. lia.
    + intros i c Hc _ [Ho _]. apply elem_of_replicate in Hc as [-> _]. done.
  - unfold opened_machine. by rewrite Hrun.
Qed.

(** Reading 20 bytes delivers the eight there are. *)
Lemma file_calls_refine_witness :
  let c := Read 0x200 4 5 (At 0) in
  table_rep opened_machine opened_table /\ call_ok c opened_machine /\
  exists s', run_call c opened_machine = Done (RInt 8) s' /\
    fmem s' = write_bytes (fmem opened_machine) 0x200 [1; 2; 3; 4; 5; 6; 7; 8].
Proof.
  assert (call_ok (Read 0x200 4 5 (At 0)) opened_machine) as Hok.
  { intros d Hd _. vm_compute in Hd. injection Hd as <-. split_and!; [done|done|split].
    - intros i Hi. cbn in Hi. assert (i ∈ seqZ 0x200 8) as Hin by (apply elem_of_seqZ; lia).
      assert (Forall (fun i => is_Some (fmem opened_machine !! i)) (seqZ 0x200 8)) as Hall
        by (vm_compute; repeat constructor; eauto).
      rewrite Forall_forall in Hall. by apply Hall.
    - intros i c Hc Hi. cbn in Hi. assert (Forall (fun c => is_open c = 0 \/ buf c + buf_maxsize c = 0x108) (desc opened_machine)) as Hall
        by (vm_compute; repeat constructor; auto).
      rewrite Forall_forall in Hall. intros [Ho Hb]. destruct (Hall c Hc) as [E|E]; [done|lia]. }
  split_and!; [exact opened_machine_rep|exact Hok|].
  destruct (file_calls_refine (Read 0x200 4 5 (At 0)) opened_machine opened_table opened_machine_rep Hok) as (s' & Hrun & _ & Heff).
  by exists s'.
Defined.

(** A file of its own: five bytes written in two parts, read back after a
    rewind; the sixth does not fit. *)
Definition own_file : prog fstate _ :=
  fp ← fmemopen_mem 0 5 "w+";
  _ ← fwrite_mem 0x100 1 3 fp;
  n ← fwrite_mem 0x103 3 1 fp;
  _ ← frewind_mem fp;
  k ← fread_mem 0x200 1 16 fp;
  c ← fgetc_mem fp;
  m ← gets fmem;
  z ← fclose_mem fp;
  y ← fgetc_mem fp;
  mret ([n; k; c; z; y], read_bytes m 0x200 6).

Example own_file_runs :
  match own_file machine with Done r _ => r | _ => ([], None) end = ([2; 5; -1; 0; 0], Some [1; 2; 3; 4; 5; 0]).
Proof. vm_compute. reflexivity. Qed.
End SimFiles.
